(* ===== verification/_CoqProject ===== *)
-Q . S2P
Prelude.v
Stats.v
Sys.v
Only.v
Kernel.v
Platforms.v
NetUtils.v
Config.v
Engine.v
Zcrx.v
Client.v
ClientProofs.v
ZcrxProofs.v
ClientRun.v
ZcrxServer.v
Server.v
ServerSessions.v
ServerProofs.v
ServerRun.v
Reporter.v
Main.v
Accounting.v
Pipeline.v
Samples.v
PropsClient.v
PropsPipeline.v
PropsServer.v
PropsZcrx.v
PropsNet.v
PropsConfig.v
PropsEngine.v
PropsStats.v
PropsMain.v
PropsFindings.v
