(* ===== verification/Prelude.v ===== *)
(** * uring_perf: a verification development

    uring_perf is a network traffic generator on io_uring.  [main] reads the
    command line, starts one worker per thread (or per forked process) and a
    reporter, waits for the end of the test and prints a summary.  A client worker
    connects, sends a five-byte handshake and then sends as fast as it can, or
    receives in reverse mode; a server worker accepts connections, reads the
    handshake and receives, or sends to reverse clients.  With zero-copy receive a
    worker owns a NIC queue and hands its buffers back through a refill queue.
    Workers share nothing but an array of counters and the stop flag.

    ** How the program is modelled

    The sources are translated into a state monad [M] ([Sys.v]).  Everything they
    call but do not define -- system calls, libc, liburing, the clock, flags that
    other threads write -- is a constructor of [Sys.call]; a [Sys.Platform] answers
    each call from the history of all earlier calls.  A theorem about every platform
    is therefore about every behaviour of kernel, peers, clock and other threads.
    The world holds that history, the heap of contexts that [user_data] points at,
    and the counters.  An outcome is a result, [std::exit], an exception, a fault
    (use after free, NULL dereference) or exhausted fuel.  [Sys.wp] is the program
    logic: its mode [total] says that the computation returns, [partial] that it
    does not fault and is right if it returns; [unless B] and [safe_unless B] are
    those two up to runs in whose history [B] holds, for the behaviours that the
    sources do not handle.  Integers are [Z] with the wrap-around of their C++ type
    written out ([u16], [u32], [u64], [i32] below).  An [add_*] call that would write
    outside of the counters is remembered in [Stats.wild_write].

    What the program relies on is stated as classes of laws over the platform, in
    [Kernel.v] and next to their first use: the completion contract of io_uring
    ([KernelLaws]), provided buffers being handed out once they are published
    ([BufferLaws]) and only to requests that select them ([SelectLaws]), mappings
    ([MapLaws]), the size of the queues ([SubmissionLaws], [BatchLaws]), the stop flag
    being set at some time ([StopLaws]), a plain ring of the configured depth being
    available ([RingSetup], documented for up to 32768 entries), sends and receives of
    the handshake being told to try again a bounded number of times ([SendProgress],
    [RecvProgress]), the clock ([ClockLaws]).  [Samples.v] has a platform on which all
    of them hold, on which the witnesses run.

    The ring as the program can observe it is computed from the history
    ([Kernel.ghost_of]): requests that are owed a completion, completions reaped and
    not consumed, completions consumed with the operation they answer, open
    descriptors, and the provided buffers, where an entry that [io_uring_buf_ring_add]
    writes is only staged until [io_uring_buf_ring_advance] publishes it.

    ** Files

    - [Prelude]: machine integers, bit operations, counting loops.
    - [Stats]: [ThreadStats], [StatsCollector] and its writers
      (src/stats.cpp, include/stats.hpp); [Reporter]: reporter thread and summary.
    - [Sys], [Only]: calls, platform, monad, program logic, and which calls a
      computation can make.
    - [Kernel]: the ring, descriptors, allocations and mappings as functions of the
      history, and the laws; [Platforms], [Samples]: concrete platforms.
    - [NetUtils]: src/net_utils.cpp; [Config]: include/config.hpp;
      [Engine]: src/uring_engine.cpp.
    - [Client], [Server], [Zcrx]: src/worker.cpp.  Client: [run_client],
      [run_client_reverse_recv]; Server: [ClientSession], [run_server]; Zcrx: the
      namespace helpers, [run_server_zcrx], [run_client_reverse_recv_zcrx].
    - [Main]: src/main.cpp and [Worker::start]/[join].
    - [ClientProofs], [ClientRun], [Pipeline], [ServerSessions], [ServerProofs],
      [ServerRun], [ZcrxProofs], [ZcrxServer], [Accounting]: invariants and
      specifications.
    - [PropsClient], [PropsPipeline], [PropsServer], [PropsZcrx], [PropsNet],
      [PropsConfig], [PropsEngine], [PropsStats], [PropsMain], [PropsFindings]: the
      theorems, each with a witness on a concrete platform.

    ** What the theorems show

    - Workers: the client in all its modes, the TCP server with multishot receives for
      any mixture of sending and receiving peers, and the zero-copy server return once
      told to stop, match no completion with freed memory, count exactly the
      completions they consume and release every descriptor, buffer and mapping once;
      without any assumption on the stop flag they are safe at every point of every
      run.  What the sources do not handle is named in the statements as a property of
      the calls made: the sweep of deadlines closing a connection with sends in flight
      ([ServerProofs.swept]), the fallback to single-shot receives
      ([ServerRun.fell_back]), a completion queue seen completely full by the zero-copy
      server ([ZcrxServer.crowded]).  Counters are given in closed form; provided
      buffers are conserved; the forward client keeps its pipeline full.
    - Zero-copy receive: the refill queue refines a bounded FIFO across wrap-around;
      setup maps both regions or none; tags and alignment.
    - Sockets: no error path leaks a descriptor; the handshake arrives for any
      segmentation; full-buffer transfers are exact and end.
    - Engine: [next_pow2], flags and fallback of the constructor, layout of the
      provided buffers, submission entries.
    - Command line: accepted configurations are in range, exactly the forbidden
      combinations are rejected, decimal round trips.
    - Counters and reports: writes inside of the array, independence of interleaving,
      exact totals, rows that add up to what was read, idempotent stop.
    - Life cycle: order of starts, joins and the summary; children; duration.
    - Two defects of the server's session clean-up, as runs that fault
      ([PropsFindings]).

    ** Fuel

    Loops without a bound of their own take fuel.  It is enough when it exceeds: for
    the workers' loops the number of calls after which the stop flag is set (each
    turn makes a call); for the transfers the bytes plus the number of times the kernel
    says to try again (a turn moves a byte or is such a time); for the client's wait ten
    times the seconds (each turn sleeps 100 ms).  The theorems that a loop ends assume
    just that; the theorems on safety hold for any fuel.

    ** Not modelled

    Buffer contents (the program never looks at them), message text, floating-point
    rates, the banner and usage texts, installation of signal handlers, the
    tokenising done by [getopt_long], memory ordering of relaxed atomics (updates are
    atomic), the benchmark scripts and build files.  A worker's thread and the
    processes are external to [main]; each side is modelled on its own.

    ** Plan

    Modelled but not proved correct yet: the UDP server, the single-shot server up to
    the end of a connection, the pipeline with zero-copy sends. *)

From stdpp Require Export base gmap list strings.
From Stdlib Require Export ZArith Lia.

#[global] Open Scope Z_scope.
Set Default Goal Selector "!".

(** * Machine integers

    A C++ integer is a [Z] kept in range by the conversion of its type. *)

Definition u8 (z : Z) : Z := z mod 2 ^ 8.
Definition u16 (z : Z) : Z := z mod 2 ^ 16.
Definition u32 (z : Z) : Z := z mod 2 ^ 32.
Definition u64 (z : Z) : Z := z mod 2 ^ 64.
Definition i32 (z : Z) : Z := (z + 2 ^ 31) mod 2 ^ 32 - 2 ^ 31.

Lemma u8_range z : 0 <= u8 z < 2 ^ 8.
Proof. by apply Z.mod_pos_bound. Qed.
Lemma u16_range z : 0 <= u16 z < 2 ^ 16.
Proof. by apply Z.mod_pos_bound. Qed.
Lemma u32_range z : 0 <= u32 z < 2 ^ 32.
Proof. by apply Z.mod_pos_bound. Qed.
Lemma u64_range z : 0 <= u64 z < 2 ^ 64.
Proof. by apply Z.mod_pos_bound. Qed.
Lemma i32_range z : - 2 ^ 31 <= i32 z < 2 ^ 31.
Proof. unfold i32. pose proof (Z.mod_pos_bound (z + 2 ^ 31) (2 ^ 32)). lia. Qed.

Lemma u8_small z : 0 <= z < 2 ^ 8 -> u8 z = z.
Proof. apply Z.mod_small. Qed.
Lemma u16_small z : 0 <= z < 2 ^ 16 -> u16 z = z.
Proof. apply Z.mod_small. Qed.
Lemma u32_small z : 0 <= z < 2 ^ 32 -> u32 z = z.
Proof. apply Z.mod_small. Qed.
Lemma u64_small z : 0 <= z < 2 ^ 64 -> u64 z = z.
Proof. apply Z.mod_small. Qed.
Lemma i32_small z : - 2 ^ 31 <= z < 2 ^ 31 -> i32 z = z.
Proof. intros. unfold i32. rewrite Z.mod_small; lia. Qed.

Lemma u64_add_l a b : u64 (u64 a + b) = u64 (a + b).
Proof. apply Zplus_mod_idemp_l. Qed.
Lemma u64_add_r a b : u64 (a + u64 b) = u64 (a + b).
Proof. apply Zplus_mod_idemp_r. Qed.
Lemma u64_idem a : u64 (u64 a) = u64 a.
Proof. apply Zmod_mod. Qed.

Create HintDb machine.
Create Rewrite HintDb machine.
#[export] Hint Resolve u8_range u16_range u32_range u64_range i32_range : machine.
#[export] Hint Rewrite u64_add_l u64_add_r u64_idem : machine.

(** * Bit operations *)

(** [lor] of a shifted word and a small one is their sum. *)
Lemma lor_shiftl_add a b n :
  0 <= n -> 0 <= b < 2 ^ n -> Z.lor (Z.shiftl a n) b = a * 2 ^ n + b.
Proof.
  intros Hn Hb. rewrite <- Z.shiftl_mul_pow2 by lia. rewrite <- Z.add_lor_land.
  replace (Z.land (Z.shiftl a n) b) with 0; [lia|].
  symmetry. apply Z.bits_inj'. intros i Hi. rewrite Z.land_spec, Z.bits_0.
  destruct (Z.lt_ge_cases i n).
  - by rewrite Z.shiftl_spec_low.
  - rewrite <- (Z.mod_small b (2 ^ n)), Z.mod_pow2_bits_high, andb_false_r by lia.
    done.
Qed.

Lemma land_ones_mod a n : 0 <= n -> Z.land a (2 ^ n - 1) = a mod 2 ^ n.
Proof. intros. rewrite <- Z.land_ones by lia. f_equal. rewrite Z.ones_equiv. lia. Qed.

(** * Zipper of a [Z]-indexed counting loop: [for (i = 0; i < n; ++i)] *)

Definition zseq (n : Z) : list Z := Z.of_nat <$> seq 0 (Z.to_nat n).

Lemma length_zseq n : 0 <= n -> Z.of_nat (length (zseq n)) = n.
Proof. intros. unfold zseq. rewrite length_fmap, length_seq. lia. Qed.

Lemma elem_of_zseq n i : i ∈ zseq n <-> 0 <= i < n.
Proof.
  unfold zseq. rewrite list_elem_of_fmap. split.
  - intros (k & -> & Hk%elem_of_seq). lia.
  - intros. exists (Z.to_nat i). rewrite elem_of_seq. lia.
Qed.

Lemma fmap_rev {A B} (f : A -> B) (l : list A) : f <$> rev l = rev (f <$> l).
Proof. induction l as [|x l IH]; cbn; [done|]. by rewrite fmap_app, IH. Qed.

Lemma elem_of_rev {A} (x : A) l : x ∈ rev l <-> x ∈ l.
Proof. by rewrite !list_elem_of_In, <- in_rev. Qed.

Lemma NoDup_zseq n : NoDup (zseq n).
Proof. apply (NoDup_fmap_2 Z.of_nat), NoDup_seq. Qed.

(** * Lists *)

Lemma prefix_same_length {A} (l1 l2 l : list A) :
  l1 `prefix_of` l -> l2 `prefix_of` l -> length l1 = length l2 -> l1 = l2.
Proof.
  intros [k1 H1] [k2 H2] Hlen. rewrite H1 in H2.
  by destruct (app_inj_1 l1 l2 k1 k2 Hlen H2).
Qed.

(** * Case analysis and closing tactics *)

(** Split the innermost scrutinee of the goal's [match]es, remembering it. *)
Ltac case_scrut :=
  match goal with
  | |- context [match ?x with _ => _ end] =>
      lazymatch x with
      | context [match _ with _ => _ end] => fail
      | _ => let E := fresh "E" in destruct x eqn:E
      end
  end.
