(* ===== verification/Stats.v ===== *)
(** Traffic counters: [include/stats.hpp] and the counter half of
    [src/stats.cpp].

    [ThreadStats] is one worker's slot of four 64-bit counters and
    [StatsCollector] the shared array of them.  The three [add_*] methods are
    the only writers; [totals] is the summing loop the reporter and the final
    summary share.  The periodic reporter itself is in [Reporter.v]. *)

From S2P Require Import Prelude.

Record ThreadStats := mkThreadStats {
  bytes_transferred : Z;
  packets_count : Z;
  zc_notifications : Z;
  errors : Z
}.

#[export] Instance ThreadStats_eq_dec : EqDecision ThreadStats.
Proof. solve_decision. Defined.

Definition ThreadStats_init : ThreadStats := mkThreadStats 0 0 0 0.

(** [shared_stats_] is [None] when the pointer is null.  [wild_write] is not a
    member of the class: it remembers that some write went through a null pointer
    or outside of the array, which in C++ is undefined behaviour. *)
Record StatsCollector := mkStatsCollector {
  num_threads_ : Z;
  interval_sec_ : Z;
  shared_stats_ : option (list ThreadStats);
  wild_write : bool
}.

(** The constructor after a successful [mmap]: placement-new of the array. *)
Definition StatsCollector_new (num_threads interval_sec : Z) : StatsCollector :=
  mkStatsCollector num_threads interval_sec
    (Some (replicate (Z.to_nat num_threads) ThreadStats_init)) false.

(** ** The writers *)

Definition fetch_add_bytes (bytes : Z) (t : ThreadStats) : ThreadStats :=
  mkThreadStats (u64 (bytes_transferred t + bytes)) (packets_count t)
                (zc_notifications t) (errors t).
Definition fetch_add_packets (packets : Z) (t : ThreadStats) : ThreadStats :=
  mkThreadStats (bytes_transferred t) (u64 (packets_count t + packets))
                (zc_notifications t) (errors t).
Definition fetch_add_zc (n : Z) (t : ThreadStats) : ThreadStats :=
  mkThreadStats (bytes_transferred t) (packets_count t)
                (u64 (zc_notifications t + n)) (errors t).
Definition fetch_add_errors (n : Z) (t : ThreadStats) : ThreadStats :=
  mkThreadStats (bytes_transferred t) (packets_count t)
                (zc_notifications t) (u64 (errors t + n)).

(** Index [i] is one of the array. *)
Definition in_array (i : Z) (slots : list ThreadStats) : bool :=
  (0 <=? i) && (i <? Z.of_nat (length slots)).

(** An update of [shared_stats_[i]]. *)
Definition write_slot (i : Z) (f : ThreadStats -> ThreadStats) (s : StatsCollector)
    : StatsCollector :=
  match shared_stats_ s with
  | Some slots =>
      if in_array i slots
      then mkStatsCollector (num_threads_ s) (interval_sec_ s)
             (Some (alter f (Z.to_nat i) slots)) (wild_write s)
      else mkStatsCollector (num_threads_ s) (interval_sec_ s) (Some slots) true
  | None => mkStatsCollector (num_threads_ s) (interval_sec_ s) None true
  end.

(** [if (thread_id < num_threads_ && shared_stats_)] around an update of the
    slot [shared_stats_[thread_id]]. *)
Definition with_slot (thread_id : Z) (f : ThreadStats -> ThreadStats)
    (s : StatsCollector) : StatsCollector :=
  if (thread_id <? num_threads_ s) && bool_decide (is_Some (shared_stats_ s))
  then write_slot thread_id f s
  else s.

Definition add_bytes (thread_id bytes packets : Z) (s : StatsCollector) : StatsCollector :=
  with_slot thread_id (fetch_add_packets packets ∘ fetch_add_bytes bytes) s.

Definition add_zc_notification (thread_id : Z) (s : StatsCollector) : StatsCollector :=
  with_slot thread_id (fetch_add_zc 1) s.

Definition add_error (thread_id : Z) (s : StatsCollector) : StatsCollector :=
  with_slot thread_id (fetch_add_errors 1) s.

(** ** The readers *)

(** [total_x += shared_stats_[i].x.load()] for [i] in [0 .. num_threads_ - 1],
    in 64-bit arithmetic. *)
Definition sum_u64 (f : ThreadStats -> Z) (slots : list ThreadStats) : Z :=
  fold_left (fun acc t => u64 (acc + f t)) slots 0.

Record Totals := mkTotals {
  total_bytes : Z; total_packets : Z; total_zc : Z; total_errors : Z
}.

Definition totals_of (slots : list ThreadStats) : Totals :=
  mkTotals (sum_u64 bytes_transferred slots) (sum_u64 packets_count slots)
           (sum_u64 zc_notifications slots) (sum_u64 errors slots).

Definition totals (s : StatsCollector) : Totals :=
  totals_of (default [] (shared_stats_ s)).

(** ** Facts *)

(** The array has one slot per thread, every counter fits in 64 bits, and nothing
    was written elsewhere. *)
Definition slot_ok (t : ThreadStats) : Prop :=
  0 <= bytes_transferred t < 2 ^ 64 /\ 0 <= packets_count t < 2 ^ 64 /\
  0 <= zc_notifications t < 2 ^ 64 /\ 0 <= errors t < 2 ^ 64.

Definition collector_ok (s : StatsCollector) : Prop :=
  exists slots, shared_stats_ s = Some slots /\
    Z.of_nat (length slots) = num_threads_ s /\ Forall slot_ok slots /\ wild_write s = false.

Lemma StatsCollector_new_ok n i : 0 <= n -> collector_ok (StatsCollector_new n i).
Proof.
  intros Hn. eexists. split; [done|]. cbn. rewrite length_replicate. split; [lia|].
  split; [|done]. apply Forall_replicate. repeat split; cbn; lia.
Qed.

(** The guard of the [add_*] methods keeps the write inside of the array. *)
Lemma with_slot_in tid f s slots :
  shared_stats_ s = Some slots -> Z.of_nat (length slots) = num_threads_ s ->
  0 <= tid < num_threads_ s ->
  with_slot tid f s = mkStatsCollector (num_threads_ s) (interval_sec_ s)
    (Some (alter f (Z.to_nat tid) slots)) (wild_write s).
Proof.
  intros Hs Hlen Ht. unfold with_slot, write_slot, in_array. rewrite Hs, Hlen.
  by rewrite (proj2 (Z.ltb_lt _ _)), (proj2 (Z.leb_le _ _)) by lia.
Qed.

Lemma with_slot_out tid f s : num_threads_ s <= tid -> with_slot tid f s = s.
Proof. intros Ht. unfold with_slot. by rewrite (proj2 (Z.ltb_ge _ _) Ht). Qed.

Lemma with_slot_ok tid f s :
  (forall t, slot_ok t -> slot_ok (f t)) -> 0 <= tid -> collector_ok s ->
  collector_ok (with_slot tid f s).
Proof.
  intros Hf Htid Hok. pose proof Hok as (slots & Hs & Hlen & Hall & Hw).
  destruct (Z.lt_ge_cases tid (num_threads_ s)); [|by rewrite with_slot_out].
  rewrite (with_slot_in _ _ _ slots) by done.
  eexists. split; [done|]. cbn. rewrite length_alter. split_and!; [done| |done].
  apply Forall_alter; [done|]. naive_solver.
Qed.

Lemma fetch_add_ok n t :
  slot_ok t -> slot_ok (fetch_add_bytes n t) /\ slot_ok (fetch_add_packets n t) /\
               slot_ok (fetch_add_zc n t) /\ slot_ok (fetch_add_errors n t).
Proof. intros (?&?&?&?). repeat split; cbn; auto with machine; try apply u64_range; lia. Qed.

(** Updates of different slots commute, and so do updates of one slot whose
    functions commute: the counters do not depend on how workers interleave. *)
Lemma with_slot_comm i j f g s :
  0 <= i -> 0 <= j -> (forall t, f (g t) = g (f t)) ->
  with_slot i f (with_slot j g s) = with_slot j g (with_slot i f s).
Proof.
  intros Hi Hj Hfg. unfold with_slot, write_slot, in_array.
  destruct (shared_stats_ s) as [slots|] eqn:Hs.
  2: { repeat rewrite bool_decide_eq_false_2, andb_false_r; by rewrite ?Hs; try intros [? [=]]. }
  destruct (i <? num_threads_ s) eqn:Ei, (j <? num_threads_ s) eqn:Ej; cbn; rewrite ?Ei, ?Ej, ?Hs;
    cbn; try done;
  destruct ((0 <=? i) && (i <? Z.of_nat (length slots))) eqn:Ei',
    ((0 <=? j) && (j <? Z.of_nat (length slots))) eqn:Ej'; cbn;
    rewrite ?Ei, ?Ej, ?length_alter, ?Ei', ?Ej', ?Hs; cbn; rewrite ?Ei', ?Ej'; try done.
  do 2 f_equal. destruct (decide (i = j)) as [->|Hne].
  - rewrite !list_alter_alter_eq. apply list_alter_ext; naive_solver.
  - apply list_alter_alter_ne. lia.
Qed.

(** ** Interleaving of the workers *)

(** One call of an [add_*] method. *)
Inductive stat_op :=
  | AddBytes (thread_id bytes packets : Z)
  | AddZc (thread_id : Z)
  | AddError (thread_id : Z).

Definition apply_op (s : StatsCollector) (o : stat_op) : StatsCollector :=
  match o with
  | AddBytes tid bytes packets => add_bytes tid bytes packets s
  | AddZc tid => add_zc_notification tid s
  | AddError tid => add_error tid s
  end.

Definition op_thread (o : stat_op) : Z :=
  match o with AddBytes tid _ _ | AddZc tid | AddError tid => tid end.

(** What an operation does to the slot of its thread. *)
Definition op_effect (o : stat_op) : ThreadStats -> ThreadStats :=
  match o with
  | AddBytes _ bytes packets => fetch_add_packets packets ∘ fetch_add_bytes bytes
  | AddZc _ => fetch_add_zc 1
  | AddError _ => fetch_add_errors 1
  end.

Lemma apply_op_slot s o : apply_op s o = with_slot (op_thread o) (op_effect o) s.
Proof. by destruct o. Qed.

Lemma u64_add_comm x a b : u64 (u64 (x + a) + b) = u64 (u64 (x + b) + a).
Proof. unfold u64. rewrite !Zplus_mod_idemp_l. f_equal. lia. Qed.

Lemma op_effect_comm o o' t : op_effect o (op_effect o' t) = op_effect o' (op_effect o t).
Proof.
  destruct o, o'; unfold op_effect, compose, fetch_add_packets, fetch_add_bytes, fetch_add_zc,
    fetch_add_errors; cbn; f_equal; done || apply u64_add_comm.
Qed.

Lemma apply_op_comm s o o' :
  0 <= op_thread o -> 0 <= op_thread o' ->
  apply_op (apply_op s o) o' = apply_op (apply_op s o') o.
Proof. intros. rewrite !apply_op_slot. apply with_slot_comm; [done..|]. apply op_effect_comm. Qed.

Lemma apply_ops_perm ops ops' s :
  Forall (fun o => 0 <= op_thread o) ops -> ops ≡ₚ ops' ->
  foldl apply_op s ops = foldl apply_op s ops'.
Proof.
  intros Hall Hp. revert s Hall. induction Hp as [|o l l' Hp IH|o o' l|l1 l2 l3 H1 IH1 H2 IH2];
    intros s Hall; cbn.
  - done.
  - apply IH. by inversion Hall.
  - inversion Hall as [|? ? Ho Hall']; subst. inversion Hall'; subst. by rewrite apply_op_comm.
  - rewrite IH1 by done. apply IH2. by rewrite <- H1.
Qed.

Lemma apply_op_ok s o : 0 <= op_thread o -> collector_ok s -> collector_ok (apply_op s o).
Proof.
  intros Ho Hs. rewrite apply_op_slot. apply with_slot_ok; [|done..]. intros t Ht.
  destruct o; cbn.
  - apply (fetch_add_ok packets), (fetch_add_ok bytes). done.
  - by apply (fetch_add_ok 1).
  - by apply (fetch_add_ok 1).
Qed.

(** ** What the operations add up to *)

(** The bytes that [ops] account to thread [tid]. *)
Definition op_bytes (tid : Z) (o : stat_op) : Z :=
  match o with AddBytes t bytes _ => if t =? tid then bytes else 0 | _ => 0 end.
Definition sum_list (l : list Z) : Z := foldr Z.add 0 l.

Definition slot_of (tid : Z) (s : StatsCollector) : option ThreadStats :=
  slots ← shared_stats_ s; slots !! Z.to_nat tid.

Lemma slot_of_with_slot tid i f s :
  0 <= tid < num_threads_ s -> 0 <= i ->
  slot_of tid (with_slot i f s) =
    if i =? tid then f <$> slot_of tid s else slot_of tid s.
Proof.
  intros Htid Hi. unfold slot_of, with_slot, write_slot, in_array.
  destruct (shared_stats_ s) as [slots|] eqn:Hs; cbn.
  - rewrite andb_true_r. destruct (Z.ltb_spec i (num_threads_ s)) as [Hlt|Hge]; cbn; rewrite ?Hs.
    + rewrite (proj2 (Z.leb_le 0 i) Hi). cbn.
      destruct (Z.ltb_spec i (Z.of_nat (length slots))); cbn.
      * destruct (Z.eqb_spec i tid) as [->|Hne]; cbn; [apply list_lookup_alter_eq|].
        apply list_lookup_alter_ne. lia.
      * destruct (Z.eqb_spec i tid) as [->|]; [|done].
        by rewrite lookup_ge_None_2 by lia.
    + destruct (Z.eqb_spec i tid); [lia|done].
  - rewrite andb_false_r, Hs. by destruct (i =? tid).
Qed.

Lemma num_threads_apply_op s o : num_threads_ (apply_op s o) = num_threads_ s.
Proof.
  rewrite apply_op_slot. unfold with_slot, write_slot. repeat case_match; done.
Qed.

Lemma apply_ops_bytes tid ops s t :
  0 <= tid < num_threads_ s -> Forall (fun o => 0 <= op_thread o) ops ->
  slot_of tid s = Some t -> 0 <= bytes_transferred t < 2 ^ 64 ->
  exists t', slot_of tid (foldl apply_op s ops) = Some t' /\
    bytes_transferred t' = u64 (bytes_transferred t + sum_list (op_bytes tid <$> ops)).
Proof.
  intros Htid Hall. revert s t Htid. induction Hall as [|o ops Ho Hall IH]; intros s t Htid Hs Hr.
  - exists t. split; [done|]. cbn. by rewrite Z.add_0_r, u64_small.
  - cbn [foldl fmap list_fmap sum_list foldr].
    assert (Hs' : slot_of tid (apply_op s o) =
      Some (if op_thread o =? tid then op_effect o t else t)).
    { rewrite apply_op_slot, slot_of_with_slot, Hs by done. by destruct (op_thread o =? tid). }
    assert (Hb : bytes_transferred (if op_thread o =? tid then op_effect o t else t) =
      u64 (bytes_transferred t + op_bytes tid o)).
    { unfold op_bytes. destruct o; cbn; destruct (thread_id =? tid); cbn;
        rewrite ?Z.add_0_r, ?u64_small by done; done. }
    destruct (IH (apply_op s o) _ ltac:(by rewrite num_threads_apply_op) Hs') as (t' & Ht' & Hbt).
    { rewrite Hb. apply u64_range. }
    exists t'. split; [done|]. rewrite Hbt, Hb. unfold u64, sum_list.
    rewrite Zplus_mod_idemp_l. f_equal. lia.
Qed.

(** The grand total is the sum over the slots, in 64-bit arithmetic. *)
Lemma sum_u64_sum f slots : sum_u64 f slots = u64 (sum_list (f <$> slots)).
Proof.
  unfold sum_u64. enough (forall acc, fold_left (fun acc t => u64 (acc + f t)) slots (u64 acc) =
    u64 (acc + sum_list (f <$> slots))) as H by (exact (H 0)).
  induction slots as [|t slots IH]; intros acc; cbn; [by rewrite Z.add_0_r|].
  replace (u64 (u64 acc + f t)) with (u64 (acc + f t)).
  - rewrite IH. f_equal. unfold sum_list. lia.
  - unfold u64. by rewrite Zplus_mod_idemp_l.
Qed.
