(* ===== verification/Sys.v ===== *)
(** The boundary of the program: external calls, the platform and the monad.

    Everything the sources call but do not define -- system calls, libc,
    liburing, the clock and the flags other threads write -- is a constructor of
    [call].  A [Platform] answers each call from the whole history of earlier
    calls and answers, so a theorem that quantifies over platforms quantifies
    over every behaviour of kernel, peers and clock.  The program is written in
    the state monad [M] over a [World] (call history, heap of I/O contexts,
    counters), whose outcomes keep [std::exit], exceptions, faults (undefined
    behaviour) and exhausted fuel apart. *)

From S2P Require Import Prelude Stats.

(** * Constants of the Linux and liburing headers *)

Definition EINTR := 4.
Definition EAGAIN := 11.
Definition ENOMEM := 12.
Definition ENOSPC := 28.
Definition ETIME := 62.
Definition ENOBUFS := 105.
Definition EWOULDBLOCK := EAGAIN.

Definition IORING_CQE_F_BUFFER := 1.
Definition IORING_CQE_F_MORE := 2.
Definition IORING_CQE_F_NOTIF := 8.
Definition IORING_CQE_BUFFER_SHIFT := 16.
Definition IOSQE_FIXED_FILE := 1.
Definition IOSQE_BUFFER_SELECT := 32.
Definition IORING_RECV_MULTISHOT := 2.
Definition IORING_SETUP_SQPOLL := 2.
Definition IORING_SETUP_CQSIZE := 8.
Definition IORING_SETUP_SUBMIT_ALL := 128.
Definition IORING_SETUP_COOP_TASKRUN := 256.
Definition IORING_SETUP_CQE32 := 2048.
Definition IORING_SETUP_SINGLE_ISSUER := 4096.
Definition IORING_SETUP_DEFER_TASKRUN := 8192.

(** * Ring entries *)

(** Which [io_uring_prep_*] helper filled the entry. *)
Inductive opcode :=
  | OP_ACCEPT | OP_SEND | OP_SEND_ZC | OP_SEND_ZC_FIXED
  | OP_RECV | OP_RECV_MULTISHOT | OP_RECV_ZC.

#[export] Instance opcode_eq_dec : EqDecision opcode.
Proof. solve_decision. Defined.

Record sqe := mkSqe {
  sq_op : opcode;
  sq_fd : Z;
  sq_addr : Z;
  sq_len : Z;
  sq_off : Z;          (** offset, or the second address ([addr2]) *)
  sq_flags : Z;
  sq_buf_index : Z;
  sq_buf_group : Z;
  sq_ioprio : Z;
  sq_zcrx_ifq_idx : Z;
  sq_user_data : Z
}.

(** A completion; [cq_off] is the [off] word of the [io_uring_zcrx_cqe] that
    follows it in a CQE32 ring. *)
Record cqe := mkCqe {
  cq_user_data : Z;
  cq_res : Z;
  cq_flags : Z;
  cq_off : Z
}.

#[export] Instance sqe_eq_dec : EqDecision sqe.
Proof. solve_decision. Defined.
#[export] Instance cqe_eq_dec : EqDecision cqe.
Proof. solve_decision. Defined.

(** [flags & mask] as a condition. *)
Definition has_flag (flags mask : Z) : bool := negb (Z.land flags mask =? 0).

(** * Heap objects the completions point at *)

Inductive ctx_kind := ACCEPT | SEND | RECV | TIMER.

#[export] Instance ctx_kind_eq_dec : EqDecision ctx_kind.
Proof. solve_decision. Defined.

(** [struct IOContext] of [uring_engine.hpp]. *)
Record IOContext := mkIOContext {
  ctx_type : ctx_kind;
  ctx_fd : Z;
  ctx_buf_idx : Z;
  ctx_buf_ptr : Z;
  ctx_length : Z;
  ctx_stream_id : Z
}.

(** [struct ZcrxConn] of [worker.cpp]. *)
Record ZcrxConn := mkZcrxConn { conn_fd : Z }.

Inductive object := OCtx (c : IOContext) | OConn (c : ZcrxConn).

(** * External calls *)

Record ifq_reg := mkIfqReg {
  ifq_if_idx : Z; ifq_if_rxq : Z; ifq_rq_entries : Z;
  ifq_area_addr : Z; ifq_area_len : Z;
  ifq_region_addr : Z; ifq_region_size : Z
}.

(** What [io_uring_register_ifq] writes back into its argument. *)
Record ifq_reply := mkIfqReply {
  ifr_ret : Z; ifr_head : Z; ifr_tail : Z; ifr_rqes : Z;
  ifr_rq_entries : Z; ifr_zcrx_id : Z; ifr_area_token : Z
}.

Inductive call :=
  (* clock, flags shared with other threads, threads and processes *)
  | SteadyNow
  | SleepFor (ns : Z)
  | StopLoad
  | StopStore (b : bool)
  | SetAffinity (core : Z)
  | ThreadStart (tid : Z)
  | ThreadJoin (tid : Z)
  | ReporterStart
  | ReporterJoin
  | RunningLoad
  | RunningStore (b : bool)
  | LoadSlot (tid : Z)
  | ReportRow (bytes packets zc : Z)
  | ReportSummary (t : Totals)
  | Fork
  | Waitpid (pid : Z)
  | Getrlimit
  | Setrlimit (cur max : Z)
  (* sockets *)
  | Socket (sock_type : Z)
  | Setsockopt (fd level name value : Z)
  | FcntlGetfl (fd : Z)
  | FcntlSetfl (fd flags : Z)
  | InetPton (host : string)
  | GetHostByName (host : string)
  | Bind (fd s_addr sin_port : Z)
  | Listen (fd backlog : Z)
  | Connect (fd s_addr sin_port : Z)
  | Close (fd : Z)
  | Send (fd : Z) (data : list Z)
  | Recv (fd len : Z)
  | Poll (fd : Z) (for_write : bool) (timeout_ms : Z)
  (* memory *)
  | PosixMemalign (alignment size : Z)
  | Free (ptr : Z)
  | Mmap (len : Z)
  | Munmap (ptr len : Z)
  (* liburing *)
  | QueueInitParams (entries flags sq_thread_idle cq_entries : Z)
  | QueueInit (entries flags : Z)
  | QueueExit
  | RegisterBuffers (iovecs : list (Z * Z))
  | UnregisterBuffers
  | RegisterFiles (fds : list Z)
  | UnregisterFiles
  | SetupBufRing (nentries bgid flags : Z)
  | FreeBufRing (br nentries bgid : Z)
  | BufRingAdd (br addr len bid mask buf_offset : Z)
  | BufRingAdvance (br count : Z)
  | GetSqe
  | PutSqe (s : sqe)
  | Submit
  | SubmitAndWaitTimeout (wait_nr timeout_ns : Z)
  | ForEachCqe
  | CqeSeen
  | CqAdvance (n : Z)
  (* zero-copy receive *)
  | SysconfPagesize
  | IfNametoindex (ifname : string)
  | RegisterIfq (r : ifq_reg)
  | RqLoadHead
  | RqWrite (index off len : Z)
  | RqStoreTail (tail : Z).

(** The answer to a call.  [Send] gives [inl errno] or the number of bytes
    taken, [Recv] gives [inl errno] or the bytes read ([inr []] is the 0 of a
    closed peer), [InetPton] its return value and the address, [PosixMemalign]
    its return value and the pointer, [SetupBufRing] the ring (0 for NULL) and
    [err]; [LoadSlot] the counters of one worker as the reporter loads them,
    [ReportRow] and [ReportSummary] are the integer columns of a printed report;
    [GetSqe] tells whether the pointer is not NULL, and [ForEachCqe] lists
    the completions the iteration visits, oldest first. *)
Definition resp (c : call) : Type :=
  match c with
  | StopLoad | RunningLoad | GetSqe => bool
  | LoadSlot _ => ThreadStats
  | ThreadStart _ | ThreadJoin _ | ReporterStart | ReporterJoin | RunningStore _
  | ReportRow _ _ _ | ReportSummary _ | StopStore _ | SleepFor _ | Free _ | QueueExit | UnregisterBuffers | UnregisterFiles
  | FreeBufRing _ _ _ | BufRingAdd _ _ _ _ _ _ | BufRingAdvance _ _ | PutSqe _
  | CqeSeen | CqAdvance _ | RqWrite _ _ _ | RqStoreTail _ => unit
  | Getrlimit => option (Z * Z)
  | InetPton _ | PosixMemalign _ _ | SetupBufRing _ _ _ => Z * Z
  | GetHostByName _ | Mmap _ => option Z
  | Send _ _ => Z + Z
  | Recv _ _ => Z + list Z
  | ForEachCqe => list cqe
  | RegisterIfq _ => ifq_reply
  | _ => Z
  end%type.

(** One call with its answer; histories are kept newest first. *)
Inductive event := Ev (c : call) (r : resp c).
Abbreviation history := (list event).

(** The platform the program runs on.  [io_uring_buf_ring_mask] is a pure
    inline function of liburing's header; [address_of_local] gives the address
    of a local variable that the program hands to the kernel, whatever its
    alignment. *)
Class Platform := {
  answer : history -> forall c, resp c;
  io_uring_buf_ring_mask : Z -> Z;
  address_of_local : string -> Z
}.

(** * World, outcomes and the monad *)

Record World := mkWorld {
  hist : history;
  heap : gmap Z object;
  next_obj : Z;          (** the allocator has handed out objects 1 .. next_obj - 1 *)
  stats : StatsCollector
}.

Inductive fault := UseAfterFree (p : Z) | NullDeref | OutOfBounds.

Inductive outcome (A : Type) :=
  | Ret (a : A) (w : World)
  | Exit (code : Z) (w : World)
  | Throw (code : Z) (w : World)
  | Fault (f : fault) (w : World)
  | Fuel (w : World).
Arguments Ret {A}. Arguments Exit {A}. Arguments Throw {A}.
Arguments Fault {A}. Arguments Fuel {A}.

Definition M (A : Type) : Type := World -> outcome A.

#[export] Instance M_ret : MRet M := fun A a w => Ret a w.
#[export] Instance M_bind : MBind M := fun A B k m w =>
  match m w with
  | Ret a w' => k a w'
  | Exit c w' => Exit c w'
  | Throw c w' => Throw c w'
  | Fault f w' => Fault f w'
  | Fuel w' => Fuel w'
  end.

Definition fault_now {A} (f : fault) : M A := fun w => Fault f w.
Definition throw {A} (code : Z) : M A := fun w => Throw code w.
Definition exit {A} (code : Z) : M A := fun w => Exit code w.

Definition log (e : event) (w : World) : World :=
  mkWorld (e :: hist w) (heap w) (next_obj w) (stats w).
Definition with_heap (h : gmap Z object) (n : Z) (w : World) : World :=
  mkWorld (hist w) h n (stats w).
Definition with_stats (s : StatsCollector) (w : World) : World :=
  mkWorld (hist w) (heap w) (next_obj w) s.

Section Ops.
Context `{P : Platform}.

Definition do_call (c : call) : M (resp c) := fun w =>
  let r := answer (hist w) c in Ret r (log (Ev c r) w).
End Ops.

(** [stats_.f(...)]: an update of the shared counters. *)
Definition modify_stats (f : StatsCollector -> StatsCollector) : M unit := fun w =>
  Ret tt (with_stats (f (stats w)) w).

(** [std::make_unique<T>]: objects live at multiples of 16, the alignment that
    [operator new] guarantees. *)
Definition ptr_of (n : Z) : Z := 16 * n.
Definition new_object (o : object) : M Z := fun w =>
  let p := ptr_of (next_obj w) in
  Ret p (with_heap (<[p := o]> (heap w)) (next_obj w + 1) w).
(** A local variable that the program takes the address of. *)
Definition new_local `{P : Platform} (x : string) (o : object) : M Z := fun w =>
  let p := address_of_local x in
  Ret p (with_heap (<[p := o]> (heap w)) (next_obj w) w).
(** The end of an object's life. *)
Definition delete_object (p : Z) : M unit := fun w =>
  Ret tt (with_heap (delete p (heap w)) (next_obj w) w).
(** Reading through an [IOContext*] or [ZcrxConn*] that came out of a completion. *)
Definition load_ctx (p : Z) : M IOContext := fun w =>
  match heap w !! p with
  | Some (OCtx c) => Ret c w
  | _ => Fault (UseAfterFree p) w
  end.
Definition load_conn (p : Z) : M ZcrxConn := fun w =>
  match heap w !! p with
  | Some (OConn c) => Ret c w
  | _ => Fault (UseAfterFree p) w
  end.

(** ** Loops *)

(** A [for] loop over the elements of a list, threading the loop's variables. *)
Fixpoint for_each {X S} (l : list X) (body : X -> S -> M S) (s : S) : M S :=
  match l with
  | [] => mret s
  | x :: l => s' ← body x s; for_each l body s'
  end.

(** A [while] loop: [step] does one iteration and says whether to go on ([inl])
    or to leave the loop ([inr]). *)
Fixpoint iter {S R} (fuel : nat) (step : S -> M (S + R)) (s : S) : M R :=
  match fuel with
  | O => fun w => Fuel w
  | S fuel =>
      r ← step s;
      match r with
      | inl s' => iter fuel step s'
      | inr x => mret x
      end
  end.

(** * Program logic

    [wp md m Q w]: running [m] in [w] raises no fault, and if it returns then the
    result satisfies [Q].  The mode says which other ends are ruled out: [total]
    all of them, [halts] running out of fuel, [partial] none.  In the modes
    [unless B] and [safe_unless B], which otherwise are [total] and [partial], an
    end that is ruled out is excused when [B] holds of the history of calls. *)
Inductive mode :=
  | total | halts | partial
  | unless (B : history -> Prop) | safe_unless (B : history -> Prop).

(** Exits and exceptions are allowed. *)
Definition lax (md : mode) : Prop :=
  match md with halts | partial | safe_unless _ => True | total | unless _ => False end.
(** Running out of fuel is allowed. *)
Definition endless (md : mode) : Prop :=
  match md with partial | safe_unless _ => True | total | halts | unless _ => False end.
(** What excuses the ends that are not. *)
Definition excuse (md : mode) (t : history) : Prop :=
  match md with unless B | safe_unless B => B t | total | halts | partial => False end.

Definition wp {A} (md : mode) (m : M A) (Q : A -> World -> Prop) (w : World) : Prop :=
  match m w with
  | Ret a w' => Q a w'
  | Fault _ w' => excuse md (hist w')
  | Exit _ w' | Throw _ w' => lax md \/ excuse md (hist w')
  | Fuel w' => endless md \/ excuse md (hist w')
  end.
Arguments wp : simpl never.

Section Logic.
Context {A B : Type}.
Implicit Types (Q : A -> World -> Prop) (w : World) (b : mode).

Lemma wp_ret b (a : A) Q w : Q a w -> wp b (mret a) Q w.
Proof. done. Qed.

Lemma wp_bind b (m : M A) (k : A -> M B) (R : B -> World -> Prop) w :
  wp b m (fun a => wp b (k a) R) w -> wp b (m ≫= k) R w.
Proof. unfold wp, mbind, M_bind. by destruct (m w). Qed.

Lemma wp_mono b (m : M A) Q Q' w :
  wp b m Q w -> (forall a w', Q a w' -> Q' a w') -> wp b m Q' w.
Proof. unfold wp. intros ? HQ. destruct (m w); auto. Qed.

Lemma wp_total b (m : M A) Q w : wp total m Q w -> wp b m Q w.
Proof. unfold wp. destruct (m w); naive_solver. Qed.

Lemma wp_run b (m : M A) Q w a w' : wp b m Q w -> m w = Ret a w' -> Q a w'.
Proof. unfold wp. intros H Hm. by rewrite Hm in H. Qed.


(** What the modes mean, spelled out. *)
Lemma wp_total_run (m : M A) Q w :
  wp total m Q w -> exists a w', m w = Ret a w' /\ Q a w'.
Proof. unfold wp. destruct (m w); naive_solver. Qed.

Lemma wp_partial_run (m : M A) Q w :
  wp partial m Q w ->
  (forall f w', m w <> Fault f w') /\ (forall a w', m w = Ret a w' -> Q a w').
Proof. unfold wp. destruct (m w); naive_solver. Qed.

Lemma wp_halts_run (m : M A) Q w :
  wp halts m Q w ->
  (exists a w', m w = Ret a w' /\ Q a w') \/
  (exists code w', m w = Exit code w' \/ m w = Throw code w').
Proof. unfold wp. destruct (m w); naive_solver. Qed.

Lemma wp_safe_unless_run (E : history -> Prop) (m : M A) Q w :
  wp (safe_unless E) m Q w ->
  (forall f w', m w = Fault f w' -> E (hist w')) /\ (forall a w', m w = Ret a w' -> Q a w').
Proof. unfold wp. destruct (m w); naive_solver. Qed.

Lemma wp_conj b (m : M A) Q Q' w :
  wp b m Q w -> wp b m Q' w -> wp b m (fun a w' => Q a w' /\ Q' a w') w.
Proof. unfold wp. by destruct (m w). Qed.

Lemma wp_exit b (code : Z) Q w : lax b -> wp b (exit code) Q w.
Proof. by left. Qed.

Lemma wp_throw b (code : Z) Q w : lax b -> wp b (throw code) Q w.
Proof. by left. Qed.
End Logic.

Section OpLogic.
Context `{P : Platform}.

Lemma wp_call b c (Q : resp c -> World -> Prop) w :
  Q (answer (hist w) c) (log (Ev c (answer (hist w) c)) w) -> wp b (do_call c) Q w.
Proof. done. Qed.

Lemma wp_modify_stats b f Q w :
  Q tt (with_stats (f (stats w)) w) -> wp b (modify_stats f) Q w.
Proof. done. Qed.

Lemma wp_new_object b o Q w :
  Q (ptr_of (next_obj w))
    (with_heap (<[ptr_of (next_obj w) := o]> (heap w)) (next_obj w + 1) w) ->
  wp b (new_object o) Q w.
Proof. done. Qed.

Lemma wp_new_local b x o Q w :
  Q (address_of_local x)
    (with_heap (<[address_of_local x := o]> (heap w)) (next_obj w) w) ->
  wp b (new_local x o) Q w.
Proof. done. Qed.

Lemma wp_delete_object b p Q w :
  Q tt (with_heap (delete p (heap w)) (next_obj w) w) -> wp b (delete_object p) Q w.
Proof. done. Qed.

Lemma wp_load_ctx b p c Q w :
  heap w !! p = Some (OCtx c) -> Q c w -> wp b (load_ctx p) Q w.
Proof. unfold wp, load_ctx. by intros ->. Qed.

Lemma wp_load_conn b p c Q w :
  heap w !! p = Some (OConn c) -> Q c w -> wp b (load_conn p) Q w.
Proof. unfold wp, load_conn. by intros ->. Qed.

(** Loop rules: an invariant indexed by what is left to do. *)
Lemma wp_for_each {X S} b (body : X -> S -> M S) (I : list X -> S -> World -> Prop)
    (Q : S -> World -> Prop) l s w :
  (forall x l s w, I (x :: l) s w -> wp b (body x s) (fun s' => I l s') w) ->
  (forall s w, I [] s w -> Q s w) ->
  I l s w -> wp b (for_each l body s) Q w.
Proof.
  intros Hstep Hend. revert s w. induction l as [|x l IH]; intros s w HI.
  - by apply wp_ret, Hend.
  - apply wp_bind. eapply wp_mono; [by apply Hstep|]. cbn. eauto.
Qed.

(** A loop with a measure of its state and world that decreases; without the
    measure, running out of fuel is not ruled out. *)
Lemma wp_iter_measure {S R} b (step : S -> M (S + R)) (I : S -> World -> Prop)
    (mu : S -> World -> nat) (Q : R -> World -> Prop) fuel s w :
  (forall s w, I s w ->
     wp b (step s)
       (fun r w' => match r with
                    | inl s' => I s' w' /\ (endless b \/ (mu s' w' < mu s w)%nat)
                    | inr x => Q x w' end) w) ->
  I s w -> endless b \/ (mu s w < fuel)%nat -> wp b (iter fuel step s) Q w.
Proof.
  intros Hstep. revert s w. induction fuel as [|fuel IH]; intros s w HI Hmu.
  { destruct Hmu as [?|?]; [by left|lia]. }
  apply wp_bind. eapply wp_mono; [by apply Hstep|].
  intros [s'|x] w'; cbn; [|done]. intros [HI' Hlt]. apply IH; [done|].
  destruct Hmu, Hlt; auto. right. lia.
Qed.

Lemma wp_iter {S R} b (step : S -> M (S + R)) (I : S -> World -> Prop)
    (Q : R -> World -> Prop) fuel s w :
  endless b ->
  (forall s w, I s w ->
     wp b (step s) (fun r w' => match r with inl s' => I s' w' | inr x => Q x w' end) w) ->
  I s w -> wp b (iter fuel step s) Q w.
Proof.
  intros Hb Hstep HI. apply (wp_iter_measure _ _ I (fun _ _ => 0%nat)); auto.
  intros s' w' H'. eapply wp_mono; [by apply Hstep|]. intros [?|?] ?; auto.
Qed.

Lemma wp_iter_total {S R} (step : S -> M (S + R)) (I : S -> World -> Prop)
    (mu : S -> World -> nat) (Q : R -> World -> Prop) fuel s w :
  (forall s w, I s w ->
     wp total (step s)
       (fun r w' => match r with
                    | inl s' => I s' w' /\ (mu s' w' < mu s w)%nat
                    | inr x => Q x w' end) w) ->
  I s w -> (mu s w < fuel)%nat -> wp total (iter fuel step s) Q w.
Proof.
  intros Hstep HI Hf. apply (wp_iter_measure _ _ I mu); auto.
  intros s' w' H'. eapply wp_mono; [by apply Hstep|]. intros [?|?] ?; naive_solver.
Qed.
End OpLogic.

(** ** Automation *)

Create HintDb wpdb.
Create Rewrite HintDb wpdb.

(** One step of weakest-precondition reasoning on the head of the program. *)
Ltac wp_step :=
  cbn beta;
  lazymatch goal with
  | |- wp _ (_ ≫= _) _ _ => apply wp_bind
  | |- wp _ (mret _) _ _ => apply wp_ret
  | |- wp ?b (do_call ?c) ?Q ?w => refine (wp_call b c Q w _)
  | |- wp _ (modify_stats _) _ _ => apply wp_modify_stats
  | |- wp _ (new_object _) _ _ => apply wp_new_object
  | |- wp _ (new_local _ _) _ _ => apply wp_new_local
  | |- wp _ (delete_object _) _ _ => apply wp_delete_object
  | |- wp _ (if ?c then _ else _) _ _ => let E := fresh "E" in destruct c eqn:E
  | |- wp _ (match ?c with _ => _ end) _ _ => let E := fresh "E" in destruct c eqn:E
  end.

Ltac wp_steps := repeat wp_step.

(** Step over a call of a function by its specification. *)
Tactic Notation "wp_use" uconstr(spec) "as" simple_intropattern(pat) :=
  cbn beta; eapply wp_mono; [refine spec | cbn beta; intros ? ?; intros pat].
