(* ===== verification/Only.v ===== *)
(** Which external calls a computation can make.

    [only S m] says that every call [m] makes, on every platform answer and
    whatever the outcome, satisfies [S].  It is closed under the constructs of
    the model, so the [only] hint database proves it for a program by walking
    through its text.  Excuses: once the history of a run satisfies what a mode
    [unless B] excuses, whatever follows is excused too. *)

From S2P Require Import Prelude Stats Sys.

Definition ev_call (e : event) : call := match e with Ev c _ => c end.

Definition world_of {A} (o : outcome A) : World :=
  match o with
  | Ret _ w | Exit _ w | Throw _ w | Fault _ w | Fuel w => w
  end.

Definition extends (S : call -> Prop) (w w' : World) : Prop :=
  exists l, hist w' = l ++ hist w /\ Forall (fun e => S (ev_call e)) l.

Definition only {A} (S : call -> Prop) (m : M A) : Prop :=
  forall w, extends S w (world_of (m w)).

Create HintDb only.

Section Only.
Context {P : Platform}.
Implicit Types (S : call -> Prop).

Lemma extends_refl S w : extends S w w.
Proof. exists []. by split. Qed.

Lemma extends_trans S w1 w2 w3 : extends S w1 w2 -> extends S w2 w3 -> extends S w1 w3.
Proof.
  intros (l1 & H1 & ?) (l2 & H2 & ?). exists (l2 ++ l1).
  split; [by rewrite H2, H1, app_assoc|]. by apply Forall_app.
Qed.

Lemma only_ret {A} S (a : A) : only S (mret a).
Proof. intros w. apply extends_refl. Qed.
Lemma only_fault {A} S f : only S (fault_now (A := A) f).
Proof. intros w. apply extends_refl. Qed.
Lemma only_throw {A} S c : only S (throw (A := A) c).
Proof. intros w. apply extends_refl. Qed.
Lemma only_exit {A} S c : only S (exit (A := A) c).
Proof. intros w. apply extends_refl. Qed.
Lemma only_modify_stats S f : only S (modify_stats f).
Proof. intros w. exists []. by split. Qed.
Lemma only_new_object S o : only S (new_object o).
Proof. intros w. exists []. by split. Qed.
Lemma only_new_local S x o : only S (new_local x o).
Proof. intros w. exists []. by split. Qed.
Lemma only_delete_object S p : only S (delete_object p).
Proof. intros w. exists []. by split. Qed.
Lemma only_load_ctx S p : only S (load_ctx p).
Proof.
  intros w. unfold load_ctx. destruct (heap w !! p) as [[]|]; apply extends_refl.
Qed.
Lemma only_load_conn S p : only S (load_conn p).
Proof.
  intros w. unfold load_conn. destruct (heap w !! p) as [[]|]; apply extends_refl.
Qed.

Lemma only_call S c : S c -> only S (do_call c).
Proof. intros Hc w. exists [Ev c (answer (hist w) c)]. split; [done|]. by constructor. Qed.

Lemma only_bind {A B} S (m : M A) (k : A -> M B) :
  only S m -> (forall a, only S (k a)) -> only S (m ≫= k).
Proof.
  intros Hm Hk w. specialize (Hm w). unfold mbind, M_bind.
  destruct (m w) as [a w'|?|?|?|?]; cbn in *; try done.
  eapply extends_trans; [exact Hm|]. apply Hk.
Qed.

Lemma only_for_each {X St} S (l : list X) (body : X -> St -> M St) s :
  (forall x s, only S (body x s)) -> only S (for_each l body s).
Proof.
  intros Hb. revert s. induction l as [|x l IH]; intros s; cbn; [apply only_ret|].
  by apply only_bind.
Qed.

Lemma only_iter {St R} S fuel (step : St -> M (St + R)) s :
  (forall s, only S (step s)) -> only S (iter fuel step s).
Proof.
  intros Hs. revert s. induction fuel as [|fuel IH]; intros s; cbn.
  - intros w. apply extends_refl.
  - apply only_bind; [done|]. intros [s'|x]; [done|apply only_ret].
Qed.

Lemma only_mono {A} S S' (m : M A) : (forall c, S c -> S' c) -> only S m -> only S' m.
Proof.
  intros HS Hm w. destruct (Hm w) as (l & ? & Hl). exists l. split; [done|].
  eapply Forall_impl; [exact Hl|]. cbn. auto.
Qed.

(** A specification may use what calls were made. *)
Lemma wp_only {A} S b (m : M A) (Q : A -> World -> Prop) w :
  only S m -> wp b m Q w -> wp b m (fun a w' => Q a w' /\ extends S w w') w.
Proof.
  intros Hm. specialize (Hm w). unfold wp. destruct (m w); cbn in *; auto.
Qed.

(** ** Excuses *)

(** [B] excuses any end in mode [b], and once it holds it goes on to hold. *)
Definition excused (b : mode) (B : history -> Prop) : Prop :=
  (forall t, B t -> excuse b t) /\ (forall l t, B t -> B (l ++ t)).

(** No call is ruled out: what [only] then says is that the history grows. *)
Definition any (c : call) : Prop := True.

(** Once the excuse holds, nothing more has to be shown. *)
Lemma wp_excused {A} b B (m : M A) (Q : A -> World -> Prop) w :
  excused b B -> only any m -> B (hist w) -> (forall a w', B (hist w') -> Q a w') -> wp b m Q w.
Proof.
  intros [HB Hmono] Hm Hw HQ. destruct (Hm w) as (l & Hl & _).
  assert (H : B (hist (world_of (m w)))) by (rewrite Hl; by apply Hmono).
  unfold wp. destruct (m w); cbn in *; auto.
Qed.

(** A run in mode [unless B] ends as specified, or its history excuses it. *)
Lemma wp_unless_run {A} B (m : M A) (Q : A -> World -> Prop) w :
  wp (unless B) m (fun a w' => B (hist w') \/ Q a w') w ->
  (exists a w', m w = Ret a w' /\ Q a w') \/ B (hist (world_of (m w))).
Proof. unfold wp. destruct (m w); cbn; naive_solver. Qed.

(** A loop whose invariant may give way to the excuse. *)
Lemma wp_iter_excused {St R} b B (step : St -> M (St + R)) (I : St -> World -> Prop)
    (mu : St -> World -> nat) (Q : R -> World -> Prop) fuel s w :
  excused b B -> (forall s, only any (step s)) ->
  (forall s w, I s w ->
     wp b (step s)
       (fun r w' => B (hist w') \/
                    match r with
                    | inl s' => I s' w' /\ (endless b \/ (mu s' w' < mu s w)%nat)
                    | inr x => Q x w' end) w) ->
  I s w -> endless b \/ (mu s w < fuel)%nat ->
  wp b (iter fuel step s) (fun x w' => B (hist w') \/ Q x w') w.
Proof.
  intros HB Hany Hstep. revert s w. induction fuel as [|fuel IH]; intros s w HI Hmu.
  { destruct Hmu as [?|?]; [by left|lia]. }
  apply wp_bind. eapply wp_mono; [by apply Hstep|]. intros r w' [Hx|H].
  - eapply wp_excused; [exact HB| |exact Hx|by left].
    destruct r as [s'|x]; [by apply only_iter|apply only_ret].
  - destruct r as [s'|x]; cbn in *; [|by right]. destruct H as [HI' Hlt]. apply IH; [done|].
    destruct Hmu, Hlt; auto. right. lia.
Qed.
End Only.

#[export] Hint Resolve only_ret only_fault only_throw only_exit only_modify_stats only_new_object
  only_new_local
  only_delete_object only_load_ctx only_load_conn only_for_each only_iter : only.

(** Walk through a program; calls end in goals about the predicate. *)
Ltac only_tac :=
  repeat first
    [ progress intros
    | assumption
    | progress cbn zeta
    | match goal with
      | |- only _ (_ ≫= _) => apply only_bind
      | |- only _ (for_each _ _ _) => apply only_for_each
      | |- only _ (iter _ _ _) => apply only_iter
      | |- only ?S (do_call ?c) => refine (only_call S c _)
      | |- only _ (if ?c then _ else _) => destruct c
      | |- only _ (match ?x with _ => _ end) => destruct x
      | |- only _ _ => solve [eauto with only nocore]
      end ].
