(* ===== verification/Kernel.v ===== *)
(** What the program relies on from the kernel and liburing.

    The state of the ring that matters to the program is computed from the call
    history ([ghost_of]); the documented behaviour of the platform is a class of
    laws about its answers.  The central law, [ring_answers], is the io_uring
    completion contract: a request posts completions that carry its
    [user_data], all but the last of them with [IORING_CQE_F_MORE] set, and none
    after that last one. *)

From S2P Require Import Prelude Stats Sys Only.

(** * The ring as the program can observe it *)

(** An entry written to a provided-buffer ring: buffer id, address and length. *)
Abbreviation entry := (Z * Z * Z)%type.

(** The provided buffers.  [io_uring_buf_ring_add] writes an entry some places
    after the ring's tail; the kernel gets it only when
    [io_uring_buf_ring_advance] moves the tail past it. *)
Record buf_ring := mkBufRing {
  lent : list Z;      (** buffers lent to the kernel: published in the ring, or in a
                          completion that was not consumed yet *)
  staged : list (Z * Z * entry)  (** ring, distance from the tail and entry of the
                          buffers written and not published yet *)
}.

Record ghost := mkGhost {
  owed : list sqe;    (** requests whose final completion was not consumed yet *)
  cq : list cqe;      (** completions seen by the last iteration and not consumed yet *)
  fds : gset Z;       (** descriptors the kernel has given out and the program not closed *)
  bufs : buf_ring;    (** the provided buffers *)
  dealt : list (option opcode * cqe)  (** completions consumed on this ring, oldest
                          first, each with the operation of its request *)
}.

Definition no_bufs : buf_ring := mkBufRing [] [].

(** Write an entry: what was at the same place is overwritten. *)
Definition stage (br off : Z) (x : entry) (l : list (Z * Z * entry)) : list (Z * Z * entry) :=
  (br, off, x) :: List.filter (fun y => negb ((y.1.1 =? br) && (y.1.2 =? off))) l.

(** The entries that advancing the tail of [br] by [n] publishes, and what stays
    staged, now [n] places nearer to the tail. *)
Definition within (br n : Z) (y : Z * Z * entry) : bool :=
  (y.1.1 =? br) && (0 <=? y.1.2) && (y.1.2 <? n).
Definition publish (br n : Z) (l : list (Z * Z * entry)) : list entry :=
  map snd (List.filter (within br n) l).
Definition unpublished (br n : Z) (l : list (Z * Z * entry)) : list (Z * Z * entry) :=
  map (fun y => (y.1.1, if y.1.1 =? br then y.1.2 - n else y.1.2, y.2))
    (List.filter (fun y => negb (within br n y)) l).

Arguments stage : simpl never.
Arguments publish : simpl never.
Arguments unpublished : simpl never.

(** The operation of the request that [c] answers. *)
Definition op_of (l : list sqe) (c : cqe) : option opcode :=
  sq_op <$> List.find (fun s => sq_user_data s =? cq_user_data c) l.

Definition is_final (c : cqe) : bool := negb (has_flag (cq_flags c) IORING_CQE_F_MORE).

(** Remove the first request with this [user_data]. *)
Fixpoint drop_op (u : Z) (l : list sqe) : list sqe :=
  match l with
  | [] => []
  | s :: l => if sq_user_data s =? u then l else s :: drop_op u l
  end.

Definition settle (c : cqe) (l : list sqe) : list sqe :=
  if is_final c then drop_op (cq_user_data c) l else l.

(** [cs] is a possible sequence of completions for the requests [l]. *)
Fixpoint cqes_ok (l : list sqe) (cs : list cqe) : Prop :=
  match cs with
  | [] => True
  | c :: cs => cq_user_data c ∈ (sq_user_data <$> l) /\ cqes_ok (settle c l) cs
  end.

Definition is_accept (l : list sqe) (c : cqe) : bool :=
  existsb (fun s => bool_decide (sq_op s = OP_ACCEPT) && (sq_user_data s =? cq_user_data c)) l.

(** The descriptors that accept completions of [cs] hand to the program. *)
Definition accepted (l : list sqe) (cs : list cqe) : list Z :=
  cq_res <$> List.filter (fun c => is_accept l c && (0 <=? cq_res c)) cs.

(** The provided buffer a completion carries, if any. *)
Definition has_buffer (c : cqe) : bool := has_flag (cq_flags c) IORING_CQE_F_BUFFER.
Definition buffer_id (c : cqe) : Z := u16 (Z.shiftr (cq_flags c) IORING_CQE_BUFFER_SHIFT).

Fixpoint drop_first (b : Z) (l : list Z) : list Z :=
  match l with
  | [] => []
  | x :: l => if x =? b then l else x :: drop_first b l
  end.

Definition unlend (c : cqe) (l : list Z) : list Z :=
  if has_buffer c then drop_first (buffer_id c) l else l.

(** [cs] can come from a ring to which the buffers [l] are lent: a completion
    carries a buffer only with data in it, and each buffer is handed out once. *)
Fixpoint bufs_ok (l : list Z) (cs : list cqe) : Prop :=
  match cs with
  | [] => True
  | c :: cs =>
      (has_buffer c = true -> 0 < cq_res c /\ buffer_id c ∈ l) /\ bufs_ok (unlend c l) cs
  end.

Definition consume (g : ghost) : ghost :=
  match cq g with
  | c :: cs =>
      mkGhost (settle c (owed g)) cs (fds g)
        (mkBufRing (unlend c (lent (bufs g))) (staged (bufs g)))
        (dealt g ++ [(op_of (owed g) c, c)])
  | [] => g
  end.

(** [br] is a new ring, or null when the set-up failed. *)
Definition ring_setup (br : Z) (b : buf_ring) : buf_ring :=
  mkBufRing (lent b) (if br =? 0 then staged b else []).
Definition ring_add (br off : Z) (x : entry) (b : buf_ring) : buf_ring :=
  mkBufRing (lent b) (stage br off x (staged b)).
Definition ring_advance (br n : Z) (b : buf_ring) : buf_ring :=
  mkBufRing (map (fun x => x.1.1) (publish br n (staged b)) ++ lent b)
    (unpublished br n (staged b)).

Definition ghost_step (e : event) (g : ghost) : ghost :=
  match e with
  | Ev (PutSqe s) _ => mkGhost (s :: owed g) (cq g) (fds g) (bufs g) (dealt g)
  | Ev ForEachCqe l =>
      mkGhost (owed g) l
        (fds g ∪ list_to_set (accepted (owed g) (drop (length (cq g)) l))) (bufs g) (dealt g)
  | Ev CqeSeen _ => consume g
  | Ev (CqAdvance n) _ => Nat.iter (Z.to_nat n) consume g
  | Ev (QueueInitParams _ _ _ _) _ | Ev (QueueInit _ _) _ => mkGhost [] [] (fds g) no_bufs []
  | Ev (Socket _) fd =>
      if 0 <=? fd then mkGhost (owed g) (cq g) ({[fd]} ∪ fds g) (bufs g) (dealt g) else g
  | Ev (Close fd) _ => mkGhost (owed g) (cq g) (fds g ∖ {[fd]}) (bufs g) (dealt g)
  | Ev (SetupBufRing _ _ _) r =>
      mkGhost (owed g) (cq g) (fds g) (ring_setup r.1 (bufs g)) (dealt g)
  | Ev (BufRingAdd br addr len bid _ off) _ =>
      mkGhost (owed g) (cq g) (fds g) (ring_add br off (bid, addr, len) (bufs g)) (dealt g)
  | Ev (BufRingAdvance br n) _ =>
      mkGhost (owed g) (cq g) (fds g) (ring_advance br n (bufs g)) (dealt g)
  | _ => g
  end.

Definition ghost_of (t : history) : ghost := foldr ghost_step (mkGhost [] [] ∅ no_bufs []) t.
Arguments ghost_of : simpl never.

Lemma ghost_of_cons e t : ghost_of (e :: t) = ghost_step e (ghost_of t).
Proof. done. Qed.
#[export] Hint Rewrite ghost_of_cons : wpdb.

(** Compute the ghost state of the logged calls. *)
Ltac ghost_simpl :=
  repeat (progress (cbn in *; rewrite ?ghost_of_cons in *)); cbn in *.

Abbreviation owed_of t := (owed (ghost_of t)).
Abbreviation cq_of t := (cq (ghost_of t)).
Abbreviation fds_of t := (fds (ghost_of t)).
Abbreviation bufs_of t := (bufs (ghost_of t)).
Abbreviation lent_of t := (lent (bufs (ghost_of t))).
Abbreviation dealt_of t := (dealt (ghost_of t)).
(** The completions consumed, without the operations. *)
Abbreviation seen_of t := (map snd (dealt (ghost_of t))).

Definition ring_ok (t : history) : Prop := cqes_ok (owed_of t) (cq_of t).

(** * Allocations *)

Definition mem_step (e : event) (m : option (gset Z)) : option (gset Z) :=
  match e with
  | Ev (PosixMemalign _ _) (0, p) => live ← m; Some ({[p]} ∪ live)
  | Ev (Free p) _ => live ← m; if bool_decide (p ∈ live) then Some (live ∖ {[p]}) else None
  | _ => m
  end.

(** The live [posix_memalign] blocks; [None] once a block was freed that was not
    live (twice, or never allocated). *)
Definition mem_of (t : history) : option (gset Z) := foldr mem_step (Some ∅) t.
Arguments mem_of : simpl never.

Lemma mem_of_cons e t : mem_of (e :: t) = mem_step e (mem_of t).
Proof. done. Qed.

(** * Mappings *)

Definition maps_step (e : event) (m : option (gset (Z * Z))) : option (gset (Z * Z)) :=
  match e with
  | Ev (Mmap n) (Some p) => live ← m; Some ({[(p, n)]} ∪ live)
  | Ev (Munmap p n) _ =>
      live ← m; if bool_decide ((p, n) ∈ live) then Some (live ∖ {[(p, n)]}) else None
  | _ => m
  end.

(** The live mappings, address and length; [None] once a range was unmapped that
    was not mapped as such. *)
Definition maps_of (t : history) : option (gset (Z * Z)) := foldr maps_step (Some ∅) t.
Arguments maps_of : simpl never.

Lemma maps_of_cons e t : maps_of (e :: t) = maps_step e (maps_of t).
Proof. done. Qed.

(** * Descriptors are closed once *)

Fixpoint closes_ok (t : history) : Prop :=
  match t with
  | [] => True
  | e :: t' =>
      match e with
      | Ev (Close fd) _ => fd ∈ fds_of t'
      | _ => True
      end /\ closes_ok t'
  end.

(** A world to start a worker in: its ledgers are in order. *)
Definition world_ok (w : World) : Prop :=
  0 < next_obj w /\ is_Some (mem_of (hist w)) /\ is_Some (maps_of (hist w)) /\ closes_ok (hist w).

(** * Laws *)

Class KernelLaws (P : Platform) : Prop := {
  (** The completions not consumed yet come first and new ones are appended;
      together they are completions of the requests that are still owed one. *)
  ring_answers t :
    ring_ok t ->
    cq_of t `prefix_of` answer t ForEachCqe /\ cqes_ok (owed_of t) (answer t ForEachCqe);
  (** [recv] and [send] move at most the bytes they were asked to. *)
  recv_bound t fd n l : 0 <= n -> answer t (Recv fd n) = inr l -> Z.of_nat (length l) <= n;
  send_bound t fd data n : answer t (Send fd data) = inr n -> n <= Z.of_nat (length data);
  (** A new block is not null and not one of the live blocks. *)
  memalign_fresh t al n live p :
    answer t (PosixMemalign al n) = (0, p) -> mem_of t = Some live -> p <> 0 /\ p ∉ live;
  (** A descriptor that [socket] returns is new. *)
  socket_fresh t ty : answer t (Socket ty) ∉ fds_of t;
  (** An accepted descriptor is new: the kernel gives out unused numbers. *)
  accept_fresh t :
    let new := accepted (owed_of t) (drop (length (cq_of t)) (answer t ForEachCqe)) in
    NoDup new /\ forall fd, fd ∈ new -> fd ∉ fds_of t;
  (** An accept request is single-shot and selects no buffer: its completion is
      its last and carries none. *)
  accept_single_shot t c :
    c ∈ drop (length (cq_of t)) (answer t ForEachCqe) -> is_accept (owed_of t) c = true ->
    is_final c = true /\ has_buffer c = false
}.

(** Provided buffers: the kernel hands out buffers that were lent to it. *)
Class BufferLaws (P : Platform) : Prop := {
  buffer_answers t :
    bufs_ok (lent_of t) (cq_of t) -> bufs_ok (lent_of t) (answer t ForEachCqe)
}.

(** Only a request that selects a provided buffer completes with one. *)
Class SelectLaws (P : Platform) : Prop := {
  unselected t c :
    c ∈ drop (length (cq_of t)) (answer t ForEachCqe) ->
    (forall s, s ∈ owed_of t -> sq_user_data s = cq_user_data c ->
       has_flag (sq_flags s) IOSQE_BUFFER_SELECT = false) ->
    has_buffer c = false
}.

(** A new mapping is not null and starts at none of the live ones. *)
Class MapLaws (P : Platform) : Prop := {
  mmap_fresh t n live p :
    answer t (Mmap n) = Some p -> maps_of t = Some live ->
    p <> 0 /\ forall len, (p, len) ∉ live
}.

(** A completion queue of [entries] entries never shows more. *)
Class BatchLaws (P : Platform) (entries : Z) : Prop := {
  cq_bound t :
    Z.of_nat (length (cq_of t)) <= entries -> Z.of_nat (length (answer t ForEachCqe)) <= entries
}.

(** * Submission queue *)

(** Entries filled since the program last called into the kernel, or set up the
    ring. *)
Definition sq_used (t : history) : Z :=
  foldr (fun e n => match e with
                    | Ev (PutSqe _) _ => n + 1
                    | Ev Submit _ | Ev (SubmitAndWaitTimeout _ _) _ => 0
                    | Ev (QueueInitParams _ _ _ _) _ | Ev (QueueInit _ _) _ => 0
                    | _ => n
                    end) 0 t.
Arguments sq_used : simpl never.

(** Without a polling kernel thread, submission empties the queue, and an entry
    is available as long as fewer than [entries] are filled. *)
Class SubmissionLaws (P : Platform) (entries : Z) : Prop := {
  sq_space t : sq_used t < entries -> answer t GetSqe = true
}.

(** * Bytes moved by plain [send] and [recv] *)

(** The bytes this call read from (took for) the descriptor. *)
Definition ev_received (fd : Z) (e : event) : list Z :=
  match e with
  | Ev (Recv fd' _) (inr l) => if fd =? fd' then l else []
  | _ => []
  end.
Definition ev_sent (fd : Z) (e : event) : list Z :=
  match e with
  | Ev (Send fd' data) (inr n) => if fd =? fd' then take (Z.to_nat n) data else []
  | _ => []
  end.

(** All bytes read from (taken for) the descriptor so far, oldest first. *)
Definition received (fd : Z) (t : history) : list Z :=
  foldr (fun e acc => acc ++ ev_received fd e) [] t.
Definition sent (fd : Z) (t : history) : list Z :=
  foldr (fun e acc => acc ++ ev_sent fd e) [] t.
Arguments received : simpl never.
Arguments sent : simpl never.

(** The last call was a successful [poll] for input on the descriptor. *)
Definition polled_in (fd : Z) (t : history) : bool :=
  match t with
  | Ev (Poll fd' false _) r :: _ => (fd =? fd') && (0 <? r)
  | _ => false
  end.

(** * Consequences *)

Section Multiset.
Lemma drop_first_perm b (l : list Z) : b ∈ l -> l ≡ₚ b :: drop_first b l.
Proof.
  induction l as [|x l IH]; cbn; [by intros ?%elem_of_nil|].
  destruct (Z.eqb_spec x b) as [->|Hne]; [done|].
  intros [->|Hin]%elem_of_cons; [done|]. rewrite (IH Hin) at 1. constructor.
Qed.

Lemma drop_first_mono b (l l' : list Z) :
  b ∈ l -> l ⊆+ l' -> drop_first b l ⊆+ drop_first b l'.
Proof.
  intros Hin Hsub. assert (Hin' : b ∈ l') by (eapply elem_of_submseteq; eauto).
  rewrite (drop_first_perm b l Hin), (drop_first_perm b l' Hin') in Hsub.
  by apply (submseteq_app_inv_l _ _ [b]).
Qed.

Implicit Types (l : list sqe) (u : Z).

Lemma drop_op_perm u l :
  u ∈ (sq_user_data <$> l) ->
  (sq_user_data <$> l) ≡ₚ u :: (sq_user_data <$> drop_op u l).
Proof.
  induction l as [|s l IH]; cbn; [by intros ?%elem_of_nil|].
  destruct (Z.eqb_spec (sq_user_data s) u) as [->|Hne]; [done|].
  intros [->|Hin]%elem_of_cons; [done|]. cbn. rewrite (IH Hin) at 1. constructor.
Qed.

Lemma drop_op_other u v l :
  u <> v -> v ∈ (sq_user_data <$> l) -> v ∈ (sq_user_data <$> drop_op u l).
Proof.
  intros Hne. induction l as [|s l IH]; cbn; [done|].
  destruct (Z.eqb_spec (sq_user_data s) u) as [->|]; cbn; rewrite !elem_of_cons; intuition congruence.
Qed.

Lemma drop_op_sublist u l : drop_op u l `sublist_of` l.
Proof.
  induction l as [|s l IH]; cbn; [done|].
  destruct (sq_user_data s =? u); by constructor.
Qed.

Lemma drop_op_mono u l l' :
  u ∈ (sq_user_data <$> l) ->
  (sq_user_data <$> l) ⊆+ (sq_user_data <$> l') ->
  (sq_user_data <$> drop_op u l) ⊆+ (sq_user_data <$> drop_op u l').
Proof.
  intros Hin Hsub.
  assert (Hin' : u ∈ (sq_user_data <$> l')) by (eapply elem_of_submseteq; eauto).
  rewrite (drop_op_perm u l Hin), (drop_op_perm u l' Hin') in Hsub.
  by apply (submseteq_app_inv_l _ _ [u]).
Qed.

Lemma settle_sublist c l : settle c l `sublist_of` l.
Proof. unfold settle. destruct (is_final c); [apply drop_op_sublist|done]. Qed.

Lemma cqes_ok_mono l l' cs :
  (sq_user_data <$> l) ⊆+ (sq_user_data <$> l') -> cqes_ok l cs -> cqes_ok l' cs.
Proof.
  revert l l'. induction cs as [|c cs IH]; intros l l' Hsub; cbn; [done|].
  intros [Hin Hcs]. split; [by eapply elem_of_submseteq|].
  eapply IH; [|done]. unfold settle. destruct (is_final c); [|done].
  by apply drop_op_mono.
Qed.

Lemma cqes_ok_cons s l cs : cqes_ok l cs -> cqes_ok (s :: l) cs.
Proof. apply cqes_ok_mono. cbn. by apply submseteq_cons. Qed.

Lemma cqes_ok_elem l cs c :
  cqes_ok l cs -> c ∈ cs -> cq_user_data c ∈ (sq_user_data <$> l).
Proof.
  revert l. induction cs as [|c' cs IH]; intros l; cbn; [by intros _ ?%elem_of_nil|].
  intros [Hc Hcs] [->|Hin]%elem_of_cons; [done|].
  specialize (IH _ Hcs Hin). revert IH. rewrite !list_elem_of_fmap.
  intros (s & ? & Hs). exists s. split; [done|].
  eapply elem_of_submseteq; [exact Hs|apply sublist_submseteq, settle_sublist].
Qed.
End Multiset.

(** Both contracts are invariants of every run. *)
Section RingInvariant.
Context {P : Platform}.

Definition ghost_ok (g : ghost) : Prop := cqes_ok (owed g) (cq g).
Definition ghost_bufs_ok (g : ghost) : Prop := bufs_ok (lent (bufs g)) (cq g).

Lemma consume_ok g : ghost_ok g -> ghost_ok (consume g).
Proof. unfold ghost_ok, consume. destruct (cq g) eqn:E; rewrite ?E; cbn; tauto. Qed.
Lemma consume_bufs_ok g : ghost_bufs_ok g -> ghost_bufs_ok (consume g).
Proof. unfold ghost_bufs_ok, consume. destruct (cq g) eqn:E; rewrite ?E; cbn; tauto. Qed.

Lemma iter_consume (Pg : ghost -> Prop) n g :
  (forall g, Pg g -> Pg (consume g)) -> Pg g -> Pg (Nat.iter n consume g).
Proof. intros H Hg. by apply Nat.iter_invariant. Qed.

Lemma ring_ok_step {L : KernelLaws P} t c : ring_ok t -> ring_ok (Ev c (answer t c) :: t).
Proof.
  unfold ring_ok. rewrite ghost_of_cons. intros Hok. destruct c; cbn; try done.
  - by destruct (0 <=? answer t (Socket _)).
  - by apply cqes_ok_cons.
  - by apply ring_answers.
  - by apply consume_ok.
  - apply (iter_consume ghost_ok); [apply consume_ok|done].
Qed.

(** Descriptor numbers are not negative. *)
Lemma fds_nonneg t fd : fd ∈ fds_of t -> 0 <= fd.
Proof.
  induction t as [|[c r] t IH]; [by intros ?%elem_of_empty|]. rewrite ghost_of_cons.
  assert (Hc : fds (consume (ghost_of t)) = fds_of t).
  { unfold consume. by destruct (cq_of t). }
  destruct c; cbn; try exact IH.
  - destruct (Z.leb_spec 0 r); cbn; [|exact IH]. set_solver.
  - set_solver.
  - rewrite elem_of_union, elem_of_list_to_set. intros [?|Hin]; [auto|].
    unfold accepted in Hin. apply list_elem_of_fmap in Hin as (c & -> & Hin).
    apply list_elem_of_In, filter_In in Hin as [_ Hin].
    by apply andb_true_iff in Hin as [_ ?%Z.leb_le].
  - by rewrite Hc.
  - assert (Hn : forall (k : nat) g, fds (Nat.iter k consume g) = fds g).
    { induction k as [|m IHm]; intros g; [done|]. cbn. rewrite <- (IHm g).
      unfold consume at 1. by destruct (cq _). }
    by rewrite Hn.
Qed.

Lemma bufs_ok_mono l l' cs : l ⊆+ l' -> bufs_ok l cs -> bufs_ok l' cs.
Proof.
  revert l l'. induction cs as [|c cs IH]; intros l l' Hsub; cbn; [done|].
  intros [Hc Hcs]. split.
  - intros Hb. destruct (Hc Hb) as [? Hin]. split; [done|]. by eapply elem_of_submseteq.
  - eapply IH; [|done]. unfold unlend. destruct (has_buffer c) eqn:Hb; [|done].
    by apply drop_first_mono; [apply Hc|].
Qed.

Lemma bufs_ok_step {B : BufferLaws P} t c :
  bufs_ok (lent_of t) (cq_of t) ->
  bufs_ok (lent_of (Ev c (answer t c) :: t)) (cq_of (Ev c (answer t c) :: t)).
Proof.
  rewrite ghost_of_cons. intros Hok. destruct c; cbn; try done.
  - by destruct (0 <=? answer t (Socket _)).
  - eapply bufs_ok_mono; [|done]. by apply submseteq_inserts_l.
  - by apply buffer_answers.
  - by apply consume_bufs_ok.
  - apply (iter_consume ghost_bufs_ok); [apply consume_bufs_ok|done].
Qed.
End RingInvariant.

(** One entry written at the tail and published is all that is published,
    whatever was staged before. *)
Lemma publish_stage br x l : publish br 1 (stage br 0 x l) = [x].
Proof.
  unfold publish, stage, within. cbn. rewrite Z.eqb_refl. cbn. f_equal.
  induction l as [|y l IH]; cbn; [done|].
  destruct (Z.eqb_spec y.1.1 br), (Z.eqb_spec y.1.2 0); cbn; try done;
    rewrite ?(proj2 (Z.eqb_eq _ _)) by done; cbn; try done.
  - destruct (Z.leb_spec 0 y.1.2), (Z.ltb_spec y.1.2 1); cbn; try done. lia.
  - by rewrite (proj2 (Z.eqb_neq _ _)).
  - by rewrite (proj2 (Z.eqb_neq _ _)).
Qed.

(** Compute the ledgers of allocations and mappings over the logged calls. *)
Ltac ledger_simpl :=
  cbn [hist log with_heap with_stats] in *; rewrite ?mem_of_cons, ?maps_of_cons in *;
  cbn [mem_step maps_step] in *.

(** * Calls that leave the ledgers alone *)

Definition no_mem (c : call) : Prop :=
  match c with PosixMemalign _ _ | Free _ => False | _ => True end.
Definition no_close (c : call) : Prop :=
  match c with Close _ => False | _ => True end.
Definition no_map (c : call) : Prop :=
  match c with Mmap _ | Munmap _ _ => False | _ => True end.
(** Neither memory nor descriptors are released or, memory, obtained. *)
Definition keeps (c : call) : Prop := no_mem c /\ no_close c.

Lemma extends_mem w w' : extends no_mem w w' -> mem_of (hist w') = mem_of (hist w).
Proof.
  intros (l & -> & Hl). induction Hl as [|[c r] l Hc _ IH]; [done|].
  cbn [app]. rewrite mem_of_cons, IH. by destruct c.
Qed.

Lemma extends_maps w w' : extends no_map w w' -> maps_of (hist w') = maps_of (hist w).
Proof.
  intros (l & -> & Hl). induction Hl as [|[c r] l Hc _ IH]; [done|].
  cbn [app]. rewrite maps_of_cons, IH. by destruct c.
Qed.

Lemma extends_closes w w' : extends no_close w w' -> closes_ok (hist w) -> closes_ok (hist w').
Proof.
  intros (l & -> & Hl) Hok. induction Hl as [|[c r] l Hc _ IH]; [done|].
  split; [|done]. by destruct c.
Qed.

Lemma extends_mono (S S' : call -> Prop) w w' :
  (forall c, S c -> S' c) -> extends S w w' -> extends S' w w'.
Proof.
  intros HS (l & ? & Hl). exists l. split; [done|]. eapply Forall_impl; [exact Hl|]. cbn. auto.
Qed.

Lemma extends_keeps w w' :
  extends keeps w w' ->
  mem_of (hist w') = mem_of (hist w) /\ (closes_ok (hist w) -> closes_ok (hist w')).
Proof.
  intros H. split; [apply extends_mem|apply extends_closes];
    (eapply extends_mono; [|exact H]); by intros c [].
Qed.

(** * Loops that watch the stop flag *)

(** The flag is set, for good, at the latest after [N] calls. *)
Class StopLaws (P : Platform) (N : nat) : Prop := {
  stop_set t : (N <= length t)%nat -> answer t StopLoad = true
}.

(** A plain ring of [d] entries, without special flags, can be set up; documented
    for at most 32768 entries. *)
Class RingSetup (P : Platform) (d : Z) : Prop := {
  queue_init_ok t : 0 <= answer t (QueueInit d 0)
}.

Section StopLoops.
Context {P : Platform}.

(** In mode [b] the engine's constructor, for a ring of [d] entries, may throw,
    or does not. *)
Definition ring_init (b : mode) (d : Z) : Prop :=
  lax b \/ RingSetup P d.

(** The fuel is enough to rule out, in mode [b], that a loop runs out of it. *)
Definition fuelled (b : mode) (fuel : nat) : Prop :=
  endless b \/ exists N, StopLaws P N /\ (N < fuel)%nat.

Lemma extends_length S w w' : extends S w w' -> (length (hist w) <= length (hist w'))%nat.
Proof. intros (l & -> & _). rewrite length_app. lia. Qed.

(** A loop that reads the flag first and leaves when it is set; its invariant may
    give way to the excuse of the mode. *)
Lemma wp_iter_stop_excused {St R} S b B (k : St -> bool -> M (St + R)) (I : St -> World -> Prop)
    (Q : R -> World -> Prop) fuel s w :
  excused b B -> fuelled b fuel ->
  (forall s stop, only S (k s stop)) ->
  (forall s w s' w', k s true w <> Ret (inl s') w') ->
  (forall s w, I s w ->
     wp b (stop ← do_call StopLoad; k s stop)
       (fun r w' => B (hist w') \/ match r with inl s' => I s' w' | inr x => Q x w' end) w) ->
  I s w ->
  wp b (iter fuel (fun s => stop ← do_call StopLoad; k s stop) s)
    (fun x w' => B (hist w') \/ Q x w') w.
Proof.
  intros HB Hfuel Honly Hstop Hstep HI.
  assert (HN : exists N, endless b \/ StopLaws P N /\ (N < fuel)%nat).
  { destruct Hfuel as [?|[N ?]]; [by exists 0%nat; left|exists N; by right]. }
  destruct HN as [N HN].
  apply (wp_iter_excused b B _ I (fun _ w => (N - length (hist w))%nat)); [done| | |done|].
  - intros s1. apply only_bind; [by apply only_call|]. intros stop.
    eapply only_mono; [|apply Honly]. done.
  - intros s1 w1 H1. specialize (Hstep s1 w1 H1). revert Hstep.
    unfold wp, mbind, M_bind, do_call. cbn.
    set (w2 := log _ w1). destruct (k s1 _ w2) as [[s'|x] w'| | | |] eqn:Hk; try done.
    intros [?|HI']; [by left|]. right. split; [done|].
    destruct HN as [?|[HN Hlt]]; [by left|right].
    assert (Hlen := extends_length _ _ _ (Honly s1 (answer (hist w1) StopLoad) w2)).
    rewrite Hk in Hlen. cbn in Hlen.
    destruct (decide (N <= length (hist w1))%nat) as [Hge|]; [|lia].
    rewrite (stop_set (hist w1) Hge) in Hk. by apply Hstop in Hk.
  - destruct HN as [?|[_ ?]]; [by left|right; lia].
Qed.

Lemma wp_iter_stop {St R} S b (k : St -> bool -> M (St + R)) (I : St -> World -> Prop)
    (Q : R -> World -> Prop) fuel s w :
  fuelled b fuel ->
  (forall s stop, only S (k s stop)) ->
  (forall s w s' w', k s true w <> Ret (inl s') w') ->
  (forall s w, I s w ->
     wp b (stop ← do_call StopLoad; k s stop)
       (fun r w' => match r with inl s' => I s' w' | inr x => Q x w' end) w) ->
  I s w -> wp b (iter fuel (fun s => stop ← do_call StopLoad; k s stop) s) Q w.
Proof.
  intros Hfuel Honly Hstop Hstep HI. eapply wp_mono.
  - apply (wp_iter_stop_excused S b (fun _ => False) k I Q); try done.
    intros s1 w1 H1. eapply wp_mono; [by apply Hstep|]. auto.
  - by intros x w' [[]|?].
Qed.
End StopLoops.
