(* ===== verification/Platforms.v ===== *)
(** Concrete platforms.

    A [script] says how the interesting calls are answered; [scripted] turns it
    into a platform that keeps the kernel's laws whatever the script says, by
    falling back to "nothing new happened" when an answer would break them.  The
    examples and the satisfiability witnesses of the laws run on these. *)

From S2P Require Import Prelude Stats Sys Kernel.

#[export] Instance cqes_ok_dec l cs : Decision (cqes_ok l cs).
Proof. revert l. induction cs as [|c cs IH]; intros l; cbn; apply _. Defined.
#[export] Instance bufs_ok_dec l cs : Decision (bufs_ok l cs).
Proof. revert l. induction cs as [|c cs IH]; intros l; cbn; apply _. Defined.

(** A bound of a set of addresses. *)
Definition above (X : gset Z) : Z := set_fold Z.max 0 X.

Lemma above_spec X : 0 <= above X /\ forall x, x ∈ X -> x <= above X.
Proof.
  unfold above. apply (set_fold_ind_L (fun r (Y : gset Z) => 0 <= r /\ forall x, x ∈ Y -> x <= r)).
  - split; [done|]. set_solver.
  - intros x Y r _ [Hr HY]. split; [lia|]. intros y. rewrite elem_of_union, elem_of_singleton.
    intros [->|Hy]; [lia|]. specialize (HY y Hy). lia.
Qed.

Record script := mkScript {
  sc_stop : history -> bool;
  sc_now : history -> Z;
  sc_cqes : history -> list cqe;
  sc_sqe : history -> bool;
  sc_socket : history -> Z;
  sc_recv : history -> Z -> Z -> Z + list Z;
  sc_cq_size : Z;
  sc_other : Z            (** the answer of every other call that returns an [int] *)
}.

Section Scripted.
Variable sc : script.

(** The completions of the script, if the laws allow them now. *)
Definition lawful (t : history) (l : list cqe) : Prop :=
  cq_of t `prefix_of` l /\ cqes_ok (owed_of t) l /\ bufs_ok (lent_of t) l /\
  NoDup (accepted (owed_of t) (drop (length (cq_of t)) l)) /\
  Forall (fun fd => fd ∉ fds_of t) (accepted (owed_of t) (drop (length (cq_of t)) l)) /\
  Forall (fun c => is_accept (owed_of t) c = true -> is_final c = true /\ has_buffer c = false)
    (drop (length (cq_of t)) l) /\
  Forall (fun c => Forall (fun s => sq_user_data s = cq_user_data c ->
      has_flag (sq_flags s) IOSQE_BUFFER_SELECT = false) (owed_of t) -> has_buffer c = false)
    (drop (length (cq_of t)) l) /\
  Z.of_nat (length l) <= sc_cq_size sc.

Definition scripted_answer (t : history) (c : call) : resp c :=
  match c return resp c with
  | StopLoad => sc_stop sc t
  | RunningLoad => negb (sc_stop sc t)
  | SteadyNow => sc_now sc t
  | ForEachCqe =>
      if bool_decide (lawful t (sc_cqes sc t)) then sc_cqes sc t else cq_of t
  | GetSqe => sc_sqe sc t
  | Socket _ => let fd := sc_socket sc t in if bool_decide (fd ∈ fds_of t) then -1 else fd
  | Recv fd n =>
      match sc_recv sc t fd n with
      | inr l => inr (take (Z.to_nat n) l)
      | inl e => inl e
      end
  | Send _ data => inr (Z.of_nat (length data))
  | Poll _ _ _ => 1
  | PosixMemalign _ _ => (0, 4096 + above (default ∅ (mem_of t)))
  | SetupBufRing _ _ _ => (4096 * (1 + Z.of_nat (length t)), 0)
  | InetPton _ => (1, 16777343)
  | Mmap _ => Some (4096 + above (set_map fst (default ∅ (maps_of t))))
  | GetHostByName _ | Getrlimit => None
  | LoadSlot tid =>
      let n := Z.of_nat (length t) in mkThreadStats (1000 * (tid + n)) n (tid * n) tid
  | RegisterIfq r => mkIfqReply 0 0 64 128 (ifq_rq_entries r) 1 0
  | StopStore _ | SleepFor _ | Free _ | QueueExit | UnregisterBuffers | UnregisterFiles
  | FreeBufRing _ _ _ | BufRingAdd _ _ _ _ _ _ | BufRingAdvance _ _ | PutSqe _
  | CqeSeen | CqAdvance _ | RqWrite _ _ _ | RqStoreTail _
  | ThreadStart _ | ThreadJoin _ | ReporterStart | ReporterJoin | RunningStore _
  | ReportRow _ _ _ | ReportSummary _ => tt
  | _ => sc_other sc
  end.

Definition scripted : Platform := {|
  answer := scripted_answer;
  io_uring_buf_ring_mask n := n - 1;
  address_of_local x := 2 ^ 46 + 16 * Z.of_nat (String.length x)
|}.

#[export] Instance scripted_laws : KernelLaws scripted.
Proof.
  split; cbn.
  - intros t Hok. case_bool_decide as H; [by destruct H as (?&?&_)|done].
  - intros t fd n l Hn. destruct (sc_recv sc t fd n); [done|]. intros [= <-].
    rewrite length_take. lia.
  - by intros t fd data n [= <-].
  - intros t al n live p [= <-] Hm. rewrite Hm. cbn. destruct (above_spec live) as [H0 Hle].
    split; [lia|]. intros Hin%Hle. lia.
  - intros t _. case_bool_decide; [|done]. by intros ?%fds_nonneg.
  - intros t. case_bool_decide as H.
    + destruct H as (_&_&_&?&Hf&_). split; [done|]. by rewrite Forall_forall in Hf.
    + rewrite drop_all. split; [constructor|]. by intros ? ?%elem_of_nil.
  - intros t c. case_bool_decide as H.
    + destruct H as (_&_&_&_&_&Hf&_). rewrite Forall_forall in Hf. auto.
    + rewrite drop_all. by intros ?%elem_of_nil.
Qed.

#[export] Instance scripted_maps : MapLaws scripted.
Proof.
  split. intros t n live p. cbn. intros [= <-] Hm. rewrite Hm. cbn.
  destruct (above_spec (set_map fst live)) as [H0 Hle]. split; [lia|]. intros len Hin.
  enough (4096 + above (set_map fst live) <= above (set_map fst live)) by lia.
  apply Hle, elem_of_map. by exists (4096 + above (set_map fst live), len).
Qed.

#[export] Instance scripted_batch : BatchLaws scripted (sc_cq_size sc).
Proof.
  split. intros t Hle. cbn. case_bool_decide as H; [|done]. by destruct H as (_&_&_&_&_&_&_&?).
Qed.

#[export] Instance scripted_buffers : BufferLaws scripted.
Proof.
  split. intros t Hok. cbn. case_bool_decide as H; [by destruct H as (_&_&?&_)|done].
Qed.

#[export] Instance scripted_select : SelectLaws scripted.
Proof.
  split. intros t c. cbn. case_bool_decide as H.
  - destruct H as (_&_&_&_&_&_&Hf&_). rewrite Forall_forall in Hf. intros Hc Hs.
    apply (Hf c Hc). by rewrite Forall_forall.
  - rewrite drop_all. by intros ?%elem_of_nil.
Qed.
End Scripted.
