(* ===== verification/NetUtils.v ===== *)
(** Sockets, buffers and the start-of-connection handshake:
    [src/net_utils.cpp].

    Socket construction is modelled call by call, error paths included.
    [send_all] and [recv_all] are the retry loops around [send]/[recv]/[poll],
    and the handshake is the five bytes (direction, duration in network order)
    that a TCP client sends right after connecting. *)

From S2P Require Import Prelude Stats Sys Only Kernel.

(** * Constants *)

Definition SOCK_STREAM := 1.
Definition SOCK_DGRAM := 2.
Definition SOL_SOCKET := 1.
Definition IPPROTO_TCP := 6.
Definition SO_REUSEADDR := 2.
Definition SO_REUSEPORT := 15.
Definition SO_SNDBUF := 7.
Definition SO_RCVBUF := 8.
Definition SO_ZEROCOPY := 60.
Definition TCP_NODELAY := 1.
Definition SOL_UDP := 17.
Definition UDP_SEGMENT := 103.
Definition UDP_GRO := 104.
Definition O_NONBLOCK := 2048.
Definition INADDR_ANY := 0.

(** * Byte order (the host is little-endian) *)

Definition byte_of (z i : Z) : Z := Z.land (Z.shiftr z (8 * i)) 255.

Definition htons (p : Z) : Z := Z.lor (Z.shiftl (byte_of p 0) 8) (byte_of p 1).

Definition htonl (d : Z) : Z :=
  Z.lor (Z.lor (Z.shiftl (byte_of d 0) 24) (Z.shiftl (byte_of d 1) 16))
        (Z.lor (Z.shiftl (byte_of d 2) 8) (byte_of d 3)).
Definition ntohl (d : Z) : Z := htonl d.

(** [memcpy] of a [uint32_t] to and from a byte array. *)
Definition store_u32 (d : Z) : list Z := byte_of d <$> [0; 1; 2; 3].
Definition load_u32 (bs : list Z) : Z :=
  match bs with
  | b0 :: b1 :: b2 :: b3 :: _ =>
      Z.lor (Z.lor b0 (Z.shiftl b1 8)) (Z.lor (Z.shiftl b2 16) (Z.shiftl b3 24))
  | _ => 0
  end.

(** * Operations *)

Section NetUtils.
Context {P : Platform}.

Definition set_nonblocking (fd : Z) : M Z :=
  flags ← do_call (FcntlGetfl fd);
  if flags =? -1 then mret (-1)
  else do_call (FcntlSetfl fd (Z.lor flags O_NONBLOCK)).

Definition tune_socket (fd : Z) (zero_copy reuse_port is_udp : bool) (udp_segment_size : Z)
    : M Z :=
  do_call (Setsockopt fd SOL_SOCKET SO_REUSEADDR 1);;
  (if reuse_port then do_call (Setsockopt fd SOL_SOCKET SO_REUSEPORT 1);; mret tt
   else mret tt);;
  do_call (Setsockopt fd SOL_SOCKET SO_SNDBUF (4 * 1024 * 1024));;
  do_call (Setsockopt fd SOL_SOCKET SO_RCVBUF (4 * 1024 * 1024));;
  (if negb is_udp then do_call (Setsockopt fd IPPROTO_TCP TCP_NODELAY 1);; mret tt
   else
     do_call (Setsockopt fd SOL_UDP UDP_SEGMENT (i32 udp_segment_size));;
     do_call (Setsockopt fd SOL_UDP UDP_GRO 1);; mret tt);;
  (if zero_copy then do_call (Setsockopt fd SOL_SOCKET SO_ZEROCOPY 1);; mret tt
   else mret tt);;
  mret 0.

Definition create_listen_socket (ip : string) (port : Z) (is_udp zero_copy : bool)
    (udp_segment_size : Z) : M Z :=
  fd ← do_call (Socket (if is_udp then SOCK_DGRAM else SOCK_STREAM));
  if fd <? 0 then mret (-1) else
  tune_socket fd zero_copy true is_udp udp_segment_size;;
  set_nonblocking fd;;
  s_addr ← (if bool_decide (ip = ""%string) || bool_decide (ip = "0.0.0.0"%string)
            then mret INADDR_ANY
            else r ← do_call (InetPton ip);
                 (* the address is only written on success *)
                 mret (if 0 <? r.1 then r.2 else 0));
  b ← do_call (Bind fd s_addr (htons port));
  if b <? 0 then do_call (Close fd);; mret (-1) else
  if negb is_udp then
    l ← do_call (Listen fd 1024);
    if l <? 0 then do_call (Close fd);; mret (-1) else mret fd
  else mret fd.

(** [if (local_port != 0) { ... bind ... }]; [false] when the bind failed and
    the descriptor was closed. *)
Definition bind_local_port (fd local_port : Z) : M bool :=
  if local_port =? 0 then mret true else
  do_call (Setsockopt fd SOL_SOCKET SO_REUSEADDR 1);;
  b ← do_call (Bind fd INADDR_ANY (htons local_port));
  if b <? 0 then do_call (Close fd);; mret false else mret true.

(** The address of [host]: a literal, or else what the resolver says. *)
Definition resolve_host (host : string) : M (option Z) :=
  r ← do_call (InetPton host);
  if r.1 <=? 0 then do_call (GetHostByName host) else mret (Some r.2).

Definition create_client_socket (host : string) (port : Z) (is_udp zero_copy : bool)
    (udp_segment_size local_port : Z) : M Z :=
  fd ← do_call (Socket (if is_udp then SOCK_DGRAM else SOCK_STREAM));
  if fd <? 0 then mret (-1) else
  tune_socket fd zero_copy false is_udp udp_segment_size;;
  bound ← bind_local_port fd local_port;
  if negb bound then mret (-1) else
  he ← resolve_host host;
  match he with
  | None => do_call (Close fd);; mret (-1)
  | Some s_addr =>
      c ← do_call (Connect fd s_addr (htons port));
      if c <? 0 then do_call (Close fd);; mret (-1) else
      set_nonblocking fd;; mret fd
  end.

(** 0 is [nullptr]. *)
Definition allocate_aligned_buffer (size : Z) : M Z :=
  r ← do_call (PosixMemalign 4096 size);
  if negb (r.1 =? 0) then mret 0 else mret r.2.

Definition free_aligned_buffer (ptr : Z) : M unit :=
  if negb (ptr =? 0) then do_call (Free ptr) else mret tt.

(** ** Full-buffer send and receive *)

(** [errno == EAGAIN || errno == EWOULDBLOCK || errno == EINTR] *)
Definition would_block (errno : Z) : bool :=
  (errno =? EAGAIN) || (errno =? EWOULDBLOCK) || (errno =? EINTR).

(** One turn of [while (sent < len)]. *)
Definition send_all_step (fd : Z) (buf : list Z) (timeout_ms sent : Z) : M (Z + bool) :=
  if negb (sent <? Z.of_nat (length buf)) then mret (inr true) else
  r ← do_call (Send fd (drop (Z.to_nat sent) buf));
  match r with
  | inr n => if 0 <? n then mret (inl (sent + n)) else mret (inr false)
  | inl errno =>
      if would_block errno then
        p ← do_call (Poll fd true timeout_ms);
        if p <=? 0 then mret (inr false) else mret (inl sent)
      else mret (inr false)
  end.

Definition send_all (fuel : nat) (fd : Z) (buf : list Z) (timeout_ms : Z) : M bool :=
  iter fuel (send_all_step fd buf timeout_ms) 0.

(** One turn of [while (got < len)]; the state is the filled part of the
    buffer, so [got] is its length. *)
Definition recv_all_step (fd len timeout_ms : Z) (buf : list Z) : M (list Z + option (list Z)) :=
  let got := Z.of_nat (length buf) in
  if negb (got <? len) then mret (inr (Some buf)) else
  r ← do_call (Recv fd (len - got));
  match r with
  | inr [] => mret (inr None)
  | inr data => mret (inl (buf ++ data))
  | inl errno =>
      if would_block errno then
        p ← do_call (Poll fd false timeout_ms);
        if p <=? 0 then mret (inr None) else mret (inl buf)
      else mret (inr None)
  end.

(** [None] is [false]; [Some buf] is [true] with the buffer's contents. *)
Definition recv_all (fuel : nat) (fd len timeout_ms : Z) : M (option (list Z)) :=
  iter fuel (recv_all_step fd len timeout_ms) [].

(** ** Handshake *)

Definition handshake_bytes (reverse : bool) (duration_sec : Z) : list Z :=
  (if reverse then 1 else 0) :: store_u32 (htonl duration_sec).

Definition parse_handshake (buf : list Z) : bool * Z :=
  (negb (nth 0 buf 0 =? 0), ntohl (load_u32 (drop 1 buf))).

Definition send_handshake (fuel : nat) (fd : Z) (reverse : bool) (duration_sec : Z) : M bool :=
  send_all fuel fd (handshake_bytes reverse duration_sec) (-1).

(** [None] is [false]; [Some (reverse, duration_sec)] is [true] with the
    reference arguments written. *)
Definition recv_handshake (fuel : nat) (fd : Z) : M (option (bool * Z)) :=
  r ← recv_all fuel fd 5 5000;
  mret (parse_handshake <$> r).
End NetUtils.

(** * Byte order *)

Lemma byte_of_mod z i : 0 <= i -> byte_of z i = (z / 2 ^ (8 * i)) mod 256.
Proof.
  intros. unfold byte_of. change 255 with (2 ^ 8 - 1).
  rewrite land_ones_mod, Z.shiftr_div_pow2; done || lia.
Qed.

Lemma byte_of_range z i : 0 <= i -> 0 <= byte_of z i < 256.
Proof. intros. rewrite byte_of_mod by done. by apply Z.mod_pos_bound. Qed.

Lemma htons_add p : htons p = byte_of p 0 * 256 + byte_of p 1.
Proof. unfold htons. apply lor_shiftl_add; [done|]. by apply byte_of_range. Qed.

Lemma lor_bytes a b n m :
  0 <= n <= m -> 0 <= b < 2 ^ (m - n) ->
  Z.lor (Z.shiftl a m) (Z.shiftl b n) = (a * 2 ^ (m - n) + b) * 2 ^ n.
Proof.
  intros Hn Hb. replace m with ((m - n) + n) at 1 by lia.
  rewrite <- Z.shiftl_shiftl by lia. rewrite <- Z.shiftl_lor, lor_shiftl_add by lia.
  by rewrite Z.shiftl_mul_pow2 by lia.
Qed.

Lemma htonl_add d :
  htonl d = byte_of d 0 * 2 ^ 24 + byte_of d 1 * 2 ^ 16 + byte_of d 2 * 2 ^ 8 + byte_of d 3.
Proof.
  unfold htonl. pose proof (byte_of_range d 1 ltac:(lia)).
  pose proof (byte_of_range d 2 ltac:(lia)). pose proof (byte_of_range d 3 ltac:(lia)).
  rewrite lor_bytes, lor_shiftl_add, <- Z.shiftl_mul_pow2, lor_shiftl_add by lia. lia.
Qed.

Lemma sum_of_bytes d :
  0 <= d < 2 ^ 32 ->
  byte_of d 3 * 2 ^ 24 + byte_of d 2 * 2 ^ 16 + byte_of d 1 * 2 ^ 8 + byte_of d 0 = d.
Proof. intros. rewrite !byte_of_mod by done. Z.div_mod_to_equations. lia. Qed.

Lemma load_store_u32 d : 0 <= d < 2 ^ 32 -> load_u32 (store_u32 d) = d.
Proof.
  intros Hd. cbn. pose proof (byte_of_range d 0 ltac:(lia)).
  pose proof (byte_of_range d 1 ltac:(lia)). pose proof (byte_of_range d 2 ltac:(lia)).
  rewrite (Z.lor_comm (byte_of d 0)), (Z.lor_comm (Z.shiftl _ 16)), Z.lor_comm.
  rewrite lor_bytes, lor_shiftl_add, <- Z.shiftl_mul_pow2, lor_shiftl_add by lia.
  rewrite <- (sum_of_bytes d Hd) at 5. lia.
Qed.

Lemma htonl_range d : 0 <= htonl d < 2 ^ 32.
Proof.
  rewrite htonl_add. pose proof (byte_of_range d 0 ltac:(lia)).
  pose proof (byte_of_range d 1 ltac:(lia)). pose proof (byte_of_range d 2 ltac:(lia)).
  pose proof (byte_of_range d 3 ltac:(lia)). lia.
Qed.

Lemma byte_of_sum a b c e :
  0 <= a < 256 -> 0 <= b < 256 -> 0 <= c < 256 -> 0 <= e < 256 ->
  let d := a * 2 ^ 24 + b * 2 ^ 16 + c * 2 ^ 8 + e in
  byte_of d 0 = e /\ byte_of d 1 = c /\ byte_of d 2 = b /\ byte_of d 3 = a.
Proof.
  intros Ha Hb Hc He. cbn zeta. rewrite !byte_of_mod by done.
  repeat split; Z.div_mod_to_equations; lia.
Qed.

Lemma ntohl_htonl d : 0 <= d < 2 ^ 32 -> ntohl (htonl d) = d.
Proof.
  intros Hd. unfold ntohl. rewrite (htonl_add (htonl d)), (htonl_add d).
  destruct (byte_of_sum (byte_of d 0) (byte_of d 1) (byte_of d 2) (byte_of d 3))
    as (-> & -> & -> & ->); try by apply byte_of_range.
  by apply sum_of_bytes.
Qed.

Lemma parse_handshake_bytes reverse d rest :
  0 <= d < 2 ^ 32 -> parse_handshake (handshake_bytes reverse d ++ rest) = (reverse, d).
Proof.
  intros Hd. unfold parse_handshake, handshake_bytes.
  change (drop 1 _) with (store_u32 (htonl d) ++ rest).
  change (load_u32 (store_u32 (htonl d) ++ rest)) with (load_u32 (store_u32 (htonl d))).
  rewrite load_store_u32 by apply htonl_range. rewrite ntohl_htonl by done.
  by destruct reverse.
Qed.

(** * Descriptors *)

Section Descriptors.
Context {P : Platform} {L : KernelLaws P}.

(** Only the descriptor table may have changed. *)
Definition only_fds (w w' : World) : Prop :=
  heap w' = heap w /\ next_obj w' = next_obj w /\ stats w' = stats w /\
  owed_of (hist w') = owed_of (hist w) /\ cq_of (hist w') = cq_of (hist w) /\
  bufs_of (hist w') = bufs_of (hist w) /\ dealt_of (hist w') = dealt_of (hist w) /\
  mem_of (hist w') = mem_of (hist w) /\ (closes_ok (hist w) -> closes_ok (hist w')).

Definition same_fds (w w' : World) : Prop :=
  only_fds w w' /\ fds_of (hist w') = fds_of (hist w).

Lemma same_fds_trans w1 w2 w3 : same_fds w1 w2 -> same_fds w2 w3 -> same_fds w1 w3.
Proof. intros [(?&?&?&?&?&?&?&?&?) ?] [(?&?&?&?&?&?&?&?&?) ?]. repeat split; auto; congruence. Qed.

Lemma set_nonblocking_fds fd w : wp total (set_nonblocking fd) (fun _ => same_fds w) w.
Proof. unfold set_nonblocking. wp_steps; done. Qed.

Lemma tune_socket_fds fd zc rp udp seg w :
  wp total (tune_socket fd zc rp udp seg) (fun r w' => r = 0 /\ same_fds w w') w.
Proof. unfold tune_socket. wp_steps; done. Qed.

(** What a socket constructor promises: it returns either an open descriptor
    that is new, or -1 after closing the one it opened. *)
Definition new_fd_or_none (w : World) (r : Z) (w' : World) : Prop :=
  only_fds w w' /\
  ((r = -1 /\ fds_of (hist w') = fds_of (hist w)) \/
   (0 <= r /\ (r ∉ fds_of (hist w)) /\ fds_of (hist w') = {[r]} ∪ fds_of (hist w))).

(** In the middle of a constructor: [fd] is open and new. *)
Definition opened (w : World) (fd : Z) (w' : World) : Prop :=
  only_fds w w' /\ (fd ∉ fds_of (hist w)) /\ fds_of (hist w') = {[fd]} ∪ fds_of (hist w).

Lemma opened_same w fd w1 w2 : opened w fd w1 -> same_fds w1 w2 -> opened w fd w2.
Proof. intros [(?&?&?&?&?&?&?&?&?) [? ?]] [(?&?&?&?&?&?&?&?&?) ?]. repeat split; auto; congruence. Qed.

Lemma opened_socket w ty :
  0 <= answer (hist w) (Socket ty) ->
  opened w (answer (hist w) (Socket ty)) (log (Ev (Socket ty) (answer (hist w) (Socket ty))) w).
Proof.
  intros Hfd. pose proof (socket_fresh (hist w) ty).
  assert (Hb : (0 <=? answer (hist w) (Socket ty)) = true) by (by apply Z.leb_le).
  repeat split; cbn; rewrite ?ghost_of_cons; cbn; by rewrite ?Hb.
Qed.

Lemma socket_failed w ty r : r < 0 -> new_fd_or_none w (-1) (log (Ev (Socket ty) r) w).
Proof.
  intros Hr. assert (Hb : (0 <=? r) = false) by (by apply Z.leb_gt).
  repeat split; [..|left; split; [done|]]; cbn; rewrite ?ghost_of_cons; cbn; by rewrite ?Hb.
Qed.

Lemma opened_close w fd w' r : opened w fd w' -> new_fd_or_none w (-1) (log (Ev (Close fd) r) w').
Proof.
  intros [(?&?&?&?&?&?&?&?&?) [Hfresh Hfds]].
  assert (fd ∈ fds_of (hist w')) by (rewrite Hfds; set_solver).
  split; [repeat split; cbn; auto|]. left. split; [done|].
  cbn. rewrite ghost_of_cons. cbn. rewrite Hfds. set_solver.
Qed.

Lemma opened_return w fd w' : 0 <= fd -> opened w fd w' -> new_fd_or_none w fd w'.
Proof. intros ? [? [? ?]]. split; [done|]. by right. Qed.

Lemma bind_local_port_fds w fd lp w1 :
  opened w fd w1 ->
  wp total (bind_local_port fd lp)
    (fun ok w2 => if ok then opened w fd w2 else new_fd_or_none w (-1) w2) w1.
Proof.
  intros Ho. unfold bind_local_port. wp_steps; [done| |].
  - apply opened_close. by eapply opened_same.
  - by eapply opened_same.
Qed.

Lemma resolve_host_fds host w : wp total (resolve_host host) (fun _ => same_fds w) w.
Proof. unfold resolve_host. wp_steps; done. Qed.

Lemma create_listen_socket_new ip port udp zc seg w :
  wp total (create_listen_socket ip port udp zc seg) (new_fd_or_none w) w.
Proof.
  unfold create_listen_socket. do 3 wp_step; [wp_step; by apply socket_failed, Z.ltb_lt|].
  apply Z.ltb_ge in E. pose proof (opened_socket w _ E) as Ho.
  wp_step. wp_use (tune_socket_fds _ _ _ _ _ _) as [_ H1].
  wp_step. wp_use (set_nonblocking_fds _ _) as H2.
  assert (H3 := opened_same _ _ _ _ (opened_same _ _ _ _ Ho H1) H2).
  wp_steps; solve [apply opened_close; by eapply opened_same
                  | apply opened_return; [done|]; by eapply opened_same].
Qed.

Lemma create_client_socket_new host port udp zc seg lp w :
  wp total (create_client_socket host port udp zc seg lp) (new_fd_or_none w) w.
Proof.
  unfold create_client_socket. do 3 wp_step; [wp_step; by apply socket_failed, Z.ltb_lt|].
  apply Z.ltb_ge in E. pose proof (opened_socket w _ E) as Ho.
  wp_step. wp_use (tune_socket_fds _ _ _ _ _ _) as [_ H1].
  assert (H2 := opened_same _ _ _ _ Ho H1).
  wp_step. wp_use (bind_local_port_fds _ _ _ _ H2) as H3.
  wp_step; [by destruct a0|]. destruct a0; [|done].
  wp_step. wp_use (resolve_host_fds _ _) as H4.
  assert (H5 := opened_same _ _ _ _ H3 H4).
  wp_step; [|wp_steps; by apply opened_close].
  do 3 wp_step; [wp_steps; apply opened_close; by eapply opened_same|].
  wp_step. wp_use (set_nonblocking_fds _ _) as H6. wp_step.
  apply opened_return; [done|]. eapply opened_same; [|exact H6].
  by eapply opened_same.
Qed.
End Descriptors.

(** * Full-buffer transfers *)

Lemma received_cons fd e t : received fd (e :: t) = received fd t ++ ev_received fd e.
Proof. done. Qed.
Lemma sent_cons fd e t : sent fd (e :: t) = sent fd t ++ ev_sent fd e.
Proof. done. Qed.

(** Stepping over a call that moves no bytes. *)
Lemma received_quiet fd e t : ev_received fd e = [] -> received fd (e :: t) = received fd t.
Proof. intros H. by rewrite received_cons, H, app_nil_r. Qed.
Lemma sent_quiet fd e t : ev_sent fd e = [] -> sent fd (e :: t) = sent fd t.
Proof. intros H. by rewrite sent_cons, H, app_nil_r. Qed.

(** The sends (receives) that were told to try again so far. *)
Definition ev_send_stall (e : event) : nat :=
  match e with Ev (Send _ _) (inl errno) => if would_block errno then 1 else 0 | _ => 0 end.
Definition ev_recv_stall (e : event) : nat :=
  match e with Ev (Recv _ _) (inl errno) => if would_block errno then 1 else 0 | _ => 0 end.
Definition send_stalls (t : history) : nat := foldr (fun e n => (ev_send_stall e + n)%nat) 0%nat t.
Definition recv_stalls (t : history) : nat := foldr (fun e n => (ev_recv_stall e + n)%nat) 0%nat t.

(** In all, at most [K] calls of [send] are told to try again. *)
Class SendProgress (P : Platform) (K : nat) : Prop := {
  send_stalls_end t fd data :
    (K <= send_stalls t)%nat ->
    match answer t (Send fd data) with inl errno => would_block errno = false | inr _ => True end
}.

(** In all, at most [K] calls of [recv] are told to try again. *)
Class RecvProgress (P : Platform) (K : nat) : Prop := {
  recv_stalls_end t fd n :
    (K <= recv_stalls t)%nat ->
    match answer t (Recv fd n) with inl errno => would_block errno = false | inr _ => True end
}.

Section Transfer.
Context {P : Platform} {L : KernelLaws P}.

(** Turns left: one per byte, and one per send that may still block. *)
Definition send_measure (K : nat) (buf : list Z) (n : Z) (w : World) : nat :=
  (length buf - Z.to_nat n + (K - send_stalls (hist w)))%nat.

(** The part of [buf] taken so far is its first [n] bytes. *)
Definition send_progress (fd : Z) (buf : list Z) (w0 : World) (n : Z) (w : World) : Prop :=
  0 <= n <= Z.of_nat (length buf) /\
  sent fd (hist w) = sent fd (hist w0) ++ take (Z.to_nat n) buf.

Lemma send_all_step_progress fd buf tm w0 n w :
  send_progress fd buf w0 n w ->
  wp total (send_all_step fd buf tm n)
    (fun r w' => match r with
      | inl n' => send_progress fd buf w0 n' w'
      | inr true => sent fd (hist w') = sent fd (hist w0) ++ buf
      | inr false => exists k, (k < length buf)%nat /\
          sent fd (hist w') = sent fd (hist w0) ++ take k buf
      end) w.
Proof.
  intros [Hn Hs]. unfold send_all_step. wp_step.
  { wp_step. apply negb_true_iff, Z.ltb_ge in E. rewrite Hs, take_ge; [done|lia]. }
  apply negb_false_iff, Z.ltb_lt in E. do 2 wp_step.
  assert (Hkeep : forall e, ev_sent fd e = [] ->
    sent fd (e :: hist w) = sent fd (hist w0) ++ take (Z.to_nat n) buf)
    by (intros; by rewrite sent_quiet).
  assert (Hsome : forall h, sent fd h = sent fd (hist w0) ++ take (Z.to_nat n) buf ->
    exists k, (k < length buf)%nat /\ sent fd h = sent fd (hist w0) ++ take k buf)
    by (intros; exists (Z.to_nat n); split; [lia|done]).
  destruct (answer (hist w) (Send fd _)) as [errno|k] eqn:Ha; wp_steps; cbn.
  - apply Hsome. rewrite sent_quiet by done. by apply Hkeep.
  - split; [lia|]. cbn. rewrite sent_quiet by done. by apply Hkeep.
  - apply Hsome. by apply Hkeep.
  - apply Z.ltb_lt in E0. apply send_bound in Ha. rewrite length_drop in Ha.
    split; [lia|]. cbn. rewrite sent_cons, Hs. cbn. rewrite Z.eqb_refl, <- app_assoc.
    f_equal. rewrite Z2Nat.inj_add, take_take_drop by lia. done.
  - apply Z.ltb_ge in E0. apply Hsome, Hkeep. cbn.
    rewrite Z.eqb_refl. replace (Z.to_nat k) with 0%nat by lia. done.
Qed.

(** [send_all] hands over the buffer in order: all of it exactly when it
    returns [true], a proper prefix when it returns [false].  Its loop ends
    after at most one turn per byte and blocked send. *)
Definition send_fuelled (b : mode) (len fuel : nat) : Prop :=
  endless b \/ exists K, SendProgress P K /\ (len + K < fuel)%nat.

Lemma send_all_step_decreases K fd buf tm n w n' w' :
  SendProgress P K -> 0 <= n <= Z.of_nat (length buf) ->
  send_all_step fd buf tm n w = Ret (inl n') w' ->
  (send_measure K buf n' w' < send_measure K buf n w)%nat.
Proof.
  intros SP Hn. unfold send_all_step. destruct (Z.ltb_spec n (Z.of_nat (length buf))); [|done].
  cbn [negb]. unfold mbind, M_bind, do_call. cbn. set (data := drop (Z.to_nat n) buf).
  pose proof (send_stalls_end (hist w) fd data) as Hp.
  destruct (answer (hist w) (Send fd data)) as [errno|k] eqn:Ha.
  - destruct (would_block errno) eqn:Hwb; [|done].
    destruct (Z.leb_spec (answer (hist (log (Ev (Send fd data) (inl errno)) w)) (Poll fd true tm)) 0);
      cbn; [done|]. intros [= <- <-]. unfold send_measure. cbn. rewrite Hwb.
    destruct (decide (K <= send_stalls (hist w))%nat) as [HK|]; [|unfold send_stalls in *; lia].
    specialize (Hp HK). cbn in Hp. congruence.
  - destruct (Z.ltb_spec 0 k); [|done]. intros [= <- <-]. apply send_bound in Ha.
    unfold data in Ha. rewrite length_drop in Ha. unfold send_measure. cbn.
    unfold send_stalls in *. lia.
Qed.

(** The loop rule for [send_all], with the turns left as its measure. *)
Lemma send_all_loop b fuel fd buf tm (I : Z -> World -> Prop) (Q : bool -> World -> Prop) w :
  send_fuelled b (length buf) fuel ->
  (forall n w, I n w -> 0 <= n <= Z.of_nat (length buf) /\
     wp total (send_all_step fd buf tm n)
       (fun r w' => match r with inl n' => I n' w' | inr ok => Q ok w' end) w) ->
  I 0 w -> wp b (send_all fuel fd buf tm) Q w.
Proof.
  intros Hfuel Hstep HI. unfold send_all.
  assert (HK : exists K, endless b \/ SendProgress P K /\ (length buf + K < fuel)%nat).
  { destruct Hfuel as [?|[K ?]]; [by exists 0%nat; left|exists K; by right]. }
  destruct HK as [K HK]. eapply (wp_iter_measure _ _ I (send_measure K buf)); [|done|].
  - intros n w1 H1. destruct (Hstep n w1 H1) as [Hn Hs%(wp_total b)]. revert Hs. unfold wp.
    destruct (send_all_step fd buf tm n w1) as [[n'|ok] w2| | | |] eqn:He; try done.
    intros Hs. split; [done|]. destruct HK as [|[SP _]]; [by left|right].
    by eapply send_all_step_decreases.
  - destruct HK as [|[_ ?]]; [by left|right]. unfold send_measure. lia.
Qed.

Lemma send_all_sound b fuel fd buf tm w :
  send_fuelled b (length buf) fuel ->
  wp b (send_all fuel fd buf tm)
    (fun ok w' => if ok then sent fd (hist w') = sent fd (hist w) ++ buf
                  else exists k, (k < length buf)%nat /\
                       sent fd (hist w') = sent fd (hist w) ++ take k buf) w.
Proof.
  intros Hfuel. apply (send_all_loop b fuel fd buf tm (send_progress fd buf w)); [done| |].
  - intros n w1 H1. split; [apply H1|].
    eapply wp_mono; [by apply (send_all_step_progress fd buf tm w)|]. by intros [?|[]] ?.
  - split; [lia|]. by rewrite take_0, app_nil_r.
Qed.

(** [send] and [poll] leave rings, heap and descriptors alone. *)
Lemma send_all_still b fuel fd buf tm w :
  send_fuelled b (length buf) fuel ->
  wp b (send_all fuel fd buf tm)
    (fun _ w' => heap w' = heap w /\ next_obj w' = next_obj w /\ stats w' = stats w /\
       ghost_of (hist w') = ghost_of (hist w)) w.
Proof.
  intros Hfuel. pose (I := fun w' => heap w' = heap w /\ next_obj w' = next_obj w /\
    stats w' = stats w /\ ghost_of (hist w') = ghost_of (hist w)).
  apply (send_all_loop b fuel fd buf tm
    (fun n w' => 0 <= n <= Z.of_nat (length buf) /\ I w')); [done| |by split_and!; try lia].
  intros n w1 [Hn HI]. split; [done|]. unfold send_all_step. wp_step; [by wp_step|]. do 2 wp_step.
  destruct (answer (hist w1) (Send fd _)) as [|k] eqn:Ha; wp_steps; try done.
  apply send_bound in Ha. rewrite length_drop in Ha. apply Z.ltb_lt in E0. split; [lia|done].
Qed.

Definition recv_progress (fd len : Z) (w0 : World) (buf : list Z) (w : World) : Prop :=
  Z.of_nat (length buf) <= len /\ received fd (hist w) = received fd (hist w0) ++ buf.

Lemma recv_all_step_progress fd len tm w0 buf w :
  recv_progress fd len w0 buf w ->
  wp total (recv_all_step fd len tm buf)
    (fun r w' => match r with
      | inl buf' => recv_progress fd len w0 buf' w'
      | inr (Some buf') => Z.of_nat (length buf') = len /\
          received fd (hist w') = received fd (hist w0) ++ buf'
      | inr None => True
      end) w.
Proof.
  intros [Hn Hs]. unfold recv_all_step. wp_step.
  { wp_step. apply negb_true_iff, Z.ltb_ge in E. split; [lia|done]. }
  apply negb_false_iff, Z.ltb_lt in E. do 2 wp_step.
  destruct (answer (hist w) (Recv fd _)) as [errno|l] eqn:Ha; wp_steps; try done.
  - split; [done|]. cbn. by rewrite !received_quiet.
  - apply recv_bound in Ha; [|lia]. split; [rewrite length_app; lia|].
    cbn. rewrite received_cons, Hs. cbn. by rewrite Z.eqb_refl, app_assoc.
Qed.

(** On success [recv_all] returns exactly the next [len] bytes of the stream. *)
Lemma recv_all_sound fuel fd len tm w :
  0 <= len ->
  wp partial (recv_all fuel fd len tm)
    (fun r w' => match r with
      | Some buf => Z.of_nat (length buf) = len /\
          received fd (hist w') = received fd (hist w) ++ buf
      | None => True end) w.
Proof.
  intros Hlen. unfold recv_all. eapply (wp_iter partial _ (recv_progress fd len w)); [done| |].
  - intros buf w' H. eapply wp_total, wp_mono; [by apply recv_all_step_progress|].
    by intros [?|[?|]].
  - split; [done|]. by rewrite app_nil_r.
Qed.
End Transfer.

(** * Delivery *)

(** The peer's bytes on [fd] are [stream] and arrive: a read returns a chunk of
    it, of any size, or would block; after a successful [poll] it does not
    block. *)
Class Delivers (P : Platform) (fd : Z) (stream : list Z) : Prop := {
  deliver_recv t n :
    0 < n -> received fd t `prefix_of` stream -> received fd t <> stream ->
    match answer t (Recv fd n) with
    | inr l => l <> [] /\ (received fd t ++ l) `prefix_of` stream
    | inl errno => would_block errno = true /\ polled_in fd t = false
    end;
  deliver_poll t tm : 0 < answer t (Poll fd false tm)
}.

Section Delivery.
Context {P : Platform} {L : KernelLaws P}.
Context (fd : Z) (stream : list Z) {D : Delivers P fd stream}.

Definition recv_measure (len : Z) (buf : list Z) (w : World) : nat :=
  (2 * (Z.to_nat len - length buf) + if polled_in fd (hist w) then 0 else 1)%nat.

Lemma recv_all_delivers fuel want tm w :
  (received fd (hist w) ++ want) `prefix_of` stream ->
  (2 * length want + 1 < fuel)%nat ->
  wp total (recv_all fuel fd (Z.of_nat (length want)) tm)
    (fun r w' => r = Some want /\ received fd (hist w') = received fd (hist w) ++ want) w.
Proof.
  intros Hwant Hfuel. set (len := Z.of_nat (length want)). unfold recv_all.
  apply (wp_iter_total _
    (fun buf w' => recv_progress fd len w buf w' /\ received fd (hist w') `prefix_of` stream)
    (recv_measure len)).
  2: { split; [split; [cbn; lia|by rewrite app_nil_r]|]. by eapply prefix_app_l. }
  2: { unfold recv_measure, len. destruct (polled_in _ _); cbn; lia. }
  intros buf w1 [[Hlen Hrec] Hpre]. unfold recv_all_step. wp_step.
  { wp_step. apply negb_true_iff, Z.ltb_ge in E.
    assert (buf = want) as ->; [|done].
    rewrite Hrec in Hpre. apply (app_inv_head (received fd (hist w))).
    eapply prefix_same_length; [done..|]. rewrite !length_app. lia. }
  apply negb_false_iff, Z.ltb_lt in E.
  assert (Hmore : received fd (hist w1) <> stream).
  { intros Heq. apply prefix_length in Hwant.
    rewrite <- Heq, Hrec, !length_app in Hwant. lia. }
  pose proof (deliver_recv (hist w1) (len - Z.of_nat (length buf)) ltac:(lia) Hpre Hmore) as Hd.
  pose proof (recv_bound (hist w1) fd (len - Z.of_nat (length buf))) as Hb.
  do 2 wp_step. destruct (answer (hist w1) (Recv fd _)) as [errno|l] eqn:Ha.
  - destruct Hd as [Hw Hnp]. wp_step; [|congruence]. do 2 wp_step.
    pose proof (deliver_poll (fd := fd) (stream := stream)
      (Ev (Recv fd (len - Z.of_nat (length buf))) (inl errno) :: hist w1) tm) as Hpoll.
    wp_step; [apply Z.leb_le in E1; cbn in E1; lia|]. wp_step. unfold recv_progress. cbn.
    rewrite !received_quiet by done. split; [split; [split; done|done]|].
    unfold recv_measure. rewrite Hnp. cbn. rewrite Z.eqb_refl.
    rewrite (proj2 (Z.ltb_lt 0 _) Hpoll). cbn. lia.
  - destruct Hd as [Hne Hpre']. specialize (Hb l ltac:(lia) eq_refl).
    destruct l as [|x l]; [done|]. cbn [length] in Hb. wp_step. unfold recv_progress. cbn.
    rewrite received_cons. cbn. rewrite Z.eqb_refl.
    split; [split; [split|]|].
    + rewrite length_app. cbn. lia.
    + by rewrite Hrec, app_assoc.
    + done.
    + unfold recv_measure. cbn. rewrite length_app. cbn. destruct (polled_in _ _); lia.
Qed.

Lemma recv_handshake_delivers fuel reverse d rest w :
  stream = handshake_bytes reverse d ++ rest -> 0 <= d < 2 ^ 32 ->
  received fd (hist w) = [] -> (11 < fuel)%nat ->
  wp total (recv_handshake fuel fd) (fun r _ => r = Some (reverse, d)) w.
Proof.
  intros Hs Hd Hnil Hfuel. unfold recv_handshake. wp_step.
  change 5 with (Z.of_nat (length (handshake_bytes reverse d))).
  eapply wp_mono; [apply recv_all_delivers|].
  - rewrite Hnil, Hs. by apply prefix_app_r.
  - done.
  - intros ? ? [-> _]. wp_step. cbn.
    pose proof (parse_handshake_bytes reverse d [] Hd) as Hparse.
    rewrite app_nil_r in Hparse. by rewrite Hparse.
Qed.
End Delivery.

(** * Buffers *)

Section Buffers.
Context {P : Platform} {L : KernelLaws P}.

Definition nonnull (bufs : list Z) : list Z := List.filter (fun p => negb (p =? 0)) bufs.

(** Besides the blocks [m], exactly the buffers [bufs] are allocated, each once. *)
Definition holds (m : gset Z) (bufs : list Z) (w : World) : Prop :=
  mem_of (hist w) = Some (list_to_set (nonnull bufs) ∪ m) /\
  NoDup (nonnull bufs) /\ forall p, p ∈ nonnull bufs -> p ∉ m.

(** Apart from the allocations, nothing changed. *)
Definition only_mem (w w' : World) : Prop :=
  heap w' = heap w /\ next_obj w' = next_obj w /\ stats w' = stats w /\
  ghost_of (hist w') = ghost_of (hist w) /\ sq_used (hist w') = sq_used (hist w) /\
  (closes_ok (hist w) -> closes_ok (hist w')).

Lemma only_mem_trans w1 w2 w3 : only_mem w1 w2 -> only_mem w2 w3 -> only_mem w1 w3.
Proof. intros (?&?&?&?&?&?) (?&?&?&?&?&?). repeat split; auto; congruence. Qed.

Lemma holds_none m w : mem_of (hist w) = Some m -> holds m [] w.
Proof.
  intros Hm. split; [rewrite Hm; f_equal; set_solver|]. split; [constructor|set_solver].
Qed.

Lemma holds_all m w : holds m [] w -> mem_of (hist w) = Some m.
Proof. intros [-> _]. f_equal. set_solver. Qed.

Lemma holds_same m bufs w w' : mem_of (hist w') = mem_of (hist w) -> holds m bufs w -> holds m bufs w'.
Proof. intros He [? ?]. split; [congruence|done]. Qed.

Lemma nonnull_app l1 l2 : nonnull (l1 ++ l2) = nonnull l1 ++ nonnull l2.
Proof. apply List.filter_app. Qed.

Lemma allocate_holds b m bufs n w :
  holds m bufs w ->
  wp b (allocate_aligned_buffer n) (fun p w' => holds m (bufs ++ [p]) w' /\ only_mem w w') w.
Proof.
  intros (Hm & Hnd & Hdis). unfold allocate_aligned_buffer. wp_step. wp_step.
  destruct (answer (hist w) (PosixMemalign 4096 n)) as [ret p] eqn:Ha. cbn [fst snd].
  destruct (Z.eqb_spec ret 0) as [->|Hne]; cbn; wp_step; (split; [|by repeat split]).
  - destruct (memalign_fresh _ _ _ _ _ Ha Hm) as [Hp Hfresh].
    unfold holds. rewrite nonnull_app. cbn. rewrite (proj2 (Z.eqb_neq p 0) Hp). cbn.
    rewrite mem_of_cons. cbn. rewrite Hm. cbn. split_and!.
    + f_equal. set_solver.
    + apply NoDup_app. split; [done|]. split; [set_solver|]. apply NoDup_singleton.
    + set_solver.
  - unfold holds. rewrite nonnull_app. cbn. rewrite app_nil_r, mem_of_cons. cbn.
    destruct ret; [done|by split..].
Qed.

Lemma free_holds b m p bufs w :
  holds m (p :: bufs) w ->
  wp b (free_aligned_buffer p) (fun _ w' => holds m bufs w' /\ only_mem w w') w.
Proof.
  unfold holds. intros (Hm & Hnd & Hdis). unfold free_aligned_buffer. cbn in Hm, Hnd, Hdis.
  destruct (p =? 0) eqn:Hp; cbn in *; wp_step; [by repeat split|].
  apply NoDup_cons in Hnd as [Hni Hnd]. cbn. rewrite mem_of_cons. cbn. rewrite Hm. cbn.
  rewrite bool_decide_true by set_solver.
  assert (p ∉ m) by (apply Hdis; set_solver).
  split; [|by repeat split]. split_and!; [f_equal; set_solver|done|set_solver].
Qed.

Lemma free_all_holds b m bufs rest w :
  holds m (bufs ++ rest) w ->
  wp b (for_each bufs (fun buf _ => free_aligned_buffer buf) tt)
    (fun _ w' => holds m rest w' /\ only_mem w w') w.
Proof.
  intros H. apply (wp_for_each b _ (fun todo _ w' => holds m (todo ++ rest) w' /\ only_mem w w')).
  - intros p todo _ w1 [Hh Ho]. eapply wp_mono; [by apply free_holds|].
    intros _ w2 [? ?]. split; [done|]. by eapply only_mem_trans.
  - done.
  - split; [done|by repeat split].
Qed.
End Buffers.
