(* ===== verification/Config.v ===== *)
(** Command line: [include/config.hpp].

    [getopt_long] is libc's: the model takes the sequence of options it returns,
    each with its argument, and gives the loop over them, the defaulting of the
    UDP buffer and the validation, with [std::exit] as an outcome.  [atoi] is
    written out as glibc has it ([strtol] saturating at [long], then the
    conversion to [int]). *)

From S2P Require Import Prelude.
From Stdlib Require Import Ascii.

Inductive Mode := SERVER | CLIENT.
Inductive Protocol := TCP | UDP.

#[export] Instance Mode_eq_dec : EqDecision Mode.
Proof. solve_decision. Defined.
#[export] Instance Protocol_eq_dec : EqDecision Protocol.
Proof. solve_decision. Defined.

Record Config := mkConfig {
  mode : Mode;
  protocol : Protocol;
  server_ip : string;
  port : Z;
  duration_sec : Z;
  threads : Z;
  buf_size : Z;
  queue_depth : Z;
  in_flight : Z;
  udp_gso_size : Z;
  zero_copy : bool;
  sqpoll : bool;
  fixed_buffers : bool;
  fixed_files : bool;
  multishot_recv : bool;
  multi_process : bool;
  reverse : bool;
  use_zcrx : bool;
  zcrx_ifname : string;
  zcrx_base_queue : Z;
  zcrx_area_size : Z;
  zcrx_rq_entries : Z;
  zcrx_cq_entries : Z;
  interval_sec : Z;
  cpu_affinity : list Z
}.

#[export] Instance Config_eq_dec : EqDecision Config.
Proof. solve_decision. Defined.

(** The member initialisers. *)
Definition Config_default : Config := {|
  mode := CLIENT; protocol := TCP; server_ip := "127.0.0.1"; port := 5201;
  duration_sec := 10; threads := 1; buf_size := 128 * 1024; queue_depth := 256;
  in_flight := 32; udp_gso_size := 1472;
  zero_copy := false; sqpoll := false; fixed_buffers := true; fixed_files := true;
  multishot_recv := true; multi_process := false; reverse := false;
  use_zcrx := false; zcrx_ifname := ""; zcrx_base_queue := 0;
  zcrx_area_size := 256 * 1024 * 1024; zcrx_rq_entries := 8192; zcrx_cq_entries := 8192;
  interval_sec := 1; cpu_affinity := []
|}.

(** * [atoi] *)

Definition isspace (a : ascii) : bool :=
  let n := Z.of_nat (nat_of_ascii a) in ((9 <=? n) && (n <=? 13)) || (n =? 32).

Definition digit (a : ascii) : option Z :=
  let n := Z.of_nat (nat_of_ascii a) in
  if (48 <=? n) && (n <=? 57) then Some (n - 48) else None.

Fixpoint skip_space (s : string) : string :=
  match s with
  | String a s' => if isspace a then skip_space s' else s
  | EmptyString => EmptyString
  end.

Fixpoint digits (acc : Z) (s : string) : Z :=
  match s with
  | String a s' => match digit a with Some d => digits (10 * acc + d) s' | None => acc end
  | EmptyString => acc
  end.

Definition LONG_MAX := 2 ^ 63 - 1.
Definition LONG_MIN := - 2 ^ 63.

Definition strtol (s : string) : Z :=
  match skip_space s with
  | String a s' =>
      if ascii_dec a "-" then Z.max LONG_MIN (- digits 0 s')
      else if ascii_dec a "+" then Z.min LONG_MAX (digits 0 s')
      else Z.min LONG_MAX (digits 0 (String a s'))
  | EmptyString => 0
  end.

Definition atoi (s : string) : Z := i32 (strtol s).

(** * The option loop *)

(** What one call of [getopt_long] returns; [OptOther] is its ['?'], an unknown
    option or a missing argument. *)
Inductive opt :=
  | OptServer | OptClient (optarg : string) | OptPort (optarg : string) | OptUdp
  | OptReverse | OptZerocopy | OptZcrx | OptZcrxIf (optarg : string)
  | OptZcrxQueue (optarg : string) | OptNoMultishotRecv | OptSqpoll
  | OptParallel (optarg : string) | OptMultiProcess | OptLen (optarg : string)
  | OptQueueDepth (optarg : string) | OptNoFixedBuf | OptAffinity (optarg : string)
  | OptTime (optarg : string) | OptInterval (optarg : string) | OptHelp | OptOther.

(** [while ((pos = cpus.find(',')) != npos)]: the pieces before the commas, and
    what is left after the last one. *)
Fixpoint split_commas (cpus : string) : list string * string :=
  match cpus with
  | EmptyString => ([], EmptyString)
  | String a s =>
      let '(pieces, rest) := split_commas s in
      if ascii_dec a "," then (EmptyString :: pieces, rest)
      else match pieces with
           | [] => ([], String a rest)
           | p :: ps => (String a p :: ps, rest)
           end
  end.

(** The body of [case 'A'], as the list it appends. *)
Definition parse_affinity (cpus : string) : list Z :=
  let '(pieces, rest) := split_commas cpus in
  (atoi <$> pieces) ++ (if bool_decide (rest = ""%string) then [] else [atoi rest]).

(** Assignments to single members. *)
Definition set_mode v (c : Config) := mkConfig v (protocol c) (server_ip c) (port c)
  (duration_sec c) (threads c) (buf_size c) (queue_depth c) (in_flight c) (udp_gso_size c)
  (zero_copy c) (sqpoll c) (fixed_buffers c) (fixed_files c) (multishot_recv c) (multi_process
  c) (reverse c) (use_zcrx c) (zcrx_ifname c) (zcrx_base_queue c) (zcrx_area_size c)
  (zcrx_rq_entries c) (zcrx_cq_entries c) (interval_sec c) (cpu_affinity c).
Definition set_protocol v (c : Config) := mkConfig (mode c) v (server_ip c) (port c)
  (duration_sec c) (threads c) (buf_size c) (queue_depth c) (in_flight c) (udp_gso_size c)
  (zero_copy c) (sqpoll c) (fixed_buffers c) (fixed_files c) (multishot_recv c) (multi_process
  c) (reverse c) (use_zcrx c) (zcrx_ifname c) (zcrx_base_queue c) (zcrx_area_size c)
  (zcrx_rq_entries c) (zcrx_cq_entries c) (interval_sec c) (cpu_affinity c).
Definition set_server_ip v (c : Config) := mkConfig (mode c) (protocol c) v (port c)
  (duration_sec c) (threads c) (buf_size c) (queue_depth c) (in_flight c) (udp_gso_size c)
  (zero_copy c) (sqpoll c) (fixed_buffers c) (fixed_files c) (multishot_recv c) (multi_process
  c) (reverse c) (use_zcrx c) (zcrx_ifname c) (zcrx_base_queue c) (zcrx_area_size c)
  (zcrx_rq_entries c) (zcrx_cq_entries c) (interval_sec c) (cpu_affinity c).
Definition set_port v (c : Config) := mkConfig (mode c) (protocol c) (server_ip c) v
  (duration_sec c) (threads c) (buf_size c) (queue_depth c) (in_flight c) (udp_gso_size c)
  (zero_copy c) (sqpoll c) (fixed_buffers c) (fixed_files c) (multishot_recv c) (multi_process
  c) (reverse c) (use_zcrx c) (zcrx_ifname c) (zcrx_base_queue c) (zcrx_area_size c)
  (zcrx_rq_entries c) (zcrx_cq_entries c) (interval_sec c) (cpu_affinity c).
Definition set_duration_sec v (c : Config) := mkConfig (mode c) (protocol c) (server_ip c) (port
  c) v (threads c) (buf_size c) (queue_depth c) (in_flight c) (udp_gso_size c) (zero_copy c)
  (sqpoll c) (fixed_buffers c) (fixed_files c) (multishot_recv c) (multi_process c) (reverse c)
  (use_zcrx c) (zcrx_ifname c) (zcrx_base_queue c) (zcrx_area_size c) (zcrx_rq_entries c)
  (zcrx_cq_entries c) (interval_sec c) (cpu_affinity c).
Definition set_threads v (c : Config) := mkConfig (mode c) (protocol c) (server_ip c) (port c)
  (duration_sec c) v (buf_size c) (queue_depth c) (in_flight c) (udp_gso_size c) (zero_copy c)
  (sqpoll c) (fixed_buffers c) (fixed_files c) (multishot_recv c) (multi_process c) (reverse c)
  (use_zcrx c) (zcrx_ifname c) (zcrx_base_queue c) (zcrx_area_size c) (zcrx_rq_entries c)
  (zcrx_cq_entries c) (interval_sec c) (cpu_affinity c).
Definition set_buf_size v (c : Config) := mkConfig (mode c) (protocol c) (server_ip c) (port c)
  (duration_sec c) (threads c) v (queue_depth c) (in_flight c) (udp_gso_size c) (zero_copy c)
  (sqpoll c) (fixed_buffers c) (fixed_files c) (multishot_recv c) (multi_process c) (reverse c)
  (use_zcrx c) (zcrx_ifname c) (zcrx_base_queue c) (zcrx_area_size c) (zcrx_rq_entries c)
  (zcrx_cq_entries c) (interval_sec c) (cpu_affinity c).
Definition set_queue_depth v (c : Config) := mkConfig (mode c) (protocol c) (server_ip c) (port
  c) (duration_sec c) (threads c) (buf_size c) v (in_flight c) (udp_gso_size c) (zero_copy c)
  (sqpoll c) (fixed_buffers c) (fixed_files c) (multishot_recv c) (multi_process c) (reverse c)
  (use_zcrx c) (zcrx_ifname c) (zcrx_base_queue c) (zcrx_area_size c) (zcrx_rq_entries c)
  (zcrx_cq_entries c) (interval_sec c) (cpu_affinity c).
Definition set_zero_copy v (c : Config) := mkConfig (mode c) (protocol c) (server_ip c) (port c)
  (duration_sec c) (threads c) (buf_size c) (queue_depth c) (in_flight c) (udp_gso_size c) v
  (sqpoll c) (fixed_buffers c) (fixed_files c) (multishot_recv c) (multi_process c) (reverse c)
  (use_zcrx c) (zcrx_ifname c) (zcrx_base_queue c) (zcrx_area_size c) (zcrx_rq_entries c)
  (zcrx_cq_entries c) (interval_sec c) (cpu_affinity c).
Definition set_sqpoll v (c : Config) := mkConfig (mode c) (protocol c) (server_ip c) (port c)
  (duration_sec c) (threads c) (buf_size c) (queue_depth c) (in_flight c) (udp_gso_size c)
  (zero_copy c) v (fixed_buffers c) (fixed_files c) (multishot_recv c) (multi_process c)
  (reverse c) (use_zcrx c) (zcrx_ifname c) (zcrx_base_queue c) (zcrx_area_size c)
  (zcrx_rq_entries c) (zcrx_cq_entries c) (interval_sec c) (cpu_affinity c).
Definition set_fixed_buffers v (c : Config) := mkConfig (mode c) (protocol c) (server_ip c)
  (port c) (duration_sec c) (threads c) (buf_size c) (queue_depth c) (in_flight c) (udp_gso_size
  c) (zero_copy c) (sqpoll c) v (fixed_files c) (multishot_recv c) (multi_process c) (reverse c)
  (use_zcrx c) (zcrx_ifname c) (zcrx_base_queue c) (zcrx_area_size c) (zcrx_rq_entries c)
  (zcrx_cq_entries c) (interval_sec c) (cpu_affinity c).
Definition set_multishot_recv v (c : Config) := mkConfig (mode c) (protocol c) (server_ip c)
  (port c) (duration_sec c) (threads c) (buf_size c) (queue_depth c) (in_flight c) (udp_gso_size
  c) (zero_copy c) (sqpoll c) (fixed_buffers c) (fixed_files c) v (multi_process c) (reverse c)
  (use_zcrx c) (zcrx_ifname c) (zcrx_base_queue c) (zcrx_area_size c) (zcrx_rq_entries c)
  (zcrx_cq_entries c) (interval_sec c) (cpu_affinity c).
Definition set_multi_process v (c : Config) := mkConfig (mode c) (protocol c) (server_ip c)
  (port c) (duration_sec c) (threads c) (buf_size c) (queue_depth c) (in_flight c) (udp_gso_size
  c) (zero_copy c) (sqpoll c) (fixed_buffers c) (fixed_files c) (multishot_recv c) v (reverse c)
  (use_zcrx c) (zcrx_ifname c) (zcrx_base_queue c) (zcrx_area_size c) (zcrx_rq_entries c)
  (zcrx_cq_entries c) (interval_sec c) (cpu_affinity c).
Definition set_reverse v (c : Config) := mkConfig (mode c) (protocol c) (server_ip c) (port c)
  (duration_sec c) (threads c) (buf_size c) (queue_depth c) (in_flight c) (udp_gso_size c)
  (zero_copy c) (sqpoll c) (fixed_buffers c) (fixed_files c) (multishot_recv c) (multi_process
  c) v (use_zcrx c) (zcrx_ifname c) (zcrx_base_queue c) (zcrx_area_size c) (zcrx_rq_entries c)
  (zcrx_cq_entries c) (interval_sec c) (cpu_affinity c).
Definition set_use_zcrx v (c : Config) := mkConfig (mode c) (protocol c) (server_ip c) (port c)
  (duration_sec c) (threads c) (buf_size c) (queue_depth c) (in_flight c) (udp_gso_size c)
  (zero_copy c) (sqpoll c) (fixed_buffers c) (fixed_files c) (multishot_recv c) (multi_process
  c) (reverse c) v (zcrx_ifname c) (zcrx_base_queue c) (zcrx_area_size c) (zcrx_rq_entries c)
  (zcrx_cq_entries c) (interval_sec c) (cpu_affinity c).
Definition set_zcrx_ifname v (c : Config) := mkConfig (mode c) (protocol c) (server_ip c) (port
  c) (duration_sec c) (threads c) (buf_size c) (queue_depth c) (in_flight c) (udp_gso_size c)
  (zero_copy c) (sqpoll c) (fixed_buffers c) (fixed_files c) (multishot_recv c) (multi_process
  c) (reverse c) (use_zcrx c) v (zcrx_base_queue c) (zcrx_area_size c) (zcrx_rq_entries c)
  (zcrx_cq_entries c) (interval_sec c) (cpu_affinity c).
Definition set_zcrx_base_queue v (c : Config) := mkConfig (mode c) (protocol c) (server_ip c)
  (port c) (duration_sec c) (threads c) (buf_size c) (queue_depth c) (in_flight c) (udp_gso_size
  c) (zero_copy c) (sqpoll c) (fixed_buffers c) (fixed_files c) (multishot_recv c)
  (multi_process c) (reverse c) (use_zcrx c) (zcrx_ifname c) v (zcrx_area_size c)
  (zcrx_rq_entries c) (zcrx_cq_entries c) (interval_sec c) (cpu_affinity c).
Definition set_interval_sec v (c : Config) := mkConfig (mode c) (protocol c) (server_ip c) (port
  c) (duration_sec c) (threads c) (buf_size c) (queue_depth c) (in_flight c) (udp_gso_size c)
  (zero_copy c) (sqpoll c) (fixed_buffers c) (fixed_files c) (multishot_recv c) (multi_process
  c) (reverse c) (use_zcrx c) (zcrx_ifname c) (zcrx_base_queue c) (zcrx_area_size c)
  (zcrx_rq_entries c) (zcrx_cq_entries c) v (cpu_affinity c).
Definition set_cpu_affinity v (c : Config) := mkConfig (mode c) (protocol c) (server_ip c) (port
  c) (duration_sec c) (threads c) (buf_size c) (queue_depth c) (in_flight c) (udp_gso_size c)
  (zero_copy c) (sqpoll c) (fixed_buffers c) (fixed_files c) (multishot_recv c) (multi_process
  c) (reverse c) (use_zcrx c) (zcrx_ifname c) (zcrx_base_queue c) (zcrx_area_size c)
  (zcrx_rq_entries c) (zcrx_cq_entries c) (interval_sec c) v.

(** One [case] of the [switch]: the configuration with [len_user_set], or the
    exit status. *)
Definition apply_opt (o : opt) (st : Config * bool) : (Config * bool) + Z :=
  let '(cfg, len_user_set) := st in
  match o with
  | OptServer => inl (set_mode SERVER cfg, len_user_set)
  | OptClient a => inl (set_server_ip a (set_mode CLIENT cfg), len_user_set)
  | OptPort a => inl (set_port (u16 (atoi a)) cfg, len_user_set)
  | OptUdp => inl (set_protocol UDP cfg, len_user_set)
  | OptReverse => inl (set_reverse true cfg, len_user_set)
  | OptZerocopy => inl (set_zero_copy true cfg, len_user_set)
  | OptZcrx => inl (set_use_zcrx true cfg, len_user_set)
  | OptZcrxIf a => inl (set_zcrx_ifname a cfg, len_user_set)
  | OptZcrxQueue a => inl (set_zcrx_base_queue (u32 (atoi a)) cfg, len_user_set)
  | OptNoMultishotRecv => inl (set_multishot_recv false cfg, len_user_set)
  | OptSqpoll => inl (set_sqpoll true cfg, len_user_set)
  | OptParallel a => inl (set_threads (u32 (Z.max 1 (atoi a))) cfg, len_user_set)
  | OptMultiProcess => inl (set_multi_process true cfg, len_user_set)
  | OptLen a => inl (set_buf_size (u32 (Z.max 64 (atoi a))) cfg, true)
  | OptQueueDepth a => inl (set_queue_depth (u32 (Z.max 16 (atoi a))) cfg, len_user_set)
  | OptNoFixedBuf => inl (set_fixed_buffers false cfg, len_user_set)
  | OptAffinity a =>
      inl (set_cpu_affinity (cpu_affinity cfg ++ parse_affinity a) cfg, len_user_set)
  | OptTime a => inl (set_duration_sec (u32 (Z.max 1 (atoi a))) cfg, len_user_set)
  | OptInterval a => inl (set_interval_sec (u32 (Z.max 1 (atoi a))) cfg, len_user_set)
  | OptHelp => inr 0
  | OptOther => inr 1
  end.

Fixpoint apply_opts (opts : list opt) (st : Config * bool) : (Config * bool) + Z :=
  match opts with
  | [] => inl st
  | o :: opts =>
      match apply_opt o st with
      | inl st' => apply_opts opts st'
      | inr code => inr code
      end
  end.

(** What follows the loop: the UDP default, the three rejections and the server
    warning. *)
Definition finish_args (cfg : Config) (len_user_set : bool) : Config + Z :=
  let cfg := if negb len_user_set && bool_decide (protocol cfg = UDP)
             then set_buf_size (u32 (40 * udp_gso_size cfg)) cfg else cfg in
  let client_zcrx_recv := use_zcrx cfg && reverse cfg && bool_decide (mode cfg = CLIENT) in
  if use_zcrx cfg && bool_decide (zcrx_ifname cfg = ""%string) &&
     (bool_decide (mode cfg = SERVER) || client_zcrx_recv) then inr 1
  else if use_zcrx cfg && bool_decide (protocol cfg = UDP) then inr 1
  else if reverse cfg && bool_decide (protocol cfg = UDP) then inr 1
  else if reverse cfg && bool_decide (mode cfg = SERVER) then inl (set_reverse false cfg)
  else inl cfg.

Definition parse_args (opts : list opt) : Config + Z :=
  match apply_opts opts (Config_default, false) with
  | inl (cfg, len_user_set) => finish_args cfg len_user_set
  | inr code => inr code
  end.

(** * Invariants *)

(** Every member is in the range its uses rely on. *)
Definition ranges_ok (c : Config) : Prop :=
  0 <= port c < 2 ^ 16 /\ 1 <= threads c < 2 ^ 31 /\ 64 <= buf_size c < 2 ^ 31 /\
  16 <= queue_depth c < 2 ^ 31 /\ 1 <= duration_sec c < 2 ^ 31 /\
  1 <= interval_sec c < 2 ^ 31 /\ 0 <= zcrx_base_queue c < 2 ^ 32 /\
  in_flight c = 32 /\ udp_gso_size c = 1472 /\ zcrx_area_size c = 2 ^ 28 /\
  zcrx_rq_entries c = 2 ^ 13 /\ zcrx_cq_entries c = 2 ^ 13 /\
  Forall (fun core => - 2 ^ 31 <= core < 2 ^ 31) (cpu_affinity c).

(** The combinations that [parse_args] rules out. *)
Definition combination_ok (c : Config) : Prop :=
  (reverse c = true -> mode c = CLIENT /\ protocol c = TCP) /\
  (use_zcrx c = true -> protocol c = TCP /\
     (mode c = SERVER \/ reverse c = true -> zcrx_ifname c <> ""%string)).

Lemma atoi_range s : - 2 ^ 31 <= atoi s < 2 ^ 31.
Proof. apply i32_range. Qed.

Lemma parse_affinity_range s : Forall (fun core => - 2 ^ 31 <= core < 2 ^ 31) (parse_affinity s).
Proof.
  unfold parse_affinity. destruct (split_commas s) as [pieces rest].
  apply Forall_app. split.
  - apply Forall_fmap, Forall_true. intros. apply atoi_range.
  - case_bool_decide; repeat constructor; apply atoi_range.
Qed.

(** [std::max(low, atoi(arg))] stored in a [uint32_t]. *)
Lemma max_atoi_range low s :
  0 <= low < 2 ^ 31 -> low <= u32 (Z.max low (atoi s)) < 2 ^ 31.
Proof. intros. pose proof (atoi_range s). rewrite u32_small; lia. Qed.

Lemma ranges_ok_default : ranges_ok Config_default.
Proof. by repeat split. Qed.

Lemma apply_opt_ranges o st cfg' b :
  ranges_ok st.1 -> apply_opt o st = inl (cfg', b) -> ranges_ok cfg'.
Proof.
  destruct st as [cfg l]. intros (?&?&?&?&?&?&?&?&?&?&?&?&?) Ho.
  destruct o; cbn in *; simplify_eq; unfold ranges_ok; cbn; split_and!;
    first [done | lia | apply u16_range | apply u32_range | apply max_atoi_range; lia
          | apply Forall_app; split; [done|apply parse_affinity_range]].
Qed.

Lemma apply_opts_ranges opts st cfg' b :
  ranges_ok st.1 -> apply_opts opts st = inl (cfg', b) -> ranges_ok cfg'.
Proof.
  revert st. induction opts as [|o opts IH]; intros st Hok; cbn; [by intros [= ->]|].
  destruct (apply_opt o st) as [[c l]|] eqn:Ho; [|done].
  apply IH. cbn. by eapply apply_opt_ranges.
Qed.

Lemma finish_args_ok cfg l cfg' :
  ranges_ok cfg -> finish_args cfg l = inl cfg' -> ranges_ok cfg' /\ combination_ok cfg'.
Proof.
  intros Hr. unfold finish_args.
  set (c := if negb l && _ then set_buf_size _ cfg else cfg).
  assert (Hc : ranges_ok c).
  { destruct Hr as (?&?&?&?&?&?&?&?&Hg&?&?&?&?). subst c. case_match; unfold ranges_ok; cbn; rewrite ?Hg; split_and!; done || lia. }
  clearbody c. clear Hr cfg l. unfold combination_ok.
  destruct (use_zcrx c) eqn:?, (reverse c) eqn:?, (mode c) eqn:?, (protocol c) eqn:?,
    (bool_decide (zcrx_ifname c = ""%string)) eqn:Hn; cbn; intros [= <-]; cbn;
    split; try done; try apply bool_decide_eq_false in Hn; intuition congruence.
Qed.

(** What the rest of the program may rely on. *)
Lemma parse_args_sound opts cfg :
  parse_args opts = inl cfg -> ranges_ok cfg /\ combination_ok cfg.
Proof.
  unfold parse_args. destruct (apply_opts opts (Config_default, false)) as [[c l]|code] eqn:Ho; [|done].
  intros Hf. eapply finish_args_ok; [|exact Hf].
  eapply (apply_opts_ranges opts (Config_default, false)); [apply ranges_ok_default|exact Ho].
Qed.
