(* ===== verification/Engine.v ===== *)
(** The ring wrapper: [include/uring_engine.hpp] and [src/uring_engine.cpp].

    [UringEngine] holds the flags the wrapper remembers; its methods are the
    liburing calls they make.  [prep_*] obtain a submission entry, fill it and
    queue it ([PutSqe] is the entry as it stands when the method returns). *)

From S2P Require Import Prelude Stats Sys Only Kernel NetUtils.

Record UringEngine := mkEngine {
  queue_depth_ : Z;
  sqpoll_enabled_ : bool;
  buffers_registered_ : bool;
  files_registered_ : bool;
  zc_supported_ : bool;
  iovecs_ : list (Z * Z);
  recv_buf_ring_ : Z;      (** 0 is [nullptr] *)
  recv_buf_mem_ : Z;
  recv_buf_count_ : Z;
  recv_buf_size_ : Z;
  recv_bgid_ : Z
}.

Definition set_buffers_registered (b : bool) (iov : list (Z * Z)) (e : UringEngine) :=
  mkEngine (queue_depth_ e) (sqpoll_enabled_ e) b (files_registered_ e) (zc_supported_ e) iov
    (recv_buf_ring_ e) (recv_buf_mem_ e) (recv_buf_count_ e) (recv_buf_size_ e) (recv_bgid_ e).
Definition set_files_registered (b : bool) (e : UringEngine) :=
  mkEngine (queue_depth_ e) (sqpoll_enabled_ e) (buffers_registered_ e) b (zc_supported_ e)
    (iovecs_ e) (recv_buf_ring_ e) (recv_buf_mem_ e) (recv_buf_count_ e) (recv_buf_size_ e)
    (recv_bgid_ e).
Definition set_recv_ring (ring mem count size bgid : Z) (e : UringEngine) :=
  mkEngine (queue_depth_ e) (sqpoll_enabled_ e) (buffers_registered_ e) (files_registered_ e)
    (zc_supported_ e) (iovecs_ e) ring mem count size bgid.

(** The blank entry that the [io_uring_prep_*] helpers start from. *)
Definition prep_entry (op : opcode) (fd addr len : Z) : sqe :=
  mkSqe op fd addr len 0 0 0 0 0 0 0.

Definition with_flags (f : Z) (s : sqe) : sqe :=
  mkSqe (sq_op s) (sq_fd s) (sq_addr s) (sq_len s) (sq_off s) (Z.lor (sq_flags s) f) (sq_buf_index s)
    (sq_buf_group s) (sq_ioprio s) (sq_zcrx_ifq_idx s) (sq_user_data s).
Definition with_buf_index (i : Z) (s : sqe) : sqe :=
  mkSqe (sq_op s) (sq_fd s) (sq_addr s) (sq_len s) (sq_off s) (sq_flags s) (u16 i)
    (sq_buf_group s) (sq_ioprio s) (sq_zcrx_ifq_idx s) (sq_user_data s).
Definition with_buf_group (g : Z) (s : sqe) : sqe :=
  mkSqe (sq_op s) (sq_fd s) (sq_addr s) (sq_len s) (sq_off s) (sq_flags s) (sq_buf_index s)
    g (sq_ioprio s) (sq_zcrx_ifq_idx s) (sq_user_data s).
Definition with_data (p : Z) (s : sqe) : sqe :=
  mkSqe (sq_op s) (sq_fd s) (sq_addr s) (sq_len s) (sq_off s) (sq_flags s) (sq_buf_index s)
    (sq_buf_group s) (sq_ioprio s) (sq_zcrx_ifq_idx s) p.
Definition with_off (off : Z) (s : sqe) : sqe :=
  mkSqe (sq_op s) (sq_fd s) (sq_addr s) (sq_len s) off (sq_flags s) (sq_buf_index s)
    (sq_buf_group s) (sq_ioprio s) (sq_zcrx_ifq_idx s) (sq_user_data s).

(** [next_pow2], on 32-bit unsigned words. *)
Definition next_pow2 (v : Z) : Z :=
  if v =? 0 then 1 else
  let v := u32 (v - 1) in
  let v := Z.lor v (Z.shiftr v 1) in
  let v := Z.lor v (Z.shiftr v 2) in
  let v := Z.lor v (Z.shiftr v 4) in
  let v := Z.lor v (Z.shiftr v 8) in
  let v := Z.lor v (Z.shiftr v 16) in
  u32 (v + 1).

Section Engine.
Context {P : Platform}.

(** [params.flags] as the constructor sets it. *)
Definition setup_flags (use_sqpoll : bool) : Z :=
  let flags := if use_sqpoll then Z.lor 0 IORING_SETUP_SQPOLL else 0 in
  let flags := Z.lor flags IORING_SETUP_SINGLE_ISSUER in
  if negb use_sqpoll then Z.lor flags IORING_SETUP_COOP_TASKRUN else flags.

Definition UringEngine_new (queue_depth : Z) (use_sqpoll : bool) : M UringEngine :=
  let engine sqpoll := mkEngine queue_depth sqpoll false false true [] 0 0 0 0 0 in
  ret ← do_call (QueueInitParams queue_depth (setup_flags use_sqpoll)
                   (if use_sqpoll then 2000 else 0) 0);
  if ret <? 0 then
    ret ← do_call (QueueInit queue_depth 0);
    if ret <? 0 then throw (- ret) else mret (engine false)
  else mret (engine use_sqpoll).

Definition UringEngine_destroy (e : UringEngine) : M unit :=
  (if buffers_registered_ e then do_call UnregisterBuffers else mret tt);;
  (if files_registered_ e then do_call UnregisterFiles else mret tt);;
  (if negb (recv_buf_ring_ e =? 0)
   then do_call (FreeBufRing (recv_buf_ring_ e) (recv_buf_count_ e) (recv_bgid_ e));;
        do_call (Free (recv_buf_mem_ e))
   else mret tt);;
  do_call QueueExit.

Definition register_buffers (buffers : list Z) (buf_size : Z) (e : UringEngine)
    : M (bool * UringEngine) :=
  match buffers with
  | [] => mret (false, e)
  | _ =>
      let iov := (fun ptr => (ptr, buf_size)) <$> buffers in
      ret ← do_call (RegisterBuffers iov);
      if ret <? 0 then mret (false, set_buffers_registered false iov e)
      else mret (true, set_buffers_registered true iov e)
  end.

Definition register_files (fds : list Z) (e : UringEngine) : M (bool * UringEngine) :=
  match fds with
  | [] => mret (false, e)
  | _ =>
      ret ← do_call (RegisterFiles fds);
      if ret <? 0 then mret (false, set_files_registered false e)
      else mret (true, set_files_registered true e)
  end.

(** ** Submission builders *)

(** [if (use_fixed_file && files_registered_) sqe->flags |= IOSQE_FIXED_FILE] *)
Definition fixed_file_flag (e : UringEngine) (use_fixed_file : bool) (s : sqe) : sqe :=
  if use_fixed_file && files_registered_ e then with_flags IOSQE_FIXED_FILE s else s.

(** Obtain an entry; fill it with [s], or give up when the queue is full. *)
Definition prep (s : sqe) : M bool :=
  ok ← do_call GetSqe;
  if negb ok then mret false else do_call (PutSqe s);; mret true.

(** The entry [prep_send_standard] builds; [idx] is [ctx->buf_idx]. *)
Definition send_standard_sqe (e : UringEngine) (fd buf len idx ctx : Z) (use_fixed_file : bool)
    : sqe :=
  let s := prep_entry OP_SEND fd buf len in
  let s := if buffers_registered_ e then with_buf_index idx s else s in
  with_data ctx (fixed_file_flag e use_fixed_file s).

(** [ctx->buf_idx] is only read once the entry was obtained and when buffers
    are registered. *)
Definition prep_send_standard (e : UringEngine) (fd buf len ctx : Z) (use_fixed_file : bool)
    : M bool :=
  ok ← do_call GetSqe;
  if negb ok then mret false else
  idx ← (if buffers_registered_ e then c ← load_ctx ctx; mret (ctx_buf_idx c) else mret 0);
  do_call (PutSqe (send_standard_sqe e fd buf len idx ctx use_fixed_file));;
  mret true.

Definition send_zc_sqe (e : UringEngine) (fd buf len buf_idx ctx : Z) (use_fixed_file : bool)
    : sqe :=
  let s := if buffers_registered_ e
           then with_buf_index buf_idx (prep_entry OP_SEND_ZC_FIXED fd buf len)
           else prep_entry OP_SEND_ZC fd buf len in
  with_data ctx (fixed_file_flag e use_fixed_file s).

Definition prep_send_zc (e : UringEngine) (fd buf len buf_idx ctx : Z) (use_fixed_file : bool)
    : M bool :=
  if negb (zc_supported_ e) then prep_send_standard e fd buf len ctx false
  else prep (send_zc_sqe e fd buf len buf_idx ctx use_fixed_file).

Definition recv_sqe (e : UringEngine) (fd buf len buf_idx ctx : Z) (use_fixed_file : bool)
    : sqe :=
  let s := prep_entry OP_RECV fd buf len in
  let s := if buffers_registered_ e then with_buf_index buf_idx s else s in
  with_data ctx (fixed_file_flag e use_fixed_file s).

Definition prep_recv (e : UringEngine) (fd buf len buf_idx ctx : Z) (use_fixed_file : bool)
    : M bool := prep (recv_sqe e fd buf len buf_idx ctx use_fixed_file).

(** [io_uring_prep_accept] keeps the address in [addr] and the pointer to its
    length in [addr2]. *)
Definition accept_sqe (listen_fd client_addr addr_len ctx : Z) : sqe :=
  with_data ctx (with_off addr_len (prep_entry OP_ACCEPT listen_fd client_addr 0)).

Definition prep_accept (listen_fd client_addr addr_len ctx : Z) : M bool :=
  prep (accept_sqe listen_fd client_addr addr_len ctx).

(** ** Provided-buffer ring *)

Definition setup_multishot_recv (buf_count buf_size bgid : Z) (e : UringEngine)
    : M (bool * UringEngine) :=
  let buf_count := next_pow2 buf_count in
  r ← do_call (SetupBufRing buf_count bgid 0);
  if r.1 =? 0 then mret (false, set_recv_ring 0 (recv_buf_mem_ e) (recv_buf_count_ e)
                                  (recv_buf_size_ e) (recv_bgid_ e) e) else
  m ← do_call (PosixMemalign 4096 (u64 (buf_count * buf_size)));
  if negb (m.1 =? 0) then
    do_call (FreeBufRing r.1 buf_count bgid);;
    mret (false, set_recv_ring 0 (recv_buf_mem_ e) (recv_buf_count_ e)
                   (recv_buf_size_ e) (recv_bgid_ e) e)
  else
    let mask := io_uring_buf_ring_mask buf_count in
    for_each (zseq buf_count) (fun i _ =>
      do_call (BufRingAdd r.1 (m.2 + u64 (i * buf_size)) buf_size (u16 i) mask i)) tt;;
    do_call (BufRingAdvance r.1 buf_count);;
    mret (true, set_recv_ring r.1 m.2 buf_count buf_size bgid e).

Definition recv_multishot_sqe (e : UringEngine) (fd ctx : Z) (use_fixed_file : bool) : sqe :=
  let s := with_flags IOSQE_BUFFER_SELECT (prep_entry OP_RECV_MULTISHOT fd 0 0) in
  with_data ctx (fixed_file_flag e use_fixed_file (with_buf_group (recv_bgid_ e) s)).

Definition prep_recv_multishot (e : UringEngine) (fd ctx : Z) (use_fixed_file : bool) : M bool :=
  prep (recv_multishot_sqe e fd ctx use_fixed_file).

Definition recv_buffer_data (e : UringEngine) (buf_id : Z) : Z :=
  recv_buf_mem_ e + u64 (buf_id * recv_buf_size_ e).

Definition return_recv_buffer (e : UringEngine) (buf_id : Z) : M unit :=
  let mask := io_uring_buf_ring_mask (recv_buf_count_ e) in
  do_call (BufRingAdd (recv_buf_ring_ e) (recv_buf_mem_ e + u64 (buf_id * recv_buf_size_ e))
             (recv_buf_size_ e) buf_id mask 0);;
  do_call (BufRingAdvance (recv_buf_ring_ e) 1).

Definition multishot_recv_ready (e : UringEngine) : bool := negb (recv_buf_ring_ e =? 0).

(** ** Submission and completion *)

Definition submit : M Z := do_call Submit.

Definition submit_and_wait (wait_nr : Z) : M Z :=
  do_call (SubmitAndWaitTimeout wait_nr 200000000).

Definition reap_completions (max_reap : Z) : M (list cqe) :=
  cqes ← do_call ForEachCqe;
  mret (take (Z.to_nat max_reap) cqes).

Definition cqe_seen : M unit := do_call CqeSeen.
End Engine.

(** * [next_pow2] *)

(** [v] has a bit set at [i] exactly when [v0] has one within [w] places above. *)
Definition smeared (v0 w v : Z) : Prop :=
  forall i, 0 <= i -> (Z.testbit v i = true <-> exists j, i <= j < i + w /\ Z.testbit v0 j = true).

Lemma smeared_init v : smeared v 1 v.
Proof.
  intros i Hi. split.
  - intros H. exists i. by split; [lia|].
  - intros (j & ? & ?). by replace i with j by lia.
Qed.

Lemma smeared_step v0 w v :
  0 <= w -> smeared v0 w v -> smeared v0 (2 * w) (Z.lor v (Z.shiftr v w)).
Proof.
  intros Hw Hv i Hi. rewrite Z.lor_spec, Z.shiftr_spec, orb_true_iff by lia.
  rewrite (Hv i), (Hv (i + w)) by lia. split.
  - intros [(j & ? & ?)|(j & ? & ?)]; exists j; split; (lia || done).
  - intros (j & Hj & Hb). destruct (Z.lt_ge_cases j (i + w)); [left|right];
      exists j; (split; [lia|done]).
Qed.

Lemma smeared_ones v0 v :
  0 < v0 < 2 ^ 32 -> 0 <= v -> smeared v0 32 v -> v = 2 ^ (Z.log2 v0 + 1) - 1.
Proof.
  intros Hv0 Hv Hs. assert (Hlog : Z.log2 v0 < 32) by (apply Z.log2_lt_pow2; lia).
  pose proof (Z.log2_nonneg v0).
  replace (2 ^ (Z.log2 v0 + 1) - 1) with (Z.ones (Z.log2 v0 + 1))
    by (rewrite Z.ones_equiv; lia).
  apply Z.bits_inj'. intros i Hi. apply eq_true_iff_eq. rewrite (Hs i Hi).
  destruct (Z.lt_ge_cases i (Z.log2 v0 + 1)) as [Hlt|Hge].
  - rewrite Z.ones_spec_low by lia. split; [done|]. intros _.
    exists (Z.log2 v0). split; [lia|]. apply Z.bit_log2. lia.
  - rewrite Z.ones_spec_high by lia. split; [|done].
    intros (j & Hj & Hb). rewrite Z.bits_above_log2 in Hb by lia. done.
Qed.

Lemma lor_shiftr_nonneg v n : 0 <= v -> 0 <= Z.lor v (Z.shiftr v n).
Proof. intros. apply Z.lor_nonneg. split; [done|]. by apply Z.shiftr_nonneg. Qed.

Lemma next_pow2_log2 v : 2 <= v < 2 ^ 32 -> next_pow2 v = u32 (2 ^ (Z.log2 (v - 1) + 1)).
Proof.
  intros Hv. unfold next_pow2. rewrite (proj2 (Z.eqb_neq v 0)) by lia.
  rewrite (u32_small (v - 1)) by lia. cbn zeta. f_equal.
  match goal with |- ?x + 1 = _ => enough (x = 2 ^ (Z.log2 (v - 1) + 1) - 1) by lia end.
  apply smeared_ones; [lia|repeat apply lor_shiftr_nonneg; lia|].
  apply (smeared_step _ 16), (smeared_step _ 8), (smeared_step _ 4), (smeared_step _ 2),
    (smeared_step _ 1), smeared_init; lia.
Qed.

Lemma next_pow2_least v :
  1 <= v <= 2 ^ 31 ->
  exists k, 0 <= k <= 31 /\ next_pow2 v = 2 ^ k /\ v <= 2 ^ k /\
            forall j, 0 <= j -> v <= 2 ^ j -> k <= j.
Proof.
  intros Hv. destruct (decide (v = 1)) as [->|Hne]; [exists 0; repeat split; (done || lia)|].
  rewrite next_pow2_log2 by lia. exists (Z.log2 (v - 1) + 1).
  pose proof (Z.log2_nonneg (v - 1)). pose proof (Z.log2_spec (v - 1) ltac:(lia)) as [Hlo Hhi].
  assert (Z.log2 (v - 1) < 31) by (apply Z.log2_lt_pow2; lia).
  split; [lia|]. rewrite <- Z.add_1_r in Hhi. split; [|split; [lia|]].
  - apply u32_small. split; [lia|]. apply Z.le_lt_trans with (2 ^ 31); [|done].
    apply Z.pow_le_mono_r; lia.
  - intros j Hj Hvj. enough (Z.log2 (v - 1) < j) by lia.
    apply Z.log2_lt_pow2; lia.
Qed.

Lemma next_pow2_overflow v : 2 ^ 31 < v < 2 ^ 32 -> next_pow2 v = 0.
Proof.
  intros Hv. rewrite next_pow2_log2 by lia.
  replace (Z.log2 (v - 1)) with 31; [done|]. symmetry. apply Z.log2_unique; lia.
Qed.

(** * Effect of the submission builders *)

Section Effects.
Context {P : Platform}.

(** [w'] is [w] after queuing the entries [new] (newest first): nothing else
    the program or the ring's contract depends on has changed. *)
Definition queued (new : list sqe) (w w' : World) : Prop :=
  heap w' = heap w /\ next_obj w' = next_obj w /\ stats w' = stats w /\
  owed_of (hist w') = new ++ owed_of (hist w) /\ cq_of (hist w') = cq_of (hist w) /\
  fds_of (hist w') = fds_of (hist w) /\ bufs_of (hist w') = bufs_of (hist w) /\
  dealt_of (hist w') = dealt_of (hist w).

(** A builder that queues [s], or nothing when there is no free entry. *)
Definition queues (s : sqe) (w : World) (ok : bool) (w' : World) : Prop :=
  queued (if ok then [s] else []) w w' /\
  ok = answer (hist w) GetSqe /\
  sq_used (hist w') = sq_used (hist w) + (if ok then 1 else 0).

Lemma prep_queues b s w : wp b (prep s) (queues s w) w.
Proof.
  unfold prep. do 3 wp_step; [wp_step|wp_steps]; cbn in *;
    destruct (answer (hist w) GetSqe) eqn:Ha; try done;
    repeat split; cbn; (done || (unfold sq_used; cbn; lia)).
Qed.

Lemma prep_send_standard_queues b e fd buf len ctx c uff w :
  heap w !! ctx = Some (OCtx c) ->
  wp b (prep_send_standard e fd buf len ctx uff)
    (queues (send_standard_sqe e fd buf len
               (if buffers_registered_ e then ctx_buf_idx c else 0) ctx uff) w) w.
Proof.
  intros Hc. unfold prep_send_standard. do 3 wp_step.
  - wp_step. cbn in *. destruct (answer (hist w) GetSqe) eqn:Ha; [done|].
    repeat split; cbn; (done || (unfold sq_used; cbn; lia)).
  - cbn in E. destruct (answer (hist w) GetSqe) eqn:Ha; [|done]. wp_step. wp_step.
    + wp_step. eapply wp_load_ctx; [done|]. wp_steps.
      repeat split; cbn; (done || (unfold sq_used; cbn; lia)).
    + wp_steps. repeat split; cbn; (done || (unfold sq_used; cbn; lia)).
Qed.

(** The entry [prep_send_zc] queues when zero-copy is supported. *)
Lemma prep_send_zc_queues b e fd buf len idx ctx uff w :
  zc_supported_ e = true ->
  wp b (prep_send_zc e fd buf len idx ctx uff)
    (queues (send_zc_sqe e fd buf len idx ctx uff) w) w.
Proof. intros Hz. unfold prep_send_zc. rewrite Hz. apply prep_queues. Qed.

(** Every entry an engine method builds carries the context as [user_data],
    and names a registered file exactly when files are registered. *)
Lemma fixed_file_flag_spec e uff s :
  sq_flags s = 0 ->
  has_flag (sq_flags (fixed_file_flag e uff s)) IOSQE_FIXED_FILE = uff && files_registered_ e.
Proof.
  intros Hs. unfold fixed_file_flag. destruct (uff && files_registered_ e); cbn; by rewrite Hs.
Qed.
End Effects.

(** * Effect of reaping and consuming *)

Section Completions.
Context {P : Platform}.

(** [w'] differs from [w] by calls that matter neither to the ring nor to the
    program's memory. *)
Definition quiet (w w' : World) : Prop := queued [] w w'.

Lemma quiet_refl w : quiet w w.
Proof. by repeat split. Qed.

Lemma quiet_trans w1 w2 w3 : quiet w1 w2 -> quiet w2 w3 -> quiet w1 w3.
Proof. intros (?&?&?&?&?&?&?&?) (?&?&?&?&?&?&?&?). repeat split; cbn in *; congruence. Qed.

Lemma quiet_ghost w w' : quiet w w' -> ghost_of (hist w') = ghost_of (hist w).
Proof.
  intros (_&_&_&?&?&?&?&?). destruct (ghost_of (hist w)), (ghost_of (hist w')).
  cbn in *. by subst.
Qed.

Lemma submit_quiet b w : wp b submit (fun _ w' => quiet w w' /\ sq_used (hist w') = 0) w.
Proof. unfold submit. wp_step. by repeat split. Qed.

Lemma submit_and_wait_quiet b n w :
  wp b (submit_and_wait n) (fun _ w' => quiet w w' /\ sq_used (hist w') = 0) w.
Proof. unfold submit_and_wait. wp_step. by repeat split. Qed.

(** Consuming the oldest completion. *)
Definition consumed (c : cqe) (cs : list cqe) (w w' : World) : Prop :=
  heap w' = heap w /\ next_obj w' = next_obj w /\ stats w' = stats w /\
  owed_of (hist w') = settle c (owed_of (hist w)) /\ cq_of (hist w') = cs /\
  fds_of (hist w') = fds_of (hist w) /\ lent_of (hist w') = unlend c (lent_of (hist w)) /\
  dealt_of (hist w') = dealt_of (hist w) ++ [(op_of (owed_of (hist w)) c, c)] /\
  sq_used (hist w') = sq_used (hist w).

Lemma cqe_seen_consumes b c cs w :
  cq_of (hist w) = c :: cs -> wp b cqe_seen (fun _ => consumed c cs w) w.
Proof.
  intros Hcq. unfold cqe_seen. wp_step. unfold consumed. cbn. rewrite ghost_of_cons. cbn.
  unfold consume. rewrite Hcq. by repeat split.
Qed.

(** Reaping: the batch is the beginning of the completion queue, no longer than
    asked for, and empty only if the queue is. *)
Definition reaped (max : Z) (w : World) (batch : list cqe) (w' : World) : Prop :=
  heap w' = heap w /\ next_obj w' = next_obj w /\ stats w' = stats w /\
  owed_of (hist w') = owed_of (hist w) /\ bufs_of (hist w') = bufs_of (hist w) /\
  dealt_of (hist w') = dealt_of (hist w) /\ sq_used (hist w') = sq_used (hist w) /\
  cq_of (hist w') = answer (hist w) ForEachCqe /\
  batch = take (Z.to_nat max) (cq_of (hist w')) /\
  fds_of (hist w') = fds_of (hist w) ∪
    list_to_set (accepted (owed_of (hist w))
      (drop (length (cq_of (hist w))) (cq_of (hist w')))).

Lemma reap_completions_reaps b max w : wp b (reap_completions max) (reaped max w) w.
Proof. unfold reap_completions. wp_steps. by repeat split. Qed.

Lemma reaped_ring_ok {L : KernelLaws P} max w batch w' :
  ring_ok (hist w) -> reaped max w batch w' -> ring_ok (hist w').
Proof.
  intros Hok (_&_&_&Ho&_&_&_&Hcq&_). unfold ring_ok. rewrite Ho, Hcq. by apply ring_answers.
Qed.
End Completions.

(** * Calls of the engine's methods *)

Section OnlyEngine.
Context {P : Platform}.

Lemma only_prep s : only keeps (prep s).
Proof. unfold prep. by only_tac. Qed.
Lemma only_prep_send_standard e fd buf len ctx uff :
  only keeps (prep_send_standard e fd buf len ctx uff).
Proof. unfold prep_send_standard. by only_tac. Qed.
Lemma only_prep_send_zc e fd buf len idx ctx uff :
  only keeps (prep_send_zc e fd buf len idx ctx uff).
Proof. unfold prep_send_zc. only_tac; apply only_prep_send_standard || apply only_prep. Qed.
Lemma only_return_recv_buffer e bid : only keeps (return_recv_buffer e bid).
Proof. unfold return_recv_buffer. by only_tac. Qed.
Lemma only_reap max : only keeps (reap_completions max).
Proof. unfold reap_completions. by only_tac. Qed.
Lemma only_cqe_seen : only keeps cqe_seen.
Proof. unfold cqe_seen. by only_tac. Qed.
Lemma only_submit : only keeps submit.
Proof. unfold submit. by only_tac. Qed.
Lemma only_submit_and_wait n : only keeps (submit_and_wait n).
Proof. unfold submit_and_wait. by only_tac. Qed.
Lemma only_register_files fds e : only keeps (register_files fds e).
Proof. unfold register_files. by only_tac. Qed.
Lemma only_register_buffers bufs n e : only keeps (register_buffers bufs n e).
Proof. unfold register_buffers. by only_tac. Qed.
Lemma only_UringEngine_new d s : only keeps (UringEngine_new d s).
Proof. unfold UringEngine_new. by only_tac. Qed.
End OnlyEngine.
#[export] Hint Resolve only_prep only_prep_send_standard only_prep_send_zc
  only_return_recv_buffer only_reap only_cqe_seen only_submit only_submit_and_wait
  only_register_files only_register_buffers only_UringEngine_new : only.
#[export] Hint Unfold prep_recv prep_accept prep_recv_multishot : only.

(** * Life cycle *)

Section LifeCycle.
Context {P : Platform}.

(** A new ring: nothing in flight, nothing consumed, no buffer lent. *)
Definition fresh_ring (w w' : World) : Prop :=
  heap w' = heap w /\ next_obj w' = next_obj w /\ stats w' = stats w /\
  ghost_of (hist w') = mkGhost [] [] (fds_of (hist w)) no_bufs [] /\
  mem_of (hist w') = mem_of (hist w) /\ (closes_ok (hist w) -> closes_ok (hist w')).

(** An engine with nothing registered. *)
Definition blank_engine (d : Z) (sqpoll : bool) : UringEngine :=
  mkEngine d sqpoll false false true [] 0 0 0 0 0.

Lemma UringEngine_new_spec b d sqpoll w :
  ring_init b d ->
  wp b (UringEngine_new d sqpoll)
    (fun e w' => (exists s, e = blank_engine d s) /\ fresh_ring w w') w.
Proof.
  intros Hb. unfold UringEngine_new. do 3 wp_step; [|wp_step; split; [by eexists|by repeat split]].
  do 3 wp_step; [|wp_step; split; [by eexists|by repeat split]].
  destruct Hb as [Hb|Hb]; [by apply wp_throw|]. apply Z.ltb_lt in E0.
  pose proof (queue_init_ok (hist (log (Ev (QueueInitParams d (setup_flags sqpoll)
    (if sqpoll then 2000 else 0) 0) (answer (hist w) _)) w))). lia.
Qed.

Lemma register_files_spec b fds e w :
  wp b (register_files fds e)
    (fun r w' => r.2 = (if bool_decide (fds = []) then e else set_files_registered r.1 e) /\
                 only_mem w w' /\ mem_of (hist w') = mem_of (hist w)) w.
Proof.
  unfold register_files. destruct fds as [|fd fds]; wp_steps; by repeat split.
Qed.

Lemma register_buffers_spec b bufs n e w :
  wp b (register_buffers bufs n e)
    (fun r w' => only_mem w w' /\ mem_of (hist w') = mem_of (hist w)) w.
Proof. unfold register_buffers. destruct bufs; wp_steps; by repeat split. Qed.

(** The destructor gives back the provided-buffer pool, if there is one. *)
Lemma UringEngine_destroy_spec {L : KernelLaws P} b m e w :
  holds m (if recv_buf_ring_ e =? 0 then [] else [recv_buf_mem_ e]) w ->
  (recv_buf_ring_ e <> 0 -> recv_buf_mem_ e <> 0) ->
  wp b (UringEngine_destroy e) (fun _ w' => mem_of (hist w') = Some m /\ only_mem w w') w.
Proof.
  intros Hh Hmem. unfold UringEngine_destroy.
  assert (Hend : forall w1, mem_of (hist w1) = mem_of (hist w) -> only_mem w w1 ->
    wp b ((if negb (recv_buf_ring_ e =? 0)
           then do_call (FreeBufRing (recv_buf_ring_ e) (recv_buf_count_ e) (recv_bgid_ e));;
                do_call (Free (recv_buf_mem_ e))
           else mret tt);; do_call QueueExit)
      (fun _ w' => mem_of (hist w') = Some m /\ only_mem w w') w1).
  { intros w1 Hm1 Ho. apply (holds_same _ _ _ w1) in Hh; [|done].
    destruct (Z.eqb_spec (recv_buf_ring_ e) 0) as [He|He]; cbn [negb].
    - wp_steps. split; [by apply holds_all in Hh|].
      eapply only_mem_trans; [exact Ho|by repeat split].
    - wp_step. wp_step. wp_step.
      set (w2 := log _ w1). assert (H2 : only_mem w1 w2) by (by repeat split).
      pose proof (free_holds b m (recv_buf_mem_ e) [] w2 Hh) as Hf.
      unfold free_aligned_buffer in Hf. rewrite (proj2 (Z.eqb_neq _ 0) (Hmem He)) in Hf.
      eapply wp_mono; [exact Hf|]. cbn. intros _ w3 [H3 Ho3]. wp_step.
      split; [by apply holds_all in H3|].
      eapply only_mem_trans; [exact Ho|]. eapply only_mem_trans; [exact H2|].
      eapply only_mem_trans; [exact Ho3|]. by repeat split. }
  repeat first [apply Hend; [done|by repeat split] | wp_step].
Qed.
End LifeCycle.

(** * The provided-buffer pool *)

(** The entries a call publishes, given what is staged. *)
Definition ev_posted (st : list (Z * Z * entry)) (e : event) : list entry :=
  match e with
  | Ev (BufRingAdvance br n) _ => publish br n st
  | _ => []
  end.

(** The entries the kernel has been given so far, newest first. *)
Fixpoint posted (t : history) : list entry :=
  match t with
  | [] => []
  | e :: t => ev_posted (staged (bufs_of t)) e ++ posted t
  end.

(** The size of the block that [posix_memalign] last returned at [p]. *)
Fixpoint block_size (t : history) (p : Z) : option Z :=
  match t with
  | [] => None
  | Ev (PosixMemalign _ n) (ret, q) :: t =>
      if (ret =? 0) && (q =? p) then Some n else block_size t p
  | _ :: t => block_size t p
  end.

(** Buffer [i] of a pool at [mem] with buffers of [size] bytes. *)
Definition slot (mem size i : Z) : entry := (i, mem + i * size, size).

(** The buffers [l] of such a pool, each written as many places after the tail
    of the ring as its number says. *)
Definition staged_slots (br mem size : Z) (l : list Z) : list (Z * Z * entry) :=
  rev ((fun i => (br, i, slot mem size i)) <$> l).

Lemma stage_slot br mem size l i :
  i ∉ l ->
  stage br i (slot mem size i) (staged_slots br mem size l) = staged_slots br mem size (l ++ [i]).
Proof.
  intros Hi. unfold staged_slots. rewrite fmap_app, rev_app_distr. cbn. unfold stage. f_equal.
  rewrite <- fmap_rev. assert (Hr : i ∉ rev l) by (by rewrite elem_of_rev).
  induction (rev l) as [|j k IH]; cbn; [done|]. apply not_elem_of_cons in Hr as [Hne Hk].
  rewrite Z.eqb_refl, (proj2 (Z.eqb_neq j i)) by done. cbn. f_equal. by apply IH.
Qed.

(** Advancing by the number of buffers publishes them all. *)
Lemma publish_slots br mem size n l :
  (forall i, i ∈ l -> 0 <= i < n) ->
  publish br n (staged_slots br mem size l) = rev (slot mem size <$> l) /\
  unpublished br n (staged_slots br mem size l) = [].
Proof.
  intros Hl. unfold staged_slots, publish, unpublished. rewrite <- !fmap_rev.
  assert (Hr : forall i, i ∈ rev l -> 0 <= i < n)
    by (intros i; rewrite elem_of_rev; apply Hl).
  clear Hl. induction (rev l) as [|i k IH]; cbn; [done|].
  assert (Hw : within br n (br, i, slot mem size i) = true).
  { destruct (Hr i ltac:(by constructor)). unfold within. cbn. rewrite Z.eqb_refl. cbn.
    apply andb_true_iff. lia. }
  rewrite Hw. cbn. destruct IH as [-> ->]; [|done]. intros j ?. apply Hr. by constructor.
Qed.

Section Pool.
Context {P : Platform}.

(** Nothing but lent buffers and allocations changed. *)
Definition only_lent (w w' : World) : Prop :=
  heap w' = heap w /\ next_obj w' = next_obj w /\ stats w' = stats w /\
  owed_of (hist w') = owed_of (hist w) /\ cq_of (hist w') = cq_of (hist w) /\
  fds_of (hist w') = fds_of (hist w) /\ dealt_of (hist w') = dealt_of (hist w) /\
  sq_used (hist w') = sq_used (hist w) /\ (closes_ok (hist w) -> closes_ok (hist w')).

Lemma only_lent_trans w1 w2 w3 : only_lent w1 w2 -> only_lent w2 w3 -> only_lent w1 w3.
Proof. intros (?&?&?&?&?&?&?&?&?) (?&?&?&?&?&?&?&?&?). repeat split; auto; congruence. Qed.

Lemma post_pool_spec b br mem size mask n w :
  0 <= n <= 2 ^ 16 -> 0 <= size -> n * size < 2 ^ 64 -> staged (bufs_of (hist w)) = [] ->
  wp b (for_each (zseq n) (fun i _ =>
          do_call (BufRingAdd br (mem + u64 (i * size)) size (u16 i) mask i)) tt)
    (fun _ w' => only_lent w w' /\ mem_of (hist w') = mem_of (hist w) /\
       lent_of (hist w') = lent_of (hist w) /\ posted (hist w') = posted (hist w) /\
       (forall p, block_size (hist w') p = block_size (hist w) p) /\
       staged (bufs_of (hist w')) = staged_slots br mem size (zseq n)) w.
Proof.
  intros Hn Hsz Hfit Hst.
  apply (wp_for_each b _ (fun rest _ w' => exists pre, zseq n = pre ++ rest /\
    only_lent w w' /\ mem_of (hist w') = mem_of (hist w) /\
    lent_of (hist w') = lent_of (hist w) /\ posted (hist w') = posted (hist w) /\
    (forall p, block_size (hist w') p = block_size (hist w) p) /\
    staged (bufs_of (hist w')) = staged_slots br mem size pre)).
  - intros i rest _ w1 (pre & Hz & Ho & Hm & Hl & Hp & Hb & Hs). wp_step.
    assert (Hi : 0 <= i < n) by (apply elem_of_zseq; rewrite Hz; set_solver).
    exists (pre ++ [i]). rewrite u16_small, u64_small by nia.
    split; [by rewrite <- app_assoc|]. split_and!; try done.
    + eapply only_lent_trans; [exact Ho|by repeat split].
    + cbn. rewrite ghost_of_cons. cbn. rewrite Hs. apply stage_slot.
      pose proof (NoDup_zseq n) as Hnd. rewrite Hz in Hnd.
      apply NoDup_app in Hnd as (_ & Hnd & _). intros Hin. by apply (Hnd i Hin), list_elem_of_here.
  - intros _ w' (pre & Hz & ?). rewrite app_nil_r in Hz. by subst pre.
  - exists []. by split_and!.
Qed.

(** Giving a buffer back publishes its entry, and changes nothing else. *)
Lemma return_recv_buffer_spec b e id w :
  wp b (return_recv_buffer e id)
    (fun _ w' => lent_of (hist w') = id :: lent_of (hist w) /\
       posted (hist w') = (id, recv_buffer_data e id, recv_buf_size_ e) :: posted (hist w) /\
       mem_of (hist w') = mem_of (hist w) /\
       (forall p, block_size (hist w') p = block_size (hist w) p) /\ only_lent w w') w.
Proof.
  unfold return_recv_buffer. wp_steps. cbn. rewrite !ghost_of_cons. cbn. rewrite publish_stage.
  split_and!; try done.
Qed.

Lemma setup_multishot_recv_spec {L : KernelLaws P} b n size bgid e m w :
  1 <= n <= 2 ^ 15 -> 0 <= size < 2 ^ 32 -> mem_of (hist w) = Some m ->
  wp b (setup_multishot_recv n size bgid e)
    (fun r w' => only_lent w w' /\
       if r.1 : bool then
         recv_buf_ring_ r.2 <> 0 /\ recv_buf_mem_ r.2 <> 0 /\
         recv_buf_count_ r.2 = next_pow2 n /\ recv_buf_size_ r.2 = size /\
         holds m [recv_buf_mem_ r.2] w' /\
         block_size (hist w') (recv_buf_mem_ r.2) = Some (next_pow2 n * size) /\
         staged (bufs_of (hist w')) = [] /\
         lent_of (hist w') = rev (zseq (next_pow2 n)) ++ lent_of (hist w) /\
         posted (hist w') =
           rev (slot (recv_buf_mem_ r.2) size <$> zseq (next_pow2 n)) ++ posted (hist w)
       else
         recv_buf_ring_ r.2 = 0 /\ mem_of (hist w') = Some m /\
         lent_of (hist w') = lent_of (hist w) /\ posted (hist w') = posted (hist w)) w.
Proof.
  intros Hn Hsz Hm. unfold setup_multishot_recv.
  destruct (next_pow2_least n) as (k & Hk & Hpow & Hle & Hleast); [lia|].
  assert (Hcount : 0 <= next_pow2 n <= 2 ^ 15).
  { rewrite Hpow. split; [lia|]. apply Z.pow_le_mono_r; [lia|]. apply Hleast; lia. }
  do 3 wp_step; [wp_step; by repeat split|]. apply Z.eqb_neq in E.
  do 2 wp_step. set (w1 := log _ w).
  destruct (answer (hist w1) (PosixMemalign _ _)) as [ret p] eqn:Ha. cbn [fst snd].
  destruct (Z.eqb_spec ret 0) as [->|Hne]; cbn [negb].
  - destruct (memalign_fresh _ _ _ _ _ Ha Hm) as [Hp Hfresh].
    assert (Hm1 : mem_of (hist w1) = Some m) by exact Hm.
    wp_step. set (w2 := log _ w1).
    assert (Hm2 : mem_of (hist w2) = Some ({[p]} ∪ m)).
    { unfold w2. cbn [hist log]. rewrite mem_of_cons. cbn [mem_step]. by rewrite Hm1. }
    eapply wp_mono; [apply post_pool_spec; [lia..|nia|]|].
    { unfold w2, w1. cbn. rewrite !ghost_of_cons. cbn. by rewrite (proj2 (Z.eqb_neq _ _) E). }
    cbn beta. intros _ w3 (Ho3 & Hm3 & Hl3 & Hp3 & Hb3 & Hs3).
    pose proof (fun i => proj1 (elem_of_zseq (next_pow2 n) i)) as Hz.
    destruct (publish_slots (answer (hist w) (SetupBufRing (next_pow2 n) bgid 0)).1 p size
      (next_pow2 n) (zseq (next_pow2 n)) Hz) as [Hpub Hunp].
    wp_steps. split.
    { eapply (only_lent_trans w w2); [by repeat split|].
      eapply only_lent_trans; [exact Ho3|by repeat split]. }
    cbn [fst snd]. split_and!; try done.
    2: { cbn. rewrite Hb3. cbn. rewrite Z.eqb_refl, u64_small by nia. done. }
    2: { cbn. rewrite ghost_of_cons. cbn. by rewrite Hs3. }
    2: { cbn. rewrite ghost_of_cons. cbn. rewrite Hs3, Hpub, Hl3, map_rev. f_equal. f_equal.
         clear. unfold zseq. induction (seq 0 _) as [|k l IH]; cbn; [done|]. by rewrite IH. }
    2: { cbn. rewrite Hs3, Hpub, Hp3. done. }
    unfold holds. cbn. rewrite (proj2 (Z.eqb_neq p 0) Hp). cbn.
    rewrite mem_of_cons. cbn. rewrite Hm3, Hm2.
    split_and!; [f_equal; set_solver|apply NoDup_singleton|set_solver].
  - wp_steps. destruct ret; by repeat split.
Qed.
End Pool.
