(* ===== verification/Zcrx.v ===== *)
(** Zero-copy receive: the second half of [src/worker.cpp] (namespace helpers,
    [Worker::run_server_zcrx], [Worker::run_client_reverse_recv_zcrx]).

    A zero-copy worker owns its own CQE32 ring, a registered NIC queue with a
    mapped buffer area, and the refill queue through which it hands consumed
    buffers back.  Connections are heap objects whose address, tagged in its
    three low bits, is the [user_data] of their receive request; the client's only
    one is a local variable. *)

From S2P Require Import Prelude Stats Sys Only Kernel NetUtils Config Engine.

Definition kZcrxReqTypeMask := 7.
Definition kZcrxReqAccept := 1.
Definition kZcrxReqRx := 2.

(** [~(((__u64)1 << 48) - 1)] *)
Definition IORING_ZCRX_AREA_MASK := 2 ^ 64 - 2 ^ 48.
(** [sizeof(struct io_uring_zcrx_rqe)] *)
Definition sizeof_rqe := 16.

Record ZcrxState := mkZcrxState {
  area_ptr : Z;
  ring_ptr : Z;
  ring_size : Z;
  rq_khead : Z;
  rq_ktail : Z;
  rq_rqes : Z;
  rq_tail : Z;
  rq_ring_entries : Z;
  area_token : Z;
  zcrx_id : Z
}.

Definition ZcrxState_init : ZcrxState := mkZcrxState 0 0 0 0 0 0 0 0 0 0.

Definition set_ring (ptr size : Z) (st : ZcrxState) : ZcrxState :=
  mkZcrxState (area_ptr st) ptr size (rq_khead st) (rq_ktail st) (rq_rqes st) (rq_tail st)
    (rq_ring_entries st) (area_token st) (zcrx_id st).
Definition set_area (ptr : Z) (st : ZcrxState) : ZcrxState :=
  mkZcrxState ptr (ring_ptr st) (ring_size st) (rq_khead st) (rq_ktail st) (rq_rqes st)
    (rq_tail st) (rq_ring_entries st) (area_token st) (zcrx_id st).
Definition set_rq_tail (t : Z) (st : ZcrxState) : ZcrxState :=
  mkZcrxState (area_ptr st) (ring_ptr st) (ring_size st) (rq_khead st) (rq_ktail st) (rq_rqes st)
    t (rq_ring_entries st) (area_token st) (zcrx_id st).

(** [(v + a - 1) & ~(a - 1)] on 64-bit words. *)
Definition zcrx_align_up (v a : Z) : Z :=
  Z.land (u64 (v + a - 1)) (u64 (Z.lnot (u64 (a - 1)))).

(** The entry [rqe->off] written for a completion. *)
Definition refill_off (cq_off token : Z) : Z :=
  Z.lor (Z.land cq_off (u64 (Z.lnot IORING_ZCRX_AREA_MASK))) token.

Section Zcrx.
Context {P : Platform}.

(** [mmap] of one region: [None] is [MAP_FAILED]. *)
Definition zcrx_setup (ifname : string) (queue_id area_size rq_entries : Z) (st : ZcrxState)
    : M (bool * ZcrxState) :=
  page_size ← do_call SysconfPagesize;
  ifindex ← do_call (IfNametoindex ifname);
  if ifindex =? 0 then mret (false, st) else
  let size := zcrx_align_up (u64 (rq_entries * sizeof_rqe + page_size)) page_size in
  r ← do_call (Mmap size);
  match r with
  | None => mret (false, set_ring 0 size st)
  | Some rp =>
      a ← do_call (Mmap area_size);
      match a with
      | None =>
          do_call (Munmap rp size);;
          mret (false, set_ring 0 size (set_area 0 st))
      | Some ap =>
          reply ← do_call (RegisterIfq
            (mkIfqReg ifindex queue_id rq_entries ap area_size rp size));
          if negb (ifr_ret reply =? 0) then
            do_call (Munmap ap area_size);;
            do_call (Munmap rp size);;
            mret (false, set_ring 0 size (set_area 0 st))
          else
            mret (true, mkZcrxState ap rp size (rp + ifr_head reply) (rp + ifr_tail reply)
                          (rp + ifr_rqes reply) 0 (ifr_rq_entries reply)
                          (ifr_area_token reply) (ifr_zcrx_id reply))
      end
  end.

Definition zcrx_teardown (st : ZcrxState) (area_size : Z) : M unit :=
  (if negb (area_ptr st =? 0) then do_call (Munmap (area_ptr st) area_size);; mret tt
   else mret tt);;
  (if negb (ring_ptr st =? 0) then do_call (Munmap (ring_ptr st) (ring_size st));; mret tt
   else mret tt).

Definition zcrx_rq_nr_queued (st : ZcrxState) : M Z :=
  khead ← do_call RqLoadHead;
  mret (u32 (rq_tail st - khead)).

Definition zcrx_return_buffer (st : ZcrxState) (c : cqe) : M ZcrxState :=
  nr ← zcrx_rq_nr_queued st;
  if nr =? rq_ring_entries st then mret st else
  let rq_mask := u32 (rq_ring_entries st - 1) in
  do_call (RqWrite (Z.land (rq_tail st) rq_mask)
             (refill_off (cq_off c) (area_token st)) (u32 (cq_res c)));;
  let tail := u32 (rq_tail st + 1) in
  do_call (RqStoreTail tail);;
  mret (set_rq_tail tail st).

(** Neither caller checks [io_uring_get_sqe]: filling a NULL entry faults. *)
Definition put_unchecked (s : sqe) : M unit :=
  ok ← do_call GetSqe;
  if negb ok then fault_now NullDeref else do_call (PutSqe s).

Definition zcrx_submit_accept (listen_fd : Z) : M unit :=
  put_unchecked (with_data kZcrxReqAccept (prep_entry OP_ACCEPT listen_fd 0 0)).

Definition recv_zc_sqe (fd zcrx_id conn : Z) : sqe :=
  mkSqe OP_RECV_ZC fd 0 0 0 0 0 0 IORING_RECV_MULTISHOT zcrx_id (Z.lor conn kZcrxReqRx).

Definition zcrx_submit_recv (conn zcrx_id : Z) : M unit :=
  ok ← do_call GetSqe;
  c ← load_conn conn;
  if negb ok then fault_now NullDeref else
  do_call (PutSqe (recv_zc_sqe (conn_fd c) zcrx_id conn)).

(** [params.flags] of both zero-copy rings. *)
Definition zcrx_setup_flags : Z :=
  Z.lor (Z.lor (Z.lor IORING_SETUP_COOP_TASKRUN IORING_SETUP_SINGLE_ISSUER)
               (Z.lor IORING_SETUP_DEFER_TASKRUN IORING_SETUP_SUBMIT_ALL))
        (Z.lor IORING_SETUP_CQE32 IORING_SETUP_CQSIZE).

(** A terminated multishot receive that is rearmed rather than ended. *)
Definition recoverable (res : Z) : bool := (res =? - ENOSPC) || (res =? - ENOMEM).

(** [cqe->res > 0] with more completions to come: count it and give the buffer
    back. *)
Definition zcrx_on_data (tid : Z) (zst : ZcrxState) (c : cqe) : M ZcrxState :=
  modify_stats (add_bytes tid (cq_res c) 1);;
  modify_stats (add_zc_notification tid);;
  zcrx_return_buffer zst c.

(** ** Server *)

Abbreviation conn_map := (gmap Z Z).   (* client_fd -> ZcrxConn* *)

Definition zcrx_on_accept (listen_fd : Z) (zst : ZcrxState) (conns : conn_map) (c : cqe)
    : M conn_map :=
  let client_fd := cq_res c in
  conns ← (if 0 <=? client_fd then
             set_nonblocking client_fd;;
             conn ← new_object (OConn (mkZcrxConn client_fd));
             zcrx_submit_recv conn (zcrx_id zst);;
             (match conns !! client_fd with
              | Some old => delete_object old
              | None => mret tt
              end);;
             mret (<[client_fd := conn]> conns)
           else mret conns);
  stop ← do_call StopLoad;
  (if negb stop then zcrx_submit_accept listen_fd else mret tt);;
  mret conns.

Definition zcrx_on_rx (tid : Z) (zst : ZcrxState) (conns : conn_map) (c : cqe)
    : M (ZcrxState * conn_map) :=
  let conn := Z.land (cq_user_data c) (Z.lnot kZcrxReqTypeMask) in
  if negb (has_flag (cq_flags c) IORING_CQE_F_MORE) then
    if recoverable (cq_res c) then
      zcrx_submit_recv conn (zcrx_id zst);; mret (zst, conns)
    else
      (if cq_res c <? 0 then modify_stats (add_error tid) else mret tt);;
      cn ← load_conn conn;
      match conns !! conn_fd cn with
      | Some p =>
          do_call (Close (conn_fd cn));;
          delete_object p;;
          mret (zst, delete (conn_fd cn) conns)
      | None => mret (zst, conns)
      end
  else if 0 <? cq_res c then
    zst' ← zcrx_on_data tid zst c; mret (zst', conns)
  else mret (zst, conns).

Definition zcrx_server_on_cqe (tid listen_fd : Z) (c : cqe) (st : ZcrxState * conn_map)
    : M (ZcrxState * conn_map) :=
  let '(zst, conns) := st in
  let tag := Z.land (cq_user_data c) kZcrxReqTypeMask in
  if tag =? kZcrxReqAccept then
    conns' ← zcrx_on_accept listen_fd zst conns c; mret (zst, conns')
  else if tag =? kZcrxReqRx then zcrx_on_rx tid zst conns c
  else mret (zst, conns).

(** One turn of the loop; [inr] leaves it. *)
Definition zcrx_server_iter (tid listen_fd : Z) (st : ZcrxState * conn_map)
    : M ((ZcrxState * conn_map) + (ZcrxState * conn_map)) :=
  stop ← do_call StopLoad;
  if (stop : bool) then mret (inr st) else
  wret ← do_call (SubmitAndWaitTimeout 1 200000000);
  if (wret <? 0) && negb (wret =? - ETIME) then mret (inr st) else
  cqes ← do_call ForEachCqe;
  st' ← for_each cqes (zcrx_server_on_cqe tid listen_fd) st;
  do_call (CqAdvance (Z.of_nat (length cqes)));;
  mret (inl st').

(** Closing every connection, teardown and ring exit after the loop. *)
Definition zcrx_server_finish (cfg : Config) (listen_fd : Z) (st : ZcrxState * conn_map)
    : M unit :=
  let '(zst, conns) := st in
  for_each (map_to_list conns) (fun kv _ => do_call (Close kv.1);; mret tt) tt;;
  zcrx_teardown zst (zcrx_area_size cfg);;
  do_call QueueExit;;
  do_call (Close listen_fd);;
  for_each (map_to_list conns) (fun kv _ => delete_object kv.2) tt.

Definition set_cpu_affinity (tid : Z) (cfg : Config) : M unit :=
  match cpu_affinity cfg !! Z.to_nat tid with
  | Some core_id => do_call (SetAffinity core_id);; mret tt
  | None => mret tt
  end.

Definition run_server_zcrx (fuel : nat) (tid : Z) (cfg : Config) : M unit :=
  set_cpu_affinity tid cfg;;
  let listen_port := u16 (port cfg + u16 tid) in
  listen_fd ← create_listen_socket "0.0.0.0" listen_port false false (udp_gso_size cfg);
  if listen_fd <? 0 then mret tt else
  ret ← do_call (QueueInitParams (zcrx_cq_entries cfg) zcrx_setup_flags 0 (zcrx_cq_entries cfg));
  if ret <? 0 then do_call (Close listen_fd);; mret tt else
  let queue_id := u32 (zcrx_base_queue cfg + u32 tid) in
  r ← zcrx_setup (zcrx_ifname cfg) queue_id (zcrx_area_size cfg) (zcrx_rq_entries cfg)
        ZcrxState_init;
  let '(ok, zst) := r in
  if negb ok then do_call QueueExit;; do_call (Close listen_fd);; mret tt else
  zcrx_submit_accept listen_fd;;
  do_call Submit;;
  st ← iter fuel (zcrx_server_iter tid listen_fd) (zst, ∅);
  zcrx_server_finish cfg listen_fd st.

(** ** Client *)

(** The loop's variables: refill queue and [peer_closed]. *)
Definition zcrx_client_on_cqe (tid conn : Z) (c : cqe) (st : ZcrxState * bool)
    : M (ZcrxState * bool) :=
  let '(zst, peer_closed) := st in
  if negb (has_flag (cq_flags c) IORING_CQE_F_MORE) then
    if recoverable (cq_res c) then
      zcrx_submit_recv conn (zcrx_id zst);; mret (zst, peer_closed)
    else
      (if cq_res c <? 0 then modify_stats (add_error tid) else mret tt);;
      mret (zst, true)
  else if 0 <? cq_res c then
    zst' ← zcrx_on_data tid zst c; mret (zst', peer_closed)
  else mret (zst, peer_closed).

Definition zcrx_client_iter (tid conn : Z) (st : ZcrxState * bool)
    : M ((ZcrxState * bool) + ZcrxState) :=
  stop ← do_call StopLoad;
  if (stop : bool) || st.2 then mret (inr st.1) else
  wret ← do_call (SubmitAndWaitTimeout 1 200000000);
  if (wret <? 0) && negb (wret =? - ETIME) then mret (inr st.1) else
  cqes ← do_call ForEachCqe;
  st' ← for_each cqes (zcrx_client_on_cqe tid conn) st;
  do_call (CqAdvance (Z.of_nat (length cqes)));;
  mret (inl st').

Definition run_client_reverse_recv_zcrx (fuel : nat) (tid : Z) (cfg : Config) (sockfd : Z)
    : M unit :=
  ret ← do_call (QueueInitParams (zcrx_cq_entries cfg) zcrx_setup_flags 0 (zcrx_cq_entries cfg));
  if ret <? 0 then mret tt else
  let queue_id := u32 (zcrx_base_queue cfg + u32 tid) in
  r ← zcrx_setup (zcrx_ifname cfg) queue_id (zcrx_area_size cfg) (zcrx_rq_entries cfg)
        ZcrxState_init;
  let '(ok, zst) := r in
  if negb ok then do_call QueueExit;; mret tt else
  set_nonblocking sockfd;;
  conn ← new_local "conn" (OConn (mkZcrxConn sockfd));
  zcrx_submit_recv conn (zcrx_id zst);;
  do_call Submit;;
  zst' ← iter fuel (zcrx_client_iter tid conn) (zst, false);
  zcrx_teardown zst' (zcrx_area_size cfg);;
  do_call QueueExit;;
  delete_object conn.
End Zcrx.
