(* ===== verification/Client.v ===== *)
(** The client worker: [Worker::run_client] and
    [Worker::run_client_reverse_recv] of [src/worker.cpp].

    Forward mode keeps [in_flight] send requests going on one connected socket;
    reverse mode receives on it, with one multishot request over the provided
    buffers or with a pool of single-shot requests. *)

From S2P Require Import Prelude Stats Sys Only Kernel NetUtils Config Engine Zcrx.

(** Packets accounted for a completion of [res] bytes. *)
Definition packets_of (cfg : Config) (res : Z) : Z :=
  if bool_decide (protocol cfg = UDP) then Z.max 1 (res / udp_gso_size cfg) else 1.

(** [cqe->res == -EAGAIN || cqe->res == -EWOULDBLOCK] *)
Definition res_again (res : Z) : bool := (res =? - EAGAIN) || (res =? - EWOULDBLOCK).

Section Client.
Context {P : Platform}.

(** The send that both directions of [cfg.zero_copy] queue for a context. *)
Definition prep_send_any (cfg : Config) (e : UringEngine) (fd buf len idx ctx : Z)
    (use_fixed_file : bool) : M bool :=
  if zero_copy cfg then prep_send_zc e fd buf len idx ctx use_fixed_file
  else prep_send_standard e fd buf len ctx use_fixed_file.

(** Queue the context's send again, with the arguments read through [ctx]. *)
Definition resubmit_send (cfg : Config) (e : UringEngine) (use_fixed_file : bool) (ctx : Z)
    : M bool :=
  c ← load_ctx ctx;
  prep_send_any cfg e (ctx_fd c) (ctx_buf_ptr c) (ctx_length c) (ctx_buf_idx c) ctx
    use_fixed_file.

(** Queue the context's single-shot receive again on [fd]. *)
Definition resubmit_recv (e : UringEngine) (fd ctx : Z) (use_fixed_file : bool) : M bool :=
  c ← load_ctx ctx;
  prep_recv e fd (ctx_buf_ptr c) (ctx_length c) (ctx_buf_idx c) ctx use_fixed_file.

(** A buffer and the context that describes it; the pools are built in order. *)
Definition new_buffer_ctx (kind : ctx_kind) (cfg : Config) (tid fd i : Z) : M (Z * Z) :=
  buf ← allocate_aligned_buffer (buf_size cfg);
  ctx ← new_object (OCtx (mkIOContext kind fd i buf (buf_size cfg) (u32 tid)));
  mret (buf, ctx).

(** ** Forward mode *)

Definition client_on_cqe (tid : Z) (cfg : Config) (e : UringEngine) (use_fixed_file : bool)
    (c : cqe) : M unit :=
  let ctx := cq_user_data c in
  if ctx =? 0 then cqe_seen
  else if has_flag (cq_flags c) IORING_CQE_F_NOTIF then
    modify_stats (add_zc_notification tid);; cqe_seen
  else
    (if 0 <? cq_res c then
       modify_stats (add_bytes tid (cq_res c) (packets_of cfg (cq_res c)));;
       stop ← do_call StopLoad;
       (if negb stop then resubmit_send cfg e use_fixed_file ctx;; mret tt else mret tt)
     else if res_again (cq_res c) then
       stop ← do_call StopLoad;
       (if negb stop then resubmit_send cfg e use_fixed_file ctx;; mret tt else mret tt)
     else if cq_res c <? 0 then modify_stats (add_error tid)
     else mret tt);;
    cqe_seen.

Definition client_iter (tid : Z) (cfg : Config) (e : UringEngine) (use_fixed_file : bool)
    (_ : unit) : M (unit + unit) :=
  stop ← do_call StopLoad;
  if (stop : bool) then mret (inr tt) else
  cqes ← reap_completions (in_flight cfg);
  match cqes with
  | [] => submit_and_wait 1;; mret (inl tt)
  | _ =>
      for_each cqes (fun c _ => client_on_cqe tid cfg e use_fixed_file c) tt;;
      submit;; mret (inl tt)
  end.

(** Engine, fixed file, buffer pool, registration and the first sends. *)
Definition client_setup (tid : Z) (cfg : Config) (sockfd : Z)
    : M (UringEngine * bool * list (Z * Z)) :=
  e ← UringEngine_new (queue_depth cfg) (sqpoll cfg);
  r ← (if fixed_files cfg then register_files [sockfd] e else mret (false, e));
  let '(use_fixed_file, e) := r in
  let send_fd := if (use_fixed_file : bool) then 0 else sockfd in
  pool ← for_each (zseq (in_flight cfg)) (fun i pool =>
    bc ← new_buffer_ctx SEND cfg tid send_fd i; mret (pool ++ [bc])) [];
  e ← (if fixed_buffers cfg then
         r ← register_buffers pool.*1 (buf_size cfg) e; mret r.2
       else mret e);
  for_each (imap (fun i bc => (Z.of_nat i, bc)) pool) (fun ibc _ =>
    prep_send_any cfg e send_fd ibc.2.1 (buf_size cfg) ibc.1 ibc.2.2 use_fixed_file;;
    mret tt) tt;;
  submit;;
  mret (e, use_fixed_file, pool).

Definition run_client_send (fuel : nat) (tid : Z) (cfg : Config) (sockfd : Z) : M unit :=
  s ← client_setup tid cfg sockfd;
  let '(e, use_fixed_file, pool) := s in
  iter fuel (client_iter tid cfg e use_fixed_file) tt;;
  do_call (Close sockfd);;
  for_each pool.*1 (fun buf _ => free_aligned_buffer buf) tt;;
  UringEngine_destroy e.

(** ** Reverse mode *)

(** One completion of the multishot request; the result is [peer_closed]. *)
Definition reverse_multishot_cqe (tid : Z) (e : UringEngine) (sockfd : Z) (c : cqe)
    (peer_closed : bool) : M bool :=
  (if (0 <? cq_res c) && has_flag (cq_flags c) IORING_CQE_F_BUFFER then
     modify_stats (add_bytes tid (cq_res c) 1);;
     return_recv_buffer e (buffer_id c)
   else mret tt);;
  if negb (has_flag (cq_flags c) IORING_CQE_F_MORE) then
    if cq_res c =? - ENOBUFS then
      prep_recv_multishot e sockfd (cq_user_data c) false;; mret peer_closed
    else
      (if cq_res c <? 0 then modify_stats (add_error tid) else mret tt);;
      mret true
  else mret peer_closed.

(** One completion of a single-shot request. *)
Definition reverse_single_cqe (tid : Z) (e : UringEngine) (sockfd : Z) (c : cqe)
    (peer_closed : bool) : M bool :=
  let again :=
    stop ← do_call StopLoad;
    (if negb stop then resubmit_recv e sockfd (cq_user_data c) false;; mret tt else mret tt);;
    mret peer_closed in
  if 0 <? cq_res c then modify_stats (add_bytes tid (cq_res c) 1);; again
  else if res_again (cq_res c) then again
  else
    (if cq_res c <? 0 then modify_stats (add_error tid) else mret tt);;
    mret true.

Definition reverse_on_cqe (tid : Z) (e : UringEngine) (use_multishot : bool) (sockfd : Z)
    (c : cqe) (peer_closed : bool) : M bool :=
  if cq_user_data c =? 0 then cqe_seen;; mret peer_closed
  else
    pc ← (if use_multishot then reverse_multishot_cqe tid e sockfd c peer_closed
          else reverse_single_cqe tid e sockfd c peer_closed);
    cqe_seen;; mret pc.

Definition reverse_iter (tid : Z) (cfg : Config) (e : UringEngine) (use_multishot : bool)
    (sockfd : Z) (peer_closed : bool) : M (bool + unit) :=
  stop ← do_call StopLoad;
  if (stop : bool) || peer_closed then mret (inr tt) else
  cqes ← reap_completions (in_flight cfg);
  match cqes with
  | [] => submit_and_wait 1;; mret (inl peer_closed)
  | _ =>
      pc ← for_each cqes (reverse_on_cqe tid e use_multishot sockfd) peer_closed;
      submit;; mret (inl pc)
  end.

(** The receive requests: the multishot context, or the pool of buffers and
    contexts with one request each. *)
Definition reverse_arm (tid : Z) (cfg : Config) (e : UringEngine) (use_multishot : bool)
    (sockfd : Z) : M (list Z * list Z) :=
  if use_multishot then
    ms_ctx ← new_object (OCtx (mkIOContext RECV sockfd 0 0 0 (u32 tid)));
    prep_recv_multishot e sockfd ms_ctx false;;
    mret ([], [ms_ctx])
  else
    for_each (zseq (in_flight cfg)) (fun i pools =>
      bc ← new_buffer_ctx RECV cfg tid sockfd i;
      prep_recv e sockfd bc.1 (buf_size cfg) i bc.2 false;;
      mret (pools.1 ++ [bc.1], pools.2 ++ [bc.2])) ([], []).

Definition run_client_reverse_recv (fuel : nat) (tid : Z) (cfg : Config) (sockfd : Z)
    : M unit :=
  e ← UringEngine_new (queue_depth cfg) (sqpoll cfg);
  r ← (if multishot_recv cfg then setup_multishot_recv (in_flight cfg) (buf_size cfg) 0 e
       else mret (false, e));
  let '(use_multishot, e) := r in
  pools ← reverse_arm tid cfg e use_multishot sockfd;
  submit;;
  iter fuel (reverse_iter tid cfg e use_multishot sockfd) false;;
  for_each pools.1 (fun buf _ => free_aligned_buffer buf) tt;;
  for_each pools.2 (fun ctx _ => delete_object ctx) tt;;
  UringEngine_destroy e.

(** ** The whole client *)

Definition connect_port (tid : Z) (cfg : Config) : Z :=
  u16 (port cfg + (if use_zcrx cfg && negb (reverse cfg) then u16 tid else 0)).
Definition local_bind_port (tid : Z) (cfg : Config) : Z :=
  if use_zcrx cfg && reverse cfg then u16 (port cfg + u16 tid) else 0.

Definition run_client (fuel : nat) (tid : Z) (cfg : Config) : M unit :=
  set_cpu_affinity tid cfg;;
  let client_zcrx_recv := use_zcrx cfg && reverse cfg in
  sockfd ← create_client_socket (server_ip cfg) (connect_port tid cfg)
             (bool_decide (protocol cfg = UDP)) (zero_copy cfg) (udp_gso_size cfg)
             (local_bind_port tid cfg);
  if sockfd <? 0 then mret tt else
  hs ← (if bool_decide (protocol cfg = TCP)
        then send_handshake fuel sockfd (reverse cfg) (duration_sec cfg) else mret true);
  if negb hs then do_call (Close sockfd);; mret tt else
  if reverse cfg && bool_decide (protocol cfg = TCP) then
    (if client_zcrx_recv then run_client_reverse_recv_zcrx fuel tid cfg sockfd
     else run_client_reverse_recv fuel tid cfg sockfd);;
    do_call (Close sockfd);; mret tt
  else run_client_send fuel tid cfg sockfd.
End Client.
