(* ===== verification/ClientProofs.v ===== *)
(** Correctness of the client worker ([Client.v]). *)

From S2P Require Import Prelude Stats Sys Only Kernel NetUtils Config Engine Zcrx Client.

(** * Requests and the memory they point at *)

Section Liveness.
Context {P : Platform}.

(** Every request the kernel still owes a completion points at a live context. *)
Definition live_ops (w : World) : Prop :=
  forall s, s ∈ owed_of (hist w) -> exists c, heap w !! sq_user_data s = Some (OCtx c).

Lemma live_ops_head w c cs :
  ring_ok (hist w) -> live_ops w -> cq_of (hist w) = c :: cs ->
  exists ctx, heap w !! cq_user_data c = Some (OCtx ctx).
Proof.
  unfold ring_ok. intros Hok Hlive Hcq. rewrite Hcq in Hok. destruct Hok as [Hin _].
  apply list_elem_of_fmap in Hin as (s & -> & Hs). by apply Hlive.
Qed.

(** Ring and memory together: what every loop of a worker maintains. *)
Definition sound (w : World) : Prop := ring_ok (hist w) /\ live_ops w.

Lemma sound_queued new w w' :
  (forall s, s ∈ new -> exists c, heap w !! sq_user_data s = Some (OCtx c)) ->
  queued new w w' -> sound w -> sound w'.
Proof.
  intros Hnew (Hh&_&_&Ho&Hc&_) [Hok Hlive]. split.
  - unfold ring_ok in *. rewrite Ho, Hc. clear Ho Hnew.
    induction new as [|s new IH]; cbn; [done|]. by apply cqes_ok_cons.
  - intros s. rewrite Ho, Hh, elem_of_app. intros [?|?]; eauto.
Qed.

Lemma sound_quiet w w' : quiet w w' -> sound w -> sound w'.
Proof. apply sound_queued. by intros ? ?%elem_of_nil. Qed.

Lemma sound_consumed c cs w w' :
  cq_of (hist w) = c :: cs -> consumed c cs w w' -> sound w -> sound w'.
Proof.
  intros Hcq (Hh&_&_&Ho&Hc&_) [Hok Hlive]. split.
  - unfold ring_ok in *. rewrite Ho, Hc. rewrite Hcq in Hok. by destruct Hok.
  - intros s. rewrite Ho, Hh. intros Hs. apply Hlive.
    eapply elem_of_submseteq; [exact Hs|apply sublist_submseteq, settle_sublist].
Qed.

Lemma sound_reaped {L : KernelLaws P} max w batch w' :
  reaped max w batch w' -> sound w -> sound w'.
Proof.
  intros Hr [Hok Hlive]. split; [by eapply reaped_ring_ok|].
  destruct Hr as (Hh&_&_&Ho&_). intros s. rewrite Ho, Hh. apply Hlive.
Qed.

(** Sound, and none of the requests is an accept: no completion brings a new
    descriptor. *)
Definition client_ops (w : World) : Prop :=
  sound w /\ forall s, s ∈ owed_of (hist w) -> sq_op s <> OP_ACCEPT.

Lemma client_ops_queued new w w' :
  (forall s, s ∈ new ->
     (exists c, heap w !! sq_user_data s = Some (OCtx c)) /\ sq_op s <> OP_ACCEPT) ->
  queued new w w' -> client_ops w -> client_ops w'.
Proof.
  intros Hnew Hq [Hs Hop]. split; [eapply sound_queued; naive_solver|].
  destruct Hq as (_&_&_&Ho&_). intros s. rewrite Ho, elem_of_app. naive_solver.
Qed.

Lemma client_ops_quiet w w' : quiet w w' -> client_ops w -> client_ops w'.
Proof. apply client_ops_queued. by intros ? ?%elem_of_nil. Qed.

Lemma client_ops_consumed c cs w w' :
  cq_of (hist w) = c :: cs -> consumed c cs w w' -> client_ops w -> client_ops w'.
Proof.
  intros Hcq Hc [Hs Hop]. split; [by eapply sound_consumed|].
  destruct Hc as (_&_&_&Ho&_). intros s. rewrite Ho. intros Hin. apply Hop.
  eapply elem_of_submseteq; [exact Hin|apply sublist_submseteq, settle_sublist].
Qed.

Lemma accepted_nil l cs : (forall s, s ∈ l -> sq_op s <> OP_ACCEPT) -> accepted l cs = [].
Proof.
  intros Hl. assert (Ha : forall c, is_accept l c = false).
  { intros c. unfold is_accept. induction l as [|s l IH]; cbn; [done|].
    rewrite bool_decide_false by (apply Hl; constructor). cbn. apply IH.
    intros s' ?. apply Hl. by constructor. }
  unfold accepted. replace (List.filter _ cs) with (@nil cqe); [done|].
  induction cs as [|c cs IH]; cbn; [done|]. by rewrite Ha.
Qed.

Lemma client_ops_reaped {L : KernelLaws P} max w batch w' :
  reaped max w batch w' -> client_ops w -> client_ops w' /\ fds_of (hist w') = fds_of (hist w).
Proof.
  intros Hr [Hs Hop]. split.
  - split; [by eapply sound_reaped|]. destruct Hr as (_&_&_&Ho&_). by rewrite Ho.
  - destruct Hr as (_&_&_&_&_&_&_&_&_&Hf). rewrite Hf, accepted_nil by done. set_solver.
Qed.

(** A batch is processed from the head of the completion queue. *)
Lemma for_each_batch {S} b (body : cqe -> S -> M S) (I : S -> World -> Prop) batch s w :
  (forall c cs s w, I s w -> cq_of (hist w) = c :: cs ->
     wp b (body c s) (fun s' w' => I s' w' /\ cq_of (hist w') = cs) w) ->
  I s w -> batch `prefix_of` cq_of (hist w) ->
  wp b (for_each batch body s) I w.
Proof.
  intros Hbody HI Hpre.
  apply (wp_for_each b body (fun rest s w => I s w /\ rest `prefix_of` cq_of (hist w))).
  - intros c rest s' w' [HI' [tail Htail]].
    eapply wp_mono; [by eapply Hbody|]. cbn. intros s2 w2 [? ->].
    split; [done|]. by exists tail.
  - by intros ? ? [? _].
  - done.
Qed.
End Liveness.

(** * Forward mode *)

(** What one consumed completion adds to the counters. *)
Definition client_account (tid : Z) (cfg : Config) (s : StatsCollector) (c : cqe)
    : StatsCollector :=
  if cq_user_data c =? 0 then s
  else if has_flag (cq_flags c) IORING_CQE_F_NOTIF then add_zc_notification tid s
  else if 0 <? cq_res c then add_bytes tid (cq_res c) (packets_of cfg (cq_res c)) s
  else if res_again (cq_res c) then s
  else if cq_res c <? 0 then add_error tid s
  else s.

(** Requests that send. *)
Definition is_send (o : opcode) : bool :=
  match o with OP_SEND | OP_SEND_ZC | OP_SEND_ZC_FIXED => true | _ => false end.
Definition send_req (s : sqe) : Prop :=
  is_send (sq_op s) = true /\ has_flag (sq_flags s) IOSQE_BUFFER_SELECT = false.

Section Forward.
Context {P : Platform} {L : KernelLaws P}.
Variables (tid : Z) (cfg : Config) (e : UringEngine) (uff : bool).

(** The entry is a send of this context on this descriptor, and selects no provided buffer. *)
Lemma prep_send_any_sends b fd buf len idx ctx w :
  (exists c, heap w !! ctx = Some (OCtx c)) ->
  wp b (prep_send_any cfg e fd buf len idx ctx uff)
    (fun ok w' => exists s, sq_user_data s = ctx /\ sq_fd s = fd /\ send_req s /\ queues s w ok w') w.
Proof.
  intros [c Hc]. unfold prep_send_any, prep_send_zc.
  assert (Hstd : forall f, wp b (prep_send_standard e fd buf len ctx f)
    (fun ok w' => exists s, sq_user_data s = ctx /\ sq_fd s = fd /\ send_req s /\ queues s w ok w') w).
  { intros f. eapply wp_mono; [by eapply prep_send_standard_queues|].
    intros ok w' H. eexists. split_and!; [..|exact H];
      unfold send_standard_sqe, fixed_file_flag; by repeat case_match. }
  repeat wp_step; auto.
  eapply wp_mono; [apply prep_queues|]. intros ok w' H. eexists.
  split_and!; [..|exact H]; unfold send_zc_sqe, fixed_file_flag; by repeat case_match.
Qed.

Lemma prep_send_any_queues b fd buf len idx ctx w :
  (exists c, heap w !! ctx = Some (OCtx c)) ->
  wp b (prep_send_any cfg e fd buf len idx ctx uff)
    (fun ok w' => exists s, sq_user_data s = ctx /\ sq_op s <> OP_ACCEPT /\ queues s w ok w') w.
Proof.
  intros Hc. eapply wp_mono; [by apply prep_send_any_sends|]. cbn beta.
  intros ok w' (s & Hs & _ & [Hop _] & Hq). exists s. split_and!; [done| |done]. by destruct (sq_op s).
Qed.

Lemma resubmit_send_ops b ctx w :
  (exists c, heap w !! ctx = Some (OCtx c)) -> client_ops w ->
  wp b (resubmit_send cfg e uff ctx)
    (fun _ w' => client_ops w' /\ heap w' = heap w /\ stats w' = stats w /\
       cq_of (hist w') = cq_of (hist w) /\ seen_of (hist w') = seen_of (hist w) /\
       fds_of (hist w') = fds_of (hist w)) w.
Proof.
  intros [c Hc] Hs. unfold resubmit_send. wp_step. eapply wp_load_ctx; [done|].
  eapply wp_mono; [apply prep_send_any_queues; by eexists|]. cbn.
  intros ok w' (s & Hs' & Hop & Hq & _). split.
  - eapply client_ops_queued; [|exact Hq|done]. intros s'. destruct ok; [|by intros ?%elem_of_nil].
    intros ->%list_elem_of_singleton. rewrite Hs'. split; [by eexists|done].
  - destruct Hq as (?&_&?&_&?&?&_&?). split_and!; congruence.
Qed.

(** The loop's invariant: the requests are in order, no descriptor came or
    went, and the counters are exactly what the completions consumed so far
    amount to. *)
Definition client_inv (s0 : StatsCollector) (F : gset Z) (w : World) : Prop :=
  client_ops w /\ fds_of (hist w) = F /\
  stats w = foldl (client_account tid cfg) s0 (seen_of (hist w)).

Lemma client_inv_quiet s0 F w w' : quiet w w' -> client_inv s0 F w -> client_inv s0 F w'.
Proof.
  intros Hq (Ho & HF & Hst). split; [by eapply client_ops_quiet|].
  destruct Hq as (_&_&Hs&_&_&Hf&_&Hse). split; [congruence|]. by rewrite Hs, Hst, Hse.
Qed.

Lemma client_on_cqe_ok b s0 F c cs w :
  client_inv s0 F w -> cq_of (hist w) = c :: cs ->
  wp b (client_on_cqe tid cfg e uff c)
    (fun _ w' => client_inv s0 F w' /\ cq_of (hist w') = cs) w.
Proof.
  intros (Hs & HF & Hst) Hcq. pose proof (proj1 Hs) as [Hring Hlive].
  assert (Hctx := live_ops_head w c cs Hring Hlive Hcq).
  (* consuming [c] once the counters were updated for it *)
  assert (Hend : forall w1, client_ops w1 -> cq_of (hist w1) = c :: cs ->
    fds_of (hist w1) = fds_of (hist w) ->
    seen_of (hist w1) = seen_of (hist w) -> stats w1 = client_account tid cfg (stats w) c ->
    wp b cqe_seen (fun _ w' => client_inv s0 F w' /\ cq_of (hist w') = cs) w1).
  { intros w1 Hs1 Hcq1 Hf Hse Hst1. eapply wp_mono; [by eapply cqe_seen_consumes|].
    cbn. intros _ w2 Hcons. pose proof (client_ops_consumed _ _ _ _ Hcq1 Hcons Hs1).
    destruct Hcons as (_&_&Hs2&_&?&Hf2&_&Hse2&_). split; [|done]. split_and!; [done|congruence|].
    by rewrite Hs2, Hst1, Hst, Hse2, map_app, Hse, foldl_app. }
  (* the resubmission of the two branches that go on *)
  assert (Hre : forall w1, client_ops w1 -> heap w1 = heap w -> cq_of (hist w1) = c :: cs ->
    fds_of (hist w1) = fds_of (hist w) ->
    seen_of (hist w1) = seen_of (hist w) -> stats w1 = client_account tid cfg (stats w) c ->
    wp b (stop ← do_call StopLoad;
          (if negb stop then resubmit_send cfg e uff (cq_user_data c);; mret tt else mret tt))
      (fun _ => wp b cqe_seen (fun _ w' => client_inv s0 F w' /\ cq_of (hist w') = cs)) w1).
  { intros w1 Hs1 Hh Hcq1 Hf Hse Hst1. do 3 wp_step.
    - wp_step. eapply wp_mono; [apply resubmit_send_ops|].
      + by rewrite <- Hh in Hctx.
      + by eapply (client_ops_quiet w1).
      + cbn. intros _ w2 (? & _ & ? & ? & ? & ?). wp_step. ghost_simpl. apply Hend; congruence.
    - wp_step. apply Hend; [|done..]. by eapply (client_ops_quiet w1). }
  unfold client_on_cqe. unfold client_account in Hend, Hre.
  destruct (cq_user_data c =? 0); [by apply Hend|].
  destruct (has_flag (cq_flags c) IORING_CQE_F_NOTIF); [by wp_steps; apply Hend|].
  wp_step. destruct (0 <? cq_res c); [do 2 wp_step; by apply Hre|].
  destruct (res_again (cq_res c)); [by apply Hre|].
  destruct (cq_res c <? 0); wp_steps; by apply Hend.
Qed.

Lemma client_iter_ok b s0 F u w :
  client_inv s0 F w ->
  wp b (client_iter tid cfg e uff u) (fun _ => client_inv s0 F) w.
Proof.
  intros Hinv. unfold client_iter. do 3 wp_step; [by wp_step|].
  wp_step. eapply wp_mono; [apply reap_completions_reaps|]. cbn. intros batch w1 Hr.
  assert (H1 : client_inv s0 F w1).
  { destruct Hinv as (Hops & HF & Hst).
    edestruct (client_ops_reaped _ _ _ _ Hr) as [Ho Hf]; [by eapply (client_ops_quiet w)|].
    destruct Hr as (_&_&Hs&_&_&Hse&_). ghost_simpl. split_and!; [done|congruence|].
    by rewrite Hs, Hst, Hse. }
  assert (Hpre : batch `prefix_of` cq_of (hist w1)).
  { destruct Hr as (_&_&_&_&_&_&_&_&->&_). apply prefix_take. }
  destruct batch as [|c batch].
  - wp_step. wp_use (submit_and_wait_quiet _ _ _) as [Hq _]. wp_step.
    by eapply client_inv_quiet.
  - wp_step. eapply wp_mono.
    { apply (for_each_batch b _ (fun _ => client_inv s0 F)); [|done..].
      intros. by apply client_on_cqe_ok. }
    cbn. intros _ w2 H2. wp_step. wp_use (submit_quiet _ _) as [Hq _]. wp_step.
    by eapply client_inv_quiet.
Qed.
End Forward.

(** * Calls of the client's loops *)

Section OnlyClient.
Context {P : Platform}.

Lemma only_prep_send_any cfg e fd buf len idx ctx uff :
  only keeps (prep_send_any cfg e fd buf len idx ctx uff).
Proof. unfold prep_send_any. only_tac. Qed.
Hint Resolve only_prep_send_any : only.
Lemma only_resubmit_send cfg e uff ctx : only keeps (resubmit_send cfg e uff ctx).
Proof. unfold resubmit_send. only_tac. Qed.
Lemma only_resubmit_recv e fd ctx uff : only keeps (resubmit_recv e fd ctx uff).
Proof. unfold resubmit_recv, prep_recv. only_tac. Qed.
Hint Resolve only_resubmit_send only_resubmit_recv : only.
Lemma only_client_iter tid cfg e uff u : only keeps (client_iter tid cfg e uff u).
Proof. unfold client_iter, client_on_cqe. by only_tac. Qed.
Lemma only_reverse_iter tid cfg e ms fd pc : only keeps (reverse_iter tid cfg e ms fd pc).
Proof.
  unfold reverse_iter, reverse_on_cqe, reverse_multishot_cqe, reverse_single_cqe,
    prep_recv_multishot. by only_tac.
Qed.
End OnlyClient.
#[export] Hint Resolve only_prep_send_any only_resubmit_send only_resubmit_recv
  only_client_iter only_reverse_iter : only.

(** * The whole forward client *)

Section ForwardRun.
Context {P : Platform} {L : KernelLaws P}.

Lemma new_buffer_ctx_spec b kind cfg tid fd i m bufs w :
  holds m bufs w ->
  wp b (new_buffer_ctx kind cfg tid fd i)
    (fun bc w' => holds m (bufs ++ [bc.1]) w' /\
       ghost_of (hist w') = ghost_of (hist w) /\ stats w' = stats w /\
       sq_used (hist w') = sq_used (hist w) /\
       (closes_ok (hist w) -> closes_ok (hist w')) /\
       bc.2 = ptr_of (next_obj w) /\ next_obj w' = next_obj w + 1 /\
       heap w' = <[bc.2 := OCtx (mkIOContext kind fd i bc.1 (buf_size cfg) (u32 tid))]> (heap w)) w.
Proof.
  intros Hh. unfold new_buffer_ctx. wp_step. wp_use (allocate_holds _ _ _ _ _ Hh) as [H1 Ho].
  wp_steps. destruct Ho as (Hhp&Hn&Hs&Hg&Hu&Hc). cbn. rewrite Hhp, Hn. by split_and!.
Qed.

(** All contexts of a pool are live. *)
Definition pool_live (pool : list (Z * Z)) (w : World) : Prop :=
  forall bc, bc ∈ pool -> exists c, heap w !! bc.2 = Some (OCtx c).

Lemma pool_live_insert pool bc c w w' :
  heap w' = <[bc.2 := OCtx c]> (heap w) -> pool_live pool w -> pool_live (pool ++ [bc]) w'.
Proof.
  intros Hh Hp bc'. rewrite Hh, elem_of_app, list_elem_of_singleton.
  intros [Hin | ->]; [|exists c; apply lookup_insert_eq].
  destruct (Hp _ Hin) as [c' Hc']. destruct (decide (bc.2 = bc'.2)) as [->|Hne].
  - exists c. apply lookup_insert_eq.
  - exists c'. by rewrite lookup_insert_ne.
Qed.

Lemma client_pool_spec b cfg tid fd m w :
  holds m [] w ->
  wp b (for_each (zseq (in_flight cfg)) (fun i pool =>
          bc ← new_buffer_ctx SEND cfg tid fd i; mret (pool ++ [bc])) [])
    (fun pool w' => holds m pool.*1 w' /\ pool_live pool w' /\
       ghost_of (hist w') = ghost_of (hist w) /\ stats w' = stats w /\
       (closes_ok (hist w) -> closes_ok (hist w'))) w.
Proof.
  intros Hh. eapply (wp_for_each b _ (fun _ pool w' => holds m pool.*1 w' /\ pool_live pool w' /\
       ghost_of (hist w') = ghost_of (hist w) /\ stats w' = stats w /\
       (closes_ok (hist w) -> closes_ok (hist w')))); [|done|].
  - intros i rest pool w1 (Hh1 & Hp & Hg & Hs & Hc). wp_step.
    wp_use (new_buffer_ctx_spec _ _ _ _ _ _ _ _ _ Hh1) as (H2&Hg2&Hs2&_&Hc2&_&_&Hheap).
    wp_step. split_and!; [by rewrite fmap_app|by eapply pool_live_insert|congruence|congruence|auto].
  - split_and!; try done. by intros ? ?%elem_of_nil.
Qed.

(** The first sends: one request per context of the pool. *)
Lemma client_first_sends b cfg e fd uff pool w :
  client_ops w -> cq_of (hist w) = [] -> pool_live pool w ->
  wp b (for_each (imap (fun i bc => (Z.of_nat i, bc)) pool) (fun ibc _ =>
          prep_send_any cfg e fd ibc.2.1 (buf_size cfg) ibc.1 ibc.2.2 uff;; mret tt) tt)
    (fun _ w' => client_ops w' /\ stats w' = stats w /\
       fds_of (hist w') = fds_of (hist w) /\ seen_of (hist w') = seen_of (hist w)) w.
Proof.
  intros Hops Hcq Hlive.
  apply (wp_for_each b _ (fun rest _ w' => (forall ibc, ibc ∈ rest -> ibc.2 ∈ pool) /\
    heap w' = heap w /\ client_ops w' /\ stats w' = stats w /\
    fds_of (hist w') = fds_of (hist w) /\ seen_of (hist w') = seen_of (hist w))).
  - intros ibc rest _ w1 (Hin & Hh & Ho & Hs & Hf & Hse). wp_step.
    assert (Hc : exists c, heap w1 !! ibc.2.2 = Some (OCtx c)).
    { rewrite Hh. apply Hlive, Hin. constructor. }
    eapply wp_mono; [by apply prep_send_any_queues|]. cbn.
    intros ok w2 (s & Hud & Hop & Hq & _). wp_step. split_and!.
    + intros ibc' ?. apply Hin. by constructor.
    + destruct Hq as (Hh2&_). congruence.
    + eapply client_ops_queued; [|exact Hq|done]. intros s'. destruct ok; [|by intros ?%elem_of_nil].
      intros ->%list_elem_of_singleton. by rewrite Hud.
    + destruct Hq as (_&_&?&_). congruence.
    + destruct Hq as (_&_&_&_&_&?&_). congruence.
    + destruct Hq as (_&_&_&_&_&_&_&?). congruence.
  - by intros _ w' (_ & _ & ? & ? & ? & ?).
  - split_and!; try done. intros [i bc] Hin.
    apply elem_of_lookup_imap in Hin as (j & bc' & [= _ ->] & Hj). by eapply list_elem_of_lookup_2.
Qed.

Lemma client_ops_empty w : owed_of (hist w) = [] -> cq_of (hist w) = [] -> client_ops w.
Proof.
  intros Ho Hc. unfold client_ops, sound, ring_ok, live_ops. rewrite Ho, Hc.
  by split_and!; try intros ? ?%elem_of_nil.
Qed.

Lemma only_first_sends cfg e fd uff pool :
  only keeps (for_each (imap (fun i bc => (Z.of_nat i, bc)) pool) (fun ibc _ =>
    prep_send_any cfg e fd ibc.2.1 (buf_size cfg) ibc.1 ibc.2.2 uff;; mret tt) tt).
Proof. only_tac. Qed.

(** The optional registrations: no memory moves, and no provided-buffer ring
    appears. *)
Definition registered (w : World) (e : UringEngine) (w' : World) : Prop :=
  recv_buf_ring_ e = 0 /\ only_mem w w' /\ mem_of (hist w') = mem_of (hist w).

Lemma register_file_opt b (on : bool) fd e w :
  recv_buf_ring_ e = 0 ->
  wp b (if on then register_files [fd] e else mret (false, e)) (fun r => registered w r.2) w.
Proof. intros He. destruct on; unfold register_files; wp_steps; by repeat split. Qed.

Lemma register_buffers_opt b (on : bool) bufs n e w :
  recv_buf_ring_ e = 0 ->
  wp b (if on then r ← register_buffers bufs n e; mret r.2 else mret e) (registered w) w.
Proof.
  intros He. destruct on; unfold register_buffers; [|wp_steps; by repeat split].
  destruct bufs; wp_steps; by repeat split.
Qed.

Lemma client_setup_spec b tid cfg sockfd m w :
  ring_init b (queue_depth cfg) -> mem_of (hist w) = Some m -> closes_ok (hist w) ->
  wp b (client_setup tid cfg sockfd)
    (fun r w' => let '(e, uff, pool) := r in
       client_inv tid cfg (stats w) (fds_of (hist w)) w' /\
       holds m pool.*1 w' /\ closes_ok (hist w') /\ recv_buf_ring_ e = 0) w.
Proof.
  intros Hb Hm Hcl. unfold client_setup. wp_step.
  wp_use (UringEngine_new_spec _ _ _ _ Hb) as [[sq He] (_&_&Hs1&Hg1&Hm1&Hc1)].
  subst a. rename w' into w1. wp_step.
  wp_use (register_file_opt _ _ _ _ _ _) as (Hr2 & (_&_&Hs2&Hg2&_&Hc2) & Hm2); [done|].
  destruct a as [uff e1]. cbn in Hr2. rename w' into w2. wp_step.
  eapply wp_mono; [apply (client_pool_spec _ _ _ _ m); apply holds_none; congruence|].
  cbn beta. intros pool w3 (Hh3 & Hp3 & Hg3 & Hs3 & Hc3). wp_step.
  wp_use (register_buffers_opt _ _ _ _ _ _ _) as (Hr4 & (Hh4&_&Hs4&Hg4&_&Hc4) & Hm4); [done|].
  rename a into e2, w' into w4.
  assert (Hg : ghost_of (hist w4) = mkGhost [] [] (fds_of (hist w)) no_bufs []) by congruence.
  wp_step. eapply wp_mono.
  { apply (wp_only keeps); [apply only_first_sends|]. apply client_first_sends.
    - apply client_ops_empty; by rewrite Hg.
    - by rewrite Hg.
    - intros bc Hbc. rewrite Hh4. by apply Hp3. }
  cbn beta. intros _ w5 [(Ho5 & Hs5 & Hf5 & Hse5) [Hm5 Hc5]%extends_keeps]. wp_step.
  eapply wp_mono; [apply (wp_only keeps), submit_quiet; apply only_submit|].
  cbn beta. intros _ w6 [[Hq6 _] [Hm6 Hc6]%extends_keeps]. wp_step. split_and!.
  - eapply client_inv_quiet; [exact Hq6|]. rewrite Hg in Hf5, Hse5.
    split_and!; [done|done|]. rewrite Hse5. cbn. congruence.
  - eapply holds_same; [|exact Hh3]. congruence.
  - auto 10.
  - done.
Qed.

(** The forward client never touches a context it does not own, counts exactly
    the completions it consumed, closes its socket once and frees every buffer
    once. *)
Lemma run_client_send_spec b fuel tid cfg sockfd m w :
  ring_init b (queue_depth cfg) -> fuelled b fuel -> mem_of (hist w) = Some m -> closes_ok (hist w) -> sockfd ∈ fds_of (hist w) ->
  wp b (run_client_send fuel tid cfg sockfd)
    (fun _ w' => stats w' = foldl (client_account tid cfg) (stats w) (seen_of (hist w')) /\
       fds_of (hist w') = fds_of (hist w) ∖ {[sockfd]} /\
       mem_of (hist w') = Some m /\ closes_ok (hist w')) w.
Proof.
  intros Hb Hfuel Hm Hcl Hfd. unfold run_client_send. wp_step.
  wp_use (client_setup_spec _ _ _ _ _ _ Hb Hm Hcl) as H1. destruct a as [[e uff] pool].
  destruct H1 as (Hi1 & Hh1 & Hc1 & Hr). rename w' into w1. wp_step. eapply wp_mono.
  { apply (wp_only keeps); [apply only_iter, only_client_iter|].
    apply (wp_iter_stop keeps _ _ (fun _ => client_inv tid cfg (stats w) (fds_of (hist w)))
             (fun _ => client_inv tid cfg (stats w) (fds_of (hist w)))); [done| |done| |exact Hi1].
    - intros u stop. unfold client_on_cqe. by only_tac.
    - intros u w2 H2. eapply wp_mono; [by apply (client_iter_ok tid cfg e uff)|]. by intros [?|?]. }
  cbn beta. intros _ w2 [(_ & Hf2 & Hs2) [Hm2 Hc2]%extends_keeps]. do 2 wp_step. wp_step.
  eapply wp_mono; [apply (free_all_holds _ m _ []); rewrite app_nil_r; eapply holds_same; [|exact Hh1]; done|].
  cbn beta. intros _ w3 [Hh3 (_&_&Hs3&Hg3&_&Hc3)].
  eapply wp_mono; [apply UringEngine_destroy_spec; by rewrite Hr|].
  cbn beta. intros _ w4 [Hm4 (_&_&Hs4&Hg4&_&Hc4)]. ghost_simpl.
  rewrite Hg4, Hg3, Hs4, Hs3. cbn. split_and!; [done|by rewrite Hf2|done|].
  apply Hc4, Hc3. split; [by rewrite Hf2|auto].
Qed.
End ForwardRun.

(** * Reverse mode *)

(** What one consumed completion adds to the counters. *)
Definition reverse_account (tid : Z) (multishot : bool) (s : StatsCollector) (c : cqe)
    : StatsCollector :=
  if cq_user_data c =? 0 then s
  else if multishot then
    let s := if (0 <? cq_res c) && has_buffer c then add_bytes tid (cq_res c) 1 s else s in
    if is_final c && negb (cq_res c =? - ENOBUFS) && (cq_res c <? 0) then add_error tid s else s
  else if 0 <? cq_res c then add_bytes tid (cq_res c) 1 s
  else if res_again (cq_res c) then s
  else if cq_res c <? 0 then add_error tid s
  else s.

Section Reverse.
Context {P : Platform} {L : KernelLaws P} {B : BufferLaws P}.
Variables (tid : Z) (cfg : Config) (e : UringEngine) (ms : bool) (sockfd : Z).

(** Requests in order, no descriptor came or went, the counters match the
    consumed completions, and in multishot mode every provided buffer is published
    in the ring or in a completion not consumed yet: the lent ones stay [pool]. *)
Definition reverse_inv (s0 : StatsCollector) (F : gset Z) (pool : list Z) (w : World) : Prop :=
  client_ops w /\ (forall s, s ∈ owed_of (hist w) -> sq_user_data s <> 0) /\
  fds_of (hist w) = F /\ stats w = foldl (reverse_account tid ms) s0 (seen_of (hist w)) /\
  bufs_ok (lent_of (hist w)) (cq_of (hist w)) /\ lent_of (hist w) = (if ms then pool else []).

(** State of the requests while one completion is being handled. *)
Definition reverse_ops (w : World) : Prop :=
  client_ops w /\ (forall s, s ∈ owed_of (hist w) -> sq_user_data s <> 0).

Lemma reverse_ops_queues s w ok w' :
  (exists c, heap w !! sq_user_data s = Some (OCtx c)) -> sq_op s <> OP_ACCEPT ->
  sq_user_data s <> 0 -> queues s w ok w' -> reverse_ops w -> reverse_ops w'.
Proof.
  intros Hc Hop Hud [Hq _] [Ho Hz].
  assert (Hnew : forall s', s' ∈ (if ok then [s] else []) -> s' = s).
  { destruct ok; intros s' Hs'; set_solver. }
  split.
  - eapply client_ops_queued; [|exact Hq|done]. by intros s' ->%Hnew.
  - destruct Hq as (_&_&_&Heq&_). intros s'. rewrite Heq, elem_of_app.
    intros [->%Hnew|?]; auto.
Qed.

(** Only requests, completions and contexts matter here. *)
Lemma reverse_ops_same w w' :
  heap w' = heap w -> owed_of (hist w') = owed_of (hist w) -> cq_of (hist w') = cq_of (hist w) ->
  reverse_ops w -> reverse_ops w'.
Proof.
  intros Hh Ho Hc. unfold reverse_ops, client_ops, sound, ring_ok, live_ops. by rewrite Hh, Ho, Hc.
Qed.

(** Consuming a completion whose buffer, if any, was given back. *)
Lemma reverse_consume b s0 F pool c cs w w1 :
  reverse_inv s0 F pool w -> cq_of (hist w) = c :: cs ->
  reverse_ops w1 -> cq_of (hist w1) = c :: cs -> fds_of (hist w1) = fds_of (hist w) ->
  seen_of (hist w1) = seen_of (hist w) -> stats w1 = reverse_account tid ms (stats w) c ->
  lent_of (hist w1) = (if has_buffer c then [buffer_id c] else []) ++ lent_of (hist w) ->
  wp b cqe_seen (fun _ w' => reverse_inv s0 F pool w' /\ cq_of (hist w') = cs) w1.
Proof.
  intros (_ & _ & HF & Hst & Hb & Hpool) Hcq [Ho1 Hz1] Hcq1 Hf1 Hse1 Hst1 Hl1.
  eapply wp_mono; [by eapply cqe_seen_consumes|]. cbn. intros _ w2 Hc.
  pose proof (client_ops_consumed _ _ _ _ Hcq1 Hc Ho1) as Ho2.
  destruct Hc as (_&_&Hs2&Hw2&Hcq2&Hf2&Hl2&Hse2&_).
  rewrite Hcq in Hb. destruct Hb as [Hbc Hb].
  assert (Hsame : lent_of (hist w2) = lent_of (hist w)).
  { rewrite Hl2, Hl1. unfold unlend. destruct (has_buffer c); cbn; [by rewrite Z.eqb_refl|done]. }
  split; [|done]. split_and!; [done| | congruence | | |].
  - intros s. rewrite Hw2. intros Hin. apply Hz1.
    eapply elem_of_submseteq; [exact Hin|apply sublist_submseteq, settle_sublist].
  - by rewrite Hs2, Hst1, Hst, Hse2, map_app, Hse1, foldl_app.
  - rewrite Hcq2, Hsame.
    eapply bufs_ok_mono; [|exact Hb]. unfold unlend. destruct (has_buffer c) eqn:Hhb; [|done].
    destruct (Hbc eq_refl) as [_ Hin]. rewrite (drop_first_perm _ _ Hin) at 2.
    by apply submseteq_cons.
  - congruence.
Qed.

(** What the rest of a handler needs about the world [w1] it left behind. *)
Definition handled (c : cqe) (cs : list cqe) (w w1 : World) : Prop :=
  reverse_ops w1 /\ cq_of (hist w1) = c :: cs /\ fds_of (hist w1) = fds_of (hist w) /\
  seen_of (hist w1) = seen_of (hist w) /\ stats w1 = reverse_account tid ms (stats w) c /\
  lent_of (hist w1) = (if has_buffer c then [buffer_id c] else []) ++ lent_of (hist w).

Lemma reverse_multishot_ok b s0 F pool c cs pc w :
  ms = true -> reverse_inv s0 F pool w -> cq_of (hist w) = c :: cs -> cq_user_data c <> 0 ->
  wp b (reverse_multishot_cqe tid e sockfd c pc) (fun _ => handled c cs w) w.
Proof.
  intros Hms (Hops & Hz & HF & Hst & Hb & Hpool) Hcq Hud.
  assert (Hctx := live_ops_head w c cs (proj1 (proj1 Hops)) (proj2 (proj1 Hops)) Hcq).
  rewrite Hcq in Hb. destruct Hb as [Hbc _].
  unfold reverse_multishot_cqe. wp_step.
  (* after the buffer was given back *)
  set (s1 := if (0 <? cq_res c) && has_buffer c then add_bytes tid (cq_res c) 1 (stats w)
             else stats w).
  apply (wp_mono _ _ (fun _ w1 => reverse_ops w1 /\ heap w1 = heap w /\ cq_of (hist w1) = c :: cs /\
    fds_of (hist w1) = fds_of (hist w) /\ seen_of (hist w1) = seen_of (hist w) /\ stats w1 = s1 /\
    lent_of (hist w1) = (if has_buffer c then [buffer_id c] else []) ++ lent_of (hist w))).
  { subst s1. change (has_flag (cq_flags c) IORING_CQE_F_BUFFER) with (has_buffer c).
    destruct (has_buffer c) eqn:Hhb.
    - destruct (Hbc eq_refl) as [Hpos _]. rewrite (proj2 (Z.ltb_lt _ _) Hpos). cbn [andb].
      wp_step. wp_step. wp_use (return_recv_buffer_spec _ _ _ _) as (Hl&_&_&_&?&_&?&?&?&?&?&_).
      cbn [hist with_stats heap stats] in *. rewrite Hl. split.
      + apply (reverse_ops_same w); [congruence..|by split].
      + split_and!; done || congruence.
    - rewrite andb_false_r. wp_step. by split_and!. }
  cbn beta. intros _ w1 (Ho1 & Hh1 & Hcq1 & Hf1 & Hse1 & Hs1 & Hl1).
  assert (Hacc : reverse_account tid ms (stats w) c =
    if is_final c && negb (cq_res c =? - ENOBUFS) && (cq_res c <? 0)
    then add_error tid s1 else s1).
  { unfold reverse_account. by rewrite (proj2 (Z.eqb_neq _ 0) Hud), Hms. }
  unfold handled. rewrite Hacc.
  change (negb (has_flag (cq_flags c) IORING_CQE_F_MORE)) with (is_final c).
  wp_step; cbn [andb negb]; [|by wp_step; split_and!; auto]. wp_step; cbn [andb negb].
  - wp_step. eapply wp_mono; [apply prep_queues|]. cbn beta. intros ok w2 Hq. wp_step.
    rewrite <- Hh1 in Hctx. split.
    + eapply reverse_ops_queues; [..|exact Hq|done]; [done| |done].
      unfold recv_multishot_sqe, fixed_file_flag; by case_match.
    + destruct Hq as [(_&_&?&_&?&?&?&?) _]. split_and!; congruence.
  - wp_step. destruct (cq_res c <? 0); wp_steps; split_and!; auto; cbn; congruence.
Qed.

Lemma reverse_single_ok b s0 F pool c cs pc w :
  ms = false -> reverse_inv s0 F pool w -> cq_of (hist w) = c :: cs -> cq_user_data c <> 0 ->
  wp b (reverse_single_cqe tid e sockfd c pc) (fun _ => handled c cs w) w.
Proof.
  intros Hms (Hops & Hz & HF & Hst & Hb & Hpool) Hcq Hud.
  assert (Hctx := live_ops_head w c cs (proj1 (proj1 Hops)) (proj2 (proj1 Hops)) Hcq).
  unfold handled, reverse_account. rewrite (proj2 (Z.eqb_neq _ 0) Hud), Hms.
  unfold reverse_single_cqe.
  (* no buffer is lent, so none can be in the completion *)
  assert (Hnb : has_buffer c = false).
  { rewrite Hpool, Hms, Hcq in Hb. destruct Hb as [Hb _]. destruct (has_buffer c); [|done].
    by destruct (Hb eq_refl) as [_ ?%elem_of_nil]. }
  rewrite Hnb. cbn [app].
  assert (Hagain : forall w1 st, reverse_ops w1 -> heap w1 = heap w -> hist w1 = hist w ->
    stats w1 = st ->
    wp b (stop ← do_call StopLoad;
          (if negb stop then resubmit_recv e sockfd (cq_user_data c) false;; mret tt else mret tt);;
          mret pc)
      (fun _ w2 => reverse_ops w2 /\ cq_of (hist w2) = c :: cs /\ fds_of (hist w2) = fds_of (hist w) /\
         seen_of (hist w2) = seen_of (hist w) /\ stats w2 = st /\
         lent_of (hist w2) = lent_of (hist w)) w1).
  { intros w1 st Ho1 Hh1 Hw1 Hs1. do 3 wp_step. wp_step.
    - wp_step. unfold resubmit_recv. wp_step. destruct Hctx as [ctx Hctx].
      eapply wp_load_ctx; [cbn; rewrite Hh1; exact Hctx|].
      eapply wp_mono; [apply prep_queues|]. cbn beta. intros ok w2 Hq. wp_steps. split.
      + eapply reverse_ops_queues; [..|exact Hq|done]; [|unfold recv_sqe, fixed_file_flag; by repeat case_match|done].
        cbn. rewrite Hh1. by eexists.
      + destruct Hq as [(_&_&?&_&?&?&?&?) _]. ghost_simpl. rewrite Hw1 in *.
        split_and!; congruence.
    - wp_steps. ghost_simpl. rewrite Hw1. by split_and!; auto. }
  assert (Hw : reverse_ops w) by done.
  wp_step; [do 2 wp_step; by apply Hagain|]. wp_step; [by apply Hagain|].
  wp_step. destruct (cq_res c <? 0); wp_steps; by split_and!; auto.
Qed.

Lemma reverse_on_cqe_ok b s0 F pool c cs pc w :
  reverse_inv s0 F pool w -> cq_of (hist w) = c :: cs ->
  wp b (reverse_on_cqe tid e ms sockfd c pc)
    (fun _ w' => reverse_inv s0 F pool w' /\ cq_of (hist w') = cs) w.
Proof.
  intros Hinv Hcq. pose proof Hinv as (Hops & Hz & _).
  assert (Hud : cq_user_data c <> 0).
  { destruct Hops as [[Hok _] _]. unfold ring_ok in Hok. rewrite Hcq in Hok.
    destruct Hok as [Hin _]. apply list_elem_of_fmap in Hin as (s & -> & ?). by apply Hz. }
  unfold reverse_on_cqe. rewrite (proj2 (Z.eqb_neq _ 0) Hud). wp_step.
  eapply (wp_mono _ _ (fun _ => handled c cs w)).
  - destruct ms eqn:Hms; [eapply reverse_multishot_ok|eapply reverse_single_ok]; done.
  - intros pc' w1 (Ho1 & Hcq1 & Hf1 & Hse1 & Hst1 & Hl1). wp_step.
    eapply wp_mono; [by eapply reverse_consume|]. cbn beta. intros _ w2 H2. by wp_step.
Qed.

Lemma reverse_inv_quiet s0 F pool w w' :
  quiet w w' -> reverse_inv s0 F pool w -> reverse_inv s0 F pool w'.
Proof.
  intros Hq (Ho & Hz & HF & Hst & Hb & Hp). unfold reverse_inv.
  pose proof (client_ops_quiet _ _ Hq Ho). destruct Hq as (_&_&Hs&Hw&Hc&Hf&Hl&Hse).
  rewrite Hs, Hw, Hc, Hf, Hl, Hse. by split_and!.
Qed.

Lemma reverse_iter_ok b s0 F pool pc w :
  reverse_inv s0 F pool w ->
  wp b (reverse_iter tid cfg e ms sockfd pc) (fun _ => reverse_inv s0 F pool) w.
Proof.
  intros Hinv. unfold reverse_iter. do 3 wp_step; [by wp_step|].
  wp_step. eapply wp_mono; [apply reap_completions_reaps|]. cbn. intros batch w1 Hr.
  assert (H1 : reverse_inv s0 F pool w1).
  { destruct Hinv as (Hops & Hz & HF & Hst & Hb & Hp).
    edestruct (client_ops_reaped _ _ _ _ Hr) as [Ho Hf]; [by eapply (client_ops_quiet w)|].
    destruct Hr as (_&_&Hs&Hw&Hl&Hse&_&Hcq&_). ghost_simpl. unfold reverse_inv.
    rewrite Hs, Hw, Hf, Hl, Hse, Hcq. split_and!; try done. by apply (buffer_answers (Ev StopLoad (answer (hist w) StopLoad) :: hist w)). }
  assert (Hpre : batch `prefix_of` cq_of (hist w1)).
  { destruct Hr as (_&_&_&_&_&_&_&_&->&_). apply prefix_take. }
  destruct batch as [|c batch].
  - wp_step. wp_use (submit_and_wait_quiet _ _ _) as [Hq _]. wp_step.
    by eapply reverse_inv_quiet.
  - wp_step. eapply wp_mono.
    { apply (for_each_batch b _ (fun _ => reverse_inv s0 F pool)); [|done..].
      intros. by apply reverse_on_cqe_ok. }
    cbn. intros pc' w2 H2. wp_step. wp_use (submit_quiet _ _) as [Hq _]. wp_step.
    by eapply reverse_inv_quiet.
Qed.
End Reverse.

(** ** The whole reverse client *)

Section ReverseRun.
Context {P : Platform} {L : KernelLaws P} {B : BufferLaws P}.

(** All provided buffers of a configuration. *)
Definition full_pool (cfg : Config) : list Z := rev (zseq (next_pow2 (in_flight cfg))).

(** An idle ring that holds the provided buffers [pool]. *)
Definition idle_ring (pool : list Z) (F : gset Z) (w : World) : Prop :=
  exists st, ghost_of (hist w) = mkGhost [] [] F (mkBufRing pool st) [].

(** The requests are armed over live contexts, none at the null pointer. *)
Definition armed (s0 : StatsCollector) (F : gset Z) (pool : list Z) (w : World) : Prop :=
  reverse_ops w /\ 0 < next_obj w /\ stats w = s0 /\ cq_of (hist w) = [] /\
  fds_of (hist w) = F /\ lent_of (hist w) = pool /\ seen_of (hist w) = [].

Lemma armed_inv tid (ms : bool) s0 F pool w :
  armed s0 F (if ms then pool else []) w -> reverse_inv tid ms s0 F pool w.
Proof.
  intros ([Ho Hz] & _ & Hs & Hc & Hf & Hl & Hse). unfold reverse_inv.
  by rewrite Hc, Hse, Hs.
Qed.

Lemma idle_armed pool F w : idle_ring pool F w -> 0 < next_obj w -> armed (stats w) F pool w.
Proof.
  intros [st Hg] Hn. assert (Ho : client_ops w) by (apply client_ops_empty; by rewrite Hg).
  unfold armed, reverse_ops. rewrite Hg. split; [|done]. split; [done|].
  by intros ? ?%elem_of_nil.
Qed.

(** A new context is live, and the requests in flight do not notice. *)
Lemma armed_new_object s0 F pool c w w' :
  heap w' = <[ptr_of (next_obj w) := OCtx c]> (heap w) -> next_obj w' = next_obj w + 1 ->
  stats w' = stats w -> ghost_of (hist w') = ghost_of (hist w) ->
  armed s0 F pool w ->
  armed s0 F pool w' /\ heap w' !! ptr_of (next_obj w) = Some (OCtx c) /\ ptr_of (next_obj w) <> 0.
Proof.
  intros Hh Hn Hs Hg ([[[Hr Hl] Hop] Hz] & Hpos & H). unfold ptr_of in *. split_and!.
  - unfold armed, reverse_ops, client_ops, sound, ring_ok, live_ops. rewrite Hg, Hs, Hn.
    split_and!; try done; try lia; try apply H.
    intros s Hin. destruct (decide (sq_user_data s = 16 * next_obj w)) as [->|Hne].
    + exists c. rewrite Hh. apply lookup_insert_eq.
    + rewrite Hh, lookup_insert_ne by done. by apply Hl.
  - rewrite Hh. apply lookup_insert_eq.
  - lia.
Qed.

Lemma armed_queues s0 F pool s ok w w' :
  (exists c, heap w !! sq_user_data s = Some (OCtx c)) -> sq_op s <> OP_ACCEPT ->
  sq_user_data s <> 0 -> queues s w ok w' -> armed s0 F pool w -> armed s0 F pool w'.
Proof.
  intros Hc Hop Hud Hq (Ho & Hn & H). pose proof (reverse_ops_queues _ _ _ _ Hc Hop Hud Hq Ho).
  destruct Hq as [(_&Hn'&Hs&_&Hcq&Hf&Hl&Hse) _]. unfold armed.
  rewrite Hn', Hs, Hcq, Hf, Hl, Hse. split; [assumption|]. by split.
Qed.

Lemma reverse_arm_spec b tid cfg e ms sockfd s0 F pool m extra w :
  armed s0 F pool w -> holds m extra w -> closes_ok (hist w) -> (ms = false -> extra = []) ->
  wp b (reverse_arm tid cfg e ms sockfd)
    (fun r w' => armed s0 F pool w' /\ holds m (r.1 ++ extra) w' /\ closes_ok (hist w')) w.
Proof.
  intros Ha Hh Hcl Hex. unfold reverse_arm. destruct ms.
  - do 2 wp_step. set (w1 := with_heap _ _ w).
    destruct (armed_new_object _ _ _ (mkIOContext RECV sockfd 0 0 0 (u32 tid)) w w1
      eq_refl eq_refl eq_refl eq_refl Ha) as (Ha1 & Hlk & Hnz).
    wp_step. eapply wp_mono; [apply (wp_only keeps), prep_queues; apply only_prep|].
    cbn beta. intros ok w2 [Hq [Hm Hc]%extends_keeps]. wp_step. split_and!.
    + eapply armed_queues; [..|exact Hq|exact Ha1]; [by eexists| |done].
      unfold recv_multishot_sqe, fixed_file_flag; by case_match.
    + by eapply holds_same.
    + by apply Hc.
  - rewrite Hex in * by done.
    apply (wp_for_each b _ (fun _ r w' => armed s0 F pool w' /\ holds m r.1 w' /\ closes_ok (hist w'))).
    + intros i rest [bufs ctxs] w1 (Ha1 & Hh1 & Hc1). cbn [fst snd] in *. wp_step.
      wp_use (new_buffer_ctx_spec _ _ _ _ _ _ _ _ _ Hh1) as (H2&Hg2&Hs2&_&Hc2&Hp&Hn&Hheap).
      rewrite Hp in Hheap.
      destruct (armed_new_object _ _ _ _ _ _ Hheap Hn Hs2 Hg2 Ha1) as (Ha2 & Hlk & Hnz).
      wp_step. eapply wp_mono; [apply (wp_only keeps), prep_queues; apply only_prep|].
      cbn beta. intros ok w2 [Hq [Hm Hc]%extends_keeps]. wp_step. split_and!.
      * eapply armed_queues; [..|exact Hq|exact Ha2];
          unfold recv_sqe, fixed_file_flag; repeat case_match; cbn; rewrite ?Hp; by eauto.
      * by eapply holds_same.
      * auto.
    + intros [bufs ctxs] w1. by rewrite app_nil_r.
    + by split_and!.
Qed.

(** The ring and, in multishot mode, the provided buffers of the configuration. *)
Lemma reverse_ring_spec b cfg e m w :
  1 <= in_flight cfg <= 2 ^ 15 -> 0 <= buf_size cfg < 2 ^ 32 ->
  recv_buf_ring_ e = 0 -> mem_of (hist w) = Some m -> closes_ok (hist w) ->
  ghost_of (hist w) = mkGhost [] [] (fds_of (hist w)) no_bufs [] ->
  wp b (if multishot_recv cfg then setup_multishot_recv (in_flight cfg) (buf_size cfg) 0 e
        else mret (false, e))
    (fun r w' => idle_ring (if r.1 : bool then full_pool cfg else []) (fds_of (hist w)) w' /\
       stats w' = stats w /\ next_obj w' = next_obj w /\ closes_ok (hist w') /\
       holds m (if recv_buf_ring_ r.2 =? 0 then [] else [recv_buf_mem_ r.2]) w' /\
       (recv_buf_ring_ r.2 <> 0 -> recv_buf_mem_ r.2 <> 0) /\
       (r.1 = false -> recv_buf_ring_ r.2 = 0)) w.
Proof.
  intros Hif Hbs He Hm Hcl Hg. wp_step.
  - eapply wp_mono; [by apply setup_multishot_recv_spec|]. cbn beta.
    intros [ok e'] w' [(_&Hn&Hs&Ho&Hc&Hf&Hse&_&Hcl') H]. cbn [fst snd] in *.
    rewrite Hg in Ho, Hc, Hf, Hse, H. cbn [owed cq fds dealt bufs lent no_bufs] in *.
    assert (idle : forall pool, lent_of (hist w') = pool -> idle_ring pool (fds_of (hist w)) w').
    { intros pool Hl. exists (staged (bufs_of (hist w'))).
      destruct (ghost_of (hist w')) as [? ? ? [? ?] ?]; cbn in *. by subst. }
    destruct ok.
    + destruct H as (Hr & Hmem & _ & _ & Hh & _ & _ & Hl & _). rewrite app_nil_r in Hl.
      rewrite (proj2 (Z.eqb_neq _ 0) Hr). split_and!; auto; done.
    + destruct H as (Hr & Hmem & Hl & _). rewrite Hr. cbn. split_and!; auto; try done.
      by apply holds_none.
  - wp_step. cbn. split; [by exists []|]. rewrite He. cbn. split_and!; try done. by apply holds_none.
Qed.

Lemma delete_all_same b ctxs w :
  wp b (for_each ctxs (fun ctx _ => delete_object ctx) tt)
    (fun _ w' => hist w' = hist w /\ stats w' = stats w) w.
Proof.
  apply (wp_for_each b _ (fun _ _ w' => hist w' = hist w /\ stats w' = stats w)); [|done..].
  intros. by wp_step.
Qed.

(** The reverse client: like the forward one; the socket is closed by the
    caller. *)
Lemma run_client_reverse_recv_spec b fuel tid cfg sockfd m w :
  ring_init b (queue_depth cfg) -> fuelled b fuel ->
  1 <= in_flight cfg <= 2 ^ 15 -> 0 <= buf_size cfg < 2 ^ 32 -> 0 < next_obj w ->
  mem_of (hist w) = Some m -> closes_ok (hist w) ->
  wp b (run_client_reverse_recv fuel tid cfg sockfd)
    (fun _ w' => (exists ms, (ms = true -> multishot_recv cfg = true) /\
         stats w' = foldl (reverse_account tid ms) (stats w) (seen_of (hist w')) /\
         lent_of (hist w') = if ms then full_pool cfg else []) /\
       fds_of (hist w') = fds_of (hist w) /\
       mem_of (hist w') = Some m /\ closes_ok (hist w')) w.
Proof.
  intros Hb Hfuel Hif Hbs Hpos Hm Hcl. unfold run_client_reverse_recv. wp_step.
  wp_use (UringEngine_new_spec _ _ _ _ Hb) as [[sq He] (_&Hn1&Hs1&Hg1&Hm1&Hc1)].
  subst a. rename w' into w1. wp_step.
  assert (Hf1 : fds_of (hist w1) = fds_of (hist w)) by (by rewrite Hg1).
  eapply wp_mono; [apply (wp_conj _ _ (fun r _ => r.1 = true -> multishot_recv cfg = true));
    [|eapply (reverse_ring_spec _ _ _ m); try done; [congruence|auto|by rewrite Hf1]]|].
  { by destruct (multishot_recv cfg); [unfold setup_multishot_recv; wp_steps;
      try (apply (wp_for_each _ _ (fun _ _ _ => True)); intros; by wp_steps)|wp_step]. }
  cbn beta. intros [ms e1] w2 [Hms (Hg2 & Hs2 & Hn2 & Hc2 & Hh2 & Hnz & Hex)].
  cbn [fst snd] in *. wp_step. eapply wp_mono.
  { eapply reverse_arm_spec; [apply idle_armed; [exact Hg2|lia]|exact Hh2|done|].
    intros ->. by rewrite Hex. }
  cbn beta. intros [bufs ctxs] w3 (Ha3 & Hh3 & Hc3). cbn [fst snd] in *. wp_step.
  eapply wp_mono; [apply (wp_only keeps), submit_quiet; apply only_submit|].
  cbn beta. intros _ w4 [[Hq4 _] [Hm4 Hc4]%extends_keeps]. wp_step.
  set (I := fun (_ : bool) => reverse_inv tid ms (stats w2) (fds_of (hist w1)) (full_pool cfg)).
  eapply wp_mono.
  { apply (wp_only keeps); [apply only_iter, only_reverse_iter|].
    apply (wp_iter_stop keeps _ _ I (fun _ => I false)); [done| |done| |].
    - intros pc stop. unfold reverse_on_cqe, reverse_multishot_cqe, reverse_single_cqe,
        prep_recv_multishot. by only_tac.
    - intros pc w5 H5. eapply wp_mono; [by apply (reverse_iter_ok tid cfg e1 ms sockfd)|].
      by intros [?|?].
    - eapply reverse_inv_quiet; [exact Hq4|]. by apply armed_inv. }
  cbn beta. intros _ w5 [(_ & _ & Hf5 & Hs5 & _ & Hl5) [Hm5 Hc5]%extends_keeps]. wp_step.
  eapply wp_mono; [eapply free_all_holds, holds_same; [|exact Hh3]; congruence|].
  cbn beta. intros _ w6 [Hh6 (_&_&Hs6&Hg6&_&Hc6)]. wp_step.
  eapply wp_mono; [apply delete_all_same|]. cbn beta. intros _ w7 [Hw7 Hs7].
  eapply wp_mono; [apply (UringEngine_destroy_spec _ m); [|done];
    eapply holds_same; [|exact Hh6]; congruence|].
  cbn beta. intros _ w8 [Hm8 (_&_&Hs8&Hg8&_&Hc8)].
  rewrite Hg8, Hs8, Hw7, Hs7, Hg6, Hs6. split_and!; [|congruence|done|].
  - exists ms. split_and!; [done| |done]. by rewrite Hs5, Hs2, Hs1.
  - apply Hc8. rewrite Hw7. auto 10.
Qed.
End ReverseRun.
