(* ===== verification/ZcrxProofs.v ===== *)
(** Correctness of zero-copy receive ([Zcrx.v]): tagged pointers, the refill
    queue, the mapped regions, and the server and client loops. *)

From S2P Require Import Prelude Stats Sys Only Kernel NetUtils Config Engine Zcrx ClientProofs.

(** * Words *)

(** The address of a connection survives the tag. *)
Lemma tag_roundtrip n tag :
  0 <= tag < 8 ->
  Z.land (Z.lor (ptr_of n) tag) (Z.lnot kZcrxReqTypeMask) = ptr_of n /\
  Z.land (Z.lor (ptr_of n) tag) kZcrxReqTypeMask = tag.
Proof.
  intros Ht. unfold kZcrxReqTypeMask, ptr_of.
  assert (Hor : Z.lor (16 * n) tag = Z.lor (Z.shiftl (2 * n) 3) tag).
  { f_equal. rewrite Z.shiftl_mul_pow2 by lia. lia. }
  rewrite Hor, lor_shiftl_add by lia. change 7 with (Z.ones 3). split.
  - rewrite <- Z.ldiff_land, Z.ldiff_ones_r, Z.shiftr_div_pow2, Z.shiftl_mul_pow2 by lia.
    change (2 ^ 3) with 8. rewrite Z.div_add_l, (Z.div_small tag) by lia. lia.
  - rewrite Z.land_ones, Z.add_comm, Z.mod_add, Z.mod_small by lia. done.
Qed.

Lemma land_mask_multiple v k :
  0 <= k <= 64 -> 0 <= v < 2 ^ 64 ->
  Z.land v (u64 (Z.lnot (2 ^ k - 1))) = v - v mod 2 ^ k.
Proof.
  intros Hk Hv. unfold u64.
  replace (Z.lnot (2 ^ k - 1) mod 2 ^ 64) with (Z.land (Z.lnot (Z.ones k)) (Z.ones 64)).
  2: { rewrite Z.land_ones by lia. by rewrite Z.ones_equiv. }
  rewrite (Z.land_comm _ (Z.ones 64)), Z.land_assoc, Z.land_ones, Z.mod_small by lia.
  rewrite <- Z.ldiff_land, Z.ldiff_ones_r, Z.shiftr_div_pow2, Z.shiftl_mul_pow2 by lia.
  pose proof (Z.div_mod v (2 ^ k) ltac:(lia)). lia.
Qed.

(** [zcrx_align_up] rounds up to the next multiple of a power of two. *)
Lemma zcrx_align_up_least v k :
  0 <= k < 64 -> 0 <= v -> v + 2 ^ k - 1 < 2 ^ 64 ->
  let r := zcrx_align_up v (2 ^ k) in
  (2 ^ k | r) /\ v <= r < v + 2 ^ k.
Proof.
  intros Hk Hv Hfit. cbn zeta. unfold zcrx_align_up.
  assert (0 < 2 ^ k < 2 ^ 64) by (split; [lia|apply Z.pow_lt_mono_r; lia]).
  rewrite (u64_small (2 ^ k - 1)) by lia. rewrite (u64_small (v + 2 ^ k - 1)) by lia.
  rewrite land_mask_multiple by lia. set (x := v + 2 ^ k - 1).
  pose proof (Z.mod_pos_bound x (2 ^ k) ltac:(lia)).
  pose proof (Z.div_mod x (2 ^ k) ltac:(lia)). split; [|lia].
  exists (x / 2 ^ k). lia.
Qed.

(** * The refill queue as a bounded FIFO *)

(** The entries in memory, by slot: the last value written to each. *)
Definition rq_slots (t : history) : gmap Z (Z * Z) :=
  foldr (fun e m => match e with Ev (RqWrite i off len) _ => <[i := (off, len)]> m | _ => m end) ∅ t.
Arguments rq_slots : simpl never.

(** The tail the kernel sees. *)
Definition rq_shared_tail (t : history) : Z :=
  foldr (fun e n => match e with Ev (RqStoreTail n') _ => n' | _ => n end) 0 t.
Arguments rq_shared_tail : simpl never.

(** What the kernel will read between [head] and the tail, oldest first: the
    abstract queue. *)
Definition rq_contents (entries head tail : Z) (slots : gmap Z (Z * Z)) : list (option (Z * Z)) :=
  (fun k => slots !! Z.land (u32 (head + k)) (entries - 1)) <$> zseq (u32 (tail - head)).

Lemma land_pow2_mod x k : 0 <= k -> Z.land x (2 ^ k - 1) = x mod 2 ^ k.
Proof. intros. rewrite <- Z.land_ones by done. by rewrite Z.ones_equiv. Qed.

(** Slot numbers do not notice that the counters wrap at 32 bits. *)
Lemma rq_slot_wrap x k : 0 <= k <= 32 -> Z.land (u32 x) (2 ^ k - 1) = x mod 2 ^ k.
Proof.
  intros Hk. rewrite land_pow2_mod by lia. unfold u32.
  replace (2 ^ 32) with (2 ^ (32 - k) * 2 ^ k) by (rewrite <- Z.pow_add_r by lia; f_equal; lia).
  apply Z.mod_mod_divide. by exists (2 ^ (32 - k)).
Qed.

Lemma u32_sub x y : u32 (u32 x - y) = u32 (x - y).
Proof. unfold u32. by rewrite Zminus_mod_idemp_l. Qed.

Lemma zseq_succ n : 0 <= n -> zseq (n + 1) = zseq n ++ [n].
Proof.
  intros. unfold zseq. replace (Z.to_nat (n + 1)) with (S (Z.to_nat n)) by lia.
  rewrite seq_S, fmap_app. cbn. by rewrite Z2Nat.id by lia.
Qed.

(** Adding an entry at the tail extends the queue by it, and overwrites none of
    the entries the kernel has not read. *)
Lemma rq_contents_push k head tail slots e :
  0 <= k < 32 -> u32 (tail - head) < 2 ^ k ->
  rq_contents (2 ^ k) head (u32 (tail + 1)) (<[Z.land (u32 tail) (2 ^ k - 1) := e]> slots) =
    rq_contents (2 ^ k) head tail slots ++ [Some e].
Proof.
  intros Hk Hroom. unfold rq_contents. set (n := u32 (tail - head)) in *.
  assert (Hp : 0 < 2 ^ k < 2 ^ 32) by (split; [lia|apply Z.pow_lt_mono_r; lia]).
  assert (Hn : 0 <= n < 2 ^ 32) by (unfold n, u32; apply Z.mod_pos_bound; lia).
  assert (Hlen : u32 (u32 (tail + 1) - head) = n + 1).
  { rewrite u32_sub. replace (tail + 1 - head) with (tail - head + 1) by lia.
    unfold u32. rewrite <- Zplus_mod_idemp_l. fold (u32 (tail - head)). fold n.
    by rewrite Z.mod_small by lia. }
  assert (Htail : tail mod 2 ^ k = (head + n) mod 2 ^ k).
  { rewrite <- (rq_slot_wrap tail), <- (rq_slot_wrap (head + n)) by lia. f_equal.
    unfold n, u32. rewrite Zplus_mod_idemp_r. f_equal. lia. }
  rewrite Hlen, zseq_succ, fmap_app by lia. f_equal.
  - apply list_fmap_ext. intros i x Hx.
    assert (Hin : 0 <= x < n) by (apply elem_of_zseq; by eapply list_elem_of_lookup_2).
    rewrite !rq_slot_wrap, Htail by lia. apply lookup_insert_ne. intros Heq.
    assert (Hdiv : (n - x) mod 2 ^ k = 0).
    { replace (n - x) with ((head + n) - (head + x)) by lia.
      by rewrite Zminus_mod, Heq, Z.sub_diag, Z.mod_0_l by lia. }
    rewrite Z.mod_small in Hdiv by lia. lia.
  - cbn. rewrite !rq_slot_wrap, Htail by lia. by rewrite lookup_insert_eq.
Qed.

Lemma length_rq_contents entries head tail slots :
  Z.of_nat (length (rq_contents entries head tail slots)) = u32 (tail - head).
Proof. unfold rq_contents. rewrite length_fmap. apply length_zseq, u32_range. Qed.

(** The kernel reads [d] entries: they leave the queue at its front. *)
Lemma rq_contents_pop k head head' tail slots :
  0 <= k < 32 -> u32 (head' - head) <= u32 (tail - head) ->
  rq_contents (2 ^ k) head' tail slots =
    drop (Z.to_nat (u32 (head' - head))) (rq_contents (2 ^ k) head tail slots).
Proof.
  intros Hk Hle. set (d := u32 (head' - head)) in *.
  assert (Hd : 0 <= d < 2 ^ 32) by apply u32_range.
  assert (Hlen : u32 (tail - head') = u32 (tail - head) - d).
  { assert (Heq : u32 (tail - head') = u32 (u32 (tail - head) - d)).
    { unfold d, u32. rewrite <- Zminus_mod. f_equal. lia. }
    rewrite Heq. apply u32_small. pose proof (u32_range (tail - head)). lia. }
  apply list_eq. intros i. rewrite lookup_drop. unfold rq_contents. rewrite !list_lookup_fmap.
  unfold zseq. rewrite !list_lookup_fmap, Hlen.
  destruct (decide (i < Z.to_nat (u32 (tail - head) - d))%nat) as [Hi|Hi].
  - rewrite !lookup_seq_lt by lia. cbn. do 2 f_equal.
    f_equal. replace (head + Z.of_nat (Z.to_nat d + i)) with (head + d + Z.of_nat i) by lia.
    unfold d, u32. rewrite <- (Zplus_mod_idemp_l (head + _)), Zplus_mod_idemp_r, Zplus_mod_idemp_l.
    f_equal. lia.
  - rewrite !lookup_seq_ge by lia. done.
Qed.

(** The consumer position the program saw last. *)
Definition rq_head (t : history) : Z :=
  foldr (fun e n => match e with Ev RqLoadHead h => h | _ => n end) 0 t.
Arguments rq_head : simpl never.

(** The queue of the refill ring after this history. *)
Definition rq_queue (entries : Z) (t : history) : list (option (Z * Z)) :=
  rq_contents entries (rq_head t) (rq_shared_tail t) (rq_slots t).

(** The abstract operation: the kernel has taken [popped] entries; [e] is added
    unless the queue is full. *)
Definition refill_spec (entries : Z) (popped : nat) (e : Z * Z) (q : list (option (Z * Z)))
    : list (option (Z * Z)) :=
  let q := drop popped q in
  if Z.of_nat (length q) =? entries then q else q ++ [Some e].

Section Refill.
Context {P : Platform}.

(** The producer's private tail is the one the kernel sees. *)
Definition rq_synced (zst : ZcrxState) (t : history) : Prop :=
  rq_tail zst = rq_shared_tail t /\ 0 <= rq_tail zst < 2 ^ 32.

(** [zcrx_return_buffer] refines [refill_spec], for any progress of the kernel
    within the queue. *)
Lemma zcrx_return_buffer_refines b k zst c w :
  0 <= k < 32 -> rq_ring_entries zst = 2 ^ k -> rq_synced zst (hist w) ->
  Z.of_nat (length (rq_queue (2 ^ k) (hist w))) <= 2 ^ k ->
  let popped := u32 (answer (hist w) RqLoadHead - rq_head (hist w)) in
  popped <= Z.of_nat (length (rq_queue (2 ^ k) (hist w))) ->
  wp b (zcrx_return_buffer zst c)
    (fun zst' w' => rq_synced zst' (hist w') /\ rq_ring_entries zst' = 2 ^ k /\
       rq_queue (2 ^ k) (hist w') =
         refill_spec (2 ^ k) (Z.to_nat popped)
           (refill_off (cq_off c) (area_token zst), u32 (cq_res c))
           (rq_queue (2 ^ k) (hist w)) /\
       Z.of_nat (length (rq_queue (2 ^ k) (hist w'))) <= 2 ^ k) w.
Proof.
  intros Hk He [Hs Hr] Hcap. cbn zeta. intros Hpop.
  assert (Hp : 0 < 2 ^ k < 2 ^ 32) by (split; [lia|apply Z.pow_lt_mono_r; lia]).
  unfold rq_queue, refill_spec in *. rewrite length_rq_contents in Hpop, Hcap.
  set (head := answer (hist w) RqLoadHead) in *.
  rewrite <- rq_contents_pop by done. rewrite length_rq_contents, <- Hs.
  assert (Hle : u32 (rq_tail zst - head) <= 2 ^ k).
  { rewrite <- (length_rq_contents (2 ^ k) head _ (rq_slots (hist w))), Hs.
    rewrite (rq_contents_pop k (rq_head (hist w))), length_drop by done.
    pose proof (length_rq_contents (2 ^ k) (rq_head (hist w)) (rq_shared_tail (hist w))
      (rq_slots (hist w))). lia. }
  unfold zcrx_return_buffer, zcrx_rq_nr_queued. do 4 wp_step. fold head. rewrite He.
  wp_step.
  { wp_step. split_and!; try done; [by rewrite Hs|]. rewrite length_rq_contents.
    change (u32 (rq_shared_tail (hist w) - head) <= 2 ^ k). by rewrite <- Hs. }
  apply Z.eqb_neq in E. rewrite (u32_small (2 ^ k - 1)) by lia. wp_steps. cbn.
  pose proof (u32_range (rq_tail zst + 1)).
  match goal with
  | |- context [rq_contents _ (rq_head ?t) (rq_shared_tail ?t) (rq_slots ?t)] =>
      change (rq_contents (2 ^ k) (rq_head t) (rq_shared_tail t) (rq_slots t)) with
        (rq_contents (2 ^ k) head (u32 (rq_tail zst + 1))
           (<[Z.land (rq_tail zst) (2 ^ k - 1) :=
              (refill_off (cq_off c) (area_token zst), u32 (cq_res c))]> (rq_slots (hist w))))
  end.
  assert (Hq := rq_contents_push k head (rq_tail zst) (rq_slots (hist w))
    (refill_off (cq_off c) (area_token zst), u32 (cq_res c)) Hk ltac:(lia)).
  rewrite (u32_small (rq_tail zst)) in Hq by lia. rewrite Hq, length_app, Nat2Z.inj_add.
  rewrite length_rq_contents. cbn. split_and!; try done; lia.
Qed.
End Refill.

(** * Mapped regions *)

Section Mappings.
Context {P : Platform} {ML : MapLaws P}.

(** Besides [m], exactly the two regions of [st] are mapped. *)
Definition regions (m : gset (Z * Z)) (st : ZcrxState) (area_size : Z) (w : World) : Prop :=
  let area := (area_ptr st, area_size) in
  let ring := (ring_ptr st, ring_size st) in
  maps_of (hist w) = Some ({[area]} ∪ ({[ring]} ∪ m)) /\
  area_ptr st <> 0 /\ ring_ptr st <> 0 /\ (area ∉ {[ring]} ∪ m) /\ (ring ∉ m).

(** Only mappings changed. *)
Definition only_maps (w w' : World) : Prop :=
  heap w' = heap w /\ next_obj w' = next_obj w /\ stats w' = stats w /\
  ghost_of (hist w') = ghost_of (hist w) /\ sq_used (hist w') = sq_used (hist w) /\
  mem_of (hist w') = mem_of (hist w) /\ (closes_ok (hist w) -> closes_ok (hist w')).

Lemma only_maps_trans w1 w2 w3 : only_maps w1 w2 -> only_maps w2 w3 -> only_maps w1 w3.
Proof. intros (?&?&?&?&?&?&?) (?&?&?&?&?&?&?). repeat split; auto; congruence. Qed.

Lemma maps_map t n p m :
  maps_of t = Some m -> maps_of (Ev (Mmap n) (Some p) :: t) = Some ({[(p, n)]} ∪ m).
Proof. intros H. rewrite maps_of_cons. cbn. by rewrite H. Qed.

Lemma maps_unmap t n p m r :
  maps_of t = Some ({[(p, n)]} ∪ m) -> (p, n) ∉ m ->
  maps_of (Ev (Munmap p n) r :: t) = Some m.
Proof.
  intros H Hni. rewrite maps_of_cons. cbn. rewrite H. cbn.
  rewrite bool_decide_true by set_solver. f_equal. set_solver.
Qed.

Lemma maps_other e t m :
  match ev_call e with Mmap _ | Munmap _ _ => False | _ => True end ->
  maps_of t = m -> maps_of (e :: t) = m.
Proof. intros He <-. rewrite maps_of_cons. by destruct e as [[] ?]. Qed.

(** [zcrx_setup] maps both regions or, when any step fails, neither. *)
Lemma zcrx_setup_spec b ifname q area rq st m w :
  maps_of (hist w) = Some m ->
  wp b (zcrx_setup ifname q area rq st)
    (fun r w' => only_maps w w' /\
       if r.1 : bool then regions m r.2 area w' /\ rq_tail r.2 = 0
       else maps_of (hist w') = Some m) w.
Proof.
  intros Hm. unfold zcrx_setup. do 5 wp_step; [wp_step; by repeat split|].
  set (w2 := log _ (log _ w)). assert (Hm2 : maps_of (hist w2) = Some m) by exact Hm.
  set (size := zcrx_align_up _ _). do 2 wp_step.
  pose proof (mmap_fresh (hist w2) size m) as Hf2.
  destruct (answer (hist w2) (Mmap size)) as [rp|] eqn:Ha2; [|wp_step; by repeat split].
  destruct (Hf2 rp eq_refl Hm2) as [Hrp Hrm].
  assert (Hm3 := maps_map _ size rp _ Hm2). do 2 wp_step. set (w3 := log _ w2).
  change (Ev (Mmap size) (Some rp) :: hist w2) with (hist w3) in Hm3.
  pose proof (fun p H => mmap_fresh (hist w3) area _ p H Hm3) as Hf3.
  destruct (answer (hist w3) (Mmap area)) as [ap|] eqn:Ha3.
  2: { wp_steps. split; [by repeat split|]. cbn. by eapply (maps_unmap (_ :: hist w3)). }
  destruct (Hf3 ap eq_refl) as [Hap Ham].
  assert (Hm4 := maps_map _ area ap _ Hm3). do 3 wp_step.
  - wp_steps. split; [by repeat split|]. cbn. eapply maps_unmap; [|done].
    eapply maps_unmap; [|apply Ham]. by apply maps_other.
  - wp_step. cbn. split; [by repeat split|]. split; [|done].
    by split_and!; cbn.
Qed.

Lemma zcrx_teardown_spec b m st area w :
  regions m st area w ->
  wp b (zcrx_teardown st area) (fun _ w' => only_maps w w' /\ maps_of (hist w') = Some m) w.
Proof.
  intros (Hm & Ha & Hr & Hna & Hnr). unfold zcrx_teardown.
  rewrite (proj2 (Z.eqb_neq _ 0) Ha), (proj2 (Z.eqb_neq _ 0) Hr). cbn [negb]. wp_steps.
  split; [by repeat split|]. cbn. eapply maps_unmap; [|done]. by eapply maps_unmap.
Qed.

Lemma regions_same m st st' area w w' :
  maps_of (hist w') = maps_of (hist w) -> area_ptr st' = area_ptr st ->
  ring_ptr st' = ring_ptr st -> ring_size st' = ring_size st ->
  regions m st area w -> regions m st' area w'.
Proof. intros Hm Ha Hr Hs. unfold regions. by rewrite Hm, Ha, Hr, Hs. Qed.
End Mappings.

(** * A batch that is consumed at once *)

Definition settle_all (cs : list cqe) (l : list sqe) : list sqe := foldl (flip settle) l cs.

(** The completions [cs] with the operations of their requests. *)
Fixpoint answers (cs : list cqe) (l : list sqe) : list (option opcode * cqe) :=
  match cs with
  | [] => []
  | c :: cs => (op_of l c, c) :: answers cs (settle c l)
  end.

Lemma map_snd_answers cs l : map snd (answers cs l) = cs.
Proof. revert l. induction cs as [|c cs IH]; intros l; cbn; [done|]. by rewrite IH. Qed.

Lemma consume_all cs rest g :
  cq g = cs ++ rest ->
  Nat.iter (length cs) consume g =
    mkGhost (settle_all cs (owed g)) rest (fds g)
      (mkBufRing (foldl (flip unlend) (lent (bufs g)) cs) (staged (bufs g)))
      (dealt g ++ answers cs (owed g)).
Proof.
  revert g. induction cs as [|c cs IH]; intros g Hcq.
  - cbn. rewrite app_nil_r. destruct g as [? ? ? [? ?] ?]; cbn in *; by subst.
  - cbn [length]. rewrite Nat.iter_succ_r, IH; unfold consume; rewrite Hcq; cbn; [|done].
    by rewrite <- app_assoc.
Qed.

Lemma settle_all_app cs cs' l : settle_all (cs ++ cs') l = settle_all cs' (settle_all cs l).
Proof. apply foldl_app. Qed.

Lemma settle_all_sublist cs l : settle_all cs l `sublist_of` l.
Proof.
  revert l. induction cs as [|c cs IH]; intros l; cbn; [done|].
  etrans; [apply IH|apply settle_sublist].
Qed.

(** What one completion of a zero-copy receive adds to the counters. *)
Definition zcrx_account (tid : Z) (s : StatsCollector) (c : cqe) : StatsCollector :=
  if is_final c then
    if recoverable (cq_res c) then s else if cq_res c <? 0 then add_error tid s else s
  else if 0 <? cq_res c then add_zc_notification tid (add_bytes tid (cq_res c) 1 s) else s.

Section OnlyZcrx.
Context {P : Platform}.

(** Neither allocations, descriptors nor mappings are touched. *)
Definition steady (c : call) : Prop := keeps c /\ no_map c.
Definition no_mem_map (c : call) : Prop := no_mem c /\ no_map c.

Lemma extends_steady w w' :
  extends steady w w' ->
  mem_of (hist w') = mem_of (hist w) /\ maps_of (hist w') = maps_of (hist w) /\
  (closes_ok (hist w) -> closes_ok (hist w')).
Proof.
  intros H. split_and!; [apply extends_mem|apply extends_maps|apply extends_closes];
    (eapply extends_mono; [|exact H]); by intros c [[]].
Qed.

Lemma extends_no_mem_map w w' :
  extends no_mem_map w w' ->
  mem_of (hist w') = mem_of (hist w) /\ maps_of (hist w') = maps_of (hist w).
Proof.
  intros H. split_and!; [apply extends_mem|apply extends_maps];
    (eapply extends_mono; [|exact H]); by intros c [].
Qed.

Lemma only_zcrx_on_data tid zst c : only steady (zcrx_on_data tid zst c).
Proof. unfold zcrx_on_data, zcrx_return_buffer, zcrx_rq_nr_queued. by only_tac. Qed.
Lemma only_zcrx_submit_recv p id : only steady (zcrx_submit_recv p id).
Proof. unfold zcrx_submit_recv. by only_tac. Qed.
Hint Resolve only_zcrx_on_data only_zcrx_submit_recv : only.
Lemma only_zcrx_client_iter tid conn st : only steady (zcrx_client_iter tid conn st).
Proof. unfold zcrx_client_iter, zcrx_client_on_cqe. by only_tac. Qed.
Lemma only_zcrx_server_iter tid fd st : only no_mem_map (zcrx_server_iter tid fd st).
Proof.
  unfold zcrx_server_iter, zcrx_server_on_cqe, zcrx_on_accept, zcrx_on_rx, zcrx_on_data,
    zcrx_return_buffer, zcrx_rq_nr_queued, zcrx_submit_recv, zcrx_submit_accept, put_unchecked,
    set_nonblocking. by only_tac.
Qed.
End OnlyZcrx.
#[export] Hint Resolve only_zcrx_on_data only_zcrx_submit_recv only_zcrx_client_iter
  only_zcrx_server_iter : only.

(** * Steps both loops share *)

Section Shared.
Context {P : Platform}.

(** The refill queue moved on; the regions and the id of the queue stay. *)
Definition same_area (z z' : ZcrxState) : Prop :=
  area_ptr z' = area_ptr z /\ ring_ptr z' = ring_ptr z /\ ring_size z' = ring_size z /\
  zcrx_id z' = zcrx_id z.

Lemma same_area_trans z1 z2 z3 : same_area z1 z2 -> same_area z2 z3 -> same_area z1 z3.
Proof. intros (?&?&?&?) (?&?&?&?). repeat split; congruence. Qed.

Lemma zcrx_on_data_spec b tid zst c w :
  wp b (zcrx_on_data tid zst c)
    (fun zst' w' => same_area zst zst' /\ heap w' = heap w /\ next_obj w' = next_obj w /\
       stats w' = add_zc_notification tid (add_bytes tid (cq_res c) 1 (stats w)) /\
       ghost_of (hist w') = ghost_of (hist w) /\ sq_used (hist w') = sq_used (hist w) /\
       (closes_ok (hist w) -> closes_ok (hist w'))) w.
Proof.
  unfold zcrx_on_data, zcrx_return_buffer, zcrx_rq_nr_queued. wp_steps; by repeat split.
Qed.

Lemma zcrx_submit_recv_spec {entries} {SL : SubmissionLaws P entries} b p id cn w :
  heap w !! p = Some (OConn cn) -> sq_used (hist w) < entries ->
  wp b (zcrx_submit_recv p id)
    (fun _ w' => queued [recv_zc_sqe (conn_fd cn) id p] w w' /\
       sq_used (hist w') = sq_used (hist w) + 1 /\
       (closes_ok (hist w) -> closes_ok (hist w'))) w.
Proof.
  intros Hp Hu. unfold zcrx_submit_recv. do 3 wp_step. eapply wp_load_conn; [done|].
  rewrite (sq_space _ Hu). cbn [negb]. wp_step. by repeat split.
Qed.
End Shared.

(** * The zero-copy client *)

Section ZcrxClient.
Context {P : Platform} {L : KernelLaws P} {ML : MapLaws P}.
Context (entries : Z) {SL : SubmissionLaws P entries} {BL : BatchLaws P entries}.
Variables (tid conn sockfd : Z).

(** While [rest] of the batch is left to process: the connection is there, the
    counters match what was processed, the submission queue has room for one
    entry per completion to come. *)
Definition zc_inv (s0 : StatsCollector) (F : gset Z) (zst0 : ZcrxState) (all rest : list cqe)
    (zst : ZcrxState) (w : World) : Prop :=
  exists batch, cq_of (hist w) = all /\ all = batch ++ rest /\ same_area zst0 zst /\
    heap w !! conn = Some (OConn (mkZcrxConn sockfd)) /\
    fds_of (hist w) = F /\ (forall s, s ∈ owed_of (hist w) -> sq_op s <> OP_ACCEPT) /\
    stats w = foldl (zcrx_account tid) s0 (seen_of (hist w) ++ batch) /\
    sq_used (hist w) + Z.of_nat (length rest) <= entries.

Lemma zc_inv_quiet s0 F zst0 zst w w' :
  quiet w w' -> sq_used (hist w') <= entries ->
  zc_inv s0 F zst0 [] [] zst w -> zc_inv s0 F zst0 [] [] zst w'.
Proof.
  intros Hq Hu (bt & Hcq & Hall & Ha & Hh & HF & Hop & Hst & _).
  pose proof (quiet_ghost _ _ Hq) as Hg. destruct Hq as (Hh'&_&Hs'&_).
  exists bt. rewrite Hg, Hh', Hs'. split_and!; try done. cbn. lia.
Qed.

(** The first request is queued on a new ring. *)
Lemma zc_inv_start s0 F zst id w w' :
  ghost_of (hist w) = mkGhost [] [] F no_bufs [] -> stats w = s0 ->
  heap w !! conn = Some (OConn (mkZcrxConn sockfd)) ->
  queued [recv_zc_sqe sockfd id conn] w w' -> sq_used (hist w') <= entries ->
  zc_inv s0 F zst [] [] zst w'.
Proof.
  intros Hg <- Hh (Hh'&_&Hs'&Ho&Hc&Hf&_&Hse) Hu. rewrite Hg in *. cbn in *. exists [].
  rewrite Hc, Hh', Hf, Ho, Hs', Hse. split_and!; try done; [|cbn; lia].
  by intros s ->%list_elem_of_singleton.
Qed.

Lemma zcrx_client_on_cqe_ok b s0 F zst0 all c rest zst pc w :
  zc_inv s0 F zst0 all (c :: rest) zst w ->
  wp b (zcrx_client_on_cqe tid conn c (zst, pc))
    (fun st' => zc_inv s0 F zst0 all rest st'.1) w.
Proof.
  intros (batch & Hcq & Hall & Ha & Hh & HF & Hop & Hst & Hu). cbn [length] in Hu.
  (* the counters once [c] was processed *)
  assert (Hnext : forall w' zst', ghost_of (hist w') = ghost_of (hist w) -> heap w' = heap w ->
    same_area zst zst' -> stats w' = zcrx_account tid (stats w) c ->
    sq_used (hist w') = sq_used (hist w) -> zc_inv s0 F zst0 all rest zst' w').
  { intros w' zst' Hg Hh' Ha' Hs Hu'. exists (batch ++ [c]). rewrite Hg, Hh', Hs, Hu', Hst.
    split_and!; try done; [by rewrite Hall, <- app_assoc|by eapply same_area_trans| |lia].
    by rewrite app_assoc, foldl_snoc. }
  unfold zcrx_client_on_cqe. unfold zcrx_account in Hnext.
  change (negb (has_flag (cq_flags c) IORING_CQE_F_MORE)) with (is_final c).
  destruct (is_final c) eqn:Hfin; [destruct (recoverable (cq_res c)) eqn:Hrec|].
  - wp_step. wp_use (zcrx_submit_recv_spec _ _ _ _ _ Hh _) as (Hq & Hu' & _); [lia|].
    wp_step. destruct Hq as (Hh'&_&Hs'&Ho'&Hcq'&Hf'&_&Hse'). exists (batch ++ [c]). cbn.
    rewrite Hh', Hcq', Hf', Ho', Hs', Hse', Hu', Hst. split_and!; try done; [| | |lia].
    + by rewrite Hall, <- app_assoc.
    + intros s [->|?]%elem_of_cons; [done|auto].
    + rewrite app_assoc, foldl_snoc. unfold zcrx_account at 2. by rewrite Hfin, Hrec.
  - wp_step. destruct (cq_res c <? 0); wp_steps; by apply Hnext.
  - destruct (0 <? cq_res c); [|wp_step; by apply Hnext]. wp_step.
    wp_use (zcrx_on_data_spec _ _ _ _ _) as (?&?&_&?&?&?&_). wp_step. by apply Hnext.
Qed.

Lemma zcrx_client_iter_ok b s0 F zst0 st w :
  zc_inv s0 F zst0 [] [] st.1 w -> 0 <= entries ->
  wp b (zcrx_client_iter tid conn st)
    (fun r w' => match r with
                 | inl st' => zc_inv s0 F zst0 [] [] st'.1 w'
                 | inr zst' => zc_inv s0 F zst0 [] [] zst' w'
                 end) w.
Proof.
  intros (batch0 & Hcq & Hall & Ha & Hh & HF & Hop & Hst & Hu) Hent.
  assert (batch0 = []) as -> by (by destruct batch0). clear Hall.
  assert (Hq : forall w', ghost_of (hist w') = ghost_of (hist w) -> heap w' = heap w ->
    stats w' = stats w -> sq_used (hist w') <= entries -> zc_inv s0 F zst0 [] [] st.1 w').
  { intros w' Hg Hh' Hs Hu'. exists []. rewrite Hg, Hh', Hs. cbn. split_and!; try done. lia. }
  cbn [length] in Hu. unfold zcrx_client_iter.
  do 3 wp_step; [wp_step; apply Hq; try done; change (sq_used (hist w) <= entries); lia|].
  do 3 wp_step; [wp_step; by apply Hq|]. do 2 wp_step.
  set (w2 := log _ (log _ w)). set (cqes := answer (hist w2) ForEachCqe). set (w3 := log _ w2).
  assert (Hlen : Z.of_nat (length cqes) <= entries).
  { apply cq_bound. change (cq_of (hist w2)) with (cq_of (hist w)). by rewrite Hcq. }
  assert (Hf3 : fds_of (hist w3) = F).
  { change (fds_of (hist w3)) with (fds_of (hist w) ∪ list_to_set (accepted (owed_of (hist w))
      (drop (length (cq_of (hist w))) cqes))). rewrite accepted_nil by done. set_solver. }
  wp_step. eapply wp_mono.
  { apply (wp_for_each b _ (fun rest st' => zc_inv s0 F zst0 cqes rest st'.1)
             (fun st' => zc_inv s0 F zst0 cqes [] st'.1)); [|done|].
    - intros c rest [zst pc] w4 H4. by apply zcrx_client_on_cqe_ok.
    - exists []. by split_and!. }
  cbn beta. intros st' w4 (batch & Hcq4 & Hall & Ha4 & Hh4 & HF4 & Hop4 & Hst4 & Hu4).
  rewrite app_nil_r in Hall. subst batch. do 3 wp_step. exists []. cbn [hist log app].
  rewrite ghost_of_cons. cbn [ghost_step]. rewrite Nat2Z.id.
  rewrite (consume_all cqes []) by (by rewrite app_nil_r). cbn. split_and!; try done.
  - intros s Hs. apply Hop4. eapply elem_of_submseteq; [exact Hs|].
    apply sublist_submseteq, settle_all_sublist.
  - by rewrite app_nil_r, map_app, map_snd_answers.
Qed.
End ZcrxClient.

Section ZcrxClientRun.
Context {P : Platform} {L : KernelLaws P} {ML : MapLaws P}.

Lemma set_nonblocking_quiet b fd w :
  wp b (set_nonblocking fd)
    (fun _ w' => quiet w w' /\ sq_used (hist w') = sq_used (hist w) /\
       (closes_ok (hist w) -> closes_ok (hist w'))) w.
Proof. unfold set_nonblocking. wp_steps; by repeat split. Qed.

Lemma only_set_nonblocking fd : only steady (set_nonblocking fd).
Proof. unfold set_nonblocking. by only_tac. Qed.

(** On every path the client leaves the descriptors and mappings as they were,
    and its counters are the completions it consumed. *)
Lemma run_client_reverse_recv_zcrx_spec b fuel tid cfg sockfd m maps w :
  fuelled b fuel -> 0 < zcrx_cq_entries cfg ->
  SubmissionLaws P (zcrx_cq_entries cfg) -> BatchLaws P (zcrx_cq_entries cfg) ->
  mem_of (hist w) = Some m -> maps_of (hist w) = Some maps -> closes_ok (hist w) ->
  wp b (run_client_reverse_recv_zcrx fuel tid cfg sockfd)
    (fun _ w' => stats w' = foldl (zcrx_account tid) (stats w) (seen_of (hist w')) /\
       fds_of (hist w') = fds_of (hist w) /\ mem_of (hist w') = Some m /\
       maps_of (hist w') = Some maps /\ closes_ok (hist w')) w.
Proof.
  intros Hfuel Hent SL BL Hm Hmaps Hcl. unfold run_client_reverse_recv_zcrx.
  do 3 wp_step; [by wp_step|]. wp_step. set (w1 := log _ w).
  wp_use (zcrx_setup_spec _ _ _ _ _ _ maps _ _) as ((Hh2&Hn2&Hs2&Hg2&Hu2&Hm2&Hc2) & H2); [done|].
  destruct a as [[|] zst]; cbn [fst snd negb] in *; rename w' into w2.
  2: { wp_steps. ghost_simpl. ledger_simpl. rewrite Hg2, Hs2. split_and!; auto; congruence. }
  destruct H2 as [Hreg _]. wp_step.
  eapply wp_mono; [apply (wp_only steady), set_nonblocking_quiet; apply only_set_nonblocking|].
  cbn beta. intros _ w3 [(Hq3 & Hu3 & _) (Hm3 & Hmap3 & Hc3)%extends_steady].
  do 2 wp_step. set (w4 := with_heap _ _ w3). set (conn := address_of_local "conn"). wp_step.
  assert (Hh4 : heap w4 !! conn = Some (OConn (mkZcrxConn sockfd))) by apply lookup_insert_eq.
  assert (Hu1 : sq_used (hist w1) = 0) by done.
  assert (Hu4 : sq_used (hist w4) < zcrx_cq_entries cfg)
    by (change (hist w4) with (hist w3); lia).
  eapply wp_mono; [apply (wp_only steady); [apply only_zcrx_submit_recv|];
    by apply zcrx_submit_recv_spec|].
  cbn beta. intros _ w5 [(Hq5 & Hu5 & _) (Hm5 & Hmap5 & Hc5)%extends_steady].
  wp_step. wp_step. set (w6 := log _ w5). wp_step.
  set (I := fun st : ZcrxState * bool =>
    zc_inv (zcrx_cq_entries cfg) tid conn sockfd (stats w) (fds_of (hist w)) zst [] [] st.1).
  eapply wp_mono.
  { apply (wp_only steady); [apply only_iter; intros; apply only_zcrx_client_iter|].
    apply (wp_iter_stop steady _ _ I
      (fun z => zc_inv (zcrx_cq_entries cfg) tid conn sockfd (stats w) (fds_of (hist w)) zst [] [] z));
      [done| |done| |].
    - intros st stop. unfold zcrx_client_on_cqe. by only_tac.
    - intros st w7 H7. apply (zcrx_client_iter_ok (zcrx_cq_entries cfg)); [exact H7|lia].
    - eapply zc_inv_quiet; [| |eapply (zc_inv_start _ _ _ _ _ _ _ _ w4); [..|exact Hq5|]].
      + by repeat split.
      + change (sq_used (hist w6)) with 0. lia.
      + change (ghost_of (hist w4)) with (ghost_of (hist w3)).
        rewrite (quiet_ghost _ _ Hq3), Hg2. done.
      + change (stats w4) with (stats w3). destruct Hq3 as (_&_&Hs3&_). by rewrite Hs3, Hs2.
      + done.
      + change (hist w4) with (hist w3) in Hu5. lia. }
  cbn beta. intros zst' w7 [(bt & _ & Hall & (Ha1&Ha2&Ha3&_) & _ & HF & _ & Hst & _)
    (Hm7 & Hmap7 & Hc7)%extends_steady].
  assert (bt = []) as -> by (by destruct bt). rewrite app_nil_r in Hst. wp_step.
  wp_use (zcrx_teardown_spec _ maps _ _ _ _) as ((_&_&Hs8&Hg8&_&Hm8&Hc8) & Hmap8).
  { eapply regions_same; [..|exact Hreg]; try done.
    change (hist w6) with (Ev Submit (answer (hist w5) Submit) :: hist w5) in Hmap7.
    rewrite Hmap7. change (maps_of (_ :: hist w5)) with (maps_of (hist w5)).
    change (hist w4) with (hist w3) in Hmap5. congruence. }
  change (mem_of (hist w6)) with (mem_of (hist w5)) in Hm7.
  change (mem_of (hist w4)) with (mem_of (hist w3)) in Hm5.
  change (mem_of (hist w1)) with (mem_of (hist w)) in Hm2.
  assert (Hc : closes_ok (hist w')).
  { apply Hc8, Hc7. split; [done|]. apply Hc5. change (closes_ok (hist w3)).
    apply Hc3, Hc2. by split. }
  wp_steps. ghost_simpl. ledger_simpl. rewrite Hg8, Hs8. split_and!; congruence || done.
Qed.
End ZcrxClientRun.
