(* ===== verification/ClientRun.v ===== *)
(** The whole client worker, [Worker::run_client], on every path. *)

From S2P Require Import Prelude Stats Sys Only Kernel NetUtils Config Engine Zcrx Client.
From S2P Require Import ClientProofs ZcrxProofs.

(** * No mappings outside zero-copy receive *)

Section NoMaps.
Context {P : Platform}.

Lemma only_set_cpu_affinity tid cfg : only steady (Zcrx.set_cpu_affinity tid cfg).
Proof. unfold Zcrx.set_cpu_affinity. by only_tac. Qed.

Lemma no_map_create_client_socket h p u z s l : only no_map (create_client_socket h p u z s l).
Proof.
  unfold create_client_socket, tune_socket, bind_local_port, resolve_host, set_nonblocking.
  by only_tac.
Qed.

Lemma only_send_handshake fuel fd r d : only steady (send_handshake fuel fd r d).
Proof. unfold send_handshake, send_all, send_all_step. by only_tac. Qed.

Lemma no_map_send fuel tid cfg fd : only no_map (run_client_send fuel tid cfg fd).
Proof.
  unfold run_client_send, client_setup, client_iter, client_on_cqe, resubmit_send,
    prep_send_any, prep_send_zc, prep_send_standard, prep, new_buffer_ctx,
    allocate_aligned_buffer, free_aligned_buffer, register_buffers, register_files,
    UringEngine_new, UringEngine_destroy, reap_completions, submit, submit_and_wait, cqe_seen.
  by only_tac.
Qed.

Lemma no_map_reverse fuel tid cfg fd : only no_map (run_client_reverse_recv fuel tid cfg fd).
Proof.
  unfold run_client_reverse_recv, reverse_iter, reverse_on_cqe, reverse_multishot_cqe,
    reverse_single_cqe, resubmit_recv, reverse_arm, prep_recv, prep_recv_multishot, prep,
    return_recv_buffer, setup_multishot_recv, new_buffer_ctx,
    allocate_aligned_buffer, free_aligned_buffer,
    UringEngine_new, UringEngine_destroy, reap_completions, submit, submit_and_wait, cqe_seen.
  by only_tac.
Qed.
End NoMaps.

(** * Every path *)

Section Run.
Context {P : Platform} {L : KernelLaws P} {B : BufferLaws P} {ML : MapLaws P}.

(** What is released: descriptors, memory and mappings are as they were, and no
    descriptor was closed that was not open. *)
Definition released (w w' : World) : Prop :=
  fds_of (hist w') = fds_of (hist w) /\ mem_of (hist w') = mem_of (hist w) /\
  maps_of (hist w') = maps_of (hist w) /\ closes_ok (hist w').

(** The accounting of the loop that a run of history [t] went through: a reverse
    client received by multishot if, at its end, all provided buffers are with the
    kernel, and from single-shot requests otherwise. *)
Definition client_account_of (tid : Z) (cfg : Config) (t : history)
    : StatsCollector -> cqe -> StatsCollector :=
  if reverse cfg then
    if use_zcrx cfg then zcrx_account tid
    else reverse_account tid (bool_decide (lent_of t = full_pool cfg))
  else client_account tid cfg.

(** What a finished client leaves behind: its counters have grown by exactly the
    completions it consumed, and everything is released. *)
Definition client_done (tid : Z) (cfg : Config) (w w' : World) : Prop :=
  stats w' = foldl (client_account_of tid cfg (hist w')) (stats w) (seen_of (hist w')) /\
  released w w'.

(** A worker that has used no ring yet. *)
Definition fresh_worker (w : World) : Prop :=
  world_ok w /\ ghost_of (hist w) = mkGhost [] [] (fds_of (hist w)) no_bufs [].

(** In any world, a client that ends before it has a ring has counted nothing and
    consumed nothing. *)
Definition client_accounts (tid : Z) (cfg : Config) (t : history)
    (a : StatsCollector -> cqe -> StatsCollector) : Prop :=
  if reverse cfg then
    if use_zcrx cfg then a = zcrx_account tid
    else exists ms : bool, (ms = true -> multishot_recv cfg = true) /\ a = reverse_account tid ms /\
           lent_of t = if ms then full_pool cfg else []
  else a = client_account tid cfg.

Definition client_ends (tid : Z) (cfg : Config) (w w' : World) : Prop :=
  (stats w' = stats w /\ dealt_of (hist w') = dealt_of (hist w) \/
   exists a, client_accounts tid cfg (hist w') a /\
     stats w' = foldl a (stats w) (seen_of (hist w'))) /\
  released w w'.

Lemma full_pool_some cfg : 1 <= in_flight cfg <= 2 ^ 31 -> full_pool cfg <> [].
Proof.
  intros Hif Hnil. destruct (next_pow2_least (in_flight cfg) Hif) as (k & Hk & Hp & _).
  assert (Hin : 0 ∈ full_pool cfg); [|by rewrite Hnil in Hin; apply elem_of_nil in Hin].
  apply elem_of_rev, elem_of_zseq. rewrite Hp. lia.
Qed.

Lemma client_ends_done tid cfg w w' :
  1 <= in_flight cfg <= 2 ^ 31 -> fresh_worker w -> client_ends tid cfg w w' ->
  client_done tid cfg w w'.
Proof.
  intros Hif [_ Hg] [Hst Hr]. split; [|done].
  destruct Hst as [[-> Hd]|(a & Ha & ->)]; [by rewrite Hd, Hg|].
  unfold client_account_of. unfold client_accounts in Ha.
  destruct (reverse cfg); [destruct (use_zcrx cfg)|]; [by subst| |by subst].
  destruct Ha as (ms & _ & -> & ->). pose proof (full_pool_some cfg Hif).
  destruct ms; [by rewrite bool_decide_true|by rewrite bool_decide_false].
Qed.

(** The laws of the zero-copy ring, which only the reverse client uses. *)
Definition zcrx_ring_laws (cfg : Config) : Prop :=
  use_zcrx cfg = true -> reverse cfg = true ->
  SubmissionLaws P (zcrx_cq_entries cfg) /\ BatchLaws P (zcrx_cq_entries cfg).

(** The socket [fd] is open and everything else as in [w]. *)
Definition connected (fd : Z) (w w' : World) : Prop :=
  (fd ∉ fds_of (hist w)) /\ fds_of (hist w') = {[fd]} ∪ fds_of (hist w) /\
  stats w' = stats w /\ mem_of (hist w') = mem_of (hist w) /\
  maps_of (hist w') = maps_of (hist w) /\ closes_ok (hist w') /\ next_obj w' = next_obj w /\
  dealt_of (hist w') = dealt_of (hist w).

Lemma closed_again fd (F : gset Z) : fd ∉ F -> ({[fd]} ∪ F) ∖ {[fd]} = F.
Proof. set_solver. Qed.

Lemma close_done tid cfg fd r w w' :
  connected fd w w' -> client_ends tid cfg w (log (Ev (Close fd) r) w').
Proof.
  intros (Hni & Hf & Hs & Hm & Hmap & Hc & _ & Hd). unfold client_ends, released.
  ghost_simpl. ledger_simpl.
  rewrite Hf, closed_again by done. split_and!; try done; [by left|set_solver].
Qed.

Lemma send_done b fuel tid cfg fd m w w' :
  ring_init b (queue_depth cfg) -> fuelled b fuel -> reverse cfg = false -> mem_of (hist w) = Some m ->
  connected fd w w' ->
  wp b (run_client_send fuel tid cfg fd) (fun _ => client_ends tid cfg w) w'.
Proof.
  intros Hb Hfuel Hrev Hm (Hni & Hf & Hs & Hm' & Hmap & Hc & _ & _).
  eapply wp_mono; [apply (wp_only no_map), (run_client_send_spec b fuel tid cfg fd m); try done;
    [apply no_map_send|congruence|set_solver]|].
  cbn beta. intros _ w2 [(Hs2 & Hf2 & Hm2 & Hc2) Hmap2%extends_maps].
  unfold client_ends, released, client_accounts. rewrite Hrev, Hf2, Hf, closed_again by done.
  split_and!; try congruence. right. eexists. split; [done|]. by rewrite <- Hs.
Qed.

(** The receiving clients leave the socket to their caller. *)
Lemma recv_done b fuel tid cfg fd m maps w w' :
  ring_init b (queue_depth cfg) -> fuelled b fuel -> ranges_ok cfg -> zcrx_ring_laws cfg -> reverse cfg = true ->
  0 < next_obj w -> mem_of (hist w) = Some m -> maps_of (hist w) = Some maps ->
  connected fd w w' ->
  wp b (if use_zcrx cfg && reverse cfg then run_client_reverse_recv_zcrx fuel tid cfg fd
        else run_client_reverse_recv fuel tid cfg fd)
    (fun _ w2 => client_ends tid cfg w (log (Ev (Close fd) (answer (hist w2) (Close fd))) w2)) w'.
Proof.
  intros Hb Hfuel Hr Hz Hrev Hn Hm Hmaps (Hni & Hf & Hs & Hm' & Hmap & Hc & Hn' & _).
  destruct Hr as (_&_&Hbs&_&_&_&_&Hif&_&_&_&Hce&_). rewrite Hrev, andb_true_r.
  (* closing the socket at the end *)
  assert (Hend : forall w2 a, client_accounts tid cfg (hist w2) a ->
    stats w2 = foldl a (stats w') (seen_of (hist w2)) -> fds_of (hist w2) = fds_of (hist w') ->
    mem_of (hist w2) = Some m -> maps_of (hist w2) = Some maps -> closes_ok (hist w2) ->
    client_ends tid cfg w (log (Ev (Close fd) (answer (hist w2) (Close fd))) w2)).
  { intros w2 a Ha Hs2 Hf2 Hm2 Hmap2 Hc2. unfold client_ends, released. ghost_simpl. ledger_simpl.
    rewrite Hf2, Hf, closed_again by done. split_and!; try congruence; [|set_solver].
    right. exists a. split; [done|]. by rewrite <- Hs. }
  unfold client_accounts in Hend. rewrite Hrev in Hend.
  destruct (use_zcrx cfg) eqn:Huse.
  - destruct (Hz Huse Hrev) as [SL BL].
    eapply wp_mono; [apply (run_client_reverse_recv_zcrx_spec b fuel tid cfg fd m maps); try done;
      congruence || lia|].
    cbn beta. intros _ w2 (Hs2 & Hf2 & Hm2 & Hmap2 & Hc2). by eapply Hend.
  - eapply wp_mono; [apply (wp_only no_map),
      (run_client_reverse_recv_spec b fuel tid cfg fd m); try done;
      [apply no_map_reverse|lia..|congruence]|].
    cbn beta. intros _ w2 [((ms & Hms & Hs2 & Hl2) & Hf2 & Hm2 & Hc2) Hmap2%extends_maps].
    eapply (Hend _ (reverse_account tid ms)); try done; [by exists ms|congruence].
Qed.

Lemma run_client_spec b fuel tid cfg m maps w :
  ring_init b (queue_depth cfg) -> fuelled b fuel -> send_fuelled b 5 fuel ->
  ranges_ok cfg -> combination_ok cfg -> zcrx_ring_laws cfg -> 0 < next_obj w ->
  mem_of (hist w) = Some m -> maps_of (hist w) = Some maps -> closes_ok (hist w) ->
  wp b (run_client fuel tid cfg) (fun _ => client_ends tid cfg w) w.
Proof.
  intros Hb Hfuel Hsf Hr [Hrev _] Hz Hn Hm Hmaps Hc. unfold run_client. wp_step.
  (* the affinity call *)
  apply (wp_mono _ _ (fun _ w1 => quiet w w1 /\ extends steady w w1)).
  { apply (wp_only steady); [apply only_set_cpu_affinity|].
    unfold Zcrx.set_cpu_affinity. wp_steps; by repeat split. }
  cbn beta. intros _ w1 [Hq1 (Hm1 & Hmap1 & Hc1)%extends_steady].
  pose proof (quiet_ghost _ _ Hq1) as Hg1. destruct Hq1 as (_&Hn1&Hs1&_).
  wp_step. eapply wp_mono; [apply (wp_only no_map), wp_total, create_client_socket_new;
    apply no_map_create_client_socket|].
  cbn beta. intros fd w2 [[(_&Hn2&Hs2&_&_&_&Hd2&Hm2&Hc2) Hfd] Hmap2%extends_maps].
  destruct Hfd as [[-> Hf2]|(Hpos & Hfresh & Hf2)].
  { cbn. wp_step. unfold client_ends, released. split_and!; auto; try congruence. left. split; congruence. }
  rewrite (proj2 (Z.ltb_ge fd 0) Hpos). wp_step.
  assert (Hconn : connected fd w w2).
  { unfold connected. rewrite Hf2, Hg1 in *. split_and!; auto; congruence. }
  assert (Hhs : wp b (if bool_decide (protocol cfg = TCP)
      then send_handshake fuel fd (reverse cfg) (duration_sec cfg) else mret true)
    (fun _ => connected fd w) w2).
  { case_bool_decide; [|by wp_step]. eapply wp_mono.
    - apply (wp_only steady); [apply only_send_handshake|].
      by apply send_all_still.
    - cbn beta. intros ok w3 [(_&Hn3&Hs3&Hg3) (Hm3 & Hmap3 & Hc3)%extends_steady].
      destruct Hconn as (?&?&?&?&?&?&?&?). unfold connected. rewrite Hg3.
      split_and!; auto; congruence. }
  eapply wp_mono; [exact Hhs|]. cbn beta. intros ok w3 H3. destruct ok; cbn [negb].
  2: { wp_steps. by apply close_done. }
  destruct (reverse cfg) eqn:Hre; cbn [andb].
  - destruct (Hrev eq_refl) as [_ ->]. rewrite bool_decide_true by done. wp_step.
    pose proof (recv_done b fuel tid cfg fd m maps w w3 Hb Hfuel Hr Hz Hre Hn Hm Hmaps H3) as Hd.
    rewrite Hre in Hd. eapply wp_mono; [exact Hd|]. cbn beta. intros _ w4 H4. by wp_steps.
  - by eapply send_done.
Qed.
End Run.
