(* ===== verification/ZcrxServer.v ===== *)
(** Correctness of the zero-copy server loop, [Worker::run_server_zcrx]. *)

From S2P Require Import Prelude Stats Sys Only Kernel NetUtils Config Engine Zcrx ClientProofs.
From S2P Require Import ZcrxProofs.

(** * Requests by [user_data] *)

Definition udata (l : list sqe) : list Z := sq_user_data <$> l.

Lemma settle_udata c l l' :
  udata l ≡ₚ udata l' -> cq_user_data c ∈ udata l -> udata (settle c l) ≡ₚ udata (settle c l').
Proof.
  intros Hp Hin. unfold settle. destruct (is_final c); [|done].
  assert (Hin' : cq_user_data c ∈ udata l') by (by rewrite <- Hp).
  apply (Permutation_cons_inv (a := cq_user_data c)).
  by rewrite <- (drop_op_perm _ _ Hin), <- (drop_op_perm _ _ Hin').
Qed.

(** Requests queued while a batch is processed do not disturb its settlement. *)
Lemma settle_all_pushed cs pushed l x :
  udata x ≡ₚ udata pushed ++ udata l -> cqes_ok l cs ->
  udata (settle_all cs x) ≡ₚ udata pushed ++ udata (settle_all cs l).
Proof.
  revert l x. induction cs as [|c cs IH]; intros l x Hp; cbn; [done|]. intros [Hin Hok].
  apply IH; [|done].
  transitivity (udata (settle c (pushed ++ l))).
  - apply settle_udata; [by unfold udata in *; rewrite Hp, fmap_app|].
    rewrite Hp. apply elem_of_app. by right.
  - unfold settle. destruct (is_final c); [|unfold udata; by rewrite fmap_app].
    apply (Permutation_cons_inv (a := cq_user_data c)).
    rewrite <- drop_op_perm by (rewrite fmap_app; apply elem_of_app; by right).
    unfold udata. rewrite fmap_app, (drop_op_perm _ _ Hin). by rewrite Permutation_middle.
Qed.

(** A final completion takes its request away. *)
Lemma final_virtual c pushed base :
  is_final c = true -> cq_user_data c ∈ udata base ->
  udata pushed ++ udata base ≡ₚ cq_user_data c :: (udata pushed ++ udata (settle c base)).
Proof.
  intros Hf Hin. unfold settle. rewrite Hf.
  unfold udata in *. rewrite (drop_op_perm _ _ Hin). by rewrite Permutation_middle.
Qed.

(** * Connections *)

(** The requests [l] among which the accepts are the ones that carry [u]. *)
Definition op_for (u : Z) (s : sqe) : Prop := sq_op s = OP_ACCEPT <-> sq_user_data s = u.

(** Descriptors that the completions still to process hand over. *)
Definition arrivals_at (u : Z) (cs : list cqe) : list Z :=
  cq_res <$> List.filter (fun c => (cq_user_data c =? u) && (0 <=? cq_res c)) cs.

Lemma arrivals_at_accept u c rest :
  cq_user_data c = u ->
  arrivals_at u (c :: rest) =
    if 0 <=? cq_res c then cq_res c :: arrivals_at u rest else arrivals_at u rest.
Proof.
  intros Hc. unfold arrivals_at. cbn. rewrite Hc, Z.eqb_refl. by destruct (0 <=? cq_res c).
Qed.

Lemma arrivals_at_other u c rest :
  cq_user_data c <> u -> arrivals_at u (c :: rest) = arrivals_at u rest.
Proof. intros Hne. unfold arrivals_at. cbn. by rewrite (proj2 (Z.eqb_neq _ _) Hne). Qed.

Lemma arrivals_at_app u cs cs' :
  arrivals_at u (cs ++ cs') = arrivals_at u cs ++ arrivals_at u cs'.
Proof. unfold arrivals_at. by rewrite List.filter_app, fmap_app. Qed.

Lemma arrivals_at_sublist u c cs : arrivals_at u cs `sublist_of` arrivals_at u (c :: cs).
Proof.
  destruct (decide (cq_user_data c = u)) as [Hc|Hc].
  - rewrite arrivals_at_accept by done. destruct (0 <=? cq_res c); [by apply sublist_cons|done].
  - by rewrite arrivals_at_other.
Qed.

(** A completion is an accept's exactly when it carries [u]. *)
Lemma is_accept_for u l c :
  (forall s, s ∈ l -> op_for u s) -> cq_user_data c ∈ udata l ->
  is_accept l c = (cq_user_data c =? u).
Proof.
  intros Hop Hin. apply eq_true_iff_eq. unfold is_accept.
  rewrite existsb_exists, Z.eqb_eq. split.
  - intros (s & Hs & [Hb Hu]%andb_true_iff). apply bool_decide_eq_true in Hb.
    apply Z.eqb_eq in Hu. rewrite <- Hu. apply (Hop s); [by apply list_elem_of_In|done].
  - intros Hc. apply list_elem_of_fmap in Hin as (s & Hs & Hin). exists s.
    split; [by apply list_elem_of_In|]. rewrite <- Hs, Z.eqb_refl, andb_true_r.
    apply bool_decide_eq_true, (Hop s Hin). congruence.
Qed.

Lemma accepted_for u l cs :
  (forall s, s ∈ l -> op_for u s) -> (forall c, c ∈ cs -> cq_user_data c ∈ udata l) ->
  accepted l cs = arrivals_at u cs.
Proof.
  intros Hop Hin. unfold accepted, arrivals_at. f_equal. apply List.filter_ext_in.
  intros c Hc. rewrite (is_accept_for u); [done|done|]. by apply Hin, list_elem_of_In.
Qed.

Abbreviation arrivals := (arrivals_at kZcrxReqAccept).
Abbreviation op_ok := (op_for kZcrxReqAccept).

Definition zcrx_server_account (tid : Z) (s : StatsCollector) (c : cqe) : StatsCollector :=
  if Z.land (cq_user_data c) kZcrxReqTypeMask =? kZcrxReqRx then zcrx_account tid s c else s.

(** The address in a receive request. *)
Definition rx_tag (p : Z) : Z := Z.lor p kZcrxReqRx.

Lemma rx_tag_spec n :
  Z.land (rx_tag (ptr_of n)) (Z.lnot kZcrxReqTypeMask) = ptr_of n /\
  Z.land (rx_tag (ptr_of n)) kZcrxReqTypeMask = kZcrxReqRx.
Proof. by apply tag_roundtrip. Qed.

Lemma rx_tag_not_accept n : rx_tag (ptr_of n) <> kZcrxReqAccept.
Proof. intros H. pose proof (proj2 (rx_tag_spec n)) as Ht. by rewrite H in Ht. Qed.

Lemma rx_tag_inj n n' : rx_tag (ptr_of n) = rx_tag (ptr_of n') -> ptr_of n = ptr_of n'.
Proof.
  intros H. rewrite <- (proj1 (rx_tag_spec n)), <- (proj1 (rx_tag_spec n')). by rewrite H.
Qed.

(** Every connection of the table is a live object that carries its descriptor. *)
Definition conns_ok (conns : gmap Z Z) (w : World) : Prop :=
  forall fd p, conns !! fd = Some p ->
    heap w !! p = Some (OConn (mkZcrxConn fd)) /\ exists n, p = ptr_of n /\ 0 < n < next_obj w.

(** A request is the accept, or a receive of a connection of the table. *)
Definition req_ok (conns : gmap Z Z) (u : Z) : Prop :=
  u = kZcrxReqAccept \/ exists fd p, conns !! fd = Some p /\ u = rx_tag p.

(** Some turn of the loop found a completion queue of [n] entries full. *)
Definition crowded (n : Z) (t : history) : bool :=
  existsb (fun e => match e with
                    | Ev ForEachCqe l => n <=? Z.of_nat (length l)
                    | _ => false
                    end) t.

Lemma crowded_app n l t : crowded n t = true -> crowded n (l ++ t) = true.
Proof. unfold crowded. rewrite existsb_app. intros ->. apply orb_true_r. Qed.

Section Server.
Context {P : Platform} {L : KernelLaws P}.
Context (entries : Z) {SL : SubmissionLaws P entries}.
Variables (tid listen_fd : Z) (s0 : StatsCollector) (F : gset Z) (zst0 : ZcrxState).

(** While [rest] of the batch [all] is left to process; [old] are the requests
    at the time the batch was read and [pushed] the ones queued since. *)
Record zs_inv (all done rest : list cqe) (old pushed : list sqe) (zst : ZcrxState)
    (conns : gmap Z Z) (w : World) : Prop := {
  z_cq : cq_of (hist w) = all;
  z_all : all = done ++ rest;
  z_owed : owed_of (hist w) = pushed ++ old;
  z_ring : cqes_ok (settle_all done old) rest;
  z_nodup : NoDup (udata pushed ++ udata (settle_all done old));
  z_req : forall u, u ∈ udata pushed ++ udata (settle_all done old) -> req_ok conns u;
  z_op : forall s, s ∈ owed_of (hist w) -> op_ok s;
  z_final : forall c, c ∈ rest -> cq_user_data c = kZcrxReqAccept -> is_final c = true;
  z_conns : conns_ok conns w;
  z_next : 0 < next_obj w;
  z_fds : fds_of (hist w) = F ∪ (dom conns ∪ list_to_set (arrivals rest));
  z_disj : F ## dom conns;
  z_arr : NoDup (arrivals rest);
  z_new : forall fd, fd ∈ arrivals rest -> (fd ∉ F) /\ fd ∉ dom conns;
  z_stats : stats w = foldl (zcrx_server_account tid) s0 (seen_of (hist w) ++ done);
  z_sq : sq_used (hist w) <= Z.of_nat (length done) +
           (if bool_decide (kZcrxReqAccept ∈ udata (settle_all done old)) then 0 else 1);
  z_len : Z.of_nat (length all) < entries;
  z_area : same_area zst0 zst;
  z_close : closes_ok (hist w)
}.

(** Room for the entries that one completion queues. *)
Lemma zs_room all done c rest old pushed zst conns w :
  zs_inv all done (c :: rest) old pushed zst conns w ->
  sq_used (hist w) < entries /\
  (cq_user_data c = kZcrxReqAccept -> sq_used (hist w) + 1 < entries).
Proof.
  intros I. pose proof (z_len _ _ _ _ _ _ _ _ I) as Hl. pose proof (z_sq _ _ _ _ _ _ _ _ I) as Hu.
  rewrite (z_all _ _ _ _ _ _ _ _ I), length_app in Hl. cbn in Hl.
  destruct (z_ring _ _ _ _ _ _ _ _ I) as [Hin _]. split.
  - case_bool_decide; lia.
  - intros Hc. rewrite Hc in Hin. rewrite bool_decide_true in Hu by exact Hin. lia.
Qed.

(** Whether the accept is still to complete is not changed by a receive. *)
Lemma settle_keeps_accept c base :
  cq_user_data c <> kZcrxReqAccept ->
  bool_decide (kZcrxReqAccept ∈ udata (settle c base)) = bool_decide (kZcrxReqAccept ∈ udata base).
Proof.
  intros Hne. apply bool_decide_ext. unfold settle. destruct (is_final c); [|done]. split.
  - intros Hin. apply list_elem_of_fmap in Hin as (s & Hs & Hin). apply list_elem_of_fmap.
    exists s. split; [done|]. eapply elem_of_submseteq; [exact Hin|].
    apply sublist_submseteq, drop_op_sublist.
  - by apply drop_op_other.
Qed.

(** Processing one completion: what has to be shown for it. *)
Lemma zs_next all done c rest old pushed new zst zst' conns conns' w w' :
  let base := settle_all done old in
  let pending := udata (new ++ pushed) ++ udata (settle c base) in
  zs_inv all done (c :: rest) old pushed zst conns w ->
  cq_of (hist w') = cq_of (hist w) -> seen_of (hist w') = seen_of (hist w) ->
  owed_of (hist w') = new ++ owed_of (hist w) ->
  NoDup pending -> (forall u, u ∈ pending -> req_ok conns' u) -> (forall s, s ∈ new -> op_ok s) ->
  conns_ok conns' w' -> 0 < next_obj w' ->
  fds_of (hist w') = F ∪ (dom conns' ∪ list_to_set (arrivals rest)) -> F ## dom conns' ->
  (forall fd, fd ∈ arrivals rest -> fd ∉ dom conns') ->
  stats w' = zcrx_server_account tid (stats w) c ->
  sq_used (hist w') <= Z.of_nat (length done) + 1 +
    (if bool_decide (kZcrxReqAccept ∈ udata (settle c base)) then 0 else 1) ->
  same_area zst zst' -> closes_ok (hist w') ->
  zs_inv all (done ++ [c]) rest old (new ++ pushed) zst' conns' w'.
Proof.
  cbn zeta. intros I Hcq Hse Ho Hnd Hreq Hop Hco Hnx Hf Hd Ha Hs Hu Har Hcl.
  assert (Hsa : settle_all (done ++ [c]) old = settle c (settle_all done old))
    by apply settle_all_app.
  destruct I as [Icq Iall Iow Iring _ _ Iop Ifin _ _ _ _ Iarr Inew Ist _ Ilen Iarea _].
  pose proof (arrivals_at_sublist kZcrxReqAccept c rest) as Hsub.
  constructor; rewrite ?Hsa; try done.
  - by rewrite Hcq.
  - by rewrite Iall, <- app_assoc.
  - by rewrite Ho, Iow, app_assoc.
  - apply Iring.
  - intros s. rewrite Ho, elem_of_app. intros [?|?]; auto.
  - intros c' Hc'. apply Ifin. by constructor.
  - eapply sublist_NoDup; [exact Iarr|exact Hsub].
  - intros fd Hfd. split; [|by apply Ha]. apply Inew.
    eapply elem_of_submseteq; [exact Hfd|by apply sublist_submseteq].
  - by rewrite Hs, Ist, Hse, app_assoc, foldl_snoc.
  - rewrite length_app. cbn. lia.
  - by eapply same_area_trans.
Qed.

(** The completion at hand belongs to a request in order. *)
Lemma zs_head all done c rest old pushed zst conns w :
  zs_inv all done (c :: rest) old pushed zst conns w ->
  cq_user_data c ∈ udata (settle_all done old) /\ req_ok conns (cq_user_data c).
Proof.
  intros I. destruct (z_ring _ _ _ _ _ _ _ _ I) as [Hin _]. split; [exact Hin|].
  apply (z_req _ _ _ _ _ _ _ _ I), elem_of_app. by right.
Qed.

(** A receive completion: which connection it is for. *)
Lemma zs_rx all done c rest old pushed zst conns w :
  zs_inv all done (c :: rest) old pushed zst conns w ->
  cq_user_data c <> kZcrxReqAccept ->
  exists fd n, conns !! fd = Some (ptr_of n) /\ cq_user_data c = rx_tag (ptr_of n) /\
    heap w !! ptr_of n = Some (OConn (mkZcrxConn fd)) /\ fd ∈ fds_of (hist w) /\
    arrivals (c :: rest) = arrivals rest.
Proof.
  intros I Hne. destruct (zs_head _ _ _ _ _ _ _ _ _ I) as [_ [?|(fd & p & Hfd & Hu)]]; [done|].
  destruct (z_conns _ _ _ _ _ _ _ _ I fd p Hfd) as (Hh & n & -> & _).
  exists fd, n. split_and!; try done.
  - rewrite (z_fds _ _ _ _ _ _ _ _ I). apply elem_of_dom_2 in Hfd. set_solver.
  - by apply arrivals_at_other.
Qed.

Lemma pending_sublist c pushed base :
  (udata pushed ++ udata (settle c base)) `sublist_of` (udata pushed ++ udata base).
Proof.
  apply sublist_app; [done|]. apply fmap_sublist, settle_sublist.
Qed.

(** Nothing but the counters moved, for a receive that goes on. *)
Lemma zs_count all done c rest old pushed zst zst' conns w w' :
  zs_inv all done (c :: rest) old pushed zst conns w ->
  cq_user_data c <> kZcrxReqAccept ->
  ghost_of (hist w') = ghost_of (hist w) -> heap w' = heap w -> next_obj w' = next_obj w ->
  stats w' = zcrx_account tid (stats w) c -> sq_used (hist w') = sq_used (hist w) ->
  same_area zst zst' -> (closes_ok (hist w) -> closes_ok (hist w')) ->
  zs_inv all (done ++ [c]) rest old pushed zst' conns w'.
Proof.
  intros I Hne Hg Hh Hn Hs Hu Ha Hc.
  destruct (zs_rx _ _ _ _ _ _ _ _ _ I Hne) as (fd & n & Hfd & Hud & _ & _ & Harr).
  pose proof (pending_sublist c pushed (settle_all done old)) as Hsub.
  apply (zs_next _ _ _ _ _ _ [] zst zst' conns conns w w' I); rewrite ?Hg; try done.
  - by eapply sublist_NoDup; [apply (z_nodup _ _ _ _ _ _ _ _ I)|].
  - intros u Hin. apply (z_req _ _ _ _ _ _ _ _ I).
    eapply elem_of_submseteq; [exact Hin|by apply sublist_submseteq].
  - by intros ? ?%elem_of_nil.
  - intros fd' p. rewrite Hh, Hn. apply (z_conns _ _ _ _ _ _ _ _ I).
  - rewrite Hn. apply (z_next _ _ _ _ _ _ _ _ I).
  - rewrite <- Harr. apply (z_fds _ _ _ _ _ _ _ _ I).
  - apply (z_disj _ _ _ _ _ _ _ _ I).
  - rewrite <- Harr. intros fd' Hin. by apply (z_new _ _ _ _ _ _ _ _ I).
  - unfold zcrx_server_account. rewrite Hud, (proj2 (rx_tag_spec n)). by rewrite Hs.
  - rewrite settle_keeps_accept by done. pose proof (z_sq _ _ _ _ _ _ _ _ I). lia.
  - apply Hc, (z_close _ _ _ _ _ _ _ _ I).
Qed.

(** The receive ended and was queued again. *)
Lemma zs_rearm all done c rest old pushed zst conns fd n id w w' :
  zs_inv all done (c :: rest) old pushed zst conns w ->
  is_final c = true -> recoverable (cq_res c) = true ->
  conns !! fd = Some (ptr_of n) -> cq_user_data c = rx_tag (ptr_of n) ->
  queued [recv_zc_sqe fd id (ptr_of n)] w w' -> sq_used (hist w') = sq_used (hist w) + 1 ->
  (closes_ok (hist w) -> closes_ok (hist w')) ->
  zs_inv all (done ++ [c]) rest old (recv_zc_sqe fd id (ptr_of n) :: pushed) zst conns w'.
Proof.
  intros I Hfin Hrec Hfd Hud (Hh&Hn&Hs&Ho&Hcq&Hf&_&Hse) Hu Hc.
  assert (Hne : cq_user_data c <> kZcrxReqAccept) by (rewrite Hud; apply rx_tag_not_accept).
  destruct (zs_rx _ _ _ _ _ _ _ _ _ I Hne) as (_ & _ & _ & _ & _ & _ & Harr).
  destruct (zs_head _ _ _ _ _ _ _ _ _ I) as [Hin _].
  pose proof (final_virtual c pushed _ Hfin Hin) as Hperm. rewrite Hud in Hperm.
  apply (zs_next _ _ _ _ _ _ [recv_zc_sqe fd id (ptr_of n)] zst zst conns conns w w' I);
    rewrite ?Hcq, ?Hse, ?Ho, ?Hf, ?Hs; try done.
  - change (NoDup (rx_tag (ptr_of n) :: udata pushed ++ udata (settle c (settle_all done old)))).
    rewrite <- Hperm. apply (z_nodup _ _ _ _ _ _ _ _ I).
  - intros u Hu'. apply (z_req _ _ _ _ _ _ _ _ I). rewrite Hperm. exact Hu'.
  - intros s ->%list_elem_of_singleton. split; [done|]. intros Heq. by apply rx_tag_not_accept in Heq.
  - intros fd' p. rewrite Hh, Hn. apply (z_conns _ _ _ _ _ _ _ _ I).
  - rewrite Hn. apply (z_next _ _ _ _ _ _ _ _ I).
  - rewrite <- Harr. apply (z_fds _ _ _ _ _ _ _ _ I).
  - apply (z_disj _ _ _ _ _ _ _ _ I).
  - rewrite <- Harr. intros fd' Hin'. by apply (z_new _ _ _ _ _ _ _ _ I).
  - unfold zcrx_server_account, zcrx_account. rewrite Hud, (proj2 (rx_tag_spec n)), Hfin, Hrec. done.
  - rewrite settle_keeps_accept by done. pose proof (z_sq _ _ _ _ _ _ _ _ I). lia.
  - apply Hc, (z_close _ _ _ _ _ _ _ _ I).
Qed.

(** The connection ended: closed, and its object gone. *)
Lemma zs_end all done c rest old pushed zst conns fd n r w w' :
  zs_inv all done (c :: rest) old pushed zst conns w ->
  is_final c = true -> conns !! fd = Some (ptr_of n) -> cq_user_data c = rx_tag (ptr_of n) ->
  hist w' = Ev (Close fd) r :: hist w -> heap w' = delete (ptr_of n) (heap w) ->
  next_obj w' = next_obj w -> stats w' = zcrx_account tid (stats w) c ->
  zs_inv all (done ++ [c]) rest old pushed zst (delete fd conns) w'.
Proof.
  intros I Hfin Hfd Hud Hw Hh Hn Hs.
  assert (Hne : cq_user_data c <> kZcrxReqAccept) by (rewrite Hud; apply rx_tag_not_accept).
  destruct (zs_rx _ _ _ _ _ _ _ _ _ I Hne) as (_ & _ & _ & _ & _ & _ & Harr).
  destruct (zs_head _ _ _ _ _ _ _ _ _ I) as [Hin _].
  pose proof (final_virtual c pushed _ Hfin Hin) as Hperm. rewrite Hud in Hperm.
  pose proof (z_nodup _ _ _ _ _ _ _ _ I) as Hnd. rewrite Hperm in Hnd.
  apply NoDup_cons in Hnd as [Hni Hnd].
  assert (Hdom : fd ∈ dom conns) by (by eapply elem_of_dom_2).
  pose proof (z_disj _ _ _ _ _ _ _ _ I) as Hdis. pose proof (z_fds _ _ _ _ _ _ _ _ I) as HF.
  pose proof (z_new _ _ _ _ _ _ _ _ I) as Hnew. rewrite Harr in HF, Hnew.
  assert (Hother : forall fd' p', delete fd conns !! fd' = Some p' ->
    conns !! fd' = Some p' /\ p' <> ptr_of n).
  { intros fd' p' [Hne' Hp']%lookup_delete_Some. split; [done|]. intros ->.
    destruct (z_conns _ _ _ _ _ _ _ _ I fd' _ Hp') as [H1 _].
    destruct (z_conns _ _ _ _ _ _ _ _ I fd _ Hfd) as [H2 _]. congruence. }
  apply (zs_next _ _ _ _ _ _ [] zst zst conns (delete fd conns) w w' I);
    rewrite ?Hw, ?ghost_of_cons; cbn [ghost_step cq dealt owed fds]; try done.
  - intros u Hu. assert (u <> rx_tag (ptr_of n)) by (by intros ->).
    destruct (z_req _ _ _ _ _ _ _ _ I u) as [?|(fd' & p' & Hp' & ->)];
      [rewrite Hperm; by constructor 2|by left|].
    right. exists fd', p'. split; [|done]. apply lookup_delete_Some. split; [|done].
    intros <-. congruence.
  - by intros ? ?%elem_of_nil.
  - intros fd' p' [Hp' Hne']%Hother. destruct (z_conns _ _ _ _ _ _ _ _ I fd' p' Hp') as [H1 H2].
    rewrite Hh, Hn, lookup_delete_ne by done. done.
  - rewrite Hn. apply (z_next _ _ _ _ _ _ _ _ I).
  - rewrite HF, dom_delete_L. set_solver.
  - rewrite dom_delete_L. set_solver.
  - intros fd' Hin'. rewrite dom_delete_L. destruct (Hnew fd' Hin'). set_solver.
  - unfold zcrx_server_account. rewrite Hud, (proj2 (rx_tag_spec n)). by rewrite Hs.
  - rewrite settle_keeps_accept by done. pose proof (z_sq _ _ _ _ _ _ _ _ I) as Hsq.
    change (sq_used (Ev (Close fd) r :: hist w)) with (sq_used (hist w)). lia.
  - split; [|apply (z_close _ _ _ _ _ _ _ _ I)]. rewrite HF. set_solver.
Qed.

Definition the_accept : sqe := with_data kZcrxReqAccept (prep_entry OP_ACCEPT listen_fd 0 0).

(** The accept, once its completion is settled, is pending no more. *)
Lemma zs_accept_settled all done c rest old pushed zst conns w :
  zs_inv all done (c :: rest) old pushed zst conns w -> cq_user_data c = kZcrxReqAccept ->
  let pending := udata pushed ++ udata (settle c (settle_all done old)) in
  NoDup (kZcrxReqAccept :: pending) /\ forall u, u ∈ pending -> req_ok conns u.
Proof.
  intros I Hc. cbn zeta.
  assert (Hfin : is_final c = true) by (apply (z_final _ _ _ _ _ _ _ _ I); [by constructor|done]).
  destruct (zs_head _ _ _ _ _ _ _ _ _ I) as [Hin _].
  pose proof (final_virtual c pushed _ Hfin Hin) as Hperm. rewrite Hc in Hperm. split.
  - rewrite <- Hperm. apply (z_nodup _ _ _ _ _ _ _ _ I).
  - intros u Hu. apply (z_req _ _ _ _ _ _ _ _ I). rewrite Hperm. by constructor 2.
Qed.

(** No pending request names the object allocated next. *)
Lemma fresh_tag conns u w : conns_ok conns w -> req_ok conns u -> u <> rx_tag (ptr_of (next_obj w)).
Proof.
  intros Hc [->|(fd & p & Hp & ->)] Heq; [by symmetry in Heq; apply rx_tag_not_accept in Heq|].
  destruct (Hc fd p Hp) as (_ & n & -> & Hn). apply rx_tag_inj in Heq. unfold ptr_of in Heq. lia.
Qed.

Lemma conns_ok_new conns fd w w' :
  conns_ok conns w -> 0 < next_obj w ->
  heap w' = <[ptr_of (next_obj w) := OConn (mkZcrxConn fd)]> (heap w) ->
  next_obj w' = next_obj w + 1 ->
  conns_ok (<[fd := ptr_of (next_obj w)]> conns) w'.
Proof.
  intros Hc Hpos Hh Hn fd' p. rewrite lookup_insert_Some, Hh, Hn. intros [[<- <-]|[Hne Hp]].
  - rewrite lookup_insert_eq. split; [done|]. eexists. split; [done|]. lia.
  - destruct (Hc fd' p Hp) as (H1 & n & -> & Hlt). split; [|exists n; split; [done|lia]].
    rewrite lookup_insert_ne; [done|]. unfold ptr_of. lia.
Qed.

Lemma NoDup_requeue (stop b : bool) n (pending : list Z) :
  NoDup pending -> kZcrxReqAccept ∉ pending -> rx_tag (ptr_of n) ∉ pending ->
  NoDup ((if stop then [] else [kZcrxReqAccept]) ++ (if b then [rx_tag (ptr_of n)] else []) ++ pending).
Proof.
  intros Hnd H1 H2. pose proof (rx_tag_not_accept n).
  destruct stop, b; cbn; rewrite ?NoDup_cons, ?elem_of_cons; intuition congruence.
Qed.

(** An accept completion was processed: with a descriptor, a connection was
    added and its receive queued; unless stopping, the accept was queued again. *)
Lemma zs_accepted all done c rest old pushed zst conns (stop : bool) id w w' :
  let fd := cq_res c in
  let p := ptr_of (next_obj w) in
  zs_inv all done (c :: rest) old pushed zst conns w -> cq_user_data c = kZcrxReqAccept ->
  (closes_ok (hist w) -> closes_ok (hist w')) ->
  cq_of (hist w') = cq_of (hist w) -> seen_of (hist w') = seen_of (hist w) ->
  fds_of (hist w') = fds_of (hist w) -> stats w' = stats w ->
  let new := (if stop then [] else [the_accept]) ++
             (if 0 <=? fd then [recv_zc_sqe fd id p] else []) in
  owed_of (hist w') = new ++ owed_of (hist w) ->
  sq_used (hist w') = sq_used (hist w) + Z.of_nat (length new) ->
  heap w' = (if 0 <=? fd then <[p := OConn (mkZcrxConn fd)]> (heap w) else heap w) ->
  next_obj w' = (if 0 <=? fd then next_obj w + 1 else next_obj w) ->
  zs_inv all (done ++ [c]) rest old (new ++ pushed) zst
    (if 0 <=? fd then <[fd := p]> conns else conns) w'.
Proof.
  cbn zeta. intros I Hc Hcl Hcq Hse Hf Hs Ho Hu Hh Hn.
  destruct (zs_accept_settled _ _ _ _ _ _ _ _ _ I Hc) as [Hnd Hreq].
  pose proof (z_conns _ _ _ _ _ _ _ _ I) as Hco. pose proof (z_next _ _ _ _ _ _ _ _ I) as Hnx.
  pose proof (z_fds _ _ _ _ _ _ _ _ I) as HF. pose proof (z_disj _ _ _ _ _ _ _ _ I) as Hdis.
  pose proof (z_new _ _ _ _ _ _ _ _ I) as Hnew. pose proof (z_arr _ _ _ _ _ _ _ _ I) as Harr.
  pose proof (z_sq _ _ _ _ _ _ _ _ I) as Hsq.
  destruct (zs_head _ _ _ _ _ _ _ _ _ I) as [Hin _]. rewrite Hc in Hin.
  rewrite bool_decide_true in Hsq by exact Hin.
  apply NoDup_cons in Hnd as [Hni Hnd].
  assert (Hni' : kZcrxReqAccept ∉ udata (settle c (settle_all done old))).
  { intros ?. apply Hni, elem_of_app. by right. }
  assert (Hacc : zcrx_server_account tid (stats w) c = stats w)
    by (unfold zcrx_server_account; by rewrite Hc).
  assert (Hpend : udata (((if stop then [] else [the_accept]) ++
      (if 0 <=? cq_res c then [recv_zc_sqe (cq_res c) id (ptr_of (next_obj w))] else [])) ++ pushed)
    = (if stop then [] else [kZcrxReqAccept]) ++
      (if 0 <=? cq_res c then [rx_tag (ptr_of (next_obj w))] else []) ++ udata pushed).
  { unfold udata. rewrite !fmap_app, <- app_assoc. by destruct stop, (0 <=? cq_res c). }
  rewrite (arrivals_at_accept _ _ _ Hc) in HF, Hnew, Harr.
  apply (zs_next _ _ _ _ _ _ _ zst zst conns _ w w' I); rewrite ?Hcq, ?Hse, ?Hacc, ?Hpend, ?Hf, ?HF;
    try done.
  - rewrite <- !app_assoc. apply NoDup_requeue; try done.
    intros Ht. by apply (fresh_tag _ _ _ Hco (Hreq _ Ht)).
  - intros u. rewrite <- !app_assoc, !elem_of_app. intros [Hu'|[Hu'|Hu']].
    + left. destruct stop; set_solver.
    + right. destruct (0 <=? cq_res c); [|set_solver].
      exists (cq_res c), (ptr_of (next_obj w)). rewrite lookup_insert_eq. set_solver.
    + rewrite <- elem_of_app in Hu'. destruct (Hreq u Hu') as [?|(fd & p & Hp & ->)]; [by left|].
      right. exists fd, p. split; [|done]. destruct (0 <=? cq_res c); [|done].
      rewrite lookup_insert_ne; [done|]. intros <-. apply elem_of_dom_2 in Hp.
      destruct (Hnew (cq_res c) ltac:(by constructor)); done.
  - intros s. rewrite elem_of_app. intros [Hs'|Hs'].
    + destruct stop; [by apply elem_of_nil in Hs'|]. apply list_elem_of_singleton in Hs' as ->. done.
    + destruct (0 <=? cq_res c); [|by apply elem_of_nil in Hs'].
      apply list_elem_of_singleton in Hs' as ->. split; [done|].
      intros Heq. by apply rx_tag_not_accept in Heq.
  - destruct (0 <=? cq_res c); [by apply conns_ok_new|].
    intros fd p. rewrite Hh, Hn. apply Hco.
  - destruct (0 <=? cq_res c); lia.
  - destruct (0 <=? cq_res c); [|done]. rewrite dom_insert_L. cbn. set_solver.
  - destruct (0 <=? cq_res c); [|done]. rewrite dom_insert_L.
    destruct (Hnew (cq_res c) ltac:(by constructor)). set_solver.
  - intros fd Hfd. destruct (0 <=? cq_res c); [|by apply Hnew].
    apply NoDup_cons in Harr as [Hni2 _]. rewrite dom_insert_L.
    destruct (Hnew fd ltac:(by constructor 2)). set_solver.
  - rewrite bool_decide_false by done. rewrite Hu. clear -Hsq.
    destruct stop, (0 <=? cq_res c); cbn; lia.
  - apply Hcl, (z_close _ _ _ _ _ _ _ _ I).
Qed.

Lemma zcrx_submit_accept_spec b w :
  sq_used (hist w) < entries ->
  wp b (zcrx_submit_accept listen_fd)
    (fun _ w' => queued [the_accept] w w' /\ sq_used (hist w') = sq_used (hist w) + 1 /\
       (closes_ok (hist w) -> closes_ok (hist w'))) w.
Proof.
  intros Hu. unfold zcrx_submit_accept, put_unchecked. do 2 wp_step.
  rewrite (sq_space _ Hu). cbn [negb]. wp_step. by repeat split.
Qed.

Lemma zcrx_on_accept_ok b all done c rest old pushed zst conns w :
  zs_inv all done (c :: rest) old pushed zst conns w -> cq_user_data c = kZcrxReqAccept ->
  wp b (zcrx_on_accept listen_fd zst conns c)
    (fun conns' w' => exists pushed', zs_inv all (done ++ [c]) rest old pushed' zst conns' w') w.
Proof.
  intros I Hc. destruct (zs_room _ _ _ _ _ _ _ _ _ I) as [Hroom Hroom2]. specialize (Hroom2 Hc).
  unfold zcrx_on_accept. wp_step.
  (* the new connection *)
  apply (wp_mono _ _ (fun conns' w1 =>
    let fd := cq_res c in let p := ptr_of (next_obj w) in
    conns' = (if 0 <=? fd then <[fd := p]> conns else conns) /\
    heap w1 = (if 0 <=? fd then <[p := OConn (mkZcrxConn fd)]> (heap w) else heap w) /\
    next_obj w1 = (if 0 <=? fd then next_obj w + 1 else next_obj w) /\ stats w1 = stats w /\
    owed_of (hist w1) = (if 0 <=? fd then [recv_zc_sqe fd (zcrx_id zst) p] else []) ++
                        owed_of (hist w) /\
    cq_of (hist w1) = cq_of (hist w) /\ fds_of (hist w1) = fds_of (hist w) /\
    seen_of (hist w1) = seen_of (hist w) /\
    sq_used (hist w1) = sq_used (hist w) + (if 0 <=? fd then 1 else 0) /\
    (closes_ok (hist w) -> closes_ok (hist w1)))).
  { cbn zeta. wp_step; [|wp_step; split_and!; done || lia]. wp_step.
    wp_use (set_nonblocking_quiet _ _ _) as (Hq & Hu & Hcl). rename w' into w1.
    pose proof (quiet_ghost _ _ Hq) as Hg. destruct Hq as (Hh&Hn&Hs&_). do 2 wp_step.
    set (w2 := with_heap _ _ w1).
    assert (Hlk : heap w2 !! ptr_of (next_obj w1) = Some (OConn (mkZcrxConn (cq_res c))))
      by apply lookup_insert_eq.
    assert (Hu2 : sq_used (hist w2) < entries) by (change (hist w2) with (hist w1); lia).
    wp_step. wp_use (zcrx_submit_recv_spec _ _ _ _ _ Hlk Hu2)
      as ((Hh3&Hn3&Hs3&Ho3&Hcq3&Hf3&_&Hse3) & Hu3 & Hcl3).
    assert (Hnone : conns !! cq_res c = None).
    { apply not_elem_of_dom, (z_new _ _ _ _ _ _ _ _ I).
      rewrite (arrivals_at_accept _ _ _ Hc), E. by constructor. }
    rewrite Hnone. wp_steps. change (hist w2) with (hist w1) in *. rewrite Hg in *.
    change (next_obj w2) with (next_obj w1 + 1) in *. change (stats w2) with (stats w1) in *.
    rewrite Hn in *. split_and!; auto; congruence || (rewrite Hh3; unfold w2; cbn; congruence). }
  cbn zeta beta. intros conns' w1 (-> & Hh1 & Hn1 & Hs1 & Ho1 & Hcq1 & Hf1 & Hse1 & Hu1 & Hcl1).
  assert (Hfin : forall stop w2, 
    heap w2 = heap w1 -> next_obj w2 = next_obj w1 -> stats w2 = stats w1 ->
    owed_of (hist w2) = (if stop : bool then [] else [the_accept]) ++ owed_of (hist w1) ->
    cq_of (hist w2) = cq_of (hist w1) -> fds_of (hist w2) = fds_of (hist w1) ->
    seen_of (hist w2) = seen_of (hist w1) ->
    sq_used (hist w2) = sq_used (hist w1) + (if stop then 0 else 1) ->
    (closes_ok (hist w1) -> closes_ok (hist w2)) ->
    exists pushed', zs_inv all (done ++ [c]) rest old pushed' zst
      (if 0 <=? cq_res c then <[cq_res c := ptr_of (next_obj w)]> conns else conns) w2).
  { intros stop w2 Hh2 Hn2 Hs2 Ho2 Hcq2 Hf2 Hse2 Hu2 Hcl2. eexists.
    eapply (zs_accepted _ _ _ _ _ _ _ _ stop (zcrx_id zst)); try done; try congruence; auto.
    - by rewrite Ho2, Ho1, <- app_assoc.
    - rewrite Hu2, Hu1. destruct stop, (0 <=? cq_res c); cbn; lia. }
  do 4 wp_step.
  - wp_use (zcrx_submit_accept_spec _ _ _) as ((?&?&?&?&?&?&_&?) & ? & Hcl2).
    { change (sq_used (hist w1) < entries). destruct (0 <=? cq_res c); lia. }
    wp_step. apply (Hfin false); try done; try by f_equal. intros Hx. apply Hcl2. by split.
  - wp_steps. apply (Hfin true); try done. change (sq_used (hist w1) = sq_used (hist w1) + 0). lia.
Qed.

Lemma zcrx_on_rx_ok b all done c rest old pushed zst conns w :
  zs_inv all done (c :: rest) old pushed zst conns w -> cq_user_data c <> kZcrxReqAccept ->
  wp b (zcrx_on_rx tid zst conns c)
    (fun st w' => exists pushed', zs_inv all (done ++ [c]) rest old pushed' st.1 st.2 w') w.
Proof.
  intros I Hne. destruct (zs_room _ _ _ _ _ _ _ _ _ I) as [Hroom _].
  destruct (zs_rx _ _ _ _ _ _ _ _ _ I Hne) as (fd & n & Hfd & Hud & Hh & _ & _).
  unfold zcrx_on_rx. rewrite Hud, (proj1 (rx_tag_spec n)).
  change (negb (has_flag (cq_flags c) IORING_CQE_F_MORE)) with (is_final c).
  destruct (is_final c) eqn:Hfin; [destruct (recoverable (cq_res c)) eqn:Hrec|].
  - wp_step. wp_use (zcrx_submit_recv_spec _ _ _ _ _ Hh Hroom) as (Hq & Hu & Hcl). wp_step.
    eexists. by eapply zs_rearm.
  - set (s1 := zcrx_account tid (stats w) c).
    assert (Hs1 : wp b (if cq_res c <? 0 then modify_stats (add_error tid) else mret tt)
      (fun _ w1 => stats w1 = s1 /\ hist w1 = hist w /\ heap w1 = heap w /\
                   next_obj w1 = next_obj w) w).
    { unfold s1, zcrx_account. rewrite Hfin, Hrec. wp_steps; by split_and!. }
    wp_step. eapply wp_mono; [exact Hs1|]. cbn beta. intros _ w1 (Hst & Hw1 & Hh1 & Hn1). wp_step.
    eapply wp_load_conn; [by rewrite Hh1|]. cbn [conn_fd]. rewrite Hfd. wp_steps.
    exists pushed. eapply zs_end; try done; cbn; [by rewrite Hw1|by rewrite Hh1].
  - assert (Hgo : forall zst' w1, ghost_of (hist w1) = ghost_of (hist w) -> heap w1 = heap w ->
      next_obj w1 = next_obj w -> stats w1 = zcrx_account tid (stats w) c ->
      sq_used (hist w1) = sq_used (hist w) -> same_area zst zst' ->
      (closes_ok (hist w) -> closes_ok (hist w1)) ->
      exists pushed', zs_inv all (done ++ [c]) rest old pushed' zst' conns w1)
      by (intros; exists pushed; by eapply zs_count).
    unfold zcrx_account in Hgo. rewrite Hfin in Hgo.
    destruct (0 <? cq_res c); [|wp_step; by apply Hgo]. wp_step.
    wp_use (zcrx_on_data_spec _ _ _ _ _) as (?&?&?&?&?&?&?). wp_step. by apply Hgo.
Qed.

Lemma zcrx_server_on_cqe_ok b all done c rest old pushed st w :
  zs_inv all done (c :: rest) old pushed st.1 st.2 w ->
  wp b (zcrx_server_on_cqe tid listen_fd c st)
    (fun st' w' => exists pushed', zs_inv all (done ++ [c]) rest old pushed' st'.1 st'.2 w') w.
Proof.
  intros I. destruct st as [zst conns]. unfold zcrx_server_on_cqe.
  destruct (zs_head _ _ _ _ _ _ _ _ _ I) as [_ [Hc|(fd & p & Hp & Hc)]].
  - rewrite Hc at 1. change (Z.land kZcrxReqAccept kZcrxReqTypeMask =? kZcrxReqAccept) with true.
    wp_step; [|done]. wp_step. eapply wp_mono; [by eapply zcrx_on_accept_ok|]. cbn beta. intros conns' w' H. by wp_step.
  - destruct (z_conns _ _ _ _ _ _ _ _ I fd p Hp) as (_ & n & -> & _).
    assert (Ht : Z.land (cq_user_data c) kZcrxReqTypeMask = kZcrxReqRx)
      by (rewrite Hc; apply rx_tag_spec).
    rewrite Ht. cbn.
    eapply zcrx_on_rx_ok; [exact I|]. rewrite Hc. apply rx_tag_not_accept.
Qed.

(** Between two turns of the loop. *)
Record zs_idle (zst : ZcrxState) (conns : gmap Z Z) (w : World) : Prop := {
  i_cq : cq_of (hist w) = [];
  i_nodup : NoDup (udata (owed_of (hist w)));
  i_req : forall u, u ∈ udata (owed_of (hist w)) -> req_ok conns u;
  i_op : forall s, s ∈ owed_of (hist w) -> op_ok s;
  i_conns : conns_ok conns w;
  i_next : 0 < next_obj w;
  i_fds : fds_of (hist w) = F ∪ dom conns;
  i_disj : F ## dom conns;
  i_stats : stats w = foldl (zcrx_server_account tid) s0 (seen_of (hist w));
  i_area : same_area zst0 zst;
  i_close : closes_ok (hist w)
}.

Lemma zs_idle_quiet zst conns w w' :
  ghost_of (hist w') = ghost_of (hist w) -> heap w' = heap w -> next_obj w' = next_obj w ->
  stats w' = stats w -> (closes_ok (hist w) -> closes_ok (hist w')) ->
  zs_idle zst conns w -> zs_idle zst conns w'.
Proof.
  intros Hg Hh Hn Hs Hc []. constructor; rewrite ?Hg, ?Hs; auto; [|congruence].
  intros fd p. rewrite Hh, Hn. auto.
Qed.

Lemma zs_reap zst conns w :
  let cqes := answer (hist w) ForEachCqe in
  zs_idle zst conns w -> Z.of_nat (length cqes) < entries -> sq_used (hist w) = 0 ->
  zs_inv cqes [] cqes (owed_of (hist w)) [] zst conns (log (Ev ForEachCqe cqes) w).
Proof.
  cbn zeta. set (cqes := answer (hist w) ForEachCqe). intros I Hlen Hu.
  destruct I as [Icq Ind Ireq Iop Ico Inx If Idj Ist Iar Icl].
  assert (Hok : cqes_ok (owed_of (hist w)) cqes).
  { apply ring_answers. unfold ring_ok. by rewrite Icq. }
  assert (Hin : forall c, c ∈ cqes -> cq_user_data c ∈ udata (owed_of (hist w)))
    by (intros; by eapply cqes_ok_elem).
  assert (Hacc : accepted (owed_of (hist w)) cqes = arrivals cqes) by (by apply accepted_for).
  destruct (accept_fresh (hist w)) as [Hnd Hnew].
  pose proof (accept_single_shot (hist w)) as Hss.
  rewrite Icq in Hnd, Hnew, Hss. cbn [length] in Hnd, Hnew, Hss. rewrite drop_0 in Hnd, Hnew, Hss.
  fold cqes in Hnd, Hnew, Hss.
  rewrite Hacc in Hnd, Hnew.
  constructor; cbn [hist log]; rewrite ?ghost_of_cons;
    cbn [ghost_step cq owed fds dealt bufs lent app settle_all foldl]; try done.
  - intros c Hc Hu1. eapply Hss; [done|]. rewrite (is_accept_for kZcrxReqAccept) by auto. by apply Z.eqb_eq.
  - rewrite Icq. cbn [length]. rewrite drop_0, Hacc, If. set_solver.
  - intros fd Hfd. specialize (Hnew fd Hfd). rewrite If in Hnew. set_solver.
  - by rewrite app_nil_r.
  - change (sq_used (Ev ForEachCqe cqes :: hist w)) with (sq_used (hist w)). cbn.
    rewrite Hu. case_bool_decide; lia.
Qed.

Lemma zs_advance all old pushed zst conns r w :
  zs_inv all all [] old pushed zst conns w -> cqes_ok old all ->
  zs_idle zst conns (log (Ev (CqAdvance (Z.of_nat (length all))) r) w).
Proof.
  intros I Hok. destruct I as [Icq _ Iow _ Ind Ireq Iop _ Ico Inx If Idj _ _ Ist _ _ Iar Icl].
  assert (Hperm : udata (settle_all all (owed_of (hist w))) ≡ₚ
                  udata pushed ++ udata (settle_all all old)).
  { rewrite Iow. apply settle_all_pushed; [|done]. unfold udata. by rewrite fmap_app. }
  constructor; cbn [hist log]; rewrite ?ghost_of_cons; cbn [ghost_step]; rewrite ?Nat2Z.id,
    ?(consume_all all []) by (by rewrite app_nil_r); cbn [cq owed fds dealt]; try done.
  - by rewrite Hperm.
  - intros u. rewrite Hperm. apply Ireq.
  - intros s Hs. apply Iop. eapply elem_of_submseteq; [exact Hs|].
    apply sublist_submseteq, settle_all_sublist.
  - rewrite If. cbn. set_solver.
  - by rewrite map_app, map_snd_answers.
Qed.

Lemma zcrx_server_iter_ok b B st w :
  excused b B -> (forall t, crowded entries t = true -> B t) -> zs_idle st.1 st.2 w ->
  wp b (zcrx_server_iter tid listen_fd st)
    (fun r w' => B (hist w') \/ match r with inl st' | inr st' => zs_idle st'.1 st'.2 w' end) w.
Proof.
  intros HB Hcr I. unfold zcrx_server_iter.
  do 3 wp_step; [wp_step; right; eapply zs_idle_quiet; [..|exact I]; done|].
  do 3 wp_step; [wp_step; right; eapply zs_idle_quiet; [..|exact I]; done|].
  do 2 wp_step. set (w2 := log _ (log _ w)). set (cqes := answer (hist w2) ForEachCqe).
  assert (I2 : zs_idle st.1 st.2 w2) by (eapply zs_idle_quiet; [..|exact I]; done).
  assert (Hok : cqes_ok (owed_of (hist w2)) cqes).
  { apply ring_answers. unfold ring_ok. by rewrite (i_cq _ _ _ I2). }
  destruct (Z.le_gt_cases entries (Z.of_nat (length cqes))) as [Hfull|Hlen].
  { eapply (wp_excused b B); [done| | |by left].
    - unfold zcrx_server_on_cqe, zcrx_on_accept, zcrx_on_rx, zcrx_on_data, zcrx_return_buffer,
        zcrx_rq_nr_queued, zcrx_submit_recv, zcrx_submit_accept, put_unchecked, set_nonblocking.
      by only_tac.
    - apply Hcr. cbn. by rewrite (proj2 (Z.leb_le _ _) Hfull). }
  pose proof (zs_reap _ _ _ I2 Hlen eq_refl) as I3. cbn zeta in I3. fold cqes in I3.
  wp_step. eapply wp_mono.
  { apply (wp_for_each b _ (fun rest st' w' => exists dn pushed,
      zs_inv cqes dn rest (owed_of (hist w2)) pushed st'.1 st'.2 w')
      (fun st' w' => exists dn pushed,
      zs_inv cqes dn [] (owed_of (hist w2)) pushed st'.1 st'.2 w')); [|done|by eauto].
    intros c rest st' w' (dn & pushed & I'). eapply wp_mono; [by eapply zcrx_server_on_cqe_ok|].
    cbn beta. intros st2 w3 [pushed' I2']. by eauto. }
  cbn beta. intros st' w' (dn & pushed & I'). wp_steps.
  assert (dn = cqes) as -> by (pose proof (z_all _ _ _ _ _ _ _ _ I') as Ha; by rewrite app_nil_r in Ha).
  right. by eapply zs_advance.
Qed.
End Server.

(** * The whole server *)

Section Run.
Context {P : Platform} {L : KernelLaws P} {ML : MapLaws P}.

(** Closing a list of different open descriptors. *)
Lemma close_all_spec {X} b (key : X -> Z) (kvs : list X) w :
  NoDup (key <$> kvs) -> (forall fd, fd ∈ (key <$> kvs) -> fd ∈ fds_of (hist w)) ->
  closes_ok (hist w) ->
  wp b (for_each kvs (fun kv _ => do_call (Close (key kv));; mret tt) tt)
    (fun _ w' => fds_of (hist w') = fds_of (hist w) ∖ list_to_set (key <$> kvs) /\
       closes_ok (hist w') /\ stats w' = stats w /\ seen_of (hist w') = seen_of (hist w) /\
       mem_of (hist w') = mem_of (hist w) /\ maps_of (hist w') = maps_of (hist w)) w.
Proof.
  intros Hnd Hin Hcl.
  apply (wp_for_each b _ (fun rest _ w' => NoDup (key <$> rest) /\
    (forall fd, fd ∈ (key <$> rest) -> fd ∈ fds_of (hist w')) /\
    fds_of (hist w') ∖ list_to_set (key <$> rest) = fds_of (hist w) ∖ list_to_set (key <$> kvs) /\
    closes_ok (hist w') /\ stats w' = stats w /\ seen_of (hist w') = seen_of (hist w) /\
    mem_of (hist w') = mem_of (hist w) /\ maps_of (hist w') = maps_of (hist w))).
  - intros kv rest _ w1 (Hnd1 & Hin1 & Hf1 & Hc1 & ? & ? & ? & ?). cbn in Hnd1, Hin1, Hf1.
    apply NoDup_cons in Hnd1 as [Hni Hnd1]. wp_steps. ghost_simpl. ledger_simpl. split_and!; try done.
    + intros fd Hfd. assert (fd ∈ fds_of (hist w1)) by (apply Hin1; by constructor 2). set_solver.
    + rewrite <- Hf1. set_solver.
    + apply Hin1. constructor.
  - intros _ w' (_ & _ & Hf & ?). cbn in Hf. split; [set_solver|done].
  - by split_and!.
Qed.

Lemma NoDup_keys (m : gmap Z Z) : NoDup (fst <$> map_to_list m).
Proof. apply NoDup_fst_map_to_list. Qed.

Lemma keys_dom (m : gmap Z Z) : list_to_set (fst <$> map_to_list m) =@{gset Z} dom m.
Proof.
  apply set_eq. intros k. rewrite elem_of_list_to_set, list_elem_of_fmap, elem_of_dom. split.
  - intros ([k' v] & -> & Hin). apply elem_of_map_to_list in Hin. by eexists.
  - intros [v Hv]. exists (k, v). split; [done|]. by apply elem_of_map_to_list.
Qed.

Lemma delete_all_snd b (kvs : list (Z * Z)) w :
  wp b (for_each kvs (fun kv _ => delete_object kv.2) tt)
    (fun _ w' => hist w' = hist w /\ stats w' = stats w) w.
Proof.
  apply (wp_for_each b _ (fun _ _ w' => hist w' = hist w /\ stats w' = stats w)); [|done..].
  intros. by wp_step.
Qed.

(** Everything that is left after the loop is released. *)
Lemma zcrx_server_finish_spec b cfg tid fd s0 F zst0 st maps w :
  zs_idle tid s0 ({[fd]} ∪ F) zst0 st.1 st.2 w -> fd ∉ F ->
  regions maps zst0 (zcrx_area_size cfg) w ->
  wp b (zcrx_server_finish cfg fd st)
    (fun _ w' => stats w' = foldl (zcrx_server_account tid) s0 (seen_of (hist w')) /\
       fds_of (hist w') = F /\ mem_of (hist w') = mem_of (hist w) /\
       maps_of (hist w') = Some maps /\ closes_ok (hist w')) w.
Proof.
  intros I Hfd Hreg. destruct st as [zst conns]. cbn [fst snd] in I. unfold zcrx_server_finish.
  destruct I as [_ _ _ _ _ _ If Idj Ist (Ha1&Ha2&Ha3&_) Icl]. wp_step. eapply wp_mono.
  { apply (close_all_spec b fst); [apply NoDup_keys| |done].
    intros k Hk. rewrite If. apply elem_of_union_r. rewrite <- keys_dom.
    by apply elem_of_list_to_set. }
  cbn beta. rewrite keys_dom. intros _ w1 (Hf1 & Hc1 & Hs1 & Hse1 & Hm1 & Hmap1). wp_step.
  wp_use (zcrx_teardown_spec _ maps _ _ _ _) as ((_&_&Hs2&Hg2&_&Hm2&Hc2) & Hmap2).
  { by eapply regions_same; [..|exact Hreg]. }
  rename w' into w2. assert (Hf2 : fds_of (hist w2) = {[fd]} ∪ F).
  { rewrite Hg2, Hf1, If. set_solver. }
  do 4 wp_step. eapply wp_mono; [apply (delete_all_snd b (map_to_list conns))|].
  cbn beta. intros _ w3 [Hw3 Hs3]. rewrite Hw3, Hs3. ghost_simpl. ledger_simpl.
  rewrite Hf2, Hg2, Hs2, Hse1, Hs1, Hm2, Hmap2. split_and!; try done; [set_solver..|auto].
Qed.

Lemma no_map_create_listen_socket ip p u z sg : only no_map (create_listen_socket ip p u z sg).
Proof. unfold create_listen_socket, tune_socket, set_nonblocking. by only_tac. Qed.

(** The loop starts with the accept alone on a new ring. *)
Lemma zs_idle_start tid F zst listen_fd w w' :
  ghost_of (hist w) = mkGhost [] [] F no_bufs [] -> 0 < next_obj w ->
  queued [the_accept listen_fd] w w' -> closes_ok (hist w') ->
  zs_idle tid (stats w) F zst zst ∅ w'.
Proof.
  intros Hg Hn (Hh&Hnx&Hs&Ho&Hcq&Hf&_&Hse) Hc. rewrite Hg in *. cbn in *.
  constructor; rewrite ?Ho, ?Hcq, ?Hf, ?Hse, ?Hs; try done.
  - apply NoDup_singleton.
  - intros u ->%list_elem_of_singleton. by left.
  - by intros s ->%list_elem_of_singleton.
  - by rewrite Hnx.
  - rewrite dom_empty_L. set_solver.
Qed.

(** What the server leaves behind, on every path: its counters are the
    completions it consumed, and every descriptor, connection and mapping it
    obtained is released, each once. *)
Definition zcrx_server_done (tid : Z) (w w' : World) : Prop :=
  stats w' = foldl (zcrx_server_account tid) (stats w) (seen_of (hist w')) /\
  fds_of (hist w') = fds_of (hist w) /\ mem_of (hist w') = mem_of (hist w) /\
  maps_of (hist w') = maps_of (hist w) /\ closes_ok (hist w').

Lemma run_server_zcrx_loop b B fuel tid cfg fd m maps zst w0 w :
  excused b B -> (forall t, crowded (zcrx_cq_entries cfg) t = true -> B t) ->
  fuelled b fuel -> SubmissionLaws P (zcrx_cq_entries cfg) ->
  0 < zcrx_cq_entries cfg -> fd ∉ fds_of (hist w0) ->
  maps_of (hist w0) = Some maps -> mem_of (hist w0) = Some m ->
  mem_of (hist w) = Some m -> stats w = stats w0 ->
  ghost_of (hist w) = mkGhost [] [] ({[fd]} ∪ fds_of (hist w0)) no_bufs [] ->
  sq_used (hist w) = 0 -> 0 < next_obj w -> closes_ok (hist w) ->
  regions maps zst (zcrx_area_size cfg) w ->
  wp b (zcrx_submit_accept fd;; do_call Submit;;
        st ← iter fuel (zcrx_server_iter tid fd) (zst, ∅);
        zcrx_server_finish cfg fd st)
    (fun _ w' => B (hist w') \/ zcrx_server_done tid w0 w') w.
Proof.
  intros HB Hcr Hfuel SL Hn Hfd Hmaps0 Hm0 Hm Hst Hg Hu Hnx Hcl Hreg. wp_step.
  assert (Hos : only no_mem_map (zcrx_submit_accept fd))
    by (unfold zcrx_submit_accept, put_unchecked; by only_tac).
  eapply wp_mono; [apply (wp_only no_mem_map); [exact Hos|];
    apply (zcrx_submit_accept_spec (zcrx_cq_entries cfg)); lia|].
  cbn beta. intros _ w1 [(Hq1 & _ & Hc1) [Hm1 Hmap1]%extends_no_mem_map]. do 2 wp_step.
  set (w2 := log _ w1). wp_step.
  assert (I2 : zs_idle tid (stats w0) ({[fd]} ∪ fds_of (hist w0)) zst zst ∅ w2).
  { eapply (zs_idle_quiet _ _ _ _ _ _ w1); try done. rewrite <- Hst.
    by apply (zs_idle_start _ _ _ fd w w1); auto. }
  eapply wp_mono.
  { apply (wp_only no_mem_map); [apply only_iter; intros; apply only_zcrx_server_iter|].
    apply (wp_iter_stop_excused no_mem_map _ B _
      (fun st => zs_idle tid (stats w0) ({[fd]} ∪ fds_of (hist w0)) zst st.1 st.2)
      (fun st => zs_idle tid (stats w0) ({[fd]} ∪ fds_of (hist w0)) zst st.1 st.2));
      [done|done| |done| |exact I2].
    - intros st stop. unfold zcrx_server_on_cqe, zcrx_on_accept, zcrx_on_rx, zcrx_on_data,
        zcrx_return_buffer, zcrx_rq_nr_queued, zcrx_submit_recv, zcrx_submit_accept,
        put_unchecked, set_nonblocking. by only_tac.
    - intros st w3 I3. eapply wp_mono;
        [by eapply (zcrx_server_iter_ok (zcrx_cq_entries cfg) tid fd _ _ _ b B)|]. by intros [?|?]. }
  cbn beta. intros st w3 [[HBt|I3] [Hm3 Hmap3]%extends_no_mem_map].
  { eapply (wp_excused b B); [done| |exact HBt|by left].
    unfold zcrx_server_finish, zcrx_teardown. by only_tac. }
  change (mem_of (hist w2)) with (mem_of (hist w1)) in Hm3.
  change (maps_of (hist w2)) with (maps_of (hist w1)) in Hmap3.
  eapply wp_mono.
  { eapply zcrx_server_finish_spec; [exact I3|done|].
    eapply regions_same; [..|exact Hreg]; try done. congruence. }
  cbn beta. intros _ w4 (Hs4 & Hf4 & Hm4 & Hmap4 & Hc4). right. unfold zcrx_server_done.
  split_and!; congruence || done.
Qed.

Lemma run_server_zcrx_spec b B fuel tid cfg m maps w :
  excused b B -> (forall t, crowded (zcrx_cq_entries cfg) t = true -> B t) ->
  fuelled b fuel -> SubmissionLaws P (zcrx_cq_entries cfg) ->
  0 < zcrx_cq_entries cfg -> 0 < next_obj w -> dealt_of (hist w) = [] ->
  mem_of (hist w) = Some m -> maps_of (hist w) = Some maps -> closes_ok (hist w) ->
  wp b (run_server_zcrx fuel tid cfg)
    (fun _ w' => B (hist w') \/ zcrx_server_done tid w w') w.
Proof.
  intros HB Hcr Hfuel SL Hn Hnx Hd Hm Hmaps Hc. unfold run_server_zcrx. wp_step.
  apply (wp_mono _ _ (fun _ w1 => quiet w w1 /\ extends steady w w1)).
  { apply (wp_only steady); [unfold Zcrx.set_cpu_affinity; by only_tac|].
    unfold Zcrx.set_cpu_affinity. wp_steps; by repeat split. }
  cbn beta. intros _ w1 [Hq1 (Hm1 & Hmap1 & Hc1)%extends_steady].
  pose proof (quiet_ghost _ _ Hq1) as Hg1. destruct Hq1 as (_&Hn1&Hs1&_).
  wp_step. eapply wp_mono; [apply (wp_only no_map), wp_total, create_listen_socket_new;
    apply no_map_create_listen_socket|].
  cbn beta. intros fd w2 [[(_&Hn2&Hs2&_&_&_&Hd2&Hm2&Hc2) Hfd] Hmap2%extends_maps].
  rewrite Hg1, Hd in Hd2.
  destruct Hfd as [[-> Hf2]|(Hpos & Hfresh & Hf2)].
  { cbn. wp_step. right. unfold zcrx_server_done. rewrite Hd2. cbn. split_and!; auto; congruence. }
  rewrite (proj2 (Z.ltb_ge fd 0) Hpos). rewrite Hg1 in Hfresh, Hf2.
  (* both failures of the setup close the listening socket *)
  assert (Hclose : forall w3 r, fds_of (hist w3) = {[fd]} ∪ fds_of (hist w) -> stats w3 = stats w ->
    dealt_of (hist w3) = [] ->
    mem_of (hist w3) = Some m -> maps_of (hist w3) = Some maps -> closes_ok (hist w3) ->
    zcrx_server_done tid w (log (Ev (Close fd) r) w3)).
  { intros w3 r Hf3 Hs3 Hd3 Hm3 Hmap3 Hc3. unfold zcrx_server_done. ghost_simpl. ledger_simpl.
    rewrite Hf3, Hd3. cbn. split_and!; congruence || set_solver. }
  do 2 wp_step. set (w3 := log _ w2).
  assert (Hm3 : mem_of (hist w3) = Some m) by (change (mem_of (hist w2) = Some m); congruence).
  assert (Hmap3 : maps_of (hist w3) = Some maps)
    by (change (maps_of (hist w2) = Some maps); congruence).
  assert (Hs3 : stats w3 = stats w) by (change (stats w3) with (stats w2); congruence).
  assert (Hg3 : ghost_of (hist w3) = mkGhost [] [] ({[fd]} ∪ fds_of (hist w)) no_bufs []).
  { unfold w3. cbn [hist log]. rewrite ghost_of_cons. cbn. by rewrite Hf2. }
  assert (Hc3 : closes_ok (hist w3)) by (split; auto).
  wp_step; [wp_steps; right; apply Hclose; done || by rewrite Hg3|].
  wp_step. wp_use (zcrx_setup_spec _ _ _ _ _ _ maps _ Hmap3)
    as ((_&Hn4&Hs4&Hg4&Hu4&Hm4&Hc4) & H4).
  rename w' into w4. destruct a as [[|] zst]; cbn [fst snd negb] in *.
  - destruct H4 as [Hreg _].
    eapply (run_server_zcrx_loop b B fuel tid cfg fd m maps zst w w4); try done; try congruence.
    + rewrite Hn4. change (next_obj w3) with (next_obj w2). lia.
    + by apply Hc4.
  - wp_steps. right. apply Hclose; cbn [hist log stats].
    + rewrite ghost_of_cons. cbn [ghost_step]. by rewrite Hg4, Hg3.
    + congruence.
    + rewrite ghost_of_cons. cbn [ghost_step]. by rewrite Hg4, Hg3.
    + rewrite mem_of_cons. cbn [mem_step]. congruence.
    + done.
    + split; [done|]. by apply Hc4.
Qed.
End Run.
