(* ===== verification/Server.v ===== *)
(** The server worker: [struct ClientSession] and [Worker::run_server] of
    [src/worker.cpp].

    One loop serves every connection of a worker: it closes reverse sessions
    whose deadline has passed, reaps a batch of completions and dispatches each
    by the type of the context its [user_data] points at. *)

From S2P Require Import Prelude Stats Sys Only Kernel NetUtils Config Engine Zcrx Client.

Record ClientSession := mkSession {
  client_fd : Z;
  is_reverse : bool;
  deadline : Z;             (** nanoseconds of the steady clock *)
  buffers : list Z;
  contexts : list Z;        (** the [IOContext*]s it owns *)
  ms_ctx : option Z
}.

Abbreviation session_map := (gmap Z ClientSession).

(** What the loop does not change: the engine and the values fixed before it. *)
Record ServerEnv := mkServerEnv {
  sv_tid : Z;
  sv_cfg : Config;
  sv_fuel : nat;
  sv_engine : UringEngine;
  sv_multishot : bool;
  sv_listen_fd : Z;
  sv_accept_ctx : Z;
  sv_udp_fixed_file : bool
}.

Definition ns_of_sec (s : Z) : Z := s * 1000000000.

Section Server.
Context {P : Platform}.

(** Destructor of a session: its contexts go with it, its buffers do not. *)
Definition destroy_session (s : ClientSession) : M unit :=
  for_each (contexts s) (fun ctx _ => delete_object ctx) tt;;
  match ms_ctx s with Some ctx => delete_object ctx | None => mret tt end.

(** [sessions[client_fd] = std::move(session)] *)
Definition assign_session (fd : Z) (s : ClientSession) (sessions : session_map)
    : M session_map :=
  (match sessions !! fd with Some old => destroy_session old | None => mret tt end);;
  mret (<[fd := s]> sessions).

(** [sessions.erase(it)] *)
Definition erase_session (fd : Z) (s : ClientSession) (sessions : session_map)
    : M session_map :=
  destroy_session s;; mret (delete fd sessions).

Definition free_buffers (bufs : list Z) : M unit :=
  for_each bufs (fun buf _ => free_aligned_buffer buf) tt.

(** The sweep at the top of an iteration. *)
Definition sweep_one (now : Z) (kv : Z * ClientSession) (sessions : session_map)
    : M session_map :=
  let '(fd, s) := kv in
  if is_reverse s && (deadline s <=? now) then
    do_call (Close fd);;
    free_buffers (buffers s);;
    erase_session fd s sessions
  else mret sessions.

Definition sweep_sessions (sessions : session_map) : M session_map :=
  if bool_decide (sessions = ∅) then mret sessions else
  now ← do_call SteadyNow;
  for_each (map_to_list sessions) (sweep_one now) sessions.

(** ** A new connection *)

(** The [in_flight] buffers of a session with one request each. *)
Definition arm_pool (env : ServerEnv) (kind : ctx_kind) (fd : Z)
    : M (list Z * list Z) :=
  let cfg := sv_cfg env in
  for_each (zseq (in_flight cfg)) (fun b pools =>
    bc ← new_buffer_ctx kind cfg (sv_tid env) fd b;
    (match kind with
     | SEND => prep_send_any cfg (sv_engine env) fd bc.1 (buf_size cfg) b bc.2 false
     | _ => prep_recv (sv_engine env) fd bc.1 (buf_size cfg) b bc.2 false
     end);;
    mret (pools.1 ++ [bc.1], pools.2 ++ [bc.2])) ([], []).

Definition new_session (env : ServerEnv) (fd : Z) (reverse : bool) (peer_duration : Z)
    : M ClientSession :=
  if reverse then
    now ← do_call SteadyNow;
    pools ← arm_pool env SEND fd;
    mret (mkSession fd true (now + ns_of_sec peer_duration) pools.1 pools.2 None)
  else if sv_multishot env then
    ctx ← new_object (OCtx (mkIOContext RECV fd 0 0 0 (u32 (sv_tid env))));
    prep_recv_multishot (sv_engine env) fd ctx false;;
    mret (mkSession fd false 0 [] [] (Some ctx))
  else
    pools ← arm_pool env RECV fd;
    mret (mkSession fd false 0 pools.1 pools.2 None).

Definition server_on_accept (env : ServerEnv) (c : cqe) (sessions : session_map)
    : M session_map :=
  let cfg := sv_cfg env in
  let fd := cq_res c in
  sessions ← (if 0 <=? fd then
    tune_socket fd (zero_copy cfg) false false 1472;;
    hs ← (if bool_decide (protocol cfg = TCP) then recv_handshake (sv_fuel env) fd
          else mret (Some (false, duration_sec cfg)));
    match hs with
    | None => do_call (Close fd);; mret sessions
    | Some (reverse, peer_duration) =>
        set_nonblocking fd;;
        s ← new_session env fd reverse peer_duration;
        assign_session fd s sessions
    end
  else mret sessions);
  prep_accept (sv_listen_fd env) (address_of_local "client_addr") (address_of_local "addr_len")
    (sv_accept_ctx env);;
  mret sessions.

(** ** Completions of a session *)

Definition server_on_send (env : ServerEnv) (ctx : IOContext) (c : cqe)
    (sessions : session_map) : M unit :=
  let tid := sv_tid env in
  keep_sending ←
    (match sessions !! ctx_fd ctx with
     | None => mret false
     | Some s =>
         now ← do_call SteadyNow;
         if now <? deadline s then stop ← do_call StopLoad; mret (negb stop) else mret false
     end);
  let again :=
    if (keep_sending : bool)
    then resubmit_send (sv_cfg env) (sv_engine env) false (cq_user_data c);; mret tt
    else mret tt in
  if has_flag (cq_flags c) IORING_CQE_F_NOTIF then modify_stats (add_zc_notification tid)
  else if 0 <? cq_res c then modify_stats (add_bytes tid (cq_res c) 1);; again
  else if res_again (cq_res c) then again
  else if cq_res c <? 0 then modify_stats (add_error tid)
  else mret tt.

(** Close and erase the session of [fd], if there is one. *)
Definition end_session (fd : Z) (with_buffers : bool) (sessions : session_map)
    : M session_map :=
  match sessions !! fd with
  | Some s =>
      do_call (Close fd);;
      (if with_buffers then free_buffers (buffers s) else mret tt);;
      erase_session fd s sessions
  | None => mret sessions
  end.

Definition count_error (tid res : Z) : M unit :=
  if res <? 0 then modify_stats (add_error tid) else mret tt.

Definition server_on_multishot (env : ServerEnv) (ctx : IOContext) (c : cqe)
    (sessions : session_map) : M session_map :=
  let cfg := sv_cfg env in let tid := sv_tid env in
  let rearm := prep_recv_multishot (sv_engine env) (ctx_fd ctx) (cq_user_data c)
                 (sv_udp_fixed_file env) in
  (if (0 <? cq_res c) && has_flag (cq_flags c) IORING_CQE_F_BUFFER then
     modify_stats (add_bytes tid (cq_res c) (packets_of cfg (cq_res c)));;
     return_recv_buffer (sv_engine env) (buffer_id c)
   else mret tt);;
  if negb (has_flag (cq_flags c) IORING_CQE_F_MORE) then
    if cq_res c =? - ENOBUFS then rearm;; mret sessions
    else if bool_decide (protocol cfg = UDP) then
      count_error tid (cq_res c);;
      stop ← do_call StopLoad;
      (if negb stop then rearm;; mret tt else mret tt);;
      mret sessions
    else
      count_error tid (cq_res c);;
      end_session (ctx_fd ctx) false sessions
  else mret sessions.

Definition server_on_recv (env : ServerEnv) (ctx : IOContext) (c : cqe)
    (sessions : session_map) : M session_map :=
  let cfg := sv_cfg env in let tid := sv_tid env in
  let again := resubmit_recv (sv_engine env) (ctx_fd ctx) (cq_user_data c)
                 (sv_udp_fixed_file env) in
  if 0 <? cq_res c then
    modify_stats (add_bytes tid (cq_res c) (packets_of cfg (cq_res c)));;
    again;; mret sessions
  else if res_again (cq_res c) then again;; mret sessions
  else
    count_error tid (cq_res c);;
    end_session (ctx_fd ctx) true sessions.

(** ** The loop *)

Definition server_on_cqe (env : ServerEnv) (c : cqe) (sessions : session_map)
    : M session_map :=
  if cq_user_data c =? 0 then cqe_seen;; mret sessions
  else
    ctx ← load_ctx (cq_user_data c);
    sessions ← (match ctx_type ctx with
      | ACCEPT => server_on_accept env c sessions
      | SEND => server_on_send env ctx c sessions;; mret sessions
      | RECV => if sv_multishot env then server_on_multishot env ctx c sessions
                else server_on_recv env ctx c sessions
      | TIMER => mret sessions
      end);
    cqe_seen;; mret sessions.

Definition server_iter (env : ServerEnv) (sessions : session_map)
    : M (session_map + session_map) :=
  stop ← do_call StopLoad;
  if (stop : bool) then mret (inr sessions) else
  sessions ← sweep_sessions sessions;
  cqes ← reap_completions (in_flight (sv_cfg env));
  match cqes with
  | [] => submit_and_wait 1;; mret (inl sessions)
  | _ =>
      sessions ← for_each cqes (server_on_cqe env) sessions;
      submit;; mret (inl sessions)
  end.

(** The UDP receive requests: the multishot context, or the pool. *)
Definition server_arm_udp (cfg : Config) (tid : Z) (e : UringEngine)
    (use_multishot udp_fixed_file : bool) (udp_recv_fd : Z) : M (option Z) :=
  if use_multishot then
    ctx ← new_object (OCtx (mkIOContext RECV udp_recv_fd 0 0 0 (u32 tid)));
    prep_recv_multishot e udp_recv_fd ctx udp_fixed_file;;
    mret (Some ctx)
  else
    for_each (zseq (in_flight cfg)) (fun i _ =>
      bc ← new_buffer_ctx RECV cfg tid udp_recv_fd i;
      prep_recv e udp_recv_fd bc.1 (buf_size cfg) i bc.2 udp_fixed_file;;
      mret tt) tt;;
    mret None.

(** Everything between the listening socket and the loop. *)
Definition server_setup (fuel : nat) (tid : Z) (cfg : Config) (listen_fd : Z)
    : M (ServerEnv * option Z) :=
  e ← UringEngine_new (queue_depth cfg) (sqpoll cfg);
  r ← (if multishot_recv cfg then setup_multishot_recv (in_flight cfg) (buf_size cfg) 0 e
       else mret (false, e));
  let '(use_multishot, e) := r in
  accept_ctx ← new_object (OCtx (mkIOContext ACCEPT listen_fd 0 0 0 0));
  let env e udp_fixed_file :=
    mkServerEnv tid cfg fuel e use_multishot listen_fd accept_ctx udp_fixed_file in
  s ← (if bool_decide (protocol cfg = UDP) then
         r ← (if fixed_files cfg then register_files [listen_fd] e else mret (false, e));
         let '(udp_fixed_file, e) := r in
         let udp_recv_fd := if (udp_fixed_file : bool) then 0 else listen_fd in
         udp_ms_ctx ← server_arm_udp cfg tid e use_multishot udp_fixed_file udp_recv_fd;
         mret (env e udp_fixed_file, udp_ms_ctx)
       else
         prep_accept listen_fd (address_of_local "client_addr") (address_of_local "addr_len")
           accept_ctx;;
         mret (env e false, None));
  submit;;
  mret s.

(** What follows the loop: sockets, session buffers, then the destructors. *)
Definition server_finish (env : ServerEnv) (udp_ms_ctx : option Z) (sessions : session_map)
    : M unit :=
  do_call (Close (sv_listen_fd env));;
  for_each (map_to_list sessions) (fun kv _ =>
    do_call (Close kv.1);; free_buffers (buffers kv.2)) tt;;
  (match udp_ms_ctx with Some ctx => delete_object ctx | None => mret tt end);;
  delete_object (sv_accept_ctx env);;
  for_each (map_to_list sessions) (fun kv _ => destroy_session kv.2) tt;;
  UringEngine_destroy (sv_engine env).

Definition run_server (fuel : nat) (tid : Z) (cfg : Config) : M unit :=
  if use_zcrx cfg then run_server_zcrx fuel tid cfg else
  set_cpu_affinity tid cfg;;
  listen_fd ← create_listen_socket "0.0.0.0" (port cfg) (bool_decide (protocol cfg = UDP))
                (zero_copy cfg) (udp_gso_size cfg);
  if listen_fd <? 0 then mret tt else
  s ← server_setup fuel tid cfg listen_fd;
  let '(env, udp_ms_ctx) := s in
  sessions ← iter fuel (server_iter env) ∅;
  server_finish env udp_ms_ctx sessions.
End Server.
