(* ===== verification/ServerSessions.v ===== *)
(** Vocabulary of the server's correctness proof: the handshake read inside the
    accept handler, sessions with the contexts they own, the requests that carry
    those contexts, and what a consumed completion adds to the counters. *)

From S2P Require Import Prelude Stats Sys Only Kernel NetUtils Config Engine Zcrx Client Server.
From S2P Require Import ClientProofs ZcrxProofs ZcrxServer.

(** * The handshake read inside the accept handler *)

Section Handshake.
Context {P : Platform} {L : KernelLaws P}.

(** The world is the same up to calls without effect on rings, heap, memory
    and descriptors. *)
Definition still (w w' : World) : Prop :=
  heap w' = heap w /\ next_obj w' = next_obj w /\ stats w' = stats w /\
  ghost_of (hist w') = ghost_of (hist w) /\ mem_of (hist w') = mem_of (hist w) /\
  (closes_ok (hist w) -> closes_ok (hist w')).

Lemma still_refl w : still w w.
Proof. by repeat split. Qed.

Lemma still_trans w1 w2 w3 : still w1 w2 -> still w2 w3 -> still w1 w3.
Proof. intros (?&?&?&?&?&?) (?&?&?&?&?&?). repeat split; auto; congruence. Qed.

(** One turn per byte, and one per read that is told to try again. *)
Definition recv_fuelled (b : Sys.mode) (fuel : nat) : Prop :=
  endless b \/ exists K, RecvProgress P K /\ (5 + K < fuel)%nat.

Definition recv_turns (K : nat) (buf : list Z) (w : World) : nat :=
  (5 - length buf + (K - recv_stalls (hist w)))%nat.

Lemma recv_all_step_turns K fd buf w buf' w' :
  RecvProgress P K -> recv_all_step fd 5 5000 buf w = Ret (inl buf') w' ->
  (recv_turns K buf' w' < recv_turns K buf w)%nat.
Proof.
  intros RP. unfold recv_all_step. destruct (Z.ltb_spec (Z.of_nat (length buf)) 5); [|done].
  cbn [negb]. unfold mbind, M_bind, do_call. cbn. set (n := 5 - Z.of_nat (length buf)).
  pose proof (recv_stalls_end (hist w) fd n) as Hp. pose proof (recv_bound (hist w) fd n) as Hb.
  destruct (answer (hist w) (Recv fd n)) as [errno|[|x l]] eqn:Ha; [|done|].
  - destruct (would_block errno) eqn:Hwb; [|done].
    destruct (Z.leb_spec (answer (hist (log (Ev (Recv fd n) (inl errno)) w)) (Poll fd false 5000)) 0);
      cbn; [done|]. intros [= <- <-]. unfold recv_turns. cbn. rewrite Hwb.
    destruct (decide (K <= recv_stalls (hist w))%nat) as [HK|]; [|unfold recv_stalls in *; lia].
    specialize (Hp HK). cbn in Hp. congruence.
  - intros [= <- <-]. unfold recv_turns. cbn. rewrite length_app. cbn.
    unfold recv_stalls in *. lia.
Qed.

(** Reading the handshake disturbs nothing. *)
Lemma recv_handshake_still b fuel fd w :
  recv_fuelled b fuel -> wp b (recv_handshake fuel fd) (fun _ => still w) w.
Proof.
  intros Hfuel. unfold recv_handshake. wp_step.
  eapply (wp_mono _ _ (fun _ => still w)); [|intros r w' Hs; by wp_step].
  assert (HK : exists K, endless b \/ RecvProgress P K /\ (5 + K < fuel)%nat).
  { destruct Hfuel as [?|[K ?]]; [by exists 0%nat; left|exists K; by right]. }
  destruct HK as [K HK].
  eapply (wp_iter_measure _ _ (fun _ => still w) (recv_turns K)); [|apply still_refl|].
  - intros buf w1 Hs.
    assert (H : wp b (recv_all_step fd 5 5000 buf) (fun _ => still w1) w1).
    { unfold recv_all_step. wp_step; [wp_step; by repeat split|]. do 2 wp_step.
      destruct (answer (hist w1) (Recv fd _)) as [errno|[|x l]] eqn:Ha; wp_steps; by repeat split. }
    revert H. unfold wp.
    destruct (recv_all_step fd 5 5000 buf w1) as [[buf'|r] w2| | | |] eqn:He; try tauto.
    + intros H. split; [by eapply still_trans|].
      destruct HK as [|[RP _]]; [by left|right]. by eapply recv_all_step_turns.
    + intros H. by eapply still_trans.
  - destruct HK as [|[_ ?]]; [by left|right]. unfold recv_turns. cbn. lia.
Qed.
End Handshake.

(** * How often a [user_data] occurs *)

Definition times (u : Z) (l : list Z) : nat := count_occ Z.eq_dec l u.
Arguments times : simpl never.

Lemma times_nil u : times u [] = 0%nat.
Proof. done. Qed.

Lemma times_perm u l l' : l ≡ₚ l' -> times u l = times u l'.
Proof. intros H. by apply (Permutation_count_occ Z.eq_dec). Qed.

Lemma times_app u l l' : times u (l ++ l') = (times u l + times u l')%nat.
Proof. apply count_occ_app. Qed.

Lemma times_none u l : u ∉ l -> times u l = 0%nat.
Proof. intros H. apply count_occ_not_In. by rewrite <- list_elem_of_In. Qed.

Lemma times_zero u l : times u l = 0%nat -> u ∉ l.
Proof. intros H. rewrite list_elem_of_In. by apply (count_occ_not_In Z.eq_dec). Qed.

Lemma times_cons u v l : times u (v :: l) = ((if (v =? u)%Z then 1 else 0) + times u l)%nat.
Proof. unfold times. cbn. destruct (Z.eq_dec v u), (Z.eqb_spec v u); done. Qed.

Lemma times_sub u l k : l ⊆+ k -> (times u l <= times u k)%nat.
Proof.
  intros [x Hx]%submseteq_Permutation. rewrite (times_perm _ _ _ Hx), times_app. lia.
Qed.

(** * Sessions and their requests *)

(** What one consumed completion adds to the counters, given the operation of its
    request: nothing for an accept. *)
Definition server_account (tid : Z) (cfg : Config) (s : StatsCollector)
    (oc : option opcode * cqe) : StatsCollector :=
  let c := oc.2 in
  match oc.1 with
  | Some OP_SEND | Some OP_SEND_ZC | Some OP_SEND_ZC_FIXED =>
      if has_flag (cq_flags c) IORING_CQE_F_NOTIF then add_zc_notification tid s
      else if 0 <? cq_res c then add_bytes tid (cq_res c) 1 s
      else if res_again (cq_res c) then s
      else if cq_res c <? 0 then add_error tid s
      else s
  | Some OP_RECV_MULTISHOT =>
      let s := if (0 <? cq_res c) && has_buffer c
               then add_bytes tid (cq_res c) (packets_of cfg (cq_res c)) s else s in
      if is_final c && negb (cq_res c =? - ENOBUFS) && (cq_res c <? 0) then add_error tid s else s
  | _ => s
  end.

(** Which contexts the requests of an operation carry. *)
Definition op_kind (o : opcode) : ctx_kind :=
  match o with
  | OP_ACCEPT => ACCEPT
  | OP_SEND | OP_SEND_ZC | OP_SEND_ZC_FIXED => SEND
  | OP_RECV | OP_RECV_MULTISHOT | OP_RECV_ZC => RECV
  end.

(** The context at [u] is live. *)
Definition live (u : Z) (c : IOContext) (w : World) : Prop :=
  heap w !! u = Some (OCtx c) /\ exists n, u = ptr_of n /\ 0 < n < next_obj w.

Lemma live_fun u c c' w : live u c w -> live u c' w -> c = c'.
Proof. intros [H _] [H' _]. congruence. Qed.

Lemma live_same u c w w' : heap w' = heap w -> next_obj w' = next_obj w -> live u c w -> live u c w'.
Proof. intros Hh Hn. unfold live. by rewrite Hh, Hn. Qed.

Definition recv_context (tid fd : Z) : IOContext := mkIOContext RECV fd 0 0 0 (u32 tid).
Definition ms_session (fd p : Z) : ClientSession := mkSession fd false 0 [] [] (Some p).

(** A session of a sending peer owns one receive context, which carries its
    descriptor; a session of a receiving peer owns send contexts, which do. *)
Definition sess_ok (tid fd : Z) (s : ClientSession) (w : World) : Prop :=
  (exists p, s = ms_session fd p /\ live p (recv_context tid fd) w) \/
  (is_reverse s = true /\ ms_ctx s = None /\ client_fd s = fd /\
   forall u, u ∈ contexts s -> exists c, live u c w /\ ctx_type c = SEND /\ ctx_fd c = fd).

(** The requests of a session. *)
Definition req_of (s : ClientSession) (x : sqe) : Prop :=
  (ms_ctx s = Some (sq_user_data x) /\ sq_op x = OP_RECV_MULTISHOT) \/
  (ms_ctx s = None /\ sq_user_data x ∈ contexts s /\ sq_fd x = client_fd s /\ send_req x).

(** The buffers of all sessions. *)
Definition session_bufs (sessions : session_map) : list Z :=
  map_to_list sessions ≫= (fun kv => buffers kv.2).

Section Sessions.
Variables (tid actx : Z) (listen_fd : Z).

Definition accept_context : IOContext := mkIOContext ACCEPT listen_fd 0 0 0 0.

(** A request is the accept, or one of a session. *)
Definition req_ok (sessions : session_map) (x : sqe) : Prop :=
  (sq_user_data x = actx /\ sq_op x = OP_ACCEPT) \/
  exists fd s, sessions !! fd = Some s /\ req_of s x.

(** All contexts are where they belong. *)
Definition contexts_ok (sessions : session_map) (w : World) : Prop :=
  live actx accept_context w /\ forall fd s, sessions !! fd = Some s -> sess_ok tid fd s w.

Lemma contexts_ok_same sessions w w' :
  heap w' = heap w -> next_obj w' = next_obj w -> contexts_ok sessions w -> contexts_ok sessions w'.
Proof. intros Hh Hn. unfold contexts_ok, sess_ok, live. by rewrite Hh, Hn. Qed.

(** A request points at a live context of its kind. *)
Lemma req_live sessions x w :
  contexts_ok sessions w -> req_ok sessions x ->
  exists c, live (sq_user_data x) c w /\ ctx_type c = op_kind (sq_op x).
Proof.
  intros [Ha Hs] [[-> ->]|(fd & s & Hfd & Hx)]; [by eexists|].
  destruct (Hs fd s Hfd) as [(p & -> & Hp)|(_ & Hms & _ & Hc)];
    destruct Hx as [[Hx Hop]|(Hx & Hin & _ & Hop & _)];
    cbn in Hx; try congruence.
  - injection Hx as <-. rewrite Hop. by eexists.
  - destruct (Hc _ Hin) as (c & Hl & Ht & _). exists c. split; [done|]. by destruct (sq_op x).
Qed.

(** So the context tells the operation. *)
Lemma req_kind sessions x u c w :
  contexts_ok sessions w -> req_ok sessions x -> sq_user_data x = u -> live u c w ->
  op_kind (sq_op x) = ctx_type c.
Proof.
  intros Hok Hx <- Hl. destruct (req_live _ _ _ Hok Hx) as (c' & Hl' & <-).
  by rewrite (live_fun _ _ _ _ Hl Hl').
Qed.

Lemma req_nonzero sessions x w :
  contexts_ok sessions w -> req_ok sessions x -> sq_user_data x <> 0.
Proof.
  intros Hok Hx. destruct (req_live _ _ _ Hok Hx) as (c & [_ (n & -> & Hn)] & _). unfold ptr_of. lia.
Qed.

(** Nothing carries the address of the object allocated next. *)
Lemma req_fresh sessions x n w :
  contexts_ok sessions w -> req_ok sessions x -> next_obj w <= n -> sq_user_data x <> ptr_of n.
Proof.
  intros Hok Hx Hn. destruct (req_live _ _ _ Hok Hx) as (c & [_ (k & -> & Hk)] & _). unfold ptr_of. lia.
Qed.

(** The accept context is the one that accept requests carry. *)
Lemma req_op_for sessions x w : contexts_ok sessions w -> req_ok sessions x -> op_for actx x.
Proof.
  intros Hok Hx. split.
  - intros Hop. destruct Hx as [[? _]|(fd & s & Hfd & [[_ H]|(_ & _ & _ & H & _)])]; [done|congruence|].
    by rewrite Hop in H.
  - intros Hu. pose proof (req_kind _ _ _ _ _ Hok Hx Hu (proj1 Hok)) as H. by destruct (sq_op x).
Qed.

(** A request at the receive context of a session is its multishot receive, and
    one at a send context is a send. *)
Lemma req_recv sessions fd p x w :
  contexts_ok sessions w -> req_ok sessions x -> sessions !! fd = Some (ms_session fd p) ->
  sq_user_data x = p -> sq_op x = OP_RECV_MULTISHOT.
Proof.
  intros Hok Hx Hfd Hu. destruct (proj2 Hok fd _ Hfd) as [(p' & [= <-] & Hl)|(_ & Hm & _)]; [|done].
  pose proof (req_kind _ _ _ _ _ Hok Hx Hu Hl) as Hk.
  destruct Hx as [[_ Hop]|(fd' & s & _ & [[_ Hop]|(_ & _ & _ & Hop & _)])]; [|done|].
  - by rewrite Hop in Hk.
  - by destruct (sq_op x).
Qed.

Lemma req_send sessions fd s u x w :
  contexts_ok sessions w -> req_ok sessions x -> sessions !! fd = Some s -> ms_ctx s = None ->
  u ∈ contexts s -> sq_user_data x = u -> send_req x.
Proof.
  intros Hok Hx Hfd Hm Hin Hu. destruct (proj2 Hok fd _ Hfd) as [(p' & -> & _)|(_ & _ & _ & Hc)]; [done|].
  destruct (Hc u Hin) as (c & Hl & Ht & _). pose proof (req_kind _ _ _ _ _ Hok Hx Hu Hl) as Hk.
  rewrite Ht in Hk.
  destruct Hx as [[_ Hop]|(fd' & s' & _ & [[_ Hop]|(_ & _ & _ & Hop)])]; [by rewrite Hop in Hk..|done].
Qed.

(** Two sessions do not share a receive context. *)
Lemma recv_context_own sessions fd fd' p w :
  contexts_ok sessions w -> sessions !! fd = Some (ms_session fd p) ->
  sessions !! fd' = Some (ms_session fd' p) -> fd = fd'.
Proof.
  intros [_ Hs] H1 H2.
  destruct (Hs fd _ H1) as [(p1 & [= <-] & L1)|(_ & ? & _)]; [|done].
  destruct (Hs fd' _ H2) as [(p2 & [= <-] & L2)|(_ & ? & _)]; [|done].
  by pose proof (live_fun _ _ _ _ L1 L2) as [=].
Qed.

Lemma ms_session_of sessions fd s p w :
  contexts_ok sessions w -> sessions !! fd = Some s -> ms_ctx s = Some p -> s = ms_session fd p.
Proof.
  intros [_ Hs] Hfd Hp. destruct (Hs fd s Hfd) as [(p' & -> & _)|(_ & Hm & _)]; [|congruence].
  by injection Hp as ->.
Qed.
End Sessions.

(** The operation a completion answers, among requests that agree on it. *)
Lemma op_of_all (Q : opcode -> Prop) l c :
  cq_user_data c ∈ udata l -> (forall x, x ∈ l -> sq_user_data x = cq_user_data c -> Q (sq_op x)) ->
  exists o, op_of l c = Some o /\ Q o.
Proof.
  intros Hin HQ. unfold op_of.
  destruct (List.find (fun s => sq_user_data s =? cq_user_data c) l) as [x|] eqn:Hf.
  - apply find_some in Hf as [Hx Hu%Z.eqb_eq]. exists (sq_op x). split; [done|].
    apply HQ; [by apply list_elem_of_In|done].
  - apply list_elem_of_fmap in Hin as (x & Hu & Hx).
    pose proof (find_none _ _ Hf x (proj1 (list_elem_of_In _ _) Hx)) as Hne.
    cbn in Hne. by rewrite Hu, Z.eqb_refl in Hne.
Qed.

Lemma final_settled c l :
  is_final c = true -> cq_user_data c ∈ udata l ->
  udata l ≡ₚ cq_user_data c :: udata (settle c l).
Proof. apply (final_virtual c []). Qed.

Lemma holds_perm m l l' w : l ≡ₚ l' -> holds m l w -> holds m l' w.
Proof.
  intros Hp (Hm & Hnd & Hd).
  assert (Hn : nonnull l ≡ₚ nonnull l').
  { unfold nonnull. clear -Hp. induction Hp; cbn; repeat case_match; try done.
    - by constructor.
    - by constructor.
    - by etrans. }
  unfold holds. split_and!.
  - rewrite Hm. f_equal. by rewrite Hn.
  - by rewrite <- Hn.
  - intros p Hin. apply Hd. by rewrite Hn.
Qed.

Lemma session_bufs_insert (sessions : session_map) fd s :
  sessions !! fd = None -> session_bufs (<[fd := s]> sessions) ≡ₚ buffers s ++ session_bufs sessions.
Proof. intros Hn. unfold session_bufs. by rewrite map_to_list_insert. Qed.

Lemma session_bufs_delete (sessions : session_map) fd s :
  sessions !! fd = Some s -> session_bufs sessions ≡ₚ buffers s ++ session_bufs (delete fd sessions).
Proof. intros Hs. unfold session_bufs. by rewrite <- (map_to_list_delete sessions fd s Hs). Qed.
