(* ===== verification/ServerProofs.v ===== *)
(** Correctness of the server worker's loop ([Server.v]) for TCP connections
    with multishot receives over the provided buffers, the program's default:
    peers that send and peers that ask for data, in any mixture. *)

From S2P Require Import Prelude Stats Sys Only Kernel NetUtils Config Engine Zcrx Client Server.
From S2P Require Import ClientProofs ZcrxProofs ZcrxServer.
From S2P Require Import ServerSessions.

(** * The sweep of expired sessions

    The loop frees the contexts of an expired reverse session at once.  When sends
    of that session are still in flight, their completions point at freed contexts
    ([PropsFindings.v] has such a run); otherwise closing the session is sound. *)

(** A send on [fd] is in flight. *)
Definition sends_pending (fd : Z) (t : history) : bool :=
  existsb (fun x => is_send (sq_op x) && (sq_fd x =? fd)) (owed_of t).

(** The calls since the clock was read are those of a sweep. *)
Fixpoint sweeping (t : history) : bool :=
  match t with
  | Ev SteadyNow _ :: _ => true
  | Ev (Close _) _ :: t | Ev (Free _) _ :: t => sweeping t
  | _ => false
  end.

(** A sweep closed a connection with sends in flight. *)
Fixpoint swept (t : history) : bool :=
  match t with
  | [] => false
  | e :: t =>
      match e with Ev (Close fd) _ => sweeping t && sends_pending fd t | _ => false end || swept t
  end.

Lemma swept_app l t : swept t = true -> swept (l ++ t) = true.
Proof. intros H. induction l as [|e l IH]; [done|]. cbn. rewrite IH. apply orb_true_r. Qed.

Definition frees (c : call) : Prop := match c with Free _ => True | _ => False end.

Lemma extends_frees w w' : extends frees w w' -> sweeping (hist w') = sweeping (hist w).
Proof. intros (l & -> & Hl). induction Hl as [|[[] r] l Hc _ IH]; done. Qed.

Lemma delete_all_heap b ctxs w :
  wp b (for_each ctxs (fun ctx _ => delete_object ctx) tt)
    (fun _ w' => hist w' = hist w /\ stats w' = stats w /\ next_obj w' = next_obj w /\
       forall u, u ∉ ctxs -> heap w' !! u = heap w !! u) w.
Proof.
  apply (wp_for_each b _ (fun rest _ w' => hist w' = hist w /\ stats w' = stats w /\
    next_obj w' = next_obj w /\ rest ⊆ ctxs /\ forall u, u ∉ ctxs -> heap w' !! u = heap w !! u)).
  - intros p rest _ w1 (Hw & Hs & Hn & Hsub & Hh). wp_step. cbn. split_and!; try done; [set_solver|].
    intros u Hu. rewrite lookup_delete_ne; [by apply Hh|]. set_solver.
  - by intros _ w' (?&?&?&_&?).
  - by split_and!.
Qed.

Lemma only_sweep_one `{Platform} now kv sessions : only any (sweep_one now kv sessions).
Proof.
  destruct kv. unfold sweep_one, free_buffers, free_aligned_buffer, erase_session, destroy_session.
  by only_tac.
Qed.

(** The part of an iteration after the sweep; only the listed functions make calls. *)
Lemma only_server_turn `{Platform} env sessions :
  only any
    (cqes ← reap_completions (in_flight (sv_cfg env));
     match cqes with
     | [] => submit_and_wait 1;; mret (inl sessions)
     | _ =>
         sessions ← for_each cqes (server_on_cqe env) sessions;
         submit;; mret (inl (B := session_map) sessions)
     end).
Proof.
  unfold server_on_cqe, server_on_accept, server_on_send,
    server_on_multishot, server_on_recv, end_session, erase_session, new_session, arm_pool,
    assign_session, destroy_session, free_buffers, free_aligned_buffer, count_error,
    resubmit_send, resubmit_recv, new_buffer_ctx, allocate_aligned_buffer, prep_send_any,
    prep_send_zc, prep_send_standard, prep_recv, prep_recv_multishot, prep_accept, prep,
    return_recv_buffer, tune_socket, set_nonblocking, recv_handshake, recv_all, recv_all_step,
    reap_completions, submit, submit_and_wait, cqe_seen.
  by only_tac.
Qed.

(** * The loop's invariant *)

Section Multishot.
Context {P : Platform} {L : KernelLaws P} {B : BufferLaws P} {S : SelectLaws P}.
Variables (env : ServerEnv) (s0 : StatsCollector) (F : gset Z) (pool : list Z)
  (m0 : gset Z).
Hypothesis (Hms : sv_multishot env = true).
Hypothesis (Htcp : protocol (sv_cfg env) = TCP).

Abbreviation actx := (sv_accept_ctx env).
Abbreviation tid := (sv_tid env).
Abbreviation ctxs_ok := (contexts_ok tid actx (sv_listen_fd env)).
Abbreviation account := (server_account tid (sv_cfg env)).

Record sv_inv (sessions : session_map) (w : World) : Prop := {
  v_ring : ring_ok (hist w);
  v_req : forall x, x ∈ owed_of (hist w) -> req_ok actx sessions x;
  (** a receive context has one request at most: it goes with its session *)
  v_once : forall fd p, sessions !! fd = Some (ms_session fd p) ->
             (times p (udata (owed_of (hist w))) <= 1)%nat;
  v_final : forall c, c ∈ cq_of (hist w) -> cq_user_data c = actx ->
              is_final c = true /\ has_buffer c = false;
  v_plain : forall c fd s, c ∈ cq_of (hist w) -> sessions !! fd = Some s -> ms_ctx s = None ->
              cq_user_data c ∈ contexts s -> has_buffer c = false;
  v_ctx : ctxs_ok sessions w;
  v_fds : fds_of (hist w) = F ∪ (dom sessions ∪ list_to_set (arrivals_at actx (cq_of (hist w))));
  v_disj : F ## dom sessions;
  v_arr : NoDup (arrivals_at actx (cq_of (hist w)));
  v_new : forall fd, fd ∈ arrivals_at actx (cq_of (hist w)) -> (fd ∉ F) /\ fd ∉ dom sessions;
  v_stats : stats w = foldl account s0 (dealt_of (hist w));
  v_bufs : bufs_ok (lent_of (hist w)) (cq_of (hist w));
  v_pool : lent_of (hist w) = pool;
  v_mem : holds m0 (session_bufs sessions) w;
  v_close : closes_ok (hist w)
}.

Lemma sv_inv_still sessions w w' : still w w' -> sv_inv sessions w -> sv_inv sessions w'.
Proof.
  intros (Hh & Hn & Hs & Hg & Hm & Hc) []. unfold ring_ok, holds in *.
  constructor; unfold ring_ok, holds; rewrite ?Hg, ?Hs, ?Hm; auto.
  by eapply contexts_ok_same.
Qed.

(** The completion at the head of the queue answers a request in order. *)
Lemma sv_head sessions c cs w :
  sv_inv sessions w -> cq_of (hist w) = c :: cs ->
  cq_user_data c ∈ udata (owed_of (hist w)) /\ cqes_ok (settle c (owed_of (hist w))) cs /\
  cq_user_data c <> 0 /\
  exists x, x ∈ owed_of (hist w) /\ sq_user_data x = cq_user_data c /\ req_ok actx sessions x.
Proof.
  intros I Hcq. pose proof (v_ring _ _ I) as Hr. unfold ring_ok in Hr. rewrite Hcq in Hr.
  destruct Hr as [Hin Hok]. pose proof Hin as (x & Hu & Hx)%list_elem_of_fmap.
  pose proof (v_req _ _ I x Hx) as Hreq. split_and!; try done; [|by exists x].
  rewrite Hu. by eapply req_nonzero; [apply (v_ctx _ _ I)|].
Qed.

(** The requests left once the completion is consumed and [new] were queued. *)
Abbreviation pending c new w := (udata new ++ udata (settle c (owed_of (hist w)))).

(** What has to be shown of a handler that leaves [w1] behind, for the
    invariant to hold again once the completion is consumed. *)
Lemma sv_consume b sessions sessions' c cs new w w1 :
  sv_inv sessions w -> cq_of (hist w) = c :: cs ->
  cq_of (hist w1) = c :: cs -> dealt_of (hist w1) = dealt_of (hist w) ->
  owed_of (hist w1) = new ++ owed_of (hist w) ->
  (forall x, x ∈ new ++ owed_of (hist w) -> sq_user_data x ∈ pending c new w ->
     req_ok actx sessions' x) ->
  (forall fd p, sessions' !! fd = Some (ms_session fd p) -> (times p (pending c new w) <= 1)%nat) ->
  (forall c' fd s, c' ∈ cs -> sessions' !! fd = Some s -> ms_ctx s = None ->
     cq_user_data c' ∈ contexts s -> has_buffer c' = false) ->
  ctxs_ok sessions' w1 ->
  fds_of (hist w1) = F ∪ (dom sessions' ∪ list_to_set (arrivals_at actx cs)) ->
  F ## dom sessions' -> (forall fd, fd ∈ arrivals_at actx cs -> fd ∉ dom sessions') ->
  stats w1 = account (stats w) (op_of (owed_of (hist w1)) c, c) ->
  lent_of (hist w1) = (if has_buffer c then [buffer_id c] else []) ++ lent_of (hist w) ->
  holds m0 (session_bufs sessions') w1 -> closes_ok (hist w1) ->
  wp b cqe_seen (fun _ w2 => sv_inv sessions' w2 /\ cq_of (hist w2) = cs) w1.
Proof.
  intros I Hcq Hcq1 Hd Ho Hreq Honce Hplain Hctx Hf Hdis Hnw Hst Hl Hm Hcl.
  destruct (sv_head _ _ _ _ I Hcq) as (Hin & Hok & _ & _).
  assert (Hperm : udata (settle c (owed_of (hist w1))) ≡ₚ pending c new w).
  { rewrite Ho. apply (settle_all_pushed [c]); [unfold udata; by rewrite fmap_app|by split]. }
  destruct I as [_ _ _ Ifin _ _ _ _ Iarr Inew Ist Ibuf Ipool _ _].
  rewrite Hcq in Ifin, Iarr, Inew, Ibuf. destruct Ibuf as [Hbc Hbcs].
  assert (Hlent : unlend c (lent_of (hist w1)) = lent_of (hist w)).
  { rewrite Hl. unfold unlend. destruct (has_buffer c); cbn; [by rewrite Z.eqb_refl|done]. }
  pose proof (arrivals_at_sublist actx c cs) as Hsub.
  eapply wp_mono; [apply (wp_only keeps), (cqe_seen_consumes b c cs); [apply only_cqe_seen|done]|].
  cbn beta. intros _ w2 [(Hh2&Hn2&Hs2&Ho2&Hcq2&Hf2&Hl2&Hd2&_) [Hm2 Hc2]%extends_keeps].
  split; [|done]. rewrite Hlent in Hl2.
  constructor; rewrite ?Hcq2, ?Hf2, ?Hl2, ?Hs2, ?Hd2; auto.
  - unfold ring_ok. rewrite Hcq2, Ho2. eapply cqes_ok_mono; [|exact Hok].
    fold (udata (settle c (owed_of (hist w1)))). rewrite Hperm. by apply submseteq_inserts_l.
  - rewrite Ho2. intros x Hx. apply Hreq.
    + rewrite <- Ho. eapply elem_of_submseteq; [exact Hx|apply sublist_submseteq, settle_sublist].
    + rewrite <- Hperm. by apply list_elem_of_fmap_2.
  - rewrite Ho2. intros fd p Hfd. rewrite (times_perm _ _ _ Hperm). by eapply Honce.
  - intros c' Hc'. apply Ifin. by constructor.
  - by eapply contexts_ok_same.
  - eapply sublist_NoDup; [exact Iarr|exact Hsub].
  - intros fd Hfd. split; [|by apply Hnw]. apply Inew.
    eapply elem_of_submseteq; [exact Hfd|by apply sublist_submseteq].
  - by rewrite Hst, Ist, Hd, foldl_snoc.
  - eapply bufs_ok_mono; [|exact Hbcs]. unfold unlend. destruct (has_buffer c) eqn:Hhb; [|done].
    destruct (Hbc eq_refl) as [_ Hin']. rewrite (drop_first_perm _ _ Hin') at 2.
    by apply submseteq_cons.
  - by eapply holds_same.
Qed.

(** ** Completions of a session *)

(** A handler has queued [new] and given back the completion's buffer, if it has
    one. *)
Definition served (c : cqe) (cs : list cqe) (new : list sqe) (w w1 : World) : Prop :=
  heap w1 = heap w /\ next_obj w1 = next_obj w /\
  owed_of (hist w1) = new ++ owed_of (hist w) /\
  cq_of (hist w1) = c :: cs /\ fds_of (hist w1) = fds_of (hist w) /\
  dealt_of (hist w1) = dealt_of (hist w) /\
  lent_of (hist w1) = (if has_buffer c then [buffer_id c] else []) ++ lent_of (hist w) /\
  mem_of (hist w1) = mem_of (hist w) /\ closes_ok (hist w1).

(** The sessions stay: requests, if any, were queued for the same context. *)
Lemma sv_go_on b sessions c cs new w w1 :
  sv_inv sessions w -> cq_of (hist w) = c :: cs -> cq_user_data c <> actx ->
  (new = [] \/ exists x, new = [x] /\ sq_user_data x = cq_user_data c /\ req_ok actx sessions x /\
     (is_final c = true \/
      forall fd, sessions !! fd <> Some (ms_session fd (cq_user_data c)))) ->
  served c cs new w w1 -> stats w1 = account (stats w) (op_of (new ++ owed_of (hist w)) c, c) ->
  wp b cqe_seen (fun _ w2 => sv_inv sessions w2 /\ cq_of (hist w2) = cs) w1.
Proof.
  intros I Hcq Hne Hnew (Hh & Hn & Ho & Hcq1 & Hf & Hd & Hl & Hm & Hcl) Hst.
  destruct (sv_head _ _ _ _ I Hcq) as (Hin & _ & _ & _).
  assert (Harr : arrivals_at actx (cq_of (hist w)) = arrivals_at actx cs)
    by (rewrite Hcq; by apply arrivals_at_other).
  pose proof (settle_sublist c (owed_of (hist w))) as Hsub.
  assert (Hud : udata (settle c (owed_of (hist w))) ⊆+ udata (owed_of (hist w)))
    by (by apply sublist_submseteq, fmap_sublist).
  eapply (sv_consume b sessions sessions c cs new w w1); try done.
  - intros x [Hx|Hx]%elem_of_app _; [|by apply (v_req _ _ I)].
    destruct Hnew as [->|(y & -> & _ & Hy & _)]; [by apply elem_of_nil in Hx|].
    by apply list_elem_of_singleton in Hx as ->.
  - intros fd p Hfd. pose proof (v_once _ _ I fd p Hfd) as Honce.
    pose proof (times_sub p _ _ Hud) as Hle. rewrite times_app.
    destruct Hnew as [->|(y & -> & Hy & _ & [Hfin|Hno])]; cbn [udata fmap list_fmap]; [rewrite times_nil; lia| |].
    + rewrite (times_perm _ _ _ (final_settled c _ Hfin Hin)), times_cons in Honce.
      rewrite times_cons, times_nil, Hy. lia.
    + rewrite times_cons, times_nil, Hy, (proj2 (Z.eqb_neq _ _)); [lia|]. intros <-. by apply (Hno fd).
  - intros c' fd s Hc'. apply (v_plain _ _ I). rewrite Hcq. by constructor.
  - eapply contexts_ok_same; [done..|apply (v_ctx _ _ I)].
  - rewrite Hf, <- Harr. apply (v_fds _ _ I).
  - apply (v_disj _ _ I).
  - rewrite <- Harr. intros fd' ?. by apply (v_new _ _ I).
  - by rewrite Ho.
  - eapply holds_same; [done|apply (v_mem _ _ I)].
Qed.

(** The connection ended: its descriptor is closed and its context deleted. *)
Lemma sv_end b sessions c cs fd r w w1 w2 :
  sv_inv sessions w -> cq_of (hist w) = c :: cs -> is_final c = true ->
  sessions !! fd = Some (ms_session fd (cq_user_data c)) ->
  served c cs [] w w1 -> stats w2 = account (stats w) (op_of (owed_of (hist w)) c, c) ->
  hist w2 = Ev (Close fd) r :: hist w1 -> heap w2 = delete (cq_user_data c) (heap w1) ->
  next_obj w2 = next_obj w1 ->
  wp b cqe_seen (fun _ w3 => sv_inv (delete fd sessions) w3 /\ cq_of (hist w3) = cs) w2.
Proof.
  intros I Hcq Hfin Hfd (Hh1 & Hn1 & Ho1 & Hcq1 & Hf1 & Hd1 & Hl1 & Hm1 & Hc1) Hst Hw2 Hh2 Hn2.
  set (p := cq_user_data c) in *. pose proof (v_ctx _ _ I) as Hctx.
  destruct (proj2 Hctx fd _ Hfd) as [(p' & [= <-] & Hlive)|(_ & ? & _)]; [|done].
  assert (Hne : p <> actx).
  { intros Heq. pose proof (proj1 Hctx) as Ha. rewrite <- Heq in Ha.
    by pose proof (live_fun _ _ _ _ Ha Hlive). }
  assert (Harr : arrivals_at actx (cq_of (hist w)) = arrivals_at actx cs)
    by (rewrite Hcq; by apply arrivals_at_other).
  destruct (sv_head _ _ _ _ I Hcq) as (Hin & _ & _ & _).
  pose proof (final_settled c _ Hfin Hin) as Hperm. fold p in Hperm.
  pose proof (v_once _ _ I fd p Hfd) as Honce.
  rewrite (times_perm _ _ _ Hperm), times_cons, Z.eqb_refl in Honce.
  assert (Hni : p ∉ udata (settle c (owed_of (hist w)))) by (apply times_zero; lia).
  assert (Hud : udata (settle c (owed_of (hist w))) ⊆+ udata (owed_of (hist w)))
    by (by apply sublist_submseteq, fmap_sublist, settle_sublist).
  assert (Hdom : fd ∈ dom sessions) by (by eapply elem_of_dom_2).
  pose proof (v_disj _ _ I) as Hdis. pose proof (v_fds _ _ I) as HF. pose proof (v_new _ _ I) as Hnew.
  rewrite Harr in HF, Hnew.
  (* what is live elsewhere stays so *)
  assert (Hkeep : forall u ctx, live u ctx w -> ctx <> recv_context tid fd -> live u ctx w2).
  { intros u ctx [Hu Hx] Hneq. unfold live. rewrite Hh2, Hh1, Hn2, Hn1. split; [|done].
    rewrite lookup_delete_ne; [done|]. intros <-. destruct Hlive as [Hlive _]. congruence. }
  eapply (sv_consume b sessions (delete fd sessions) c cs [] w w2);
    rewrite ?Hw2, ?ghost_of_cons; cbn [ghost_step cq dealt owed fds bufs lent app]; try done.
  - intros x Hx Hpend. destruct (v_req _ _ I x Hx) as [?|(fd' & s & Hs & Hreq)]; [by left|]. right.
    exists fd', s. split; [|done]. apply lookup_delete_Some. split; [|done]. intros <-.
    rewrite Hfd in Hs. injection Hs as <-. destruct Hreq as [[[= Hp] _]|[? _]]; [|done].
    by rewrite <- Hp in Hpend.
  - intros fd' p' [_ Hs]%lookup_delete_Some. pose proof (v_once _ _ I fd' p' Hs).
    pose proof (times_sub p' _ _ Hud). cbn. lia.
  - intros c' fd' s Hc' [_ Hs]%lookup_delete_Some. eapply (v_plain _ _ I); [|exact Hs].
    rewrite Hcq. by constructor.
  - split; [by apply Hkeep; [apply Hctx|]|]. intros fd' s [Hne' Hs]%lookup_delete_Some.
    destruct (proj2 Hctx fd' s Hs) as [(p' & -> & Hl)|(Hr & Hm & Hcf & Hc)]; [left|right].
    + exists p'. split; [done|]. apply Hkeep; [done|]. intros [=]. congruence.
    + split_and!; [done..|]. intros u Hu. destruct (Hc u Hu) as (ctx & Hl & Ht & Hcfd).
      exists ctx. split; [|done]. apply Hkeep; [done|]. by intros ->.
  - rewrite Hf1, HF, dom_delete_L. set_solver.
  - rewrite dom_delete_L. set_solver.
  - intros fd' Hfd'. rewrite dom_delete_L. destruct (Hnew fd' Hfd'). set_solver.
  - by rewrite Ho1.
  - eapply holds_same; [rewrite Hw2; cbn; rewrite mem_of_cons; cbn; exact Hm1|].
    eapply holds_perm; [|apply (v_mem _ _ I)]. by rewrite (session_bufs_delete _ _ _ Hfd).
  - split; [|done]. rewrite Hf1, HF. set_solver.
Qed.

(** The operation at the head, for requests of one kind. *)
Lemma sv_op (Q : opcode -> Prop) sessions c cs new w :
  sv_inv sessions w -> cq_of (hist w) = c :: cs ->
  (forall x, x ∈ new ++ owed_of (hist w) -> sq_user_data x = cq_user_data c -> Q (sq_op x)) ->
  exists o, op_of (new ++ owed_of (hist w)) c = Some o /\ Q o.
Proof.
  intros I Hcq HQ. destruct (sv_head _ _ _ _ I Hcq) as (Hin & _). apply op_of_all; [|done].
  unfold udata. rewrite fmap_app, elem_of_app. by right.
Qed.

(** The data of a multishot receive, if any, is counted and its buffer given back. *)
Definition data_counted (c : cqe) (s : StatsCollector) : StatsCollector :=
  if (0 <? cq_res c) && has_buffer c
  then add_bytes tid (cq_res c) (packets_of (sv_cfg env) (cq_res c)) s else s.

Lemma multishot_data_ok b sessions c cs w :
  sv_inv sessions w -> cq_of (hist w) = c :: cs ->
  wp b (if (0 <? cq_res c) && has_flag (cq_flags c) IORING_CQE_F_BUFFER then
          modify_stats (add_bytes tid (cq_res c) (packets_of (sv_cfg env) (cq_res c)));;
          return_recv_buffer (sv_engine env) (buffer_id c)
        else mret tt)
    (fun _ w1 => served c cs [] w w1 /\ stats w1 = data_counted c (stats w)) w.
Proof.
  intros I Hcq. pose proof (v_close _ _ I).
  pose proof (v_bufs _ _ I) as Hb. rewrite Hcq in Hb. destruct Hb as [Hbc _].
  change (has_flag (cq_flags c) IORING_CQE_F_BUFFER) with (has_buffer c).
  unfold served, data_counted. destruct (has_buffer c) eqn:Hhb.
  - destruct (Hbc eq_refl) as [Hpos _]. rewrite (proj2 (Z.ltb_lt _ _) Hpos). cbn [andb]. do 2 wp_step.
    wp_use (return_recv_buffer_spec _ _ _ _) as (Hl & _ & Hm & _ & Hh & Hn & Hs & Ho & Hc & Hf & Hd & _ & Hcl).
    cbn [hist with_stats heap next_obj stats] in *. split_and!; first [congruence | by rewrite Hl | auto].
  - rewrite andb_false_r. wp_step. by split_and!.
Qed.

Lemma server_on_multishot_ok b sessions c cs fd w :
  sv_inv sessions w -> cq_of (hist w) = c :: cs ->
  sessions !! fd = Some (ms_session fd (cq_user_data c)) ->
  wp b (server_on_multishot env (recv_context tid fd) c sessions)
    (fun sessions' => wp b cqe_seen
       (fun _ w2 => sv_inv sessions' w2 /\ cq_of (hist w2) = cs)) w.
Proof.
  intros I Hcq Hfd. pose proof (v_ctx _ _ I) as Hctx.
  assert (Hne : cq_user_data c <> actx).
  { destruct (proj2 Hctx fd _ Hfd) as [(p & [= <-] & Hl)|(_ & ? & _)]; [|done]. intros Heq.
    rewrite Heq in Hl. by pose proof (live_fun _ _ _ _ (proj1 Hctx) Hl). }
  unfold server_on_multishot. wp_step.
  eapply wp_mono; [by apply (multishot_data_ok b sessions c cs)|]. set (s1 := data_counted c (stats w)).
  cbn beta. intros _ w1 [Hsv Hs1].
  assert (Hop : forall new, (forall x, x ∈ new -> sq_op x = OP_RECV_MULTISHOT) ->
    account (stats w) (op_of (new ++ owed_of (hist w)) c, c) =
    if is_final c && negb (cq_res c =? - ENOBUFS) && (cq_res c <? 0) then add_error tid s1 else s1).
  { intros new Hnew. destruct (sv_op (eq OP_RECV_MULTISHOT) _ _ _ new _ I Hcq) as (o & -> & <-); [|done].
    intros x [Hx|Hx]%elem_of_app Hu; [by rewrite Hnew|].
    by rewrite (req_recv _ _ _ _ _ _ x _ Hctx (v_req _ _ I x Hx) Hfd Hu). }
  pose proof (Hop [] ltac:(by intros x ?%elem_of_nil)) as Hacc. cbn [app] in Hacc.
  change (negb (has_flag (cq_flags c) IORING_CQE_F_MORE)) with (is_final c).
  destruct (is_final c) eqn:Hfin; cbn [andb] in Hacc, Hop.
  2: { wp_step. eapply (sv_go_on b sessions c cs []); try done; [by left|]. cbn [app]. by rewrite Hacc. }
  destruct (cq_res c =? - ENOBUFS) eqn:Hnb; cbn [andb negb] in Hacc, Hop.
  { wp_step. eapply wp_mono; [apply (wp_only keeps), prep_queues; apply only_prep|].
    cbn beta. intros ok w2 [[(Hh2&Hn2&Hs2&Ho2&Hcq2&Hf2&Hl2&Hd2) _] [Hm2 Hc2]%extends_keeps]. wp_step.
    set (sq := recv_multishot_sqe _ _ _ _) in Ho2.
    assert (Hsq : sq_user_data sq = cq_user_data c /\ sq_op sq = OP_RECV_MULTISHOT)
      by (unfold sq, recv_multishot_sqe, fixed_file_flag; destruct (sv_udp_fixed_file env && _); by split).
    destruct Hsv as (Hh1 & Hn1 & Ho1 & Hcq1 & Hf1 & Hd1 & Hl1 & Hm1 & Hc1).
    eapply (sv_go_on b sessions c cs (if ok then [sq] else [])); try done.
    - destruct ok; [right|by left]. exists sq. split_and!; [done|apply Hsq| |by left].
      right. exists fd, (ms_session fd (cq_user_data c)). split; [done|]. left.
      split; [by rewrite (proj1 Hsq)|apply Hsq].
    - unfold served. rewrite Hl2. split_and!; try congruence; auto. by rewrite Ho2, Ho1.
    - rewrite Hs2, Hs1, Hop; [done|]. intros x. destruct ok; [|by intros ?%elem_of_nil].
      intros ->%list_elem_of_singleton. apply Hsq. }
  rewrite bool_decide_false by (by rewrite Htcp). wp_step.
  apply (wp_mono _ _ (fun _ w2 => hist w2 = hist w1 /\ heap w2 = heap w1 /\
    next_obj w2 = next_obj w1 /\ stats w2 = account (stats w) (op_of (owed_of (hist w)) c, c))).
  { rewrite Hacc, <- Hs1. unfold count_error. wp_steps; by split_and!. }
  cbn beta. intros _ w2 (Hw2 & Hh2 & Hn2 & Hs2). cbn [ctx_fd recv_context].
  unfold end_session. rewrite Hfd. unfold erase_session, destroy_session.
  cbn [contexts ms_session ms_ctx]. wp_steps.
  eapply sv_end; try done; cbn; rewrite ?Hw2, ?Hh2; done.
Qed.

(** The send of a context is queued again, if there is an entry. *)
Lemma send_again_ok b sessions c cs fd s ctx w w1 :
  sv_inv sessions w -> cq_of (hist w) = c :: cs ->
  sessions !! fd = Some s -> ms_ctx s = None -> cq_user_data c ∈ contexts s ->
  live (cq_user_data c) ctx w -> ctx_fd ctx = client_fd s -> cq_user_data c <> actx ->
  has_buffer c = false -> (forall fd', sessions !! fd' <> Some (ms_session fd' (cq_user_data c))) ->
  still w (with_stats (stats w) w1) ->
  (forall new, (forall x, x ∈ new -> send_req x) ->
     stats w1 = account (stats w) (op_of (new ++ owed_of (hist w)) c, c)) ->
  wp b (resubmit_send (sv_cfg env) (sv_engine env) false (cq_user_data c))
    (fun _ => wp b (mret tt)
       (fun _ => wp b cqe_seen (fun _ w2 => sv_inv sessions w2 /\ cq_of (hist w2) = cs))) w1.
Proof.
  intros I Hcq Hfd Hm Hin Hlive Hcfd Hne Hhb Hno (Hh&Hn&_&Hg&Hmm&Hc) Hs1.
  cbn in Hh, Hn, Hg, Hmm, Hc. pose proof (v_close _ _ I) as Hcl.
  eapply wp_mono; [apply (wp_only keeps); [apply only_resubmit_send|]|].
  { unfold resubmit_send. wp_step. eapply wp_load_ctx; [rewrite Hh; apply Hlive|].
    apply prep_send_any_sends. rewrite Hh. eexists. apply Hlive. }
  cbn beta. intros ok w2 [(x & Hx & Hxf & Hreq & (Hh2&Hn2&Hs2&Ho2&Hcq2&Hf2&Hl2&Hd2) & _)
    [Hm2 Hc2]%extends_keeps]. wp_step. rewrite Hg in *.
  eapply (sv_go_on b sessions c cs (if ok then [x] else [])); try done.
  - destruct ok; [right|by left]. exists x. split_and!; [done..| |by right].
    right. exists fd, s. split; [done|]. right. rewrite Hx, Hxf. by split_and!.
  - unfold served. rewrite Hhb, Hl2. split_and!; try congruence; auto.
  - rewrite Hs2. apply Hs1. intros y. destruct ok; [|by intros ?%elem_of_nil].
    by intros ->%list_elem_of_singleton.
Qed.

(** A send completion: counted, and the context's send queued again while the
    session has time left. *)
Lemma server_on_send_ok b sessions c cs fd s ctx w :
  sv_inv sessions w -> cq_of (hist w) = c :: cs ->
  sessions !! fd = Some s -> ms_ctx s = None -> cq_user_data c ∈ contexts s ->
  live (cq_user_data c) ctx w -> ctx_type ctx = SEND -> ctx_fd ctx = client_fd s ->
  wp b (server_on_send env ctx c sessions)
    (fun _ => wp b cqe_seen (fun _ w2 => sv_inv sessions w2 /\ cq_of (hist w2) = cs)) w.
Proof.
  intros I Hcq Hfd Hm Hin Hlive Hty Hcfd. pose proof (v_ctx _ _ I) as Hctx. pose proof (v_close _ _ I) as Hcl.
  assert (Hne : cq_user_data c <> actx).
  { intros Heq. rewrite Heq in Hlive. pose proof (live_fun _ _ _ _ (proj1 Hctx) Hlive) as <-. done. }
  assert (Hhb : has_buffer c = false).
  { eapply (v_plain _ _ I); [|done..]. rewrite Hcq. by constructor. }
  assert (Hno : forall fd', sessions !! fd' <> Some (ms_session fd' (cq_user_data c))).
  { intros fd' Hfd'. destruct (proj2 Hctx fd' _ Hfd') as [(p & [= <-] & Hl)|(_ & ? & _)]; [|done].
    by rewrite (live_fun _ _ _ _ Hlive Hl) in Hty. }
  (* what is counted *)
  set (acc := fun o => account (stats w) (Some o, c)).
  assert (Hacc : forall new, (forall x, x ∈ new -> send_req x) ->
    account (stats w) (op_of (new ++ owed_of (hist w)) c, c) = acc OP_SEND).
  { intros new Hnew. destruct (sv_op (fun o => is_send o = true) _ _ _ new _ I Hcq) as (o & -> & Ho).
    - intros x [Hx|Hx]%elem_of_app Hu; [by apply Hnew|].
      by apply (req_send _ _ _ _ _ _ _ x _ Hctx (v_req _ _ I x Hx) Hfd Hm Hin Hu).
    - by destruct o. }
  assert (Hend : forall w1, still w (with_stats (stats w) w1) -> stats w1 = acc OP_SEND ->
    wp b cqe_seen (fun _ w2 => sv_inv sessions w2 /\ cq_of (hist w2) = cs) w1).
  { intros w1 (Hh&Hn&_&Hg&Hmm&Hc) Hs. cbn in Hh, Hn, Hg, Hmm, Hc.
    eapply (sv_go_on b sessions c cs []); try done; [by left| |].
    - unfold served. rewrite Hhb, Hg. split_and!; auto.
    - rewrite Hacc; [done|]. by intros x ?%elem_of_nil. }
  assert (Hagain : forall (keep : bool) w1, still w (with_stats (stats w) w1) -> stats w1 = acc OP_SEND ->
    wp b (if keep then resubmit_send (sv_cfg env) (sv_engine env) false (cq_user_data c);; mret tt
          else mret tt)
      (fun _ => wp b cqe_seen (fun _ w2 => sv_inv sessions w2 /\ cq_of (hist w2) = cs)) w1).
  { intros keep w1 Hst Hs1. destruct keep; [|wp_step; by apply Hend].
    wp_step. eapply (send_again_ok b sessions c cs fd s ctx w); try done.
    intros new Hnew. by rewrite Hs1, Hacc. }
  unfold server_on_send. wp_step.
  apply (wp_mono _ _ (fun _ w1 => still w w1)).
  { destruct (sessions !! ctx_fd ctx) as [s'|]; wp_steps; by repeat split. }
  cbn beta. intros keep w1 Hst. pose proof Hst as (_&_&Hs&_).
  assert (Hst' : forall st, still w (with_stats (stats w) (with_stats st w1))).
  { intros st. destruct Hst as (?&?&?&?&?&?). by repeat split. }
  assert (Hs' : still w (with_stats (stats w) w1)) by (destruct w1; apply (Hst' s0)).
  unfold acc, server_account in Hend, Hagain. cbn [fst snd] in Hend, Hagain. rewrite <- Hs in Hend, Hagain.
  destruct (has_flag (cq_flags c) IORING_CQE_F_NOTIF); [wp_step; by apply Hend|].
  destruct (0 <? cq_res c); [do 2 wp_step; by apply Hagain|].
  destruct (res_again (cq_res c)); [by apply Hagain|].
  destruct (cq_res c <? 0); wp_step; by apply Hend.
Qed.

Lemma tune_still b fd zc rp udp seg w : wp b (tune_socket fd zc rp udp seg) (fun _ => still w) w.
Proof. unfold tune_socket. wp_steps; by repeat split. Qed.

Lemma set_nonblocking_still b fd w : wp b (set_nonblocking fd) (fun _ => still w) w.
Proof. unfold set_nonblocking. wp_steps; by repeat split. Qed.

(** ** New sessions *)

(** Objects were added, none removed. *)
Definition heap_grows (w w' : World) : Prop :=
  next_obj w <= next_obj w' /\
  forall n, n < next_obj w -> heap w' !! ptr_of n = heap w !! ptr_of n.

Lemma heap_grows_new o w w' :
  heap w' = <[ptr_of (next_obj w) := o]> (heap w) -> next_obj w' = next_obj w + 1 -> heap_grows w w'.
Proof.
  intros Hh Hn. split; [lia|]. intros n Hlt. rewrite Hh, lookup_insert_ne; [done|]. unfold ptr_of. lia.
Qed.

Lemma heap_grows_trans w1 w2 w3 : heap_grows w1 w2 -> heap_grows w2 w3 -> heap_grows w1 w3.
Proof.
  intros [H1 H2] [H3 H4]. split; [lia|]. intros n Hn. rewrite H4 by lia. by apply H2.
Qed.

Lemma live_grows u c w w' : heap_grows w w' -> live u c w -> live u c w'.
Proof.
  intros [Hn Hh] [Hl (n & -> & Hlt)]. split; [by rewrite Hh by lia|]. exists n. split; [done|lia].
Qed.

Lemma sess_ok_grows fd s w w' : heap_grows w w' -> sess_ok tid fd s w -> sess_ok tid fd s w'.
Proof.
  intros Hg [(p & -> & Hl)|(Hr & Hm & Hcf & Hc)]; [left|right].
  - exists p. split; [done|]. by eapply live_grows.
  - split_and!; [done..|]. intros u Hu. destruct (Hc u Hu) as (c & Hl & Ht & Hf). exists c.
    split; [|done]. by eapply live_grows.
Qed.

(** The contexts of a session. *)
Definition owns (s : ClientSession) (u : Z) : Prop := ms_ctx s = Some u \/ u ∈ contexts s.

(** [w'] is [w] after the session [s] was made and [new] queued for it; [l] are the
    buffers allocated before. *)
Record made (l : list Z) (fd : Z) (s : ClientSession) (new : list sqe) (w w' : World) : Prop := {
  n_grows : heap_grows w w';
  n_ok : sess_ok tid fd s w';
  n_fresh : forall u, owns s u -> exists n, u = ptr_of n /\ next_obj w <= n;
  n_req : forall x, x ∈ new -> req_of s x;
  n_once : forall p, ms_ctx s = Some p -> (times p (udata new) <= 1)%nat;
  n_owed : owed_of (hist w') = new ++ owed_of (hist w);
  n_cq : cq_of (hist w') = cq_of (hist w);
  n_fds : fds_of (hist w') = fds_of (hist w);
  n_bufs : bufs_of (hist w') = bufs_of (hist w);
  n_dealt : dealt_of (hist w') = dealt_of (hist w);
  n_stats : stats w' = stats w;
  n_mem : holds m0 (l ++ buffers s) w';
  n_close : closes_ok (hist w) -> closes_ok (hist w')
}.

(** The loop of [arm_pool] after some buffers: a session in the making. *)
Definition pool_session (fd d : Z) (pools : list Z * list Z) : ClientSession :=
  mkSession fd true d pools.1 pools.2 None.

Lemma made_start l fd d w : holds m0 l w -> made l fd (pool_session fd d ([], [])) [] w w.
Proof.
  intros Hl. constructor; cbn; try done.
  - right. split_and!; try done. by intros u ?%elem_of_nil.
  - intros u [[=]|?%elem_of_nil]. done.
  - by intros x ?%elem_of_nil.
  - by rewrite app_nil_r.
Qed.

Lemma made_step l fd d pools new buf ctx x (ok : bool) w w1 w2 w3 :
  made l fd (pool_session fd d pools) new w w1 ->
  heap_grows w1 w2 -> (exists c, live ctx c w2 /\ ctx_type c = SEND /\ ctx_fd c = fd) ->
  ctx = ptr_of (next_obj w1) -> ghost_of (hist w2) = ghost_of (hist w1) -> stats w2 = stats w1 ->
  holds m0 ((l ++ pools.1) ++ [buf]) w2 ->
  (closes_ok (hist w1) -> closes_ok (hist w2)) ->
  sq_user_data x = ctx -> sq_fd x = fd -> send_req x -> queued (if ok then [x] else []) w2 w3 ->
  mem_of (hist w3) = mem_of (hist w2) -> (closes_ok (hist w2) -> closes_ok (hist w3)) ->
  made l fd (pool_session fd d (pools.1 ++ [buf], pools.2 ++ [ctx]))
    ((if ok then [x] else []) ++ new) w w3.
Proof.
  intros M Hg (c & Hl & Ht & Hcf) Hctx Hg2 Hs2 Hm2 Hc2 Hx Hxf Hreq (Hh3&Hn3&Hs3&Ho3&Hcq3&Hf3&Hb3&Hd3) Hm3 Hc3.
  assert (Hg3 : heap_grows w2 w3) by (split; [lia|]; intros; by rewrite Hh3).
  assert (Hg13 : heap_grows w1 w3) by (by eapply heap_grows_trans).
  destruct M as [Mg Mok Mf Mr _ Mow Mcq Mfd Mb Md Ms Mm Mc].
  constructor; cbn [ms_ctx contexts buffers pool_session fst snd];
    rewrite ?Ho3, ?Hcq3, ?Hf3, ?Hb3, ?Hd3, ?Hs3, ?Hg2, ?Hs2, ?Mow; auto.
  - by eapply heap_grows_trans.
  - right. split_and!; try done. cbn. intros u [Hu|Hu]%elem_of_app.
    + destruct Mok as [(p & [=] & _)|(_ & _ & _ & Mok)]. destruct (Mok u Hu) as (c' & Hl' & Ht').
      exists c'. split; [|done]. by apply (live_grows _ _ w1).
    + apply list_elem_of_singleton in Hu as ->. exists c. split; [|done]. by apply (live_grows _ _ w2).
  - intros u [[=]|Hu]. cbn in Hu. apply elem_of_app in Hu as [Hu|Hu]; [apply Mf; by right|].
    apply list_elem_of_singleton in Hu as ->. exists (next_obj w1). split; [done|]. apply Mg.
  - intros y [Hy|Hy]%elem_of_app.
    + destruct ok; [|by apply elem_of_nil in Hy]. apply list_elem_of_singleton in Hy as ->.
      right. cbn. split_and!; [done| |done..]. rewrite Hx. apply elem_of_app. right. by constructor.
    + destruct (Mr y Hy) as [[[=] _]|(_ & Hu & Hr)]. right. cbn in *. split_and!; [done| |apply Hr..].
      apply elem_of_app. by left.
  - done.
  - by rewrite app_assoc.
  - rewrite app_assoc. by eapply holds_same.
Qed.

Lemma arm_pool_spec b l fd d w :
  holds m0 l w -> 0 < next_obj w ->
  wp b (arm_pool env SEND fd)
    (fun pools w' => exists new, made l fd (pool_session fd d pools) new w w') w.
Proof.
  intros Hl Hpos. unfold arm_pool.
  apply (wp_for_each b _ (fun _ pools w' => exists new, made l fd (pool_session fd d pools) new w w')).
  - intros i rest pools w1 [new M]. wp_step.
    eapply wp_mono; [apply new_buffer_ctx_spec, (n_mem _ _ _ _ _ _ M)|]. cbn beta.
    intros [buf ctx] w2 (Hmm & Hg2 & Hs2 & _ & Hc2 & Hp & Hn & Hh). cbn [fst snd] in *.
    assert (Hgr : heap_grows w1 w2) by (rewrite Hp in Hh; by eapply heap_grows_new).
    wp_step. eapply wp_mono; [apply (wp_only keeps); [apply only_prep_send_any|]; apply prep_send_any_sends|].
    { rewrite Hh. eexists. apply lookup_insert_eq. }
    cbn beta. intros ok w3 [(x & Hx & Hxf & Hreq & Hq & _) [Hm3 Hc3]%extends_keeps]. wp_step. eexists.
    eapply (made_step _ _ _ _ _ _ _ x ok); try done. eexists. split; [split|].
    + rewrite Hh. apply lookup_insert_eq.
    + exists (next_obj w1). split; [done|]. pose proof (proj1 (n_grows _ _ _ _ _ _ M)). lia.
    + done.
  - done.
  - exists []. by apply made_start.
Qed.

Definition the_accept_sqe : sqe :=
  accept_sqe (sv_listen_fd env) (address_of_local "client_addr") (address_of_local "addr_len") actx.

Lemma new_session_spec b l fd rev d w :
  holds m0 l w -> 0 < next_obj w ->
  wp b (new_session env fd rev d) (fun s w' => exists new, made l fd s new w w') w.
Proof.
  intros Hl Hpos. unfold new_session. rewrite Hms. destruct rev.
  - do 2 wp_step. set (w1 := log _ w). wp_step.
    eapply wp_mono; [by apply (arm_pool_spec b l fd (answer (hist w) SteadyNow + ns_of_sec d))|]. cbn beta. intros pools w' [new M]. wp_step.
    exists new. destruct M as [M1 M2 M3 M4 M5 M6 M7 M8 M9 M10 M11 M12 M13]. constructor; try done.
    intros ?. by apply M13.
  - do 2 wp_step. set (w1 := with_heap _ _ w). set (p := ptr_of (next_obj w)). wp_step.
    eapply wp_mono; [apply (wp_only keeps), prep_queues; apply only_prep|].
    cbn beta. intros ok w2 [[(Hh2&Hn2&Hs2&Ho2&Hcq2&Hf2&Hl2&Hd2) _] [Hm2 Hc2]%extends_keeps]. wp_step.
    eexists. assert (Hg : heap_grows w w2).
    { eapply heap_grows_new; [rewrite Hh2; done|by rewrite Hn2]. }
    constructor; try done; cbn [ms_ctx contexts buffers].
    + left. exists p. split; [done|]. split; [rewrite Hh2; apply lookup_insert_eq|].
      exists (next_obj w). split; [done|]. rewrite Hn2. cbn. lia.
    + intros u [[= <-]|?%elem_of_nil]; [|done]. exists (next_obj w). split; [done|lia].
    + intros x Hx. left. destruct ok; [|by apply elem_of_nil in Hx].
      by apply list_elem_of_singleton in Hx as ->.
    + intros q [= <-]. destruct ok; cbn [udata fmap list_fmap];
        rewrite ?times_cons, times_nil; [destruct (_ =? _)|]; lia.
    + rewrite app_nil_r. by eapply holds_same.
Qed.

(** ** Accept completions *)

(** An accept completion is final, carries no buffer and is not counted. *)
Lemma sv_accept_settled sessions c cs new w :
  sv_inv sessions w -> cq_of (hist w) = c :: cs -> cq_user_data c = actx ->
  (forall x, x ∈ new -> sq_user_data x = actx -> sq_op x = OP_ACCEPT) ->
  is_final c = true /\ has_buffer c = false /\
  forall s, account s (op_of (new ++ owed_of (hist w)) c, c) = s.
Proof.
  intros I Hcq Hc Hnew. destruct (v_final _ _ I c) as [Hf Hb]; [rewrite Hcq; by constructor|done|].
  split_and!; try done. intros s.
  destruct (sv_op (eq OP_ACCEPT) _ _ _ new _ I Hcq) as (o & -> & <-); [|done].
  rewrite Hc. intros x [Hx|Hx]%elem_of_app Hu; symmetry; [by apply Hnew|].
  by apply (req_op_for _ _ _ _ x _ (v_ctx _ _ I)); [apply (v_req _ _ I)|].
Qed.

(** No receive context is the accept context. *)
Lemma recv_not_accept sessions fd p w :
  ctxs_ok sessions w -> sessions !! fd = Some (ms_session fd p) -> p <> actx.
Proof.
  intros [Ha Hs] Hfd ->. destruct (Hs fd _ Hfd) as [(p & [= <-] & Hl)|(_ & ? & _)]; [|done].
  by pose proof (live_fun _ _ _ _ Ha Hl).
Qed.

(** A new accept, or none, adds to the requests of no receive context. *)
Lemma times_accept p (again : bool) :
  p <> actx -> times p (udata (if again then [the_accept_sqe] else [])) = 0%nat.
Proof.
  intros Hne. apply times_none. destruct again; [|by intros ?%elem_of_nil].
  by intros ->%list_elem_of_singleton.
Qed.

Lemma sv_settled_times sessions c cs fd p w :
  sv_inv sessions w -> cq_of (hist w) = c :: cs -> sessions !! fd = Some (ms_session fd p) ->
  (times p (udata (settle c (owed_of (hist w)))) <= 1)%nat.
Proof.
  intros I Hcq Hfd. etrans; [|apply (v_once _ _ I fd p Hfd)]. apply times_sub.
  by apply sublist_submseteq, fmap_sublist, settle_sublist.
Qed.

(** No new session: the descriptor, if there was one, is closed. *)
Lemma sv_accept_none b sessions c cs (again : bool) w w2 :
  sv_inv sessions w -> cq_of (hist w) = c :: cs -> cq_user_data c = actx ->
  heap w2 = heap w -> next_obj w2 = next_obj w -> stats w2 = stats w ->
  owed_of (hist w2) = (if again then [the_accept_sqe] else []) ++ owed_of (hist w) ->
  cq_of (hist w2) = cq_of (hist w) -> dealt_of (hist w2) = dealt_of (hist w) ->
  bufs_of (hist w2) = bufs_of (hist w) -> mem_of (hist w2) = mem_of (hist w) ->
  closes_ok (hist w2) ->
  fds_of (hist w2) =
    (if 0 <=? cq_res c then fds_of (hist w) ∖ {[cq_res c]} else fds_of (hist w)) ->
  wp b cqe_seen (fun _ w3 => sv_inv sessions w3 /\ cq_of (hist w3) = cs) w2.
Proof.
  intros I Hcq Hc Hh Hn Hs Ho Hcq2 Hd Hb Hm Hcl Hf.
  set (new := if again then [the_accept_sqe] else []) in *.
  assert (Hnew : forall x, x ∈ new -> x = the_accept_sqe).
  { subst new. intros x. destruct again; [apply list_elem_of_singleton|by intros ?%elem_of_nil]. }
  destruct (sv_accept_settled _ _ _ new _ I Hcq Hc) as (_ & Hhb & Hacc); [by intros x ->%Hnew|].
  pose proof (v_fds _ _ I) as HF. pose proof (v_disj _ _ I) as Hdis.
  pose proof (v_new _ _ I) as Hnw. pose proof (v_arr _ _ I) as Harr.
  rewrite Hcq, (arrivals_at_accept _ _ _ Hc) in HF, Hnw, Harr.
  eapply (sv_consume b sessions sessions c cs new w w2); try done; try congruence.
  - intros x [->%Hnew|Hx]%elem_of_app _; [by left|by apply (v_req _ _ I)].
  - intros fd p Hfd. rewrite times_app. unfold new.
    rewrite (times_accept p again) by (by eapply recv_not_accept; [apply (v_ctx _ _ I)|]).
    by eapply sv_settled_times.
  - intros c' fd s Hc'. apply (v_plain _ _ I). rewrite Hcq. by constructor.
  - eapply contexts_ok_same; [done..|apply (v_ctx _ _ I)].
  - rewrite Hf, HF. destruct (0 <=? cq_res c); [|done]. apply NoDup_cons in Harr as [Hni2 _].
    destruct (Hnw (cq_res c) ltac:(by constructor)). cbn. set_solver.
  - intros fd Hfd. destruct (0 <=? cq_res c); by apply Hnw; try constructor.
  - by rewrite Hhb, Hb.
  - eapply holds_same; [done|apply (v_mem _ _ I)].
Qed.

(** What a session in the making owns is not pending yet. *)
Lemma made_not_pending l fd s new sessions u w w1 :
  sv_inv sessions w -> made l fd s new w w1 -> owns s u -> u ∉ udata (owed_of (hist w)).
Proof.
  intros I M Hu (x & -> & Hx)%list_elem_of_fmap.
  destruct (n_fresh _ _ _ _ _ _ M _ Hu) as (n & Hn & Hle).
  by apply (req_fresh _ _ _ _ x n _ (v_ctx _ _ I) (v_req _ _ I x Hx)).
Qed.

(** Nor is it the address of an object that was there. *)
Lemma made_not_live l fd s new u c w w1 : made l fd s new w w1 -> owns s u -> live u c w -> False.
Proof.
  intros M Hu [_ (k & Hk & Hlt)]. destruct (n_fresh _ _ _ _ _ _ M _ Hu) as (n & Hn & Hle).
  unfold ptr_of in *. lia.
Qed.

Lemma made_requests l fd s new x w w1 : made l fd s new w w1 -> x ∈ new -> owns s (sq_user_data x).
Proof.
  intros M Hx. destruct (n_req _ _ _ _ _ _ M x Hx) as [[H _]|(_ & H & _)]; [by left|by right].
Qed.

Lemma made_times l fd s new sessions fd' p w w1 :
  sv_inv sessions w -> made l fd s new w w1 -> sessions !! fd' = Some (ms_session fd' p) ->
  times p (udata new) = 0%nat.
Proof.
  intros I M Hfd'. apply times_none. intros (x & -> & Hx)%list_elem_of_fmap.
  destruct (proj2 (v_ctx _ _ I) fd' _ Hfd') as [(p & [= Hp] & Hl)|(_ & ? & _)]; [|done].
  rewrite <- Hp in Hl. by apply (made_not_live _ _ _ _ _ _ _ _ M (made_requests _ _ _ _ _ _ _ M Hx) Hl).
Qed.

(** A new session. *)
Lemma sv_accept_new b sessions c cs (again : bool) s new w w1 w2 :
  let fd := cq_res c in
  sv_inv sessions w -> cq_of (hist w) = c :: cs -> cq_user_data c = actx -> 0 <= fd ->
  made (session_bufs sessions) fd s new w w1 ->
  queued (if again then [the_accept_sqe] else []) w1 w2 -> mem_of (hist w2) = mem_of (hist w1) ->
  closes_ok (hist w2) ->
  wp b cqe_seen (fun _ w3 => sv_inv (<[fd := s]> sessions) w3 /\ cq_of (hist w3) = cs) w2.
Proof.
  cbn zeta. intros I Hcq Hc Hpos M (Hh & Hn & Hs & Ho & Hcq2 & Hf & Hb & Hd) Hm Hcl.
  set (acc := if again then [the_accept_sqe] else []) in *.
  pose proof (v_fds _ _ I) as HF. pose proof (v_disj _ _ I) as Hdis.
  pose proof (v_new _ _ I) as Hnw. pose proof (v_arr _ _ I) as Harr. pose proof (v_ctx _ _ I) as Hctx.
  rewrite Hcq, (arrivals_at_accept _ _ _ Hc), (proj2 (Z.leb_le _ _) Hpos) in HF, Hnw, Harr.
  set (fd := cq_res c) in *. apply NoDup_cons in Harr as [Hni2 Harr].
  destruct (Hnw fd ltac:(by constructor)) as [HnF HnS].
  assert (Hnone : sessions !! fd = None) by (by apply not_elem_of_dom).
  assert (Hacc1 : forall x, x ∈ acc -> x = the_accept_sqe).
  { subst acc. intros x. destruct again; [apply list_elem_of_singleton|by intros ?%elem_of_nil]. }
  destruct (sv_accept_settled _ _ _ (acc ++ new) _ I Hcq Hc) as (_ & Hhb & Hcount).
  { intros x [->%Hacc1|Hx]%elem_of_app Hu; [done|].
    exfalso. eapply (made_not_live _ _ _ _ actx); [exact M| |apply Hctx].
    rewrite <- Hu. by eapply made_requests. }
  assert (Hgr : heap_grows w w2).
  { destruct (n_grows _ _ _ _ _ _ M) as [H1 H2]. split; [lia|]. intros k Hk. rewrite Hh. by apply H2. }
  rewrite (n_owed _ _ _ _ _ _ M), (n_cq _ _ _ _ _ _ M), (n_fds _ _ _ _ _ _ M), (n_bufs _ _ _ _ _ _ M),
    (n_dealt _ _ _ _ _ _ M), (n_stats _ _ _ _ _ _ M) in *.
  eapply (sv_consume b sessions _ c cs (acc ++ new) w w2); try done; try congruence.
  - by rewrite Ho, app_assoc.
  - intros x [[->%Hacc1|Hx]%elem_of_app|Hx]%elem_of_app _; [by left| |].
    + right. exists fd, s. rewrite lookup_insert_eq. split; [done|]. by apply (n_req _ _ _ _ _ _ M).
    + destruct (v_req _ _ I x Hx) as [?|(fd' & s' & Hs' & Hr)]; [by left|]. right. exists fd', s'.
      rewrite lookup_insert_ne by (by intros <-; congruence). done.
  - intros fd' p Hfd'. unfold udata at 1. rewrite fmap_app, !times_app.
    fold (udata acc) (udata new). apply lookup_insert_Some in Hfd' as [[<- ->]|[Hne' Hfd']].
    + assert (Hp : owns (ms_session fd p) p) by by left.
      unfold acc. rewrite times_accept, (times_none p (udata (settle _ _))).
      * pose proof (n_once _ _ _ _ _ _ M p eq_refl). lia.
      * intros Hin. eapply (made_not_pending _ _ _ _ _ _ _ _ I M Hp).
        eapply elem_of_submseteq; [exact Hin|]. by apply sublist_submseteq, fmap_sublist, settle_sublist.
      * intros ->. apply (made_not_live _ _ _ _ _ _ _ _ M Hp (proj1 Hctx)).
    + unfold acc. rewrite times_accept by (by eapply recv_not_accept).
      rewrite (made_times _ _ _ _ _ _ _ _ _ I M Hfd'). by eapply sv_settled_times.
  - intros c' fd' s' Hc' Hfd' Hms' Hin. apply lookup_insert_Some in Hfd' as [[<- ->]|[Hne' Hfd']].
    + destruct (made_not_pending _ _ _ _ _ (cq_user_data c') _ _ I M ltac:(by right)).
      eapply cqes_ok_elem; [apply (v_ring _ _ I)|]. rewrite Hcq. by constructor.
    + eapply (v_plain _ _ I); [|done..]. rewrite Hcq. by constructor.
  - split; [eapply live_grows; [exact Hgr|apply Hctx]|]. intros fd' s' [[<- <-]|[_ Hs']]%lookup_insert_Some.
    + pose proof (n_ok _ _ _ _ _ _ M) as Hok. unfold sess_ok, live in *. by rewrite Hh, Hn.
    + eapply sess_ok_grows; [exact Hgr|]. by apply Hctx.
  - rewrite Hf, HF, dom_insert_L. cbn. set_solver.
  - rewrite dom_insert_L. set_solver.
  - intros fd' Hfd'. rewrite dom_insert_L. destruct (Hnw fd' ltac:(by constructor 2)). set_solver.
  - by rewrite Ho, app_assoc, Hcount.
  - by rewrite Hhb, Hb.
  - eapply holds_same; [done|]. eapply holds_perm; [|apply (n_mem _ _ _ _ _ _ M)].
    rewrite session_bufs_insert by done. apply Permutation_app_comm.
Qed.
(** The new accept request, or none when the queue is full. *)
Lemma prep_accept_spec b w :
  wp b (prep_accept (sv_listen_fd env) (address_of_local "client_addr")
          (address_of_local "addr_len") actx)
    (fun ok w' => queued (if ok then [the_accept_sqe] else []) w w' /\
                  mem_of (hist w') = mem_of (hist w) /\
                  (closes_ok (hist w) -> closes_ok (hist w'))) w.
Proof.
  eapply wp_mono; [apply (wp_only keeps), prep_queues; apply only_prep|].
  cbn beta. by intros ok w' [[Hq _] [Hm Hc]%extends_keeps].
Qed.

Lemma server_on_accept_ok b sessions c cs w :
  recv_fuelled b (sv_fuel env) ->
  sv_inv sessions w -> cq_of (hist w) = c :: cs -> cq_user_data c = actx ->
  wp b (server_on_accept env c sessions)
    (fun sessions' => wp b cqe_seen
       (fun _ w2 => sv_inv sessions' w2 /\ cq_of (hist w2) = cs)) w.
Proof.
  intros Hfuel I Hcq Hc. unfold server_on_accept. rewrite Htcp. wp_step.
  destruct (Z.leb_spec 0 (cq_res c)) as [Hpos|Hneg].
  2: { wp_step. wp_step. wp_use (prep_accept_spec _ _) as [(?&?&?&?&?&Hf&?&?) [? Hc2]]. wp_step.
       eapply (sv_accept_none _ _ _ _ a); try done; [by apply Hc2, (v_close _ _ I)|].
       by rewrite (proj2 (Z.leb_gt _ _) Hneg), Hf. }
  wp_step. wp_use (tune_still _ _ _ _ _ _ _) as H1. wp_step.
  rewrite bool_decide_true by done.
  wp_use (recv_handshake_still _ _ _ _ Hfuel) as H2.
  rename w' into w1, w'0 into w2, a0 into hs. assert (Hst := still_trans _ _ _ H1 H2).
  destruct hs as [[rev d]|].
  - wp_step. wp_use (set_nonblocking_still _ _ _) as H3. rename w' into w3.
    assert (Hst3 := still_trans _ _ _ Hst H3). pose proof (sv_inv_still _ _ _ Hst3 I) as I3.
    assert (Hcq3 : cq_of (hist w3) = c :: cs) by (destruct Hst3 as (_&_&_&->&_); done).
    wp_step. eapply wp_mono.
    { apply (new_session_spec b (session_bufs sessions)); [apply (v_mem _ _ I3)|].
      destruct (proj1 (v_ctx _ _ I3)) as [_ (n & _ & ?)]. lia. }
    cbn beta. intros s w4 [new Hmade]. unfold assign_session.
    assert (Hnone : sessions !! cq_res c = None).
    { apply not_elem_of_dom, (v_new _ _ I). rewrite Hcq, (arrivals_at_accept _ _ _ Hc).
      rewrite (proj2 (Z.leb_le _ _) Hpos). by constructor. }
    rewrite Hnone. do 3 wp_step. wp_step.
    wp_use (prep_accept_spec _ _) as [Hq [Hm Hcl]]. wp_step.
    eapply sv_accept_new; try done.
    apply Hcl, (n_close _ _ _ _ _ _ Hmade), (v_close _ _ I3).
  - pose proof (sv_inv_still _ _ _ Hst I) as I2. destruct Hst as (_&_&_&Hg&_&_).
    do 3 wp_step. wp_step. wp_use (prep_accept_spec _ _) as [(?&?&?&Ho&?&Hf&Hl&?) [Hm3 Hc3]]. wp_step.
    ghost_simpl. ledger_simpl.
    eapply (sv_accept_none _ _ _ _ _ w2); try done; try congruence.
    + apply Hc3. split; [|apply (v_close _ _ I2)].
      rewrite (v_fds _ _ I2), Hg, Hcq, (arrivals_at_accept _ _ _ Hc).
      rewrite (proj2 (Z.leb_le _ _) Hpos). cbn. set_solver.
    + by rewrite (proj2 (Z.leb_le _ _) Hpos).
Qed.

Lemma server_on_cqe_ok b sessions c cs w :
  recv_fuelled b (sv_fuel env) -> sv_inv sessions w -> cq_of (hist w) = c :: cs ->
  wp b (server_on_cqe env c sessions)
    (fun sessions' w' => sv_inv sessions' w' /\ cq_of (hist w') = cs) w.
Proof.
  intros Hfuel I Hcq. destruct (sv_head _ _ _ _ I Hcq) as (_ & _ & Hnz & x & _ & Hu & Hreq).
  unfold server_on_cqe. rewrite (proj2 (Z.eqb_neq _ 0) Hnz).
  assert (Hend : forall sessions' w1,
    wp b cqe_seen (fun _ w2 => sv_inv sessions' w2 /\ cq_of (hist w2) = cs) w1 ->
    wp b (cqe_seen;; mret sessions') (fun s w' => sv_inv s w' /\ cq_of (hist w') = cs) w1).
  { intros sessions' w1 H. wp_step. eapply wp_mono; [exact H|]. cbn beta. intros _ w2 H2. by wp_step. }
  pose proof (v_ctx _ _ I) as Hctx. rewrite <- Hu in *. wp_step.
  destruct Hreq as [[Hc _]|(fd & s & Hfd & Hx)].
  - eapply wp_load_ctx; [rewrite Hc; apply Hctx|]. cbn [ctx_type accept_context]. wp_step.
    eapply wp_mono; [eapply server_on_accept_ok; try done; congruence|]. cbn beta.
    intros sessions' w1. apply Hend.
  - destruct (proj2 Hctx fd s Hfd) as [(p & -> & Hl)|(_ & Hm & Hcf & Hlive)];
      destruct Hx as [[Hp _]|(? & Hin & _)]; try done; try congruence.
    + injection Hp as ->. eapply wp_load_ctx; [apply Hl|]. cbn [ctx_type recv_context]. rewrite Hms. wp_step.
      eapply wp_mono; [eapply server_on_multishot_ok; try done; by rewrite <- Hu|].
      cbn beta. intros sessions' w1. apply Hend.
    + destruct (Hlive _ Hin) as (ctx & Hl & Ht & Hcfd).
      eapply wp_load_ctx; [apply Hl|]. rewrite Ht. do 2 wp_step.
      eapply wp_mono; [eapply (server_on_send_ok b sessions c cs fd s); try done; try congruence|].
      cbn beta. intros _ w1 H1. wp_step. by apply Hend.
Qed.

(** ** The sweep *)

(** A session without sends in flight is closed: nothing points at its contexts. *)
Lemma sv_drop sessions fd s r w w1 :
  sv_inv sessions w -> sessions !! fd = Some s -> is_reverse s = true ->
  sends_pending fd (hist w) = false ->
  (forall u, u ∉ contexts s -> heap w1 !! u = heap w !! u) -> next_obj w1 = next_obj w ->
  stats w1 = stats w -> ghost_of (hist w1) = ghost_step (Ev (Close fd) r) (ghost_of (hist w)) ->
  holds m0 (session_bufs (delete fd sessions)) w1 -> closes_ok (hist w1) ->
  sv_inv (delete fd sessions) w1.
Proof.
  intros I Hfd Hrev Hno Hh Hn Hs Hg Hmem Hcl. pose proof (v_ctx _ _ I) as Hctx.
  destruct (proj2 Hctx fd s Hfd) as [(p & -> & _)|(_ & Hm & Hcf & Hc)]; [done|].
  assert (Hdom : fd ∈ dom sessions) by (by eapply elem_of_dom_2).
  pose proof (v_disj _ _ I) as Hdis. pose proof (v_fds _ _ I) as HF. pose proof (v_new _ _ I) as Hnew.
  assert (Hkeep : forall u ctx, live u ctx w -> (ctx_type ctx <> SEND \/ ctx_fd ctx <> fd) -> live u ctx w1).
  { intros u ctx Hl Hne. unfold live. rewrite Hn, Hh; [done|]. intros Hin.
    destruct (Hc u Hin) as (ctx' & Hl' & Ht & Hf). rewrite (live_fun _ _ _ _ Hl Hl') in Hne.
    by destruct Hne. }
  destruct I. unfold ring_ok in *.
  constructor; unfold ring_ok; rewrite ?Hg, ?Hs; cbn [ghost_step owed cq fds bufs dealt]; try done.
  - intros x Hx. destruct (v_req0 x Hx) as [?|(fd' & s' & Hs' & Hreq)]; [by left|]. right.
    exists fd', s'. split; [|done]. apply lookup_delete_Some. split; [|done]. intros <-.
    rewrite Hfd in Hs'. injection Hs' as <-. destruct Hreq as [[? _]|(_ & _ & Hxf & Hsend & _)]; [congruence|].
    assert (Hp : sends_pending fd (hist w) = true); [|congruence].
    apply existsb_exists. exists x. split; [by apply list_elem_of_In|].
    by rewrite Hsend, Hxf, Hcf, Z.eqb_refl.
  - intros fd' p [_ Hs']%lookup_delete_Some. by eapply v_once0.
  - intros c fd' s' Hin [_ Hs']%lookup_delete_Some. by eapply v_plain0.
  - split; [by apply Hkeep; [apply Hctx|left]|]. intros fd' s' [Hne Hs']%lookup_delete_Some.
    destruct (proj2 Hctx fd' s' Hs') as [(p & -> & Hl)|(Hr' & Hm' & Hcf' & Hc')]; [left|right].
    + exists p. split; [done|]. apply Hkeep; [done|by left].
    + split_and!; [done..|]. intros u Hu. destruct (Hc' u Hu) as (ctx & Hl & Ht & Hf).
      exists ctx. split; [|done]. apply Hkeep; [done|]. right. congruence.
  - rewrite HF, dom_delete_L. set_solver.
  - rewrite dom_delete_L. set_solver.
  - intros fd' Hfd'. rewrite dom_delete_L. destruct (Hnew fd' Hfd'). set_solver.
Qed.

(** One session of the sweep: it stays, goes, or had sends in flight. *)
Lemma sweep_one_ok b E now fd s sessions w :
  excused b E -> (forall t, swept t = true -> E t) ->
  sv_inv sessions w -> sweeping (hist w) = true -> sessions !! fd = Some s ->
  wp b (sweep_one now (fd, s) sessions)
    (fun s' w' => E (hist w') \/ sv_inv s' w' /\ sweeping (hist w') = true /\
       (s' = sessions \/ s' = delete fd sessions)) w.
Proof.
  intros HE Hsw I Hin Hfd. unfold sweep_one.
  destruct (is_reverse s && (deadline s <=? now)) eqn:Hexp; [|wp_step; right; by split_and!; [..|left]].
  apply andb_true_iff in Hexp as [Hrev _]. do 2 wp_step. set (w1 := log _ w).
  destruct (sends_pending fd (hist w)) eqn:Hp.
  { eapply wp_excused; [exact HE| |apply Hsw|by left].
    - unfold free_buffers, free_aligned_buffer, erase_session, destroy_session. by only_tac.
    - cbn. by rewrite Hin, Hp. }
  pose proof (v_mem _ _ I) as Hm. apply (holds_perm _ _ _ _ (session_bufs_delete _ _ _ Hfd)) in Hm.
  wp_step. eapply wp_mono; [apply (wp_only frees); [unfold free_buffers, free_aligned_buffer; by only_tac|]|].
  { apply (free_all_holds b m0 (buffers s) (session_bufs (delete fd sessions)) w1). by eapply holds_same. }
  cbn beta. intros _ w2 [[Hh2 (Hp2&Hn2&Hs2&Hg2&_&Hc2)] Hfr%extends_frees].
  unfold erase_session, destroy_session.
  destruct (proj2 (v_ctx _ _ I) fd s Hfd) as [(p & -> & _)|(_ & Hms' & _)]; [done|]. rewrite Hms'.
  do 2 wp_step. eapply wp_mono; [apply delete_all_heap|]. cbn beta. intros _ w3 (Hw3 & Hs3 & Hn3 & Hh3).
  do 2 wp_step. right. rewrite Hw3. split_and!; [|by rewrite Hfr|by right].
  eapply (sv_drop sessions fd s (answer (hist w) (Close fd)) w); try done.
  - intros u Hu. by rewrite Hh3, Hp2.
  - by rewrite Hn3, Hn2.
  - by rewrite Hs3, Hs2.
  - by rewrite Hw3, Hg2.
  - eapply holds_same; [|exact Hh2]. by rewrite Hw3.
  - rewrite Hw3. apply Hc2. split; [|apply (v_close _ _ I)]. rewrite (v_fds _ _ I).
    apply elem_of_dom_2 in Hfd. set_solver.
Qed.

Lemma sweep_sessions_ok b E sessions w :
  excused b E -> (forall t, swept t = true -> E t) -> sv_inv sessions w ->
  wp b (sweep_sessions sessions) (fun s w' => E (hist w') \/ sv_inv s w') w.
Proof.
  intros HE Hsw I. unfold sweep_sessions. wp_step; [wp_step; by right|]. do 2 wp_step.
  set (w1 := log _ w). assert (I1 : sv_inv sessions w1) by (eapply sv_inv_still; [..|exact I]; by repeat split).
  apply (wp_for_each b _ (fun rest s w' => E (hist w') \/
    (forall kv, kv ∈ rest -> s !! kv.1 = Some kv.2) /\ NoDup rest.*1 /\
    sv_inv s w' /\ sweeping (hist w') = true)).
  - intros [fd s] rest ss w2 [HB|(Hin & Hnd & I2 & Hs2)].
    { eapply wp_excused; [exact HE| |exact HB|by left]. apply only_sweep_one. }
    cbn in Hnd. apply NoDup_cons in Hnd as [Hni Hnd].
    eapply wp_mono; [apply (sweep_one_ok b E); try done; apply (Hin (fd, s)); by constructor|].
    cbn beta. intros s' w3 [?|(I3 & Hs3 & Hs')]; [by left|right]. split_and!; try done.
    intros kv Hkv. assert (Hkv' : ss !! kv.1 = Some kv.2) by (apply Hin; by constructor).
    destruct Hs' as [->| ->]; [done|]. rewrite lookup_delete_ne; [done|]. intros ->.
    apply Hni. by apply list_elem_of_fmap_2.
  - intros s w' [?|(_ & _ & ? & _)]; [by left|by right].
  - right. split_and!; try done; [|apply NoDup_fst_map_to_list].
    intros [fd s] Hin. by apply elem_of_map_to_list in Hin.
Qed.

(** ** One iteration *)

Lemma sv_reap sessions max batch w w' :
  sv_inv sessions w -> reaped max w batch w' -> mem_of (hist w') = mem_of (hist w) ->
  closes_ok (hist w') -> sv_inv sessions w'.
Proof.
  intros I Hr Hm Hcl. pose proof (reaped_ring_ok _ _ _ _ (v_ring _ _ I) Hr) as Hring'.
  destruct Hr as (Hh&Hn&Hs&Ho&Hl&Hd&_&Hcq&_&Hf). pose proof (v_ctx _ _ I) as Hctx.
  destruct (ring_answers (hist w) (v_ring _ _ I)) as [[new Hnew] Hok]. rewrite Hnew in Hcq.
  pose proof (accept_fresh (hist w)) as Hfr. pose proof (accept_single_shot (hist w)) as Hss.
  pose proof (unselected (hist w)) as Hus.
  cbn zeta in Hfr. rewrite Hnew, drop_app_length in Hfr, Hss, Hus.
  rewrite Hcq, drop_app_length in Hf. rewrite Hnew in Hok.
  assert (Hin : forall c, c ∈ new -> cq_user_data c ∈ udata (owed_of (hist w))).
  { intros c Hc. eapply cqes_ok_elem; [exact Hok|]. apply elem_of_app. by right. }
  assert (Hop : forall x, x ∈ owed_of (hist w) -> op_for actx x).
  { intros x Hx. eapply req_op_for; [exact Hctx|]. by apply (v_req _ _ I). }
  rewrite (accepted_for actx) in Hfr, Hf by done.
  destruct Hfr as [Hnd Hfresh]. pose proof (v_fds _ _ I) as HF.
  constructor; rewrite ?Ho, ?Hd, ?Hl, ?Hs, ?Hcq, ?arrivals_at_app; try done.
  - apply (v_req _ _ I).
  - apply (v_once _ _ I).
  - intros c [Hc|Hc]%elem_of_app Hu; [by apply (v_final _ _ I)|]. apply Hss; [done|].
    rewrite (is_accept_for actx) by auto. by apply Z.eqb_eq.
  - intros c fd s [Hc|Hc]%elem_of_app Hfd Hms' Hu; [by eapply (v_plain _ _ I)|].
    apply Hus; [done|]. intros x Hx Hxu.
    by apply (req_send _ _ _ _ _ _ _ x _ Hctx (v_req _ _ I x Hx) Hfd Hms' Hu Hxu).
  - by eapply contexts_ok_same.
  - rewrite Hf, HF, list_to_set_app_L. set_solver.
  - apply (v_disj _ _ I).
  - apply NoDup_app. split; [apply (v_arr _ _ I)|]. split; [|done].
    intros fd H1 H2. apply (Hfresh fd H2). rewrite HF. set_solver.
  - intros fd [Hfd|Hfd]%elem_of_app; [by apply (v_new _ _ I)|].
    specialize (Hfresh fd Hfd). rewrite HF in Hfresh. set_solver.
  - apply (v_stats _ _ I).
  - rewrite <- Hnew. apply buffer_answers, (v_bufs _ _ I).
  - apply (v_pool _ _ I).
  - eapply holds_same; [done|apply (v_mem _ _ I)].
Qed.

Lemma server_iter_ok b E sessions w :
  excused b E -> (forall t, swept t = true -> E t) ->
  recv_fuelled b (sv_fuel env) -> sv_inv sessions w ->
  wp b (server_iter env sessions)
    (fun r w' => E (hist w') \/ match r with inl s | inr s => sv_inv s w' end) w.
Proof.
  intros HE Hsw Hfuel I. unfold server_iter.
  do 3 wp_step; [wp_step; right; eapply sv_inv_still; [..|exact I]; by repeat split|].
  wp_step. eapply wp_mono.
  { apply (sweep_sessions_ok b E); try done. eapply sv_inv_still; [..|exact I]; by repeat split. }
  cbn beta. intros s w1 [HB|I1].
  { eapply wp_excused; [exact HE| |exact HB|by left]. apply only_server_turn. }
  wp_step.
  eapply wp_mono; [apply (wp_only keeps), reap_completions_reaps; apply only_reap|].
  cbn beta. intros batch w2 [Hr [Hm2 Hc2]%extends_keeps].
  pose proof (sv_reap _ _ _ _ _ I1 Hr Hm2 (Hc2 (v_close _ _ I1))) as I2.
  assert (Hpre : batch `prefix_of` cq_of (hist w2)).
  { destruct Hr as (_&_&_&_&_&_&_&_&->&_). apply prefix_take. }
  destruct batch as [|c batch].
  - wp_step. unfold submit_and_wait. wp_steps. right. eapply sv_inv_still; [..|exact I2]; by repeat split.
  - wp_step. eapply wp_mono.
    { apply (for_each_batch b _ sv_inv); [|exact I2|exact Hpre].
      intros. by apply server_on_cqe_ok. }
    cbn beta. intros s' w3 I3. unfold submit. wp_steps. right.
    eapply sv_inv_still; [..|exact I3]; by repeat split.
Qed.
End Multishot.
