(* ===== verification/ServerRun.v ===== *)
(** The whole server worker, [Worker::run_server], with multishot receives over
    TCP: set-up, loop and clean-up, for any peers. *)

From S2P Require Import Prelude Stats Sys Only Kernel NetUtils Config Engine Zcrx Client Server.
From S2P Require Import ClientProofs ZcrxProofs ZcrxServer ClientRun ServerSessions ServerProofs.

(** * The fallback to single-shot receives

    Without a ring of provided buffers, or the memory for it, the server goes on
    with single-shot receives, whose clean-up of a finished connection frees
    contexts of receives still in flight ([PropsFindings.v] has such a run). *)

(** The last call set up a ring of buffers. *)
Definition after_setup (t : history) : bool :=
  match t with Ev (SetupBufRing _ _ _) _ :: _ => true | _ => false end.

(** The ring could not be set up, or the memory for its buffers not be had. *)
Fixpoint fell_back (t : history) : bool :=
  match t with
  | [] => false
  | e :: t =>
      match e with
      | Ev (SetupBufRing _ _ _) r => r.1 =? 0
      | Ev (PosixMemalign _ _) r => negb (r.1 =? 0) && after_setup t
      | _ => false
      end || fell_back t
  end.

Lemma fell_back_app l t : fell_back t = true -> fell_back (l ++ t) = true.
Proof. intros H. induction l as [|e l IH]; [done|]. cbn. rewrite IH. apply orb_true_r. Qed.

(** The two defects that the theorems on the server leave room for. *)
Definition known_defect (t : history) : Prop := swept t = true \/ fell_back t = true.

Lemma known_defect_app l t : known_defect t -> known_defect (l ++ t).
Proof. intros [?|?]; [left; by apply swept_app|right; by apply fell_back_app]. Qed.

Lemma unless_known_defect : excused (unless known_defect) known_defect.
Proof. split; [done|apply known_defect_app]. Qed.

Lemma safe_unless_known_defect : excused (safe_unless known_defect) known_defect.
Proof. split; [done|apply known_defect_app]. Qed.

Section Run.
Context {P : Platform} {L : KernelLaws P} {B : BufferLaws P} {S : SelectLaws P}.

Lemma setup_multishot_recv_falls_back b n size bgid e w :
  wp b (setup_multishot_recv n size bgid e)
    (fun r w' => r.1 = true \/ fell_back (hist w') = true) w.
Proof.
  unfold setup_multishot_recv. do 3 wp_step; [wp_step; right; cbn; by rewrite E|].
  do 3 wp_step; [do 3 wp_step; right; cbn in E0 |- *; by rewrite E0|].
  wp_step. apply (wp_for_each b _ (fun _ _ _ => True)); [intros; by wp_step| |done].
  intros. wp_steps. by left.
Qed.

(** The ring, the buffers, the accept context and the first accept. *)
Lemma server_setup_spec b E fuel tid cfg fd m w :
  excused b E -> (forall t, fell_back t = true -> E t) ->
  ring_init b (queue_depth cfg) -> multishot_recv cfg = true -> protocol cfg = TCP ->
  1 <= in_flight cfg <= 2 ^ 15 -> 0 <= buf_size cfg < 2 ^ 32 -> 0 < next_obj w ->
  mem_of (hist w) = Some m -> closes_ok (hist w) ->
  wp b (server_setup fuel tid cfg fd)
    (fun r w' => E (hist w') \/
       let '(env, u) := r in u = None /\
       sv_tid env = tid /\ sv_cfg env = cfg /\ sv_fuel env = fuel /\ sv_multishot env = true /\
       sv_listen_fd env = fd /\ recv_buf_mem_ (sv_engine env) <> 0 /\
       recv_buf_ring_ (sv_engine env) <> 0 /\
       holds m [recv_buf_mem_ (sv_engine env)] w' /\
       exists m', mem_of (hist w') = Some m' /\
       sv_inv env (stats w) (fds_of (hist w)) (full_pool cfg) m' ∅ w') w.
Proof.
  intros HE Hfb Hb Hms Htcp Hif Hbs Hpos Hm Hcl. unfold server_setup. wp_step.
  wp_use (UringEngine_new_spec _ _ _ _ Hb) as [[sq He] (_&Hn1&Hs1&Hg1&Hm1&Hc1)].
  subst a. rename w' into w1. rewrite Hms, bool_decide_false by (by rewrite Htcp). wp_step.
  eapply wp_mono; [apply wp_conj; [apply setup_multishot_recv_falls_back|];
    apply (setup_multishot_recv_spec b (in_flight cfg) (buf_size cfg) 0 _ m); [lia..|congruence]|].
  cbn beta. intros [ok e] w2 [Hok [(Hh2&Hn2&Hs2&Ho2&Hcq2&Hf2&Hd2&_&Hc2) H2]].
  cbn [fst snd] in *. destruct Hok as [->|Hok].
  2: { eapply wp_excused; [exact HE| |by apply Hfb|by left].
       unfold prep_accept, prep, submit. by only_tac. }
  rewrite Hg1 in *. cbn in *.
  destruct H2 as (Hring & Hmem & _ & _ & Hh & _ & _ & Hl2 & _). rewrite app_nil_r in Hl2.
  do 2 wp_step. set (w3 := with_heap _ _ w2). wp_step. cbn match. wp_step.
  eapply wp_mono; [apply (wp_only keeps), prep_queues; apply only_prep|]. cbn beta.
  intros ok4 w4 [[(Hh4&Hn4&Hs4&Ho4&Hcq4&Hf4&Hl4&Hd4) _] [Hm4 Hc4]%extends_keeps]. do 2 wp_step.
  unfold submit. do 2 wp_step. right. cbn. split_and!; try done.
  { by eapply (holds_same _ _ w2). }
  eexists. split; [by destruct Hh as [Hmm _]; etrans; [|exact Hmm]|].
  change (hist w3) with (hist w2) in *. rewrite Ho2, Hcq2, Hf2, Hd2 in *. rewrite app_nil_r in Ho4.
  assert (Hx : forall x, x ∈ owed_of (hist w4) -> sq_user_data x = ptr_of (next_obj w2) /\ sq_op x = OP_ACCEPT).
  { rewrite Ho4. destruct ok4; [|by intros u ?%elem_of_nil]. by intros u ->%list_elem_of_singleton. }
  constructor; cbn [hist log stats]; rewrite ?ghost_of_cons; cbn [ghost_step sv_accept_ctx];
    rewrite ?Hcq4, ?Hf4, ?Hl4, ?Hd4, ?Hl2; try done.
  - unfold ring_ok. cbn. rewrite ghost_of_cons. cbn. by rewrite Hcq4.
  - intros x Hin. left. by apply Hx.
  - by intros c ?%elem_of_nil.
  - split; [|by intros ? ?]. split.
    + cbn. rewrite Hh4. unfold w3. cbn. apply lookup_insert_eq.
    + exists (next_obj w2). cbn. split; [done|]. rewrite Hn4. unfold w3. cbn. lia.
  - cbn. rewrite dom_empty_L. set_solver.
  - constructor.
  - by intros c ?%elem_of_nil.
  - change (stats w3) with (stats w2) in Hs4. cbn. congruence.
  - unfold session_bufs. rewrite map_to_list_empty. cbn. split_and!; [|constructor|by intros p ?%elem_of_nil].
    cbn. rewrite mem_of_cons. cbn. rewrite Hm4. destruct Hh as [-> _]. f_equal. set_solver.
  - split; [done|]. apply Hc4, Hc2, Hc1. done.
Qed.

(** ** Clean-up *)

(** Closing the connections and freeing the buffers of their sessions. *)
Lemma close_sessions_spec b m (kvs : list (Z * ClientSession)) w :
  NoDup kvs.*1 -> (forall kv, kv ∈ kvs -> kv.1 ∈ fds_of (hist w)) ->
  holds m (kvs ≫= (fun kv => buffers kv.2)) w -> closes_ok (hist w) ->
  wp b (for_each kvs (fun kv _ => do_call (Close kv.1);; free_buffers (buffers kv.2)) tt)
    (fun _ w' => fds_of (hist w') = fds_of (hist w) ∖ list_to_set kvs.*1 /\
       closes_ok (hist w') /\ stats w' = stats w /\ owed_of (hist w') = owed_of (hist w) /\
       cq_of (hist w') = cq_of (hist w) /\ dealt_of (hist w') = dealt_of (hist w) /\
       bufs_of (hist w') = bufs_of (hist w) /\ mem_of (hist w') = Some m) w.
Proof.
  intros Hnd Hin Hh Hcl.
  apply (wp_for_each b _ (fun rest _ w' => NoDup rest.*1 /\
    (forall kv, kv ∈ rest -> kv.1 ∈ fds_of (hist w')) /\
    fds_of (hist w') ∖ list_to_set rest.*1 = fds_of (hist w) ∖ list_to_set kvs.*1 /\
    closes_ok (hist w') /\ stats w' = stats w /\ owed_of (hist w') = owed_of (hist w) /\
    cq_of (hist w') = cq_of (hist w) /\ dealt_of (hist w') = dealt_of (hist w) /\
    bufs_of (hist w') = bufs_of (hist w) /\ holds m (rest ≫= (fun kv => buffers kv.2)) w')).
  - intros kv rest _ w1 (Hnd1 & Hin1 & Hf1 & Hc1 & Hs & Ho & Hcq & Hd & Hb & Hh1). cbn in Hnd1, Hf1.
    apply NoDup_cons in Hnd1 as [Hni Hnd1]. pose proof (Hin1 kv ltac:(by constructor)) as Hkv.
    do 2 wp_step. set (w2 := log _ w1). eapply wp_mono.
    { apply (free_all_holds b m (buffers kv.2) (rest ≫= (fun kv => buffers kv.2)) w2).
      by eapply holds_same. }
    cbn beta. intros _ w3 [Hh3 (_&_&Hs3&Hg3&_&Hc3)]. rewrite Hg3, Hs3. cbn. rewrite ghost_of_cons. cbn.
    split_and!; try done.
    + intros kv' Hkv'. pose proof (Hin1 kv' ltac:(by constructor 2)).
      assert (kv'.1 <> kv.1); [|set_solver]. intros Heq. apply Hni. rewrite <- Heq.
      by apply list_elem_of_fmap_2.
    + rewrite <- Hf1. set_solver.
    + by apply Hc3.
  - intros _ w' (_ & _ & Hf & ? & ? & ? & ? & ? & ? & Hh'%holds_all). cbn in Hf.
    split; [set_solver|by split_and!].
  - by split_and!.
Qed.

Lemma destroy_sessions_same b (kvs : list (Z * ClientSession)) w :
  wp b (for_each kvs (fun kv _ => destroy_session kv.2) tt)
    (fun _ w' => hist w' = hist w /\ stats w' = stats w) w.
Proof.
  apply (wp_for_each b _ (fun _ _ w' => hist w' = hist w /\ stats w' = stats w)); [|done..].
  intros kv rest _ w1 [Hw Hs]. unfold destroy_session. wp_step.
  eapply wp_mono; [apply (delete_all_same b (contexts kv.2))|]. cbn beta. intros _ w2 [Hw2 Hs2].
  wp_steps; cbn; split; congruence.
Qed.

Lemma session_keys_dom (m : session_map) : list_to_set (map_to_list m).*1 =@{gset Z} dom m.
Proof.
  apply set_eq. intros k. rewrite elem_of_list_to_set, list_elem_of_fmap, elem_of_dom. split.
  - intros ([k' v] & -> & Hin). apply elem_of_map_to_list in Hin. by eexists.
  - intros [v Hv]. exists (k, v). split; [done|]. by apply elem_of_map_to_list.
Qed.

(** The descriptors of accept completions that were reaped and not looked at. *)
Definition unattended (t : history) : list Z := accepted (owed_of t) (cq_of t).

Lemma sv_unattended env s0 F pool m0 sessions w :
  sv_inv env s0 F pool m0 sessions w ->
  arrivals_at (sv_accept_ctx env) (cq_of (hist w)) = unattended (hist w).
Proof.
  intros I. symmetry. apply accepted_for.
  - intros x Hx. eapply req_op_for; [apply (v_ctx _ _ _ _ _ _ _ I)|]. by apply (v_req _ _ _ _ _ _ _ I).
  - intros c Hc. by eapply cqes_ok_elem; [apply (v_ring _ _ _ _ _ _ _ I)|].
Qed.

Lemma server_finish_spec b env s0 F pool m0 m fd sessions w :
  sv_inv env s0 ({[fd]} ∪ F) pool m0 sessions w -> sv_listen_fd env = fd -> fd ∉ F ->
  recv_buf_ring_ (sv_engine env) <> 0 -> recv_buf_mem_ (sv_engine env) <> 0 ->
  (forall w', mem_of (hist w') = Some m0 -> holds m [recv_buf_mem_ (sv_engine env)] w') ->
  wp b (server_finish env None sessions)
    (fun _ w' =>
       stats w' = foldl (server_account (sv_tid env) (sv_cfg env)) s0 (dealt_of (hist w')) /\
       fds_of (hist w') = F ∪ list_to_set (unattended (hist w')) /\
       lent_of (hist w') = pool /\ mem_of (hist w') = Some m /\ closes_ok (hist w')) w.
Proof.
  intros I Hfd Hni Hring Hmem Hh. unfold server_finish. rewrite Hfd. do 2 wp_step.
  set (w1 := log _ w). pose proof (v_fds _ _ _ _ _ _ _ I) as HF. pose proof (v_disj _ _ _ _ _ _ _ I) as Hd.
  pose proof (v_new _ _ _ _ _ _ _ I) as Hnew. pose proof (v_mem _ _ _ _ _ _ _ I) as Hm.
  rewrite (sv_unattended _ _ _ _ _ _ _ I) in HF, Hnew.
  assert (Hf1 : fds_of (hist w1) = F ∪ (dom sessions ∪ list_to_set (unattended (hist w)))).
  { unfold w1. cbn. rewrite ghost_of_cons. cbn. rewrite HF. pose proof (Hnew fd). set_solver. }
  wp_step. eapply wp_mono.
  { apply (close_sessions_spec b m0); [apply NoDup_fst_map_to_list| | |].
    - intros [k s] Hin. apply elem_of_map_to_list, elem_of_dom_2 in Hin. cbn.
      change (k ∈ fds_of (hist w1)). rewrite Hf1. set_solver.
    - by eapply holds_same.
    - split; [|apply (v_close _ _ _ _ _ _ _ I)]. rewrite HF. set_solver. }
  cbn beta. rewrite session_keys_dom. intros _ w2 (Hf2 & Hc2 & Hs2 & Ho2 & Hcq2 & Hd2 & Hb2 & Hm2).
  do 4 wp_step. wp_step. eapply wp_mono; [apply destroy_sessions_same|].
  cbn beta. intros _ w3 [Hw3 Hs3].
  eapply wp_mono; [apply (UringEngine_destroy_spec _ m); [|done]|].
  { rewrite (proj2 (Z.eqb_neq _ 0) Hring). apply Hh. by rewrite Hw3. }
  cbn beta. intros _ w4 [Hm4 (_&_&Hs4&Hg4&_&Hc4)].
  unfold unattended. rewrite Hg4, Hs4, Hw3, Hs3. cbn [hist with_heap]. rewrite Hf2, Hf1, Ho2, Hcq2, Hd2, Hb2.
  change (ghost_of (hist w1)) with (ghost_step (Ev (Close fd) (answer (hist w) (Close fd))) (ghost_of (hist w))).
  cbn [ghost_step cq owed dealt bufs]. fold (unattended (hist w)). split_and!; try done.
  - cbn [stats with_heap]. rewrite Hs2. apply (v_stats _ _ _ _ _ _ _ I).
  - assert (Hdis : dom sessions ## F) by set_solver.
    assert (Hdis2 : forall x, x ∈ unattended (hist w) -> x ∉ dom sessions) by (intros x Hx; by apply Hnew).
    set_solver.
  - apply (v_pool _ _ _ _ _ _ _ I).
  - apply Hc4. by rewrite Hw3.
Qed.

(** ** The run *)

Lemma only_server_step env sessions (stop : bool) :
  only any
    (if stop then mret (inr sessions) else
     sessions ← sweep_sessions sessions;
     cqes ← reap_completions (in_flight (sv_cfg env));
     match cqes with
     | [] => submit_and_wait 1;; mret (inl sessions)
     | _ =>
         sessions ← for_each cqes (server_on_cqe env) sessions;
         submit;; mret (inl (B := session_map) sessions)
     end).
Proof.
  destruct stop; [apply only_ret|]. apply only_bind; [|intros; apply only_server_turn].
  unfold sweep_sessions. pose proof only_sweep_one. by only_tac.
Qed.

Lemma only_server_finish env u sessions : only any (server_finish env u sessions).
Proof.
  unfold server_finish, free_buffers, free_aligned_buffer, destroy_session, UringEngine_destroy.
  by only_tac.
Qed.

(** What a server leaves behind: its counters have grown by exactly the completions
    it consumed, all provided buffers are with the kernel again, unless it ended
    before it had a ring, and descriptors and memory are released, except for
    connections whose accept it had not looked at. *)
Definition server_done (tid : Z) (cfg : Config) (w w' : World) : Prop :=
  stats w' = foldl (server_account tid cfg) (stats w) (dealt_of (hist w')) /\
  fds_of (hist w') = fds_of (hist w) ∪ list_to_set (unattended (hist w')) /\
  (ghost_of (hist w') = ghost_of (hist w) \/ lent_of (hist w') = full_pool cfg) /\
  mem_of (hist w') = mem_of (hist w) /\ closes_ok (hist w').

Lemma run_server_multishot_spec b E fuel tid cfg w :
  excused b E -> (forall t, known_defect t -> E t) ->
  ring_init b (queue_depth cfg) -> fuelled b fuel -> recv_fuelled b fuel ->
  use_zcrx cfg = false -> multishot_recv cfg = true -> protocol cfg = TCP ->
  1 <= in_flight cfg <= 2 ^ 15 -> 0 <= buf_size cfg < 2 ^ 32 -> fresh_worker w ->
  wp b (run_server fuel tid cfg) (fun _ w' => E (hist w') \/ server_done tid cfg w w') w.
Proof.
  intros HE Hdef Hb Hfuel Hrf Hz Hms Htcp Hif Hbs [(Hnx & [m Hm] & _ & Hc) Hg0].
  assert (Hsw : forall t, swept t = true -> E t) by (intros; apply Hdef; by left).
  assert (Hfb : forall t, fell_back t = true -> E t) by (intros; apply Hdef; by right).
  unfold run_server. rewrite Hz. wp_step.
  apply (wp_mono _ _ (fun _ w1 => still w w1)).
  { unfold Zcrx.set_cpu_affinity. wp_steps; by repeat split. }
  cbn beta. intros _ w1 (Hh1&Hn1&Hs1&Hg1&Hm1&Hc1). wp_step.
  eapply wp_mono; [apply wp_total, create_listen_socket_new|].
  cbn beta. intros fd w2 [(_&Hn2&Hs2&Ho2&Hcq2&Hb2&Hd2&Hm2&Hc2) Hfd].
  destruct Hfd as [[-> Hf2]|(Hpos & Hfresh & Hf2)].
  { cbn. wp_step. right. rewrite Hg1 in *.
    assert (Hg2 : ghost_of (hist w2) = ghost_of (hist w)).
    { destruct (ghost_of (hist w2)), (ghost_of (hist w)); cbn in *. congruence. }
    unfold server_done, unattended. rewrite Hg2, Hg0. cbn. split_and!; auto; try congruence. set_solver. }
  rewrite (proj2 (Z.ltb_ge fd 0) Hpos). rewrite Hg1 in Hfresh, Hf2. wp_step.
  eapply wp_mono; [apply (server_setup_spec b E fuel tid cfg fd m); try done; [lia|congruence|auto]|].
  cbn beta. intros [env u] w3 [HB|(-> & Ht & Hcf & Hfu & Hmse & Hl & Hmem & Hring & Hh3 & m' & Hm3 & I3)].
  { eapply wp_excused; [exact HE| |exact HB|by left]. apply only_bind; [|intros; apply only_server_finish].
    apply only_iter. intros s. unfold server_iter. apply only_bind; [by apply only_call|].
    intros stop. apply only_server_step. }
  rewrite Hf2 in I3. rewrite Hs2, Hs1 in I3. wp_step.
  set (I := sv_inv env (stats w) ({[fd]} ∪ fds_of (hist w)) (full_pool cfg) m') in *. eapply wp_mono.
  { apply (wp_iter_stop_excused any b E _ I I); [done..| |done| |exact I3].
    - intros s stop. apply only_server_step.
    - intros s w4 I4. eapply wp_mono.
      + eapply (server_iter_ok env); try done; [by rewrite Hcf|by rewrite Hfu].
      + by intros [?|?] ? [?|?]; [left|right|left|right]. }
  cbn beta. intros sessions w4 [HB|I4].
  { eapply wp_excused; [exact HE| |exact HB|by left]. apply only_server_finish. }
  eapply wp_mono.
  { eapply (server_finish_spec b env _ _ _ _ m fd); try done. intros w' Hw'.
    eapply holds_same; [|exact Hh3]. congruence. }
  cbn beta. rewrite Ht, Hcf. intros _ w5 (Hs5 & Hf5 & Hl5 & Hm5 & Hc5). right. unfold server_done.
  split_and!; auto. congruence.
Qed.
End Run.
