(* ===== verification/Reporter.v ===== *)
(** Periodic and final reports: the reporting half of [src/stats.cpp].

    The reporter thread reads counters that the workers are updating, so each
    load is an external answer ([LoadSlot]).  The model keeps the 64-bit integer
    columns of each printed row; the floating-point rates derived from them and
    the formatting are not modelled. *)

From S2P Require Import Prelude Stats Sys.

(** [StatsCollector::start_reporting] and [stop_reporting] use these flags. *)
Record ReporterState := mkReporterState {
  running_ : bool;
  joinable_ : bool
}.

(** The [prev_*] variables of [reporter_loop]. *)
Record Prev := mkPrev { prev_bytes : Z; prev_packets : Z; prev_zc : Z }.

(** The differences of one interval, in 64-bit arithmetic. *)
Definition interval_of (prev : Prev) (t : Totals) : Prev :=
  mkPrev (u64 (total_bytes t - prev_bytes prev)) (u64 (total_packets t - prev_packets prev))
         (u64 (total_zc t - prev_zc prev)).

Section Reporter.
Context {P : Platform}.

(** The loads of the summing loop, slot by slot. *)
Definition load_slots (num_threads : Z) : M (list ThreadStats) :=
  for_each (zseq num_threads) (fun i acc =>
    t ← do_call (LoadSlot i); mret (acc ++ [t])) [].

Definition reporter_iter (num_threads interval_sec : Z) (prev : Prev) : M (Prev + unit) :=
  running ← do_call RunningLoad;
  if negb running then mret (inr tt) else
  do_call (SleepFor (interval_sec * 1000000000));;
  running ← do_call RunningLoad;
  if negb running then mret (inr tt) else
  do_call SteadyNow;;
  slots ← load_slots num_threads;
  let t := totals_of slots in
  let d := interval_of prev t in
  do_call (ReportRow (prev_bytes d) (prev_packets d) (prev_zc d));;
  mret (inl (mkPrev (total_bytes t) (total_packets t) (total_zc t))).

Definition reporter_loop (fuel : nat) (num_threads interval_sec : Z) : M unit :=
  iter fuel (reporter_iter num_threads interval_sec) (mkPrev 0 0 0).

Definition start_reporting (r : ReporterState) : M ReporterState :=
  do_call SteadyNow;;
  do_call (RunningStore true);;
  do_call ReporterStart;;
  mret (mkReporterState true true).

Definition stop_reporting (r : ReporterState) : M ReporterState :=
  if running_ r then
    do_call (RunningStore false);;
    if joinable_ r then do_call ReporterJoin;; mret (mkReporterState false false)
    else mret (mkReporterState false false)
  else mret r.

Definition print_summary (num_threads : Z) : M Totals :=
  do_call SteadyNow;;
  slots ← load_slots num_threads;
  do_call (ReportSummary (totals_of slots));;
  mret (totals_of slots).
End Reporter.

(** * The rows add up *)

(** The slots read since the flag was last looked at, oldest first. *)
Fixpoint reading (t : history) : list (Z * ThreadStats) :=
  match t with
  | Ev (LoadSlot i) r :: t => reading t ++ [(i, r)]
  | Ev RunningLoad _ :: _ | [] => []
  | _ :: t => reading t
  end.

(** The rows printed so far, newest first, each with the slots read for it. *)
Fixpoint reports (t : history) : list (list (Z * ThreadStats) * Prev) :=
  match t with
  | Ev (ReportRow b p z) _ :: t => (reading t, mkPrev b p z) :: reports t
  | _ :: t => reports t
  | [] => []
  end.

(** The totals of a reading. *)
Definition totals_read (l : list (Z * ThreadStats)) : Totals := totals_of l.*2.

(** The flag [running_] is cleared, for good, at the latest after [N] calls. *)
Class RunningLaws (P : Platform) (N : nat) : Prop := {
  running_cleared t : (N <= length t)%nat -> answer t RunningLoad = false
}.

Section Rows.
Context {P : Platform}.

(** The rows sum to the totals [t], modulo [2^64]. *)
Definition adds_up (t : Totals) (l : list Prev) : Prop :=
  total_bytes t = u64 (sum_list (prev_bytes <$> l)) /\
  total_packets t = u64 (sum_list (prev_packets <$> l)) /\
  total_zc t = u64 (sum_list (prev_zc <$> l)).

(** Every row was printed after reading all [n] slots, and sums with the rows
    before it to the totals of that reading. *)
Fixpoint consistent (n : Z) (l : list (list (Z * ThreadStats) * Prev)) : Prop :=
  match l with
  | [] => True
  | r :: l => r.1.*1 = zseq n /\ adds_up (totals_read r.1) (r.2 :: l.*2) /\ consistent n l
  end.

Lemma consistent_split n l later r earlier :
  consistent n l -> l = later ++ r :: earlier ->
  r.1.*1 = zseq n /\ adds_up (totals_read r.1) (r.2 :: earlier.*2).
Proof.
  intros Hc ->. induction later as [|x later IH]; [by destruct Hc as (?&?&_)|].
  apply IH. apply Hc.
Qed.

(** The totals the reporter remembers are those of the last reading. *)
Definition remembers (prev : Prev) (l : list (list (Z * ThreadStats) * Prev)) : Prop :=
  prev_bytes prev = u64 (sum_list (prev_bytes <$> l.*2)) /\
  prev_packets prev = u64 (sum_list (prev_packets <$> l.*2)) /\
  prev_zc prev = u64 (sum_list (prev_zc <$> l.*2)).

Lemma u64_difference x p s : x = u64 x -> p = u64 s -> x = u64 (u64 (x - p) + s).
Proof.
  intros Hx ->. rewrite Hx at 1. unfold u64. rewrite Zplus_mod_idemp_l.
  replace (x - s mod 2 ^ 64 + s) with (x + (s / 2 ^ 64) * 2 ^ 64)
    by (pose proof (Z.div_mod s (2 ^ 64)); lia).
  by rewrite Z.mod_add.
Qed.

Lemma load_slots_spec b n w :
  reading (hist w) = [] ->
  wp b (load_slots n) (fun slots w' => reports (hist w') = reports (hist w) /\
    (length (hist w) <= length (hist w'))%nat /\ reading (hist w') = zip (zseq n) slots /\
    length slots = length (zseq n)) w.
Proof.
  intros Hz.
  apply (wp_for_each b _ (fun rest acc w' => reports (hist w') = reports (hist w) /\
    (length (hist w) <= length (hist w'))%nat /\
    exists pre, zseq n = pre ++ rest /\ reading (hist w') = zip pre acc /\
      length acc = length pre)).
  - intros i rest acc w1 (Hr & Hl & pre & Hn & Hrd & Hlen). wp_steps.
    split_and!; [done|cbn; lia|]. exists (pre ++ [i]). split_and!.
    + by rewrite <- app_assoc.
    + cbn. by rewrite Hrd, zip_with_app.
    + rewrite !length_app. cbn. lia.
  - intros acc w' (? & ? & pre & -> & ? & ?). by rewrite app_nil_r.
  - split_and!; [done..|]. by exists [].
Qed.

Lemma totals_u64 slots :
  let t := totals_of slots in
  total_bytes t = u64 (total_bytes t) /\ total_packets t = u64 (total_packets t) /\
  total_zc t = u64 (total_zc t).
Proof.
  assert (H : forall f, sum_u64 f slots = u64 (sum_u64 f slots)).
  { intros f. rewrite sum_u64_sum. symmetry. apply u64_small, u64_range. }
  cbn. split_and!; apply H.
Qed.

(** A new row extends a consistent report. *)
Lemma consistent_row n prev slots l :
  length slots = length (zseq n) -> remembers prev l -> consistent n l ->
  let t := totals_of slots in
  let new := (zip (zseq n) slots, interval_of prev t) :: l in
  consistent n new /\ remembers (mkPrev (total_bytes t) (total_packets t) (total_zc t)) new.
Proof.
  intros Hlen (H1 & H2 & H3) Hc. cbn zeta. destruct (totals_u64 slots) as (E1 & E2 & E3).
  assert (Hs : totals_read (zip (zseq n) slots) = totals_of slots).
  { unfold totals_read. by rewrite snd_zip by lia. }
  unfold consistent; fold consistent. unfold adds_up, remembers. cbn [fst snd fmap list_fmap].
  rewrite Hs, fst_zip by lia. cbn [sum_list foldr interval_of prev_bytes prev_packets prev_zc].
  split_and!; try done; by apply u64_difference.
Qed.

(** Whatever the workers do meanwhile, the printed intervals add up to the
    totals that were read. *)
Lemma reporter_loop_spec b fuel n i w :
  endless b \/ (exists N, RunningLaws P N /\ (N < fuel)%nat) ->
  wp b (reporter_loop fuel n i)
    (fun _ w' => exists new, reports (hist w') = new ++ reports (hist w) /\ consistent n new) w.
Proof.
  intros Hfuel. unfold reporter_loop.
  pose (Q := fun w' => exists new, reports (hist w') = new ++ reports (hist w) /\ consistent n new).
  pose (I := fun prev w' => exists new, reports (hist w') = new ++ reports (hist w) /\
    consistent n new /\ remembers prev new).
  assert (HQ : forall prev w', I prev w' -> Q w') by (intros prev w' (new & ? & ? & _); by exists new).
  assert (Hstep : forall N : nat, endless b \/ RunningLaws P N -> forall prev w1, I prev w1 ->
    wp b (reporter_iter n i prev) (fun r w' => match r with
      | inl p => I p w' /\ (endless b \/
                   (N - length (hist w') < N - length (hist w1))%nat)
      | inr _ => Q w' end) w1).
  { intros N HN prev w1 HI. pose proof HI as (new & Hr & Hc & Ha). unfold reporter_iter.
    do 3 wp_step; [wp_step; by apply (HQ prev)|].
    do 2 wp_step. do 3 wp_step; [wp_step; by apply (HQ prev)|]. do 2 wp_step. wp_step.
    eapply wp_mono; [by apply load_slots_spec|]. cbn beta.
    intros slots w2 (Hr2 & Hl2 & Hrd & Hlen).
    do 3 wp_step. destruct (consistent_row n prev slots new Hlen Ha Hc) as [Hc' Ha']. split.
    - eexists. split; [|split; [exact Hc'|exact Ha']]. cbn. rewrite Hrd, Hr2. cbn. by rewrite Hr.
    - destruct HN as [|HN]; [by left|right].
      destruct (decide (N <= length (hist w1))%nat) as [Hge|]; [|cbn in *; lia].
      rewrite (running_cleared _ Hge) in E. done. }
  assert (H0 : I (mkPrev 0 0 0) w) by (by exists []).
  destruct Hfuel as [Hb|(N' & HN & Hlt)].
  - apply (wp_iter_measure _ _ I (fun _ _ => 0%nat)); [|done|by left].
    intros prev w1 H1. eapply wp_mono; [apply (Hstep 0%nat); [by left|done]|].
    intros [?|?] ?; naive_solver.
  - apply (wp_iter_measure _ _ I (fun _ w => (N' - length (hist w))%nat)); [|done|right; lia].
    intros prev w1 H1. apply Hstep; [by right|done].
Qed.

(** Stopping twice is stopping once: the thread is joined a single time. *)
Lemma stop_reporting_twice r w :
  exists r' w', stop_reporting r w = Ret r' w' /\ running_ r' = false /\
    stop_reporting r' w' = Ret r' w'.
Proof.
  unfold stop_reporting. destruct (running_ r) eqn:Hr.
  - destruct (joinable_ r); do 2 eexists; split; done.
  - do 2 eexists. split; [done|]. by rewrite Hr.
Qed.
End Rows.
