(* ===== verification/Main.v ===== *)
(** Program entry: [src/main.cpp] and [Worker::start]/[join].

    Threads and child processes are external: starting one is a call, and which
    side of a [fork] the model follows is the answer of [Fork].  A worker's own
    run is [worker_body]. *)

From S2P Require Import Prelude Stats Sys Only Kernel NetUtils Config Engine Zcrx Client Server.
From S2P Require Import Reporter.

Section Main.
Context {P : Platform}.

(** The function [Worker::start] hands to its thread. *)
Definition worker_body (fuel : nat) (tid : Z) (cfg : Config) : M unit :=
  match mode cfg with
  | CLIENT => run_client fuel tid cfg
  | SERVER => run_server fuel tid cfg
  end.

Definition signal_handler : M unit := do_call (StopStore true).

(** ** [run_until_stop] *)

(** [duration_cast<seconds>(elapsed).count() >= cfg.duration_sec] *)
Definition duration_reached (elapsed_ns duration_sec : Z) : bool :=
  duration_sec <=? Z.quot elapsed_ns 1000000000.

Definition client_wait_iter (cfg : Config) (start_time : Z) (_ : unit) : M (unit + unit) :=
  stop ← do_call StopLoad;
  if (stop : bool) then mret (inr tt) else
  do_call (SleepFor 100000000);;
  now ← do_call SteadyNow;
  if duration_reached (now - start_time) (duration_sec cfg)
  then do_call (StopStore true);; mret (inr tt)
  else mret (inl tt).

Definition server_wait_iter (_ : unit) : M (unit + unit) :=
  stop ← do_call StopLoad;
  if (stop : bool) then mret (inr tt) else
  do_call (SleepFor 100000000);; mret (inl tt).

Definition run_until_stop (fuel : nat) (cfg : Config) : M unit :=
  match mode cfg with
  | CLIENT =>
      start_time ← do_call SteadyNow;
      iter fuel (client_wait_iter cfg start_time) tt
  | SERVER => iter fuel server_wait_iter tt
  end.

Definition summary_role_label (cfg : Config) : string :=
  match mode cfg with
  | CLIENT => if reverse cfg then "Receiver/Client" else "Sender/Client"
  | SERVER => "Receiver/Server"
  end.

Definition RLIM_INFINITY := 2 ^ 64 - 1.

Definition raise_memlock_limit : M unit :=
  rl ← do_call Getrlimit;
  match rl with
  | None => mret tt
  | Some (_, rlim_max) =>
      r ← do_call (Setrlimit rlim_max rlim_max);
      if negb (r =? 0) then do_call (Setrlimit RLIM_INFINITY RLIM_INFINITY);; mret tt
      else mret tt
  end.

(** ** [main] *)

(** [StatsCollector]'s constructor; [sizeof(ThreadStats)] is four 64-byte
    lines. *)
Definition stats_size (num_threads : Z) : Z := u64 (256 * num_threads).

(** The result is the address of the mapping. *)
Definition StatsCollector_create (num_threads interval_sec : Z) : M Z :=
  r ← do_call (Mmap (stats_size num_threads));
  match r with
  | None => throw 0
  | Some p => modify_stats (fun _ => StatsCollector_new num_threads interval_sec);; mret p
  end.

Definition StatsCollector_destroy (r : ReporterState) (num_threads p : Z) : M unit :=
  stop_reporting r;;
  (if negb (p =? 0) then do_call (Munmap p (stats_size num_threads));; mret tt else mret tt).

Definition start_worker (tid : Z) : M unit := do_call (ThreadStart tid).
Definition join_worker (tid : Z) : M unit := do_call (ThreadJoin tid).

(** The child's side of [fork]: one worker, then [std::exit(0)]. *)
Definition child_main (fuel : nat) (tid : Z) (cfg : Config) : M unit :=
  raise_memlock_limit;;
  let child_cfg := set_threads 1 cfg in
  start_worker tid;;
  run_until_stop fuel child_cfg;;
  join_worker tid;;
  exit 0.

Definition fork_workers (fuel : nat) (cfg : Config) : M (list Z) :=
  for_each (zseq (threads cfg)) (fun i pids =>
    pid ← do_call Fork;
    if pid =? 0 then child_main fuel i cfg;; mret pids
    else if 0 <? pid then mret (pids ++ [pid]) else mret pids) [].

Definition main_processes (fuel : nat) (cfg : Config) : M Z :=
  p ← StatsCollector_create (threads cfg) (interval_sec cfg);
  pids ← fork_workers fuel cfg;
  r ← start_reporting (mkReporterState false false);
  run_until_stop fuel cfg;;
  for_each pids (fun pid _ => do_call (Waitpid pid);; mret tt) tt;;
  r ← stop_reporting r;
  print_summary (threads cfg);;
  StatsCollector_destroy r (threads cfg) p;;
  mret 0.

Definition main_threads (fuel : nat) (cfg : Config) : M Z :=
  p ← StatsCollector_create (threads cfg) (interval_sec cfg);
  r ← start_reporting (mkReporterState false false);
  for_each (zseq (threads cfg)) (fun i _ => start_worker i) tt;;
  run_until_stop fuel cfg;;
  for_each (zseq (threads cfg)) (fun i _ => join_worker i) tt;;
  r ← stop_reporting r;
  print_summary (threads cfg);;
  StatsCollector_destroy r (threads cfg) p;;
  mret 0.

Definition main (fuel : nat) (opts : list opt) : M Z :=
  raise_memlock_limit;;
  match parse_args opts with
  | inr code => exit code
  | inl cfg =>
      if multi_process cfg && (1 <? threads cfg) then main_processes fuel cfg
      else main_threads fuel cfg
  end.
End Main.

(** * The waiting loop *)

(** Nanoseconds slept in this stretch of history. *)
Definition slept (t : history) : Z :=
  foldr (fun e n => match e with Ev (SleepFor ns) _ => ns + n | _ => n end) 0 t.
Arguments slept : simpl never.

Lemma slept_app l t : slept (l ++ t) = slept l + slept t.
Proof.
  induction l as [|[c r] l IH]; [done|]. cbn [app]. unfold slept in *. cbn [foldr].
  destruct c; rewrite ?IH; lia.
Qed.

(** The steady clock advances at least by the time slept. *)
Class ClockLaws (P : Platform) : Prop := {
  clock_advances l (s : Z) t :
    s + slept l <= answer (l ++ Ev SteadyNow s :: t) SteadyNow
}.

Section Waiting.
Context {P : Platform}.

(** The loop ended because the flag was set, or by setting it when the
    duration had passed since [start]. *)
Definition stop_cause (start duration_sec : Z) (t : history) : Prop :=
  (exists t', t = Ev StopLoad true :: t') \/
  (exists now t' r, t = Ev (StopStore true) r :: Ev SteadyNow now :: t' /\
                    duration_sec * 1000000000 <= now - start).

Lemma duration_reached_spec elapsed d :
  0 <= elapsed -> duration_reached elapsed d = true <-> d * 1000000000 <= elapsed.
Proof.
  intros He. unfold duration_reached. rewrite Z.leb_le, Z.quot_div_nonneg by lia.
  split; [|intros; apply Z.div_le_lower_bound; lia].
  intros Hd. pose proof (Z.mul_div_le elapsed 1000000000 ltac:(lia)). lia.
Qed.

(** The loop of the client, [k] sleeps after its start. *)
Definition waited (start : Z) (w0 : World) (w : World) : Prop :=
  exists l, hist w = l ++ Ev SteadyNow start :: hist w0 /\ 0 <= slept l.

Lemma client_wait_spec {CL : ClockLaws P} fuel cfg start w0 w :
  0 <= duration_sec cfg -> (Z.to_nat (10 * duration_sec cfg) < fuel)%nat ->
  hist w = Ev SteadyNow start :: hist w0 ->
  wp total (iter fuel (client_wait_iter cfg start) tt)
    (fun _ w' => stop_cause start (duration_sec cfg) (hist w')) w.
Proof.
  intros Hd Hfuel Hw.
  pose (left := fun (_ : unit) w => Z.to_nat ((duration_sec cfg * 1000000000 -
    (slept (hist w) - slept (hist w0))) / 100000000)).
  apply (wp_iter_total _ (fun _ w' => waited start w0 w' /\
    slept (hist w') - slept (hist w0) < Z.max 1 (duration_sec cfg * 1000000000)) left).
  - intros u w1 [(l & Hl & Hs) Hlt]. unfold client_wait_iter. do 2 wp_step.
    destruct (answer (hist w1) StopLoad) eqn:Hst.
    { wp_step. left. by eexists. }
    do 4 wp_step. set (w3 := log _ (log _ w1)). set (now := answer (hist w3) SteadyNow).
    set (l3 := [Ev (SleepFor 100000000) (answer (hist (log (Ev StopLoad false) w1))
      (SleepFor 100000000)); Ev StopLoad false] ++ l).
    assert (Hw3 : hist w3 = l3 ++ Ev SteadyNow start :: hist w0).
    { unfold w3, l3. cbn. by rewrite Hl. }
    assert (Hs3 : slept l3 = 100000000 + slept l) by done.
    pose proof (clock_advances l3 start (hist w0)) as Hclk. rewrite <- Hw3 in Hclk. fold now in Hclk.
    assert (Hsw : slept (hist w1) = slept l + slept (hist w0)) by (rewrite Hl, slept_app; done).
    wp_step.
    + wp_steps. right. apply duration_reached_spec in E; [|lia].
      do 3 eexists. cbn. split; [done|]. exact E.
    + wp_step.
      assert (Hne : now - start < duration_sec cfg * 1000000000).
      { destruct (Z.lt_ge_cases (now - start) (duration_sec cfg * 1000000000)) as [|Hge]; [done|].
        apply duration_reached_spec in Hge; [congruence|lia]. }
      change (slept (hist (log (Ev SteadyNow now) w3))) with (slept (hist w3)).
      assert (Hsw3 : slept (hist w3) = 100000000 + slept (hist w1)) by done.
      split; [split; [|lia]|].
      * exists (Ev SteadyNow now :: l3). split; [cbn [hist log]; by rewrite Hw3|].
        change (slept (Ev SteadyNow now :: l3)) with (slept l3). lia.
      * unfold left. change (slept (hist (log (Ev SteadyNow now) w3))) with (slept (hist w3)).
        rewrite Hsw3. set (x := duration_sec cfg * 1000000000 - (slept (hist w1) - slept (hist w0))).
        replace (_ - (100000000 + slept (hist w1) - slept (hist w0))) with (x + (-1) * 100000000)
          by (unfold x; lia).
        rewrite Z.div_add by lia.
        assert (1 <= x / 100000000) by (apply Z.div_le_lower_bound; unfold x; lia). lia.
  - split; [|rewrite Hw; change (slept (Ev SteadyNow start :: hist w0)) with (slept (hist w0)); lia].
    exists []. split; [done|]. done.
  - unfold left. rewrite Hw. change (slept (Ev SteadyNow start :: hist w0)) with (slept (hist w0)).
    rewrite Z.sub_diag, Z.sub_0_r.
    replace (duration_sec cfg * 1000000000) with (10 * duration_sec cfg * 100000000) by lia.
    by rewrite Z.div_mul by lia.
Qed.
End Waiting.

(** * Order of the life cycle *)

(** Starts and joins of threads, waits for children, and what the summary reads
    and prints. *)
Definition is_life (c : call) : bool :=
  match c with
  | ThreadStart _ | ThreadJoin _ | ReporterStart | ReporterJoin | Waitpid _
  | LoadSlot _ | ReportSummary _ => true
  | _ => false
  end.

(** Those calls, oldest first. *)
Definition life (t : history) : list call := rev (List.filter is_life (ev_call <$> t)).

(** The children a stretch of history has forked, oldest first. *)
Definition ev_forked (e : event) : list Z :=
  match e with Ev Fork pid => if 0 <? pid then [pid] else [] | _ => [] end.
Definition forked (t : history) : list Z := rev (t ≫= ev_forked).

Section Order.
Context {P : Platform}.

(** [m] adds exactly the calls [cs] to the life cycle. *)
Definition lives (cs : list call) (w w' : World) : Prop := life (hist w') = life (hist w) ++ cs.

Lemma lives_nil w : lives [] w w.
Proof. unfold lives. by rewrite app_nil_r. Qed.

Lemma lives_trans cs cs' w1 w2 w3 : lives cs w1 w2 -> lives cs' w2 w3 -> lives (cs ++ cs') w1 w3.
Proof. unfold lives. intros H1 H2. by rewrite H2, H1, app_assoc. Qed.

Lemma lives_log c r w : lives (if is_life c then [c] else []) w (log (Ev c r) w).
Proof.
  unfold lives, life. cbn. destruct (is_life c); cbn; [done|by rewrite app_nil_r].
Qed.

Definition lifeless (c : call) : Prop := is_life c = false.

Lemma extends_lifeless w w' : extends lifeless w w' -> lives [] w w'.
Proof.
  intros (l & Hw & Hl). unfold lives, life. rewrite Hw, app_nil_r. clear Hw. f_equal.
  induction Hl as [|[c r] l Hc _ IH]; [done|]. cbn in *. by rewrite Hc.
Qed.

Lemma wp_lifeless {A} b (m : M A) w (Q : A -> World -> Prop) :
  only lifeless m -> wp b m Q w -> wp b m (fun a w' => Q a w' /\ lives [] w w') w.
Proof.
  intros Hm HQ. eapply wp_mono; [by apply (wp_only lifeless)|].
  cbn beta. intros a w' [? ?%extends_lifeless]. by split.
Qed.

(** A loop that makes one call of the life cycle per element. *)
Lemma for_each_lives {X} b (l : list X) (f : X -> call) (body : X -> unit -> M unit) w :
  (forall x u w, is_life (f x) = true ->
     wp b (body x u) (fun _ w' => lives [f x] w w') w) ->
  (forall x, is_life (f x) = true) ->
  wp b (for_each l body tt) (fun _ w' => lives (f <$> l) w w') w.
Proof.
  intros Hbody Hlife.
  apply (wp_for_each b _ (fun rest _ w' => exists dn, l = dn ++ rest /\ lives (f <$> dn) w w')).
  - intros x rest u w1 (dn & -> & H1). eapply wp_mono; [by apply Hbody|].
    cbn beta. intros _ w2 H2. exists (dn ++ [x]). rewrite <- app_assoc, fmap_app.
    split; [done|]. by eapply lives_trans.
  - intros _ w' (dn & -> & H). by rewrite app_nil_r.
  - exists []. split; [done|]. apply lives_nil.
Qed.

Lemma load_slots_lives b n w :
  wp b (load_slots n) (fun slots w' => lives (LoadSlot <$> zseq n) w w') w.
Proof.
  apply (wp_for_each b _ (fun rest _ w' => exists dn, zseq n = dn ++ rest /\
    lives (LoadSlot <$> dn) w w')).
  - intros i rest acc w1 (dn & Hz & H1). wp_steps. exists (dn ++ [i]). rewrite <- app_assoc, fmap_app.
    split; [done|]. eapply lives_trans; [exact H1|]. apply lives_log.
  - intros _ w' (dn & Hz & H). rewrite app_nil_r in Hz. by rewrite Hz.
  - exists []. split; [done|]. apply lives_nil.
Qed.

(** The clock or the flag ends the wait. *)
Definition wait_ends (b : Sys.mode) (fuel : nat) (cfg : Config) : Prop :=
  endless b \/
  match mode cfg with
  | CLIENT => ClockLaws P /\ 0 <= duration_sec cfg /\
              (Z.to_nat (10 * duration_sec cfg) < fuel)%nat
  | SERVER => exists N, StopLaws P N /\ (N < fuel)%nat
  end.

Lemma run_until_stop_lives b fuel cfg w :
  wait_ends b fuel cfg -> wp b (run_until_stop fuel cfg) (fun _ w' => lives [] w w') w.
Proof.
  intros He. eapply wp_mono; [apply (wp_lifeless b _ w (fun _ _ => True))|by intros ? ? [_ ?]].
  { unfold run_until_stop, client_wait_iter, server_wait_iter. by only_tac. }
  unfold run_until_stop. destruct He as [He|He].
  - destruct (mode cfg).
    + apply (wp_iter _ _ (fun _ _ => True)); [done| |done]. intros u w1 _. unfold server_wait_iter. by wp_steps.
    + do 2 wp_step. apply (wp_iter _ _ (fun _ _ => True)); [done| |done]. intros u w1 _.
      unfold client_wait_iter. by wp_steps.
  - destruct (mode cfg).
    + destruct He as (N & HN & Hlt).
      apply (wp_iter_stop (fun _ => True) b (fun _ stop => if (stop : bool) then mret (inr tt)
        else do_call (SleepFor 100000000);; mret (inl tt)) (fun _ _ => True) (fun _ _ => True)).
      * right. by exists N.
      * intros s stop. by only_tac.
      * done.
      * intros s w1 _. by wp_steps.
      * done.
    + destruct He as (CL & Hd & Hf). do 2 wp_step. apply wp_total.
      eapply wp_mono; [by eapply (client_wait_spec fuel cfg _ w)|done].
Qed.

(** [mmap] for the counters works, or its exception is allowed. *)
Definition stats_init (b : Sys.mode) : Prop := lax b \/ forall t n, answer t (Mmap n) <> None.

Lemma StatsCollector_create_lives b n i w :
  stats_init b -> wp b (StatsCollector_create n i)
    (fun _ w' => lives [] w w' /\ stats w' = StatsCollector_new n i) w.
Proof.
  intros Hb. unfold StatsCollector_create. do 2 wp_step.
  destruct (answer (hist w) (Mmap (stats_size n))) as [p|] eqn:Ha.
  - wp_steps. split; [|done]. apply lives_log.
  - destruct Hb as [Hb|Hb]; [by apply wp_throw|]. by apply Hb in Ha.
Qed.

(** The end of both modes: the reporter is joined once, then the counters are
    read and the summary printed. *)
Lemma finish_lives b n p w :
  wp b (r ← stop_reporting (mkReporterState true true);
        print_summary n;;
        StatsCollector_destroy r n p;;
        mret 0)
    (fun code w' => code = 0 /\ exists t,
       lives ([ReporterJoin] ++ (LoadSlot <$> zseq n) ++ [ReportSummary t]) w w') w.
Proof.
  unfold stop_reporting at 1. cbn [running_ joinable_]. do 7 wp_step.
  set (w1 := log _ (log _ w)). assert (H1 : lives [ReporterJoin] w w1).
  { eapply (lives_trans [] [ReporterJoin]);
      [apply (lives_log (RunningStore false))|apply (lives_log ReporterJoin)]. }
  unfold print_summary. do 2 wp_step. set (w2 := log _ w1). wp_step.
  eapply wp_mono; [apply load_slots_lives|]. cbn beta. intros slots w3 H3. do 3 wp_step.
  set (w4 := log _ w3). set (t := totals_of slots).
  assert (H4 : lives [ReportSummary t] w3 w4) by (apply (lives_log (ReportSummary t))).
  assert (Hall : lives ([ReporterJoin] ++ (LoadSlot <$> zseq n) ++ [ReportSummary t]) w w4).
  { eapply lives_trans; [exact H1|]. eapply lives_trans; [exact H3|exact H4]. }
  unfold StatsCollector_destroy, stop_reporting. cbn [running_]. wp_steps;
    (split; [done|exists t; exact Hall]).
Qed.

Definition no_fork (c : call) : Prop := match c with Fork => False | _ => True end.

Lemma extends_no_fork w w' : extends no_fork w w' -> forked (hist w') = forked (hist w).
Proof.
  intros (l & -> & Hl). unfold forked. f_equal. induction Hl as [|[c r] l Hc _ IH]; [done|].
  cbn in *. by destruct c.
Qed.

Lemma start_reporting_lives b r w :
  wp b (start_reporting r)
    (fun r' w' => r' = mkReporterState true true /\ lives [ReporterStart] w w') w.
Proof.
  unfold start_reporting. wp_steps. split; [done|].
  apply (lives_trans [] [ReporterStart] _ (log (Ev (RunningStore true)
    (answer (hist (log (Ev SteadyNow (answer (hist w) SteadyNow)) w)) (RunningStore true)))
    (log (Ev SteadyNow (answer (hist w) SteadyNow)) w))); [|apply (lives_log ReporterStart)].
  apply (lives_trans [] [] _ (log (Ev SteadyNow (answer (hist w) SteadyNow)) w));
    [apply (lives_log SteadyNow)|apply (lives_log (RunningStore true))].
Qed.

(** Every worker is started once, and joined before the summary reads the
    counters and the reporter has stopped. *)
Lemma main_threads_spec b fuel cfg w :
  stats_init b -> wait_ends b fuel cfg ->
  wp b (main_threads fuel cfg)
    (fun code w' => code = 0 /\ exists t,
       lives ([ReporterStart] ++ (ThreadStart <$> zseq (threads cfg)) ++
              (ThreadJoin <$> zseq (threads cfg)) ++ [ReporterJoin] ++
              (LoadSlot <$> zseq (threads cfg)) ++ [ReportSummary t]) w w') w.
Proof.
  intros Hb He. unfold main_threads. wp_step. wp_use (StatsCollector_create_lives _ _ _ _ Hb) as [H1 _].
  rename w' into w1. wp_step. wp_use (start_reporting_lives _ _ _) as [-> H2]. rename w' into w2. wp_step.
  eapply wp_mono; [apply (for_each_lives b _ ThreadStart); [|done]|].
  { intros x u w3 _. unfold start_worker. wp_step. apply (lives_log (ThreadStart x)). }
  cbn beta. intros _ w3 H3. wp_step. wp_use (run_until_stop_lives _ _ _ _ He) as H4.
  rename w' into w4. wp_step.
  eapply wp_mono; [apply (for_each_lives b _ ThreadJoin); [|done]|].
  { intros x u w5 _. unfold join_worker. wp_step. apply (lives_log (ThreadJoin x)). }
  cbn beta. intros _ w5 H5. eapply wp_mono; [apply finish_lives|]. cbn beta.
  intros code w6 [-> (t & H6)]. split; [done|]. exists t.
  change [ReporterStart] with ([] ++ [ReporterStart]). rewrite <- app_assoc.
  eapply lives_trans; [exact H1|]. eapply lives_trans; [exact H2|].
  eapply lives_trans; [exact H3|]. change (ThreadJoin <$> zseq (threads cfg)) with
    ([] ++ (ThreadJoin <$> zseq (threads cfg))). rewrite <- app_assoc.
  eapply lives_trans; [exact H4|]. eapply lives_trans; [exact H5|exact H6].
Qed.

(** The parent's side of the forks: the children are the positive answers. *)
Lemma fork_workers_spec b fuel cfg w :
  (forall t, answer t Fork <> 0) ->
  wp b (fork_workers fuel cfg)
    (fun pids w' => lives [] w w' /\ forked (hist w') = forked (hist w) ++ pids) w.
Proof.
  intros Hp. apply (wp_for_each b _ (fun _ pids w' => lives [] w w' /\
    forked (hist w') = forked (hist w) ++ pids)); [|done|].
  - intros i rest pids w1 [H1 Hf]. do 2 wp_step.
    assert (Hl : lives [] w (log (Ev Fork (answer (hist w1) Fork)) w1)).
    { apply (lives_trans [] [] _ w1); [exact H1|apply (lives_log Fork)]. }
    rewrite (proj2 (Z.eqb_neq _ 0) (Hp (hist w1))). unfold forked in *. cbn.
    destruct (0 <? answer (hist w1) Fork) eqn:Hpos; wp_step; (split; [done|]); cbn; rewrite ?Hpos; cbn.
    + by rewrite Hf, app_assoc.
    + done.
  - split; [apply lives_nil|by rewrite app_nil_r].
Qed.

(** Every child that was forked is waited for, once, before the summary. *)
Lemma main_processes_spec b fuel cfg w :
  stats_init b -> wait_ends b fuel cfg -> (forall t, answer t Fork <> 0) ->
  wp b (main_processes fuel cfg)
    (fun code w' => code = 0 /\ exists pids t,
       forked (hist w') = forked (hist w) ++ pids /\
       lives ([ReporterStart] ++ (Waitpid <$> pids) ++ [ReporterJoin] ++
              (LoadSlot <$> zseq (threads cfg)) ++ [ReportSummary t]) w w') w.
Proof.
  intros Hb He Hp. unfold main_processes. wp_step.
  eapply wp_mono; [apply (wp_only no_fork); [unfold StatsCollector_create; by only_tac|];
    by apply StatsCollector_create_lives|].
  cbn beta. intros p w1 [[H1 _] Hf1%extends_no_fork]. wp_step.
  wp_use (fork_workers_spec _ _ _ _ Hp) as [H2 Hf2]. rename a into pids, w' into w2. wp_step.
  eapply wp_mono; [apply (wp_only no_fork), start_reporting_lives; unfold start_reporting; by only_tac|].
  cbn beta. intros r w3 [[-> H3] Hf3%extends_no_fork]. wp_step.
  eapply wp_mono; [apply (wp_only no_fork), run_until_stop_lives, He;
    unfold run_until_stop, client_wait_iter, server_wait_iter; by only_tac|].
  cbn beta. intros _ w4 [H4 Hf4%extends_no_fork]. wp_step.
  eapply wp_mono; [apply (wp_only no_fork), (for_each_lives b pids Waitpid); [by only_tac| |done]|].
  { intros x u w5 _. wp_steps. apply (lives_log (Waitpid x)). }
  cbn beta. intros _ w5 [H5 Hf5%extends_no_fork].
  eapply wp_mono; [apply (wp_only no_fork), finish_lives;
    unfold stop_reporting, print_summary, load_slots, StatsCollector_destroy, stop_reporting;
    by only_tac|].
  cbn beta. intros code w6 [[-> (t & H6)] Hf6%extends_no_fork]. split; [done|]. exists pids, t.
  split; [congruence|]. change [ReporterStart] with ([] ++ [] ++ [ReporterStart]).
  rewrite <- !app_assoc. eapply lives_trans; [exact H1|]. eapply lives_trans; [exact H2|].
  eapply lives_trans; [exact H3|]. change (Waitpid <$> pids) with ([] ++ (Waitpid <$> pids)).
  rewrite <- app_assoc. eapply lives_trans; [exact H4|]. eapply lives_trans; [exact H5|exact H6].
Qed.

(** A child runs its own worker alone and exits with status 0. *)
Lemma child_main_spec fuel tid cfg w :
  wait_ends total fuel (set_threads 1 cfg) ->
  exists w', child_main fuel tid cfg w = Exit 0 w' /\ lives [ThreadStart tid; ThreadJoin tid] w w'.
Proof.
  intros He. unfold child_main.
  set (start := raise_memlock_limit;; start_worker tid;; run_until_stop fuel (set_threads 1 cfg);;
                join_worker tid).
  assert (H : wp total start (fun _ w' => lives [ThreadStart tid; ThreadJoin tid] w w') w).
  { unfold start. wp_step.
    eapply wp_mono; [apply (wp_lifeless _ _ _ (fun _ _ => True)); unfold raise_memlock_limit;
      [by only_tac|by wp_steps]|].
    cbn beta. intros _ w1 [_ H1]. wp_step. unfold start_worker. wp_step.
    assert (H2 := lives_log (ThreadStart tid) (answer (hist w1) (ThreadStart tid)) w1).
    wp_step. wp_use (run_until_stop_lives _ _ _ _ He) as H3. unfold join_worker. wp_step.
    assert (H4 := lives_log (ThreadJoin tid) (answer (hist w') (ThreadJoin tid)) w').
    change [ThreadStart tid; ThreadJoin tid] with
      ([] ++ [ThreadStart tid] ++ [] ++ [ThreadJoin tid]).
    eapply lives_trans; [exact H1|]. eapply lives_trans; [exact H2|].
    eapply lives_trans; [exact H3|exact H4]. }
  unfold start, wp, mbind, M_bind in *. cbn in *.
  destruct (raise_memlock_limit w) as [? w1| | | |]; try (exfalso; tauto).
  destruct (run_until_stop _ _ _) as [? w2| | | |]; try (exfalso; tauto).
  eexists. by split.
Qed.
End Order.
