(* ===== verification/Accounting.v ===== *)
(** What the counters of a worker hold, in closed form.

    Each loop's accounting of one completion is a list of [add_*] calls; so the
    byte counter of a worker is, modulo [2^64], what it was plus the bytes of the
    completions it consumed. *)

From S2P Require Import Prelude Stats Sys Only Kernel NetUtils Config Engine Zcrx Client Server.
From S2P Require Import ClientProofs ZcrxProofs ClientRun ZcrxServer ServerSessions.

(** The calls that the accounting [a] of a completion amounts to. *)
Definition accounts_by {C} (a : StatsCollector -> C -> StatsCollector) (ops : C -> list stat_op)
    : Prop :=
  forall s c, a s c = foldl apply_op s (ops c).

Definition client_ops_of (tid : Z) (cfg : Config) (c : cqe) : list stat_op :=
  if cq_user_data c =? 0 then []
  else if has_flag (cq_flags c) IORING_CQE_F_NOTIF then [AddZc tid]
  else if 0 <? cq_res c then [AddBytes tid (cq_res c) (packets_of cfg (cq_res c))]
  else if res_again (cq_res c) then []
  else if cq_res c <? 0 then [AddError tid]
  else [].

Definition reverse_ops_of (tid : Z) (ms : bool) (c : cqe) : list stat_op :=
  if cq_user_data c =? 0 then []
  else if ms then
    (if (0 <? cq_res c) && has_buffer c then [AddBytes tid (cq_res c) 1] else []) ++
    (if is_final c && negb (cq_res c =? - ENOBUFS) && (cq_res c <? 0) then [AddError tid] else [])
  else if 0 <? cq_res c then [AddBytes tid (cq_res c) 1]
  else if res_again (cq_res c) then []
  else if cq_res c <? 0 then [AddError tid]
  else [].

Definition zcrx_ops_of (tid : Z) (c : cqe) : list stat_op :=
  if is_final c then
    if recoverable (cq_res c) then [] else if cq_res c <? 0 then [AddError tid] else []
  else if 0 <? cq_res c then [AddBytes tid (cq_res c) 1; AddZc tid] else [].

Definition server_ops_of (tid : Z) (cfg : Config) (oc : option opcode * cqe) : list stat_op :=
  let c := oc.2 in
  match oc.1 with
  | Some OP_SEND | Some OP_SEND_ZC | Some OP_SEND_ZC_FIXED =>
      if has_flag (cq_flags c) IORING_CQE_F_NOTIF then [AddZc tid]
      else if 0 <? cq_res c then [AddBytes tid (cq_res c) 1]
      else if res_again (cq_res c) then []
      else if cq_res c <? 0 then [AddError tid]
      else []
  | Some OP_RECV_MULTISHOT =>
      (if (0 <? cq_res c) && has_buffer c
       then [AddBytes tid (cq_res c) (packets_of cfg (cq_res c))] else []) ++
      (if is_final c && negb (cq_res c =? - ENOBUFS) && (cq_res c <? 0) then [AddError tid] else [])
  | _ => []
  end.

Definition zcrx_server_ops_of (tid : Z) (c : cqe) : list stat_op :=
  if Z.land (cq_user_data c) kZcrxReqTypeMask =? kZcrxReqRx then zcrx_ops_of tid c else [].

Ltac account_tac := intros s c; repeat case_match; cbn in *; simplify_eq; congruence || done.

Lemma client_account_ops tid cfg : accounts_by (client_account tid cfg) (client_ops_of tid cfg).
Proof. unfold client_account, client_ops_of. account_tac. Qed.

Lemma reverse_account_ops tid ms : accounts_by (reverse_account tid ms) (reverse_ops_of tid ms).
Proof. unfold reverse_account, reverse_ops_of. account_tac. Qed.

Lemma zcrx_account_ops tid : accounts_by (zcrx_account tid) (zcrx_ops_of tid).
Proof. unfold zcrx_account, zcrx_ops_of. account_tac. Qed.

Lemma server_account_ops tid cfg :
  accounts_by (server_account tid cfg) (server_ops_of tid cfg).
Proof. unfold server_account, server_ops_of. account_tac. Qed.

Lemma zcrx_server_account_ops tid :
  accounts_by (zcrx_server_account tid) (zcrx_server_ops_of tid).
Proof.
  unfold zcrx_server_account, zcrx_server_ops_of. intros s c.
  destruct (_ =? _); [apply zcrx_account_ops|done].
Qed.

Lemma accounts_by_foldl {C} (a : StatsCollector -> C -> StatsCollector) ops cs s :
  accounts_by a ops -> foldl a s cs = foldl apply_op s (cs ≫= ops).
Proof.
  intros Ha. revert s. induction cs as [|c cs IH]; intros s; cbn; [done|].
  rewrite IH, Ha. by rewrite foldl_app.
Qed.

(** All calls are for the worker's own slot. *)
Definition own_ops {C} (tid : Z) (ops : C -> list stat_op) : Prop :=
  forall c, Forall (fun o => op_thread o = tid) (ops c).

Ltac own_tac := intros c; repeat case_match; cbn; repeat constructor; done.

Lemma client_ops_own tid cfg : own_ops tid (client_ops_of tid cfg).
Proof. unfold client_ops_of. own_tac. Qed.
Lemma reverse_ops_own tid ms : own_ops tid (reverse_ops_of tid ms).
Proof. unfold reverse_ops_of. own_tac. Qed.
Lemma zcrx_ops_own tid : own_ops tid (zcrx_ops_of tid).
Proof. unfold zcrx_ops_of. own_tac. Qed.
Lemma server_ops_own tid cfg : own_ops tid (server_ops_of tid cfg).
Proof. unfold server_ops_of. own_tac. Qed.
Lemma zcrx_server_ops_own tid : own_ops tid (zcrx_server_ops_of tid).
Proof.
  intros c. unfold zcrx_server_ops_of. destruct (_ =? _); [apply zcrx_ops_own|constructor].
Qed.

(** The bytes a list of calls adds. *)
Definition bytes_in (ops : list stat_op) : Z :=
  sum_list ((fun o => match o with AddBytes _ b _ => b | _ => 0 end) <$> ops).

Lemma own_bytes tid l :
  Forall (fun o => op_thread o = tid) l -> sum_list (op_bytes tid <$> l) = bytes_in l.
Proof.
  unfold bytes_in, sum_list. induction 1 as [|o l Ho Hl IH]; [done|]. cbn in *. rewrite IH.
  destruct o; cbn in Ho |- *; subst; rewrite ?Z.eqb_refl; done.
Qed.

Lemma own_ops_all {C} tid (ops : C -> list stat_op) cs : own_ops tid ops -> Forall (fun o => op_thread o = tid) (cs ≫= ops).
Proof.
  intros Ho. induction cs as [|c cs IH]; [constructor|]. cbn. apply Forall_app. auto.
Qed.

(** The byte counter after accounting the completions [cs]. *)
Lemma accounted_bytes {C} (a : StatsCollector -> C -> StatsCollector) ops tid cs s t :
  accounts_by a ops -> own_ops tid ops -> 0 <= tid < num_threads_ s ->
  slot_of tid s = Some t -> slot_ok t ->
  exists t', slot_of tid (foldl a s cs) = Some t' /\
    bytes_transferred t' = u64 (bytes_transferred t + bytes_in (cs ≫= ops)).
Proof.
  intros Ha Ho Htid Hs Ht. rewrite (accounts_by_foldl a ops) by done.
  pose proof (own_ops_all tid ops cs Ho) as Hall.
  destruct (apply_ops_bytes tid (cs ≫= ops) s t) as (t' & Ht' & Hb); try done.
  - eapply Forall_impl; [exact Hall|]. cbn. lia.
  - apply Ht.
  - exists t'. by rewrite <- (own_bytes tid).
Qed.

(** A worker never touches the slot of another. *)
Lemma accounted_other {C} (a : StatsCollector -> C -> StatsCollector) ops tid other cs s :
  accounts_by a ops -> own_ops tid ops -> 0 <= tid -> 0 <= other < num_threads_ s ->
  other <> tid -> slot_of other (foldl a s cs) = slot_of other s.
Proof.
  intros Ha Ho Htid Hother Hne. rewrite (accounts_by_foldl a ops) by done.
  pose proof (own_ops_all tid ops cs Ho) as Hall. revert s Hother.
  induction Hall as [|o l Ho' Hl IH]; intros s Hother; [done|]. cbn.
  rewrite IH by (by rewrite num_threads_apply_op).
  rewrite apply_op_slot, slot_of_with_slot by lia. rewrite (proj2 (Z.eqb_neq _ _)); [done|lia].
Qed.

(** The collector stays well formed. *)
Lemma accounted_ok {C} (a : StatsCollector -> C -> StatsCollector) ops tid cs s :
  accounts_by a ops -> own_ops tid ops -> 0 <= tid -> collector_ok s -> collector_ok (foldl a s cs).
Proof.
  intros Ha Ho Htid Hs. rewrite (accounts_by_foldl a ops) by done.
  pose proof (own_ops_all tid ops cs Ho) as Hall. revert s Hs.
  induction Hall as [|o l Ho' Hl IH]; intros s Hs; [done|]. cbn. apply IH. apply apply_op_ok; [lia|done].
Qed.
