(* ===== verification/Pipeline.v ===== *)
(** The forward client keeps its pipeline full.

    With plain sends, a submission queue that holds [in_flight] entries and until
    the stop flag is read as set, every context of the pool is at any time in
    exactly one place: it has one request in flight, or its last request ended
    with 0 or an error and it was retired. *)

From S2P Require Import Prelude Stats Sys Only Kernel NetUtils Config Engine Zcrx Client.
From S2P Require Import ClientProofs ZcrxProofs ZcrxServer.

(** A plain send completes once, and not with a zero-copy notification. *)
Class SingleShotSend (P : Platform) : Prop := {
  send_completes_once t c :
    (forall s, s ∈ owed_of t -> sq_op s = OP_SEND) ->
    c ∈ drop (length (cq_of t)) (answer t ForEachCqe) ->
    is_final c = true /\ has_flag (cq_flags c) IORING_CQE_F_NOTIF = false
}.

(** The flag was read as set. *)
Definition stop_read (t : history) : bool :=
  existsb (fun e => match e with Ev StopLoad b => b | _ => false end) t.

(** The contexts whose request ended with 0 or an error. *)
Definition is_retired (c : cqe) : bool := negb (0 <? cq_res c) && negb (res_again (cq_res c)).
Definition retired (cs : list cqe) : list Z := cq_user_data <$> List.filter is_retired cs.

Lemma stop_read_extends w w' :
  extends any w w' -> stop_read (hist w') = false -> stop_read (hist w) = false.
Proof.
  intros (l & -> & _). unfold stop_read. rewrite existsb_app. intros [_ ?]%orb_false_iff. done.
Qed.

(** A plain send with room in the queue is queued. *)
Lemma send_fills {P : Platform} {entries} {SL : SubmissionLaws P entries}
    b cfg e fd buf len idx ctx uff w :
  zero_copy cfg = false -> (exists c, heap w !! ctx = Some (OCtx c)) -> client_ops w ->
  sq_used (hist w) < entries ->
  wp b (prep_send_any cfg e fd buf len idx ctx uff)
    (fun _ w' => client_ops w' /\ heap w' = heap w /\ cq_of (hist w') = cq_of (hist w) /\
       seen_of (hist w') = seen_of (hist w) /\ sq_used (hist w') = sq_used (hist w) + 1 /\
       exists s, owed_of (hist w') = s :: owed_of (hist w) /\ sq_op s = OP_SEND /\
         sq_user_data s = ctx) w.
Proof.
  intros Hz [c Hc] Ho Hroom. unfold prep_send_any. rewrite Hz.
  eapply wp_mono; [by eapply prep_send_standard_queues|]. cbn beta. intros ok w' (Hq & Hok & Hsq).
  rewrite (sq_space (hist w)) in Hok by done. subst ok.
  set (s := send_standard_sqe _ _ _ _ _ _ _) in Hq.
  assert (Hs : sq_op s = OP_SEND /\ sq_user_data s = ctx).
  { unfold s, send_standard_sqe, fixed_file_flag. by repeat case_match. }
  split; [|destruct Hq as (Hh&_&_&How&Hcq&_&_&Hse); split_and!; try done; [congruence|by exists s]].
  eapply client_ops_queued; [|exact Hq|done]. intros s' ->%list_elem_of_singleton.
  destruct Hs as [-> ->]. split; [by eexists|done].
Qed.

Section Pipeline.
Context {P : Platform} {L : KernelLaws P} {SS : SingleShotSend P}.
Context (entries : Z) {SL : SubmissionLaws P entries}.
Variables (tid : Z) (cfg : Config) (e : UringEngine) (uff : bool) (ctxs : list Z).
Hypothesis (Hplain : zero_copy cfg = false).
Hypothesis (Hdepth : 0 <= in_flight cfg <= entries).

(** With room for [room] more entries in the submission queue. *)
Record pipe (room : Z) (w : World) : Prop := {
  p_ops : client_ops w;
  p_send : forall s, s ∈ owed_of (hist w) -> sq_op s = OP_SEND /\ sq_user_data s <> 0;
  p_once : forall c, c ∈ cq_of (hist w) ->
             is_final c = true /\ has_flag (cq_flags c) IORING_CQE_F_NOTIF = false;
  p_full : stop_read (hist w) = false ->
             udata (owed_of (hist w)) ++ retired (seen_of (hist w)) ≡ₚ ctxs;
  p_room : sq_used (hist w) + room <= entries
}.

Lemma pipe_quiet room room' w w' :
  quiet w w' -> extends any w w' -> sq_used (hist w') + room' <= entries ->
  pipe room w -> pipe room' w'.
Proof.
  intros Hq He Hr [Ho Hs Hc Hf _]. pose proof (client_ops_quiet _ _ Hq Ho) as Ho'.
  destruct Hq as (_&_&_&How&Hcq&_&_&Hse). cbn in How.
  split; rewrite ?How, ?Hcq, ?Hse; auto. intros Hst. apply Hf. by eapply stop_read_extends.
Qed.

(** Consuming a completion, for a handler that left [w1] behind. *)
Lemma pipe_consume b room c cs w w1 :
  pipe (1 + room) w -> cq_of (hist w) = c :: cs -> client_ops w1 -> cq_of (hist w1) = c :: cs ->
  seen_of (hist w1) = seen_of (hist w) -> sq_used (hist w1) + room <= entries ->
  extends any w w1 ->
  (exists new, owed_of (hist w1) = new ++ owed_of (hist w) /\
     (forall s, s ∈ new -> sq_op s = OP_SEND /\ sq_user_data s = cq_user_data c) /\
     (stop_read (hist w1) = false -> length new = if is_retired c then 0%nat else 1%nat)) ->
  wp b cqe_seen (fun _ w' => pipe room w' /\ cq_of (hist w') = cs) w1.
Proof.
  intros [Ho Hs Hc Hf Hr] Hcq Ho1 Hcq1 Hse Hr1 Hext (new & How & Hnew & Hlen).
  assert (Hin : cq_user_data c ∈ udata (owed_of (hist w))).
  { destruct Ho as [[Hring _] _]. unfold ring_ok in Hring. rewrite Hcq in Hring. apply Hring. }
  assert (Hnz : cq_user_data c <> 0).
  { apply list_elem_of_fmap in Hin as (s & -> & Hin). by apply Hs. }
  destruct (Hc c) as [Hfin _]; [rewrite Hcq; constructor|].
  eapply wp_mono; [apply (wp_only any), cqe_seen_consumes, Hcq1; unfold cqe_seen; by only_tac|].
  cbn beta. intros _ w2 [Hcons Hext2].
  pose proof (client_ops_consumed _ _ _ _ Hcq1 Hcons Ho1) as Ho2.
  destruct Hcons as (_&_&_&How2&Hcq2&_&_&Hse2&Hsq2).
  split; [|done]. split; [done|..].
  - intros s. rewrite How2. intros Hin2.
    eapply elem_of_submseteq in Hin2; [|apply sublist_submseteq, settle_sublist].
    rewrite How in Hin2. apply elem_of_app in Hin2 as [Hin2|Hin2]; [|auto].
    destruct (Hnew _ Hin2) as [? ->]. done.
  - intros c'. rewrite Hcq2. intros Hc'. apply Hc. rewrite Hcq. by constructor.
  - intros Hst2. assert (Hst1 := stop_read_extends _ _ Hext2 Hst2).
    specialize (Hlen Hst1). specialize (Hf (stop_read_extends _ _ Hext Hst1)).
    rewrite How2, Hse2, map_app, Hse, How. unfold settle. rewrite Hfin. unfold retired.
    rewrite List.filter_app, fmap_app. fold (retired (seen_of (hist w))).
    cbn [List.filter map snd]. destruct (is_retired c).
    + destruct new; [|done]. cbn. rewrite <- Hf, (drop_op_perm _ _ Hin). cbn.
      rewrite app_assoc, (Permutation_app_comm _ [cq_user_data c]). done.
    + destruct new as [|s [|]]; try done. destruct (Hnew s) as [_ Hu]; [constructor|].
      cbn. rewrite Hu, Z.eqb_refl, app_nil_r. done.
  - rewrite Hsq2. done.
Qed.

(** The resubmission, with room for it. *)
Lemma resubmit_fills b ctx w :
  (exists c, heap w !! ctx = Some (OCtx c)) -> client_ops w -> sq_used (hist w) < entries ->
  wp b (resubmit_send cfg e uff ctx)
    (fun _ w' => client_ops w' /\ cq_of (hist w') = cq_of (hist w) /\
       seen_of (hist w') = seen_of (hist w) /\ sq_used (hist w') = sq_used (hist w) + 1 /\
       extends any w w' /\
       exists s, owed_of (hist w') = s :: owed_of (hist w) /\ sq_op s = OP_SEND /\
         sq_user_data s = ctx) w.
Proof.
  intros [c Hc] Ho Hroom. eapply wp_mono.
  { apply (wp_only any b (resubmit_send cfg e uff ctx)).
    - unfold resubmit_send, prep_send_any, prep_send_zc, prep_send_standard, prep. by only_tac.
    - unfold resubmit_send. wp_step. eapply wp_load_ctx; [done|].
      apply (send_fills (entries := entries)); [done|by eexists|done..]. }
  cbn beta. by intros _ w' [(?&_&?&?&?&?) ?].
Qed.

Lemma client_on_cqe_pipe b room c cs w :
  0 <= room -> pipe (1 + room) w -> cq_of (hist w) = c :: cs ->
  wp b (client_on_cqe tid cfg e uff c) (fun _ w' => pipe room w' /\ cq_of (hist w') = cs) w.
Proof.
  intros Hroom Hp Hcq. pose proof Hp as [Ho Hs Hc Hf Hr].
  pose proof (proj1 Ho) as [Hring Hlive].
  assert (Hctx := live_ops_head w c cs Hring Hlive Hcq).
  assert (Hnz : cq_user_data c <> 0).
  { unfold ring_ok in Hring. rewrite Hcq in Hring. destruct Hring as [Hin _].
    apply list_elem_of_fmap in Hin as (s & -> & Hin). by apply Hs. }
  destruct (Hc c) as [_ Hnotif]; [rewrite Hcq; constructor|].
  assert (Hre : forall w1, heap w1 = heap w -> quiet (with_stats (stats w1) w) w1 ->
    sq_used (hist w1) = sq_used (hist w) -> extends any w w1 -> is_retired c = false ->
    wp b (stop ← do_call StopLoad;
          (if negb stop then resubmit_send cfg e uff (cq_user_data c);; mret tt else mret tt))
      (fun _ => wp b cqe_seen (fun _ w' => pipe room w' /\ cq_of (hist w') = cs)) w1).
  { intros w1 Hh Hq Hsq Hext Hret. assert (Ho1 : client_ops w1) by (by eapply client_ops_quiet).
    destruct Hq as (_&_&_&How&Hcq1&_&_&Hse). cbn in How, Hcq1, Hse. rewrite Hcq in Hcq1.
    apply (f_equal (map snd)) in Hse.
    do 2 wp_step. set (r := answer (hist w1) StopLoad). set (w2 := log (Ev StopLoad r) w1).
    assert (Hext2 : extends any w w2).
    { eapply extends_trans; [exact Hext|]. exists [Ev StopLoad r]. by repeat constructor. }
    destruct r eqn:Er; cbn [negb].
    - wp_step. apply (pipe_consume b room c cs w); try done.
      + rewrite <- Hsq in Hr. unfold w2. cbn. change (sq_used (_ :: hist w1)) with (sq_used (hist w1)). lia.
      + exists []. split_and!; [done|by intros ? ?%elem_of_nil|done].
    - wp_step. eapply wp_mono; [apply resubmit_fills|].
      + unfold w2. cbn. by rewrite Hh.
      + exact Ho1.
      + change (sq_used (hist w2)) with (sq_used (hist w1)). lia.
      + cbn beta. intros _ w3 (Ho3 & Hcq3 & Hse3 & Hsq3 & Hext3 & s & How3 & Hop & Hu). wp_step.
        apply (pipe_consume b room c cs w); try done.
        * by rewrite Hcq3.
        * by rewrite Hse3.
        * rewrite Hsq3. change (sq_used (hist w2)) with (sq_used (hist w1)). lia.
        * by eapply extends_trans.
        * exists [s]. rewrite How3. split_and!; [by rewrite <- How| |by rewrite Hret].
          by intros s' ->%list_elem_of_singleton. }
  unfold client_on_cqe. rewrite (proj2 (Z.eqb_neq _ _) Hnz), Hnotif. wp_step.
  unfold is_retired in Hre.
  assert (Hnil : forall st, extends any w (with_stats st w)) by (intros st; by exists []).
  destruct (0 <? cq_res c) eqn:Hpos; [do 2 wp_step; by apply Hre|].
  destruct (res_again (cq_res c)) eqn:Hag; [apply Hre; try done; by exists []|].
  assert (Hend : forall w1, hist w1 = hist w -> heap w1 = heap w ->
    wp b cqe_seen (fun _ w' => pipe room w' /\ cq_of (hist w') = cs) w1).
  { intros w1 Hh1 Hp1. apply (pipe_consume b room c cs w); rewrite ?Hh1; try done; try lia.
    - unfold client_ops, sound, ring_ok, live_ops in *. by rewrite Hh1, Hp1.
    - exists []. by rewrite Hh1.
    - exists []. split_and!; [done|by intros ? ?%elem_of_nil|]. unfold is_retired. by rewrite Hpos, Hag. }
  destruct (cq_res c <? 0); wp_steps; by apply Hend.
Qed.

(** Between two turns of the loop the submission queue is empty. *)
Definition pipe_idle (w : World) : Prop := pipe 0 w /\ sq_used (hist w) = 0.

(** Everything in the queue was handed to the kernel. *)
Lemma pipe_submitted room w w' :
  quiet w w' /\ sq_used (hist w') = 0 -> extends any w w' -> pipe room w -> pipe_idle w'.
Proof. intros [Hq Hsq] Hext Hp. split; [|done]. eapply pipe_quiet; eauto. lia. Qed.

Lemma pipe_reaped max w batch w' :
  reaped max w batch w' -> extends any w w' -> max <= entries -> pipe_idle w ->
  pipe (Z.of_nat (length batch)) w'.
Proof.
  intros Hr Hext Hmax [[Ho Hs Hc Hf _] Hsq].
  destruct (client_ops_reaped _ _ _ _ Hr Ho) as [Ho' _].
  pose proof (ring_answers (hist w) (proj1 (proj1 Ho))) as [[new Hpre] _].
  destruct Hr as (_&_&_&How&_&Hse&Hsq'&Hcq&->&_). split; try done.
  - by rewrite How.
  - intros c. rewrite Hcq. intros Hin. rewrite Hpre in Hin.
    apply elem_of_app in Hin as [Hin|Hin]; [auto|].
    apply (send_completes_once (hist w)); [intros s' ?; by apply Hs|].
    by rewrite Hpre, drop_app_length.
  - intros Hst. rewrite How, Hse. apply Hf. by eapply stop_read_extends.
  - rewrite Hsq', Hsq, length_take. lia.
Qed.

Lemma client_iter_pipe b u w :
  pipe_idle w -> wp b (client_iter tid cfg e uff u) (fun _ => pipe_idle) w.
Proof.
  intros Hp. unfold client_iter. do 2 wp_step. set (r := answer (hist w) StopLoad).
  assert (Hp1 : pipe_idle (log (Ev StopLoad r) w)).
  { destruct Hp as [Hp Hsq]. split; [|done]. eapply pipe_quiet; [..|exact Hp].
    - by repeat split.
    - exists [Ev StopLoad r]. by repeat constructor.
    - change (sq_used (hist (log (Ev StopLoad r) w))) with (sq_used (hist w)). lia. }
  wp_step; [by wp_step|]. wp_step.
  eapply wp_mono; [apply (wp_only any), reap_completions_reaps; unfold reap_completions; by only_tac|].
  cbn beta. intros batch w1 [Hr Hext1].
  assert (H1 := pipe_reaped _ _ _ _ Hr Hext1 (proj2 Hdepth) Hp1).
  assert (Hpre : batch `prefix_of` cq_of (hist w1)).
  { destruct Hr as (_&_&_&_&_&_&_&_&->&_). apply prefix_take. }
  destruct batch as [|c batch].
  - wp_step. eapply wp_mono; [apply (wp_only any), submit_and_wait_quiet; unfold submit_and_wait; by only_tac|].
    cbn beta. intros _ w2 [Hq2 Hext2]. wp_step. by eapply pipe_submitted.
  - wp_step. apply (wp_mono _ _ (fun _ => pipe 0)).
    { apply (wp_for_each b _ (fun rest _ w => pipe (Z.of_nat (length rest)) w /\
        rest `prefix_of` cq_of (hist w))).
      - intros c' rest _ w2 [Hp2 [cs Hcs]]. eapply wp_mono.
        + apply (client_on_cqe_pipe b (Z.of_nat (length rest)) c' (rest ++ cs)); [lia| |done].
          replace (1 + Z.of_nat (length rest)) with (Z.of_nat (length (c' :: rest))) by (cbn; lia).
          exact Hp2.
        + cbn beta. intros _ w3 [Hp3 Hcq3]. split; [done|]. rewrite Hcq3. by apply prefix_app_r.
      - by intros _ w2 [? _].
      - done. }
    cbn beta. intros _ w2 H2. wp_step.
    eapply wp_mono; [apply (wp_only any), submit_quiet; unfold submit; by only_tac|].
    cbn beta. intros _ w3 [Hq3 Hext3]. wp_step. by eapply pipe_submitted.
Qed.

(** The states the loop goes through, one turn after the other. *)
Inductive client_turns : World -> World -> Prop :=
  | turns_none w : client_turns w w
  | turns_more w1 w2 w3 :
      client_turns w1 w2 -> client_iter tid cfg e uff tt w2 = Ret (inl tt) w3 -> client_turns w1 w3.

Lemma client_turns_pipe w w' : client_turns w w' -> pipe_idle w -> pipe_idle w'.
Proof.
  induction 1 as [|w1 w2 w3 _ IH Hrun]; [done|]. intros Hp.
  exact (wp_run partial _ _ _ _ _ (client_iter_pipe partial tt w2 (IH Hp)) Hrun).
Qed.
End Pipeline.

(** * The setup fills the pipeline *)

Section Fill.
Context {P : Platform} {L : KernelLaws P} (entries : Z) {SL : SubmissionLaws P entries}.

(** The contexts of a pool are live, distinct and not null. *)
Definition pool_ok (pool : list (Z * Z)) (w : World) : Prop :=
  NoDup pool.*2 /\ pool_live pool w /\ 0 < next_obj w /\
  forall p, p ∈ pool.*2 -> exists n, p = ptr_of n /\ 0 < n < next_obj w.

Lemma client_pool_full b cfg tid fd m w :
  holds m [] w -> 0 < next_obj w ->
  wp b (for_each (zseq (in_flight cfg)) (fun i pool =>
          bc ← new_buffer_ctx SEND cfg tid fd i; mret (pool ++ [bc])) [])
    (fun pool w' => pool_ok pool w' /\ length pool = length (zseq (in_flight cfg)) /\
       ghost_of (hist w') = ghost_of (hist w) /\ sq_used (hist w') = sq_used (hist w)) w.
Proof.
  intros Hh Hn. eapply (wp_for_each b _ (fun rest pool w' => holds m pool.*1 w' /\ pool_ok pool w' /\
     (length pool + length rest = length (zseq (in_flight cfg)))%nat /\
     ghost_of (hist w') = ghost_of (hist w) /\ sq_used (hist w') = sq_used (hist w))).
  - intros i rest pool w1 (Hh1 & (Hnd & Hp & Hn1 & Hptr) & Hlen & Hg & Hsq). wp_step.
    wp_use (new_buffer_ctx_spec _ _ _ _ _ _ _ _ _ Hh1) as (H2&Hg2&_&Hsq2&_&Hbc&Hn2&Hheap).
    wp_step. split_and!; [by rewrite fmap_app| |rewrite length_app; cbn in *; lia|congruence|congruence].
    unfold pool_ok. rewrite fmap_app. cbn. split_and!; [|by eapply pool_live_insert|lia|].
    + apply NoDup_app. split_and!; [done| |apply NoDup_singleton].
      intros p Hin ->%list_elem_of_singleton. destruct (Hptr _ Hin) as (n & Hpn & Hlt).
      rewrite Hbc in Hpn. unfold ptr_of in Hpn. lia.
    + intros p [Hin| ->%list_elem_of_singleton]%elem_of_app.
      * destruct (Hptr _ Hin) as (n & -> & ?). exists n. split; [done|lia].
      * exists (next_obj w1). split; [done|lia].
  - intros pool w' (_ & Hok & Hlen & Hg & Hsq). cbn in Hlen. split_and!; try done. lia.
  - split_and!; try done. cbn. split_and!; [constructor|by intros ? ?%elem_of_nil|done|].
    by intros ? ?%elem_of_nil.
Qed.

(** Every context of the pool gets its request. *)
Lemma first_sends_full b cfg e fd uff pool w :
  zero_copy cfg = false -> Z.of_nat (length pool) <= entries -> sq_used (hist w) = 0 ->
  ghost_of (hist w) = mkGhost [] [] (fds_of (hist w)) no_bufs [] -> pool_ok pool w ->
  wp b (for_each (imap (fun i bc => (Z.of_nat i, bc)) pool) (fun ibc _ =>
          prep_send_any cfg e fd ibc.2.1 (buf_size cfg) ibc.1 ibc.2.2 uff;; mret tt) tt)
    (fun _ w' => pipe entries pool.*2 0 w') w.
Proof.
  intros Hz Hlen Hsq Hg (Hnd & Hlive & Hn & Hptr).
  apply (wp_for_each b _ (fun rest _ w' => exists done,
    imap (fun i bc => (Z.of_nat i, bc)) pool = done ++ rest /\
    heap w' = heap w /\ client_ops w' /\ cq_of (hist w') = [] /\ seen_of (hist w') = [] /\
    udata (owed_of (hist w')) = rev (done.*2.*2) /\ sq_used (hist w') = Z.of_nat (length done) /\
    forall s, s ∈ owed_of (hist w') -> sq_op s = OP_SEND /\ sq_user_data s <> 0)).
  - intros [i bc] rest _ w1 (done & Hall & Hh & Ho & Hcq & Hse & Hu & Hsq1 & Hs). cbn [fst snd].
    assert (Hbc : bc ∈ pool).
    { assert (Hin : (i, bc) ∈ imap (fun i bc => (Z.of_nat i, bc)) pool) by (rewrite Hall; set_solver).
      apply elem_of_lookup_imap in Hin as (j & bc' & [= _ ->] & Hj). by eapply list_elem_of_lookup_2. }
    assert (Hroom : sq_used (hist w1) < entries).
    { rewrite Hsq1. apply (f_equal length) in Hall. rewrite length_imap, length_app in Hall.
      cbn in Hall. lia. }
    assert (Hnz : bc.2 <> 0).
    { destruct (Hptr bc.2) as (n & -> & ?); [by apply list_elem_of_fmap_2|]. unfold ptr_of. lia. }
    wp_step. eapply wp_mono; [apply (send_fills (entries := entries)); try done|].
    { rewrite Hh. by apply Hlive. }
    cbn beta. intros _ w2 (Ho2 & Hh2 & Hcq2 & Hse2 & Hsq2 & s & How & Hop & Hud).
    wp_step. exists (done ++ [(i, bc)]). split_and!; try congruence.
    + by rewrite Hall, <- app_assoc.
    + rewrite How. unfold udata in *. cbn [app fmap list_fmap]. rewrite Hud, !fmap_app, rev_app_distr.
      cbn. by rewrite Hu.
    + rewrite Hsq2, Hsq1, length_app. cbn. lia.
    + intros s'. rewrite How. intros [->|Hin]%elem_of_cons; [|by apply Hs]. by rewrite Hud.
  - intros _ w' (done & Hall & Hh & Ho & Hcq & Hse & Hu & Hsq1 & Hs). rewrite app_nil_r in Hall.
    assert (Hd : done.*2 = pool).
    { rewrite <- Hall, fmap_imap. clear. induction pool as [|x pool IH] using rev_ind; [done|].
      rewrite imap_app. cbn. by rewrite IH. }
    split; [done|exact Hs|rewrite Hcq; by intros ? ?%elem_of_nil| |].
    + intros _. rewrite Hu, Hse, Hd, app_nil_r. symmetry. apply Permutation_rev.
    + rewrite Hsq1. apply (f_equal length) in Hall. rewrite length_imap in Hall. lia.
  - exists []. rewrite Hg. cbn. split_and!; try done; [|by intros ? ?%elem_of_nil].
    apply client_ops_empty; by rewrite Hg.
Qed.

Lemma UringEngine_new_empty b d sqpoll w :
  ring_init b d -> wp b (UringEngine_new d sqpoll) (fun _ w' => sq_used (hist w') = 0) w.
Proof.
  intros Hb. unfold UringEngine_new. do 2 wp_step. wp_step; [|by wp_step].
  wp_step. wp_step. wp_step; [|by wp_step].
  destruct Hb as [Hb|Hb]; [by apply wp_throw|]. apply Z.ltb_lt in E0.
  match type of E0 with answer ?t _ < 0 => pose proof (queue_init_ok t) end. lia.
Qed.

Lemma client_setup_pipe b tid cfg sockfd m w :
  ring_init b (queue_depth cfg) -> zero_copy cfg = false -> 0 <= in_flight cfg <= entries -> 0 < next_obj w ->
  mem_of (hist w) = Some m ->
  wp b (client_setup tid cfg sockfd)
    (fun r w' => pipe_idle entries r.2.*2 w' /\ NoDup r.2.*2 /\
       Z.of_nat (length r.2) = in_flight cfg) w.
Proof.
  intros Hb Hz Hd Hn Hm. unfold client_setup. wp_step.
  eapply wp_mono; [apply (wp_conj _ _ _ _ _ (UringEngine_new_spec b _ _ _ Hb)
    (UringEngine_new_empty b _ _ _ Hb))|].
  cbn beta. intros e w1 [[[sq He] (_&Hn1&_&Hg1&Hm1&_)] Hsq1]. wp_step.
  wp_use (register_file_opt _ _ _ _ _ _) as (Hr2 & (_&Hn2&_&Hg2&Hsq2&_) & Hm2); [by subst e|].
  destruct a as [uff e1]. cbn in Hr2. rename w' into w2. wp_step.
  eapply wp_mono; [apply (client_pool_full _ _ _ _ m); [apply holds_none; congruence|congruence]|].
  cbn beta. intros pool w3 (Hok3 & Hlen & Hg3 & Hsq3). wp_step.
  wp_use (register_buffers_opt _ _ _ _ _ _ _) as (_ & (Hh4&Hn4&_&Hg4&Hsq4&_) & _); [done|].
  rename a into e2, w' into w4.
  assert (Hlen' : Z.of_nat (length pool) = in_flight cfg) by (rewrite Hlen; apply length_zseq; lia).
  assert (Hok4 : pool_ok pool w4).
  { destruct Hok3 as (?&Hl&?&Hp). unfold pool_ok, pool_live. by rewrite Hh4, Hn4. }
  wp_step. eapply wp_mono.
  { apply first_sends_full; try done; [lia|congruence|]. rewrite Hg4, Hg3, Hg2, Hg1. done. }
  cbn beta. intros _ w5 H5. wp_step.
  eapply wp_mono; [apply (wp_only any), submit_quiet; unfold submit; by only_tac|].
  cbn beta. intros _ w6 [Hq6 Hext6]. wp_step. cbn.
  split_and!; [by eapply pipe_submitted|apply Hok4|done].
Qed.
End Fill.
