(* ===== verification/Samples.v ===== *)
(** A concrete platform on which every law of the development holds, for the
    witnesses and the worked examples: requests complete one at a time, peers
    send a forward handshake, the stop flag is set after a number of calls. *)

From S2P Require Import Prelude Stats Sys Only Kernel Platforms NetUtils Config Engine Zcrx.
From S2P Require Import Client Server ClientRun Reporter Main.

(** A clock that advances with the time slept and never runs backwards. *)
Definition clock (t : history) : Z :=
  foldr (fun e n => match e with
                    | Ev SteadyNow s => Z.max s n
                    | Ev (SleepFor ns) _ => ns + n
                    | _ => n
                    end) 0 t.

(** The next completion of a request. *)
Definition serve (t : history) (s : sqe) : list cqe :=
  let u := sq_user_data s in
  match sq_op s with
  | OP_ACCEPT => [mkCqe u (1 + above (fds_of t)) 0 0]
  | OP_SEND | OP_RECV => [mkCqe u 1000 0 0]
  | OP_SEND_ZC | OP_SEND_ZC_FIXED =>
      [mkCqe u 1000 IORING_CQE_F_MORE 0; mkCqe u 0 IORING_CQE_F_NOTIF 0]
  | OP_RECV_MULTISHOT =>
      match lent_of t with
      | bid :: _ => [mkCqe u 200 (IORING_CQE_F_BUFFER + IORING_CQE_F_MORE + 2 ^ 16 * bid) 0]
      | [] => [mkCqe u (- ENOBUFS) 0 0]
      end
  | OP_RECV_ZC => [mkCqe u 300 IORING_CQE_F_MORE 4096]
  end.

Definition sample_script (calls : nat) : script := {|
  sc_stop t := bool_decide (calls <= length t)%nat;
  sc_now t := clock t;
  sc_cqes t := match cq_of t, owed_of t with
               | [], s :: _ => serve t s
               | l, _ => l
               end;
  sc_sqe _ := true;
  sc_socket t := 3 + above (fds_of t);
  sc_recv _ _ _ := inr [0; 0; 0; 0; 10];
  sc_cq_size := 16;
  sc_other := 1
|}.

Definition sample (calls : nat) : Platform := scripted (sample_script calls).

Section SampleLaws.
Variable calls : nat.

#[export] Instance sample_stop : StopLaws (sample calls) calls.
Proof. split. intros t Ht. cbn. by apply bool_decide_eq_true. Qed.
#[export] Instance sample_running : RunningLaws (sample calls) calls.
Proof. split. intros t Ht. cbn. by rewrite bool_decide_true. Qed.
#[export] Instance sample_ring d : RingSetup (sample calls) d.
Proof. by split. Qed.
#[export] Instance sample_send : SendProgress (sample calls) 0.
Proof. by split. Qed.
#[export] Instance sample_recv : RecvProgress (sample calls) 0.
Proof. by split. Qed.
#[export] Instance sample_submission n : SubmissionLaws (sample calls) n.
Proof. by split. Qed.
Lemma sample_batch n : 16 <= n -> BatchLaws (sample calls) n.
Proof.
  intros Hn. split. intros t Ht. cbn -[length]. case_bool_decide as Hl; [|done].
  destruct Hl as (_&_&_&_&_&_&_&Hlen). cbn -[length] in *. lia.
Qed.

#[export] Instance sample_clock : ClockLaws (sample calls).
Proof.
  split. intros l s t. cbn. induction l as [|[c r] l IH]; [unfold slept, clock; cbn; lia|].
  unfold slept, clock in *. cbn [app foldr] in *. destruct c; cbn in *; lia.
Qed.

Lemma sample_mmap t n : answer (Platform := sample calls) t (Mmap n) <> None.
Proof. done. Qed.
End SampleLaws.

#[export] Instance sample_laws calls : KernelLaws (sample calls).
Proof. apply scripted_laws. Qed.
#[export] Instance sample_buffers calls : BufferLaws (sample calls).
Proof. apply scripted_buffers. Qed.
#[export] Instance sample_select calls : SelectLaws (sample calls).
Proof. apply scripted_select. Qed.
#[export] Instance sample_maps calls : MapLaws (sample calls).
Proof. apply scripted_maps. Qed.

(** An empty world with one worker, and one whose first socket is open. *)
Definition start_world : World := mkWorld [] ∅ 1 (StatsCollector_new 1 1).
Definition open_world : World := mkWorld [Ev (Socket 1) 3] ∅ 1 (StatsCollector_new 1 1).

Lemma start_world_ok : world_ok start_world.
Proof. unfold world_ok. split_and!; try done; by eexists. Qed.
Lemma open_world_ok : world_ok open_world.
Proof. unfold world_ok. split_and!; try done; by eexists. Qed.

Lemma start_world_fresh : fresh_worker start_world.
Proof. split; [apply start_world_ok|done]. Qed.
