(* ===== verification/PropsClient.v ===== *)
(** Theorems about the client worker, for every platform that keeps the laws, with
    a run on a concrete platform for each. *)

From S2P Require Import Prelude Stats Sys Only Kernel Platforms NetUtils Config Engine Zcrx.
From S2P Require Import Client ClientProofs ZcrxProofs ClientRun Accounting Samples.

Section Client.
Context {P : Platform} {L : KernelLaws P} {B : BufferLaws P} {ML : MapLaws P}.

(** C1: with any configuration that the command line can produce, whose ring the kernel
    accepts, a client worker runs to its end once the stop flag is set and sends stop
    being told to try again: it never reads through a pointer to a freed context, its
    counters have grown by exactly the account of the completions it consumed, and every
    descriptor, buffer and mapping it obtained is released, each once -- whatever
    completions, short sends and errors the kernel answers with. *)
Theorem run_client_correct K {SD : SendProgress P K} N {SP : StopLaws P N} fuel tid opts cfg w :
  RingSetup P (queue_depth cfg) -> (N < fuel)%nat -> (5 + K < fuel)%nat ->
  parse_args opts = inl cfg -> zcrx_ring_laws cfg -> fresh_worker w ->
  exists w', run_client fuel tid cfg w = Ret tt w' /\ client_done tid cfg w w'.
Proof.
  intros RS HN HK [Hr Hc]%parse_args_sound Hz Hw.
  pose proof Hw as [(Hn & [m Hm] & [maps Hmaps] & Hcl) _].
  destruct (wp_total_run _ _ _ (run_client_spec total fuel tid cfg m maps w (or_intror RS)
    (or_intror (ex_intro _ N (conj SP HN))) (or_intror (ex_intro _ K (conj SD HK)))
    Hr Hc Hz Hn Hm Hmaps Hcl)) as ([] & w' & ? & ?).
  destruct Hr as (_&_&_&_&_&_&_&Hif&_). exists w'. split; [done|]. apply client_ends_done; [lia|done..].
Qed.

(** C2: nothing but the contract of the ring is needed for safety: at any point of
    any run -- the stop flag never set, the ring refused, sends that block for ever --
    the client has not faulted, and if it does return, it leaves everything released
    and its counters exact. *)
Theorem run_client_safe fuel tid opts cfg w :
  parse_args opts = inl cfg -> zcrx_ring_laws cfg -> fresh_worker w ->
  (forall f w', run_client fuel tid cfg w <> Fault f w') /\
  (forall u w', run_client fuel tid cfg w = Ret u w' -> client_done tid cfg w w').
Proof.
  intros [Hr Hc]%parse_args_sound Hz Hw. pose proof Hw as [(Hn & [m Hm] & [maps Hmaps] & Hcl) _].
  apply (wp_partial_run (run_client fuel tid cfg) (fun _ => client_done tid cfg w)).
  eapply wp_mono; [eapply run_client_spec; try done; by left|]. cbn beta. intros _ w' H'.
  destruct Hr as (_&_&_&_&_&_&_&Hif&_). apply client_ends_done; [lia|done..].
Qed.

(** C6: the byte counter of a forward client is exact: when its loop ends, the slot
    of the worker has grown, modulo 2^64, by the sum of the positive results of the
    completions it consumed, zero-copy notifications excluded. *)
Theorem run_client_send_bytes N {SP : StopLaws P N} fuel tid cfg sockfd w t :
  RingSetup P (queue_depth cfg) ->
  (N < fuel)%nat -> world_ok w -> sockfd ∈ fds_of (hist w) ->
  0 <= tid < num_threads_ (stats w) -> slot_of tid (stats w) = Some t -> slot_ok t ->
  exists w' t', run_client_send fuel tid cfg sockfd w = Ret tt w' /\
    slot_of tid (stats w') = Some t' /\
    bytes_transferred t' =
      u64 (bytes_transferred t + bytes_in (seen_of (hist w') ≫= client_ops_of tid cfg)).
Proof.
  intros RS HN (Hn & [m Hm] & _ & Hcl) Hfd Htid Ht Hok.
  destruct (wp_total_run _ _ _ (run_client_send_spec total fuel tid cfg sockfd m w (or_intror RS)
    (or_intror (ex_intro _ N (conj SP HN))) Hm Hcl Hfd)) as ([] & w' & Hrun & Hs & _).
  destruct (accounted_bytes (client_account tid cfg) (client_ops_of tid cfg) tid
    (seen_of (hist w')) (stats w) t) as (t' & Ht' & Hb);
    auto using client_account_ops, client_ops_own.
  exists w', t'. by rewrite Hs.
Qed.

(** C7: one turn of the reverse client's loop keeps its invariant: every request in
    flight points at a live context, no descriptor comes or goes, the counters are the
    account of the completions consumed so far, and every provided buffer of the pool
    is published to the kernel or in a completion not consumed yet -- none is lost and
    none is returned twice. *)
Theorem reverse_iter_preserves tid cfg e ms sockfd s0 F pool pc w :
  reverse_inv tid ms s0 F pool w ->
  exists r w', reverse_iter tid cfg e ms sockfd pc w = Ret r w' /\
               reverse_inv tid ms s0 F pool w'.
Proof.
  intros HI. apply (wp_total_run _ (fun _ => reverse_inv tid ms s0 F pool)).
  by apply reverse_iter_ok.
Qed.
End Client.

(** * On the sample platform *)

Definition reverse_cfg : Config := set_reverse true Config_default.
Definition zcrx_cfg : Config := set_reverse true (set_use_zcrx true (set_zcrx_ifname "eth0" Config_default)).

Lemma zcrx_sample_laws cfg calls :
  zcrx_cq_entries cfg = 8192 -> zcrx_ring_laws (P := sample calls) cfg.
Proof. intros H _ _. rewrite H. split; [apply _|apply sample_batch; lia]. Qed.

Lemma run_client_correct_witness :
  exists w', run_client (P := sample 150) 200 0 zcrx_cfg start_world = Ret tt w' /\
             client_done 0 zcrx_cfg start_world w'.
Proof.
  apply (run_client_correct (P := sample 150) 0 150 200 0
    [OptReverse; OptZcrx; OptZcrxIf "eth0"] zcrx_cfg start_world).
  - apply sample_ring.
  - lia.
  - lia.
  - reflexivity.
  - by apply zcrx_sample_laws.
  - apply start_world_fresh.
Defined.

Lemma run_client_safe_witness :
  (forall f w', run_client (P := sample 150) 40 0 reverse_cfg start_world <> Fault f w') /\
  (forall u w', run_client (P := sample 150) 40 0 reverse_cfg start_world = Ret u w' ->
     client_done 0 reverse_cfg start_world w').
Proof.
  apply (run_client_safe (P := sample 150) 40 0 [OptReverse] reverse_cfg start_world).
  - reflexivity.
  - by apply zcrx_sample_laws.
  - apply start_world_fresh.
Defined.

Lemma run_client_send_bytes_witness :
  exists w' t', run_client_send (P := sample 150) 200 0 Config_default 3 open_world = Ret tt w' /\
    slot_of 0 (stats w') = Some t' /\
    bytes_transferred t' =
      u64 (0 + bytes_in (seen_of (hist w') ≫= client_ops_of 0 Config_default)).
Proof.
  apply (run_client_send_bytes (P := sample 150) 150 200 0 Config_default 3 open_world
    ThreadStats_init).
  - apply sample_ring.
  - lia.
  - apply open_world_ok.
  - vm_compute. done.
  - cbn. lia.
  - reflexivity.
  - repeat split; cbn; lia.
Defined.

(** A reverse client with one provided buffer and its request in flight. *)
Definition armed_engine : UringEngine := set_recv_ring 4096 8192 1 64 0 (blank_engine 256 false).
Definition armed_world : World :=
  mkWorld [Ev (PutSqe (recv_multishot_sqe armed_engine 3 16 false)) tt;
           Ev (BufRingAdvance 4096 1) tt; Ev (BufRingAdd 4096 8192 64 0 0 0) tt; Ev (Socket 1) 3]
    {[16 := OCtx (mkIOContext RECV 3 0 0 0 0)]} 2 (StatsCollector_new 1 1).

Lemma armed_world_inv : reverse_inv 0 true (StatsCollector_new 1 1) {[3]} [0] armed_world.
Proof.
  assert (Howed : owed_of (hist armed_world) = [recv_multishot_sqe armed_engine 3 16 false])
    by done.
  unfold reverse_inv, client_ops, sound, live_ops. rewrite Howed. split_and!; try done.
  - intros s ->%list_elem_of_singleton. by eexists.
  - by intros s ->%list_elem_of_singleton.
  - by intros s ->%list_elem_of_singleton.
Qed.

Lemma reverse_iter_preserves_witness :
  exists r w', reverse_iter (P := sample 150) 0 Config_default armed_engine true 3 false
                 armed_world = Ret r w' /\
               reverse_inv 0 true (StatsCollector_new 1 1) {[3]} [0] w'.
Proof.
  apply (reverse_iter_preserves (P := sample 150)). exact armed_world_inv.
Defined.
