(* ===== verification/PropsPipeline.v ===== *)
(** The theorem that the forward client's pipeline stays full. *)

From S2P Require Import Prelude Stats Sys Only Kernel Platforms NetUtils Config Engine Zcrx Client.
From S2P Require Import ClientProofs ZcrxServer Pipeline Samples.

(** C39: with plain sends (no [-Z]) and a submission queue that has room for [in_flight]
    entries (so not with [-q 16]), no buffer of a forward client drops out of the
    rotation: in every state its loop goes through after the setup, as long as the stop
    flag was not read as set, the contexts with a request in flight and those whose last
    send ended with 0 or an error are together exactly the [in_flight] contexts of the
    pool, each once.  So without failed sends there are always [in_flight] requests with
    the kernel. *)
Theorem pipeline_stays_full {P : Platform} {L : KernelLaws P} {SS : SingleShotSend P} entries
    {SL : SubmissionLaws P entries} tid cfg sockfd e uff pool w w1 w2 :
  zero_copy cfg = false -> 0 <= in_flight cfg <= entries -> world_ok w ->
  client_setup tid cfg sockfd w = Ret (e, uff, pool) w1 -> client_turns tid cfg e uff w1 w2 ->
  stop_read (hist w2) = false ->
  NoDup pool.*2 /\ Z.of_nat (length pool) = in_flight cfg /\
  udata (owed_of (hist w2)) ++ retired (seen_of (hist w2)) ≡ₚ pool.*2.
Proof.
  intros Hz Hd (Hn & [m Hm] & _) Hset Hturns Hstop.
  assert (Hw : wp partial (client_setup tid cfg sockfd)
    (fun r w' => pipe_idle entries r.2.*2 w' /\ NoDup r.2.*2 /\
       Z.of_nat (length r.2) = in_flight cfg) w)
    by (apply client_setup_pipe with (m := m); try done; by left).
  destruct (wp_run _ _ _ _ _ _ Hw Hset) as (Hidle & Hnd & Hlen). split_and!; try done.
  destruct (client_turns_pipe entries tid cfg e uff pool.*2 Hz Hd _ _ Hturns Hidle) as [Hp _].
  by apply (p_full _ _ _ _ Hp).
Qed.

(** * On the sample platform *)

#[export] Instance sample_single_shot calls : SingleShotSend (sample calls).
Proof.
  split. intros t c Hops. cbn. case_bool_decide; [|rewrite drop_all; by intros ?%elem_of_nil].
  destruct (cq_of t) as [|c' cs] eqn:Hcq; [|rewrite drop_all; by intros ?%elem_of_nil].
  destruct (owed_of t) as [|s l] eqn:Ho; [by intros ?%elem_of_nil|]. unfold serve.
  rewrite (Hops s ltac:(constructor)). cbn. by intros ->%list_elem_of_singleton.
Qed.

(** A client with a pipeline of two. *)
Definition small_cfg : Config :=
  mkConfig CLIENT TCP "127.0.0.1" 5201 10 1 64 16 2 1472 false false true true true false false false
    "" 0 (2 ^ 28) 8192 8192 1 [].

(** A setup and a turn of the loop, which completes one send and resubmits it. *)
Lemma pipeline_stays_full_witness :
  match client_setup (P := sample 100) 0 small_cfg 3 open_world with
  | Ret (e, uff, pool) w1 =>
      match client_iter (P := sample 100) 0 small_cfg e uff tt w1 with
      | Ret (inl tt) w2 =>
          NoDup pool.*2 /\ Z.of_nat (length pool) = 2 /\
          udata (owed_of (hist w2)) ++ retired (seen_of (hist w2)) ≡ₚ pool.*2
      | _ => False
      end
  | _ => False
  end.
Proof.
  destruct (client_setup (P := sample 100) 0 small_cfg 3 open_world)
    as [[[e uff] pool] w1| | | |] eqn:Hset; try (vm_compute in Hset; discriminate Hset).
  destruct (client_iter (P := sample 100) 0 small_cfg e uff tt w1)
    as [[[]|[]] w2| | | |] eqn:Hit.
  1: { apply (pipeline_stays_full (P := sample 100) 16 0 small_cfg 3 e uff pool open_world w1 w2).
       - reflexivity.
       - cbn. lia.
       - apply open_world_ok.
       - exact Hset.
       - eapply turns_more; [apply turns_none|exact Hit].
       - vm_compute in Hset. injection Hset as <- <- <- <-. vm_compute in Hit.
         injection Hit as <-. vm_compute. reflexivity. }
  all: vm_compute in Hset; injection Hset as <- <- <- <-; vm_compute in Hit; discriminate Hit.
Defined.
