(* ===== verification/PropsServer.v ===== *)
(** Theorems about the server workers: the default TCP server and the zero-copy
    receive server. *)

From S2P Require Import Prelude Stats Sys Only Kernel Platforms NetUtils Config Engine Zcrx.
From S2P Require Import Client Server ClientProofs ZcrxProofs ClientRun ZcrxServer ServerSessions.
From S2P Require Import ServerProofs ServerRun Accounting Samples.

Section Server.
Context {P : Platform} {L : KernelLaws P} {B : BufferLaws P} {S : SelectLaws P} {ML : MapLaws P}.

(** C3: the TCP server in its default mode, multishot receives into provided buffers,
    serves any mixture of sending and receiving peers, good handshakes and bad ones, and
    ends when told to: no completion is ever matched with a freed context, its counters
    have grown by exactly the account of the completions it consumed, all provided buffers
    are published to the kernel again, memory is released, and every descriptor is closed
    once -- the listening socket, the connections that ended and those still open -- except
    for connections whose accept completion was not looked at before the end.  The two
    exceptions are told from the calls made: the sweep of deadlines closed a connection
    with sends in flight ([swept]), or the provided buffers could not be set up, so that
    the server went on with single-shot receives ([fell_back]). *)
Theorem run_server_correct K {RV : RecvProgress P K} N {SP : StopLaws P N} fuel tid opts cfg w :
  RingSetup P (queue_depth cfg) ->
  (N < fuel)%nat -> (5 + K < fuel)%nat -> parse_args opts = inl cfg ->
  use_zcrx cfg = false -> multishot_recv cfg = true -> protocol cfg = TCP -> fresh_worker w ->
  (exists w', run_server fuel tid cfg w = Ret tt w' /\ server_done tid cfg w w') \/
  swept (hist (world_of (run_server fuel tid cfg w))) = true \/
  fell_back (hist (world_of (run_server fuel tid cfg w))) = true.
Proof.
  intros RS HN HK [Hr _]%parse_args_sound Hz Hms Htcp Hw. destruct Hr as (_&_&Hbs&_&_&_&_&Hif&_).
  destruct (wp_unless_run known_defect (run_server fuel tid cfg) (fun _ => server_done tid cfg w) w)
    as [([] & w' & ? & ?)|?]; [|by eauto|by right].
  apply run_server_multishot_spec; try done; try lia; [apply unless_known_defect|by right|..];
    right; eauto.
Qed.

(** C4: the same server is safe at any point of any run, whether or not it is ever told to
    stop, the ring can be set up, or peers complete their handshake: it faults only after
    one of the two exceptions of the previous theorem, and if it returns without them, it
    leaves everything released and its counters exact. *)
Theorem run_server_safe fuel tid opts cfg w :
  parse_args opts = inl cfg ->
  use_zcrx cfg = false -> multishot_recv cfg = true -> protocol cfg = TCP -> fresh_worker w ->
  (forall f w', run_server fuel tid cfg w = Fault f w' ->
     swept (hist w') = true \/ fell_back (hist w') = true) /\
  (forall u w', run_server fuel tid cfg w = Ret u w' ->
     (swept (hist w') = true \/ fell_back (hist w') = true) \/ server_done tid cfg w w').
Proof.
  intros [Hr _]%parse_args_sound Hz Hms Htcp Hw. destruct Hr as (_&_&Hbs&_&_&_&_&Hif&_).
  apply (wp_safe_unless_run known_defect (run_server fuel tid cfg)
    (fun _ w' => known_defect (hist w') \/ server_done tid cfg w w')).
  apply run_server_multishot_spec; try done; try lia; [apply safe_unless_known_defect|by left..].
Qed.

(** C5: the zero-copy receive server ends when told to; on every path, failures of its
    setup included, it has closed its listening socket and every connection once and
    unmapped both regions, and its counters have grown by exactly the account of the
    completions it consumed.  It dereferences no freed connection and no missing
    submission entry, unless one look at the completion queue shows as many completions
    as the queue has entries ([crowded]): rearming them all exhausts the submission
    queue, whose entry is then used without a check. *)
Theorem run_server_zcrx_correct N {SP : StopLaws P N} fuel tid cfg w :
  (N < fuel)%nat -> 0 < zcrx_cq_entries cfg -> SubmissionLaws P (zcrx_cq_entries cfg) ->
  fresh_worker w ->
  (exists w', run_server_zcrx fuel tid cfg w = Ret tt w' /\ zcrx_server_done tid w w') \/
  crowded (zcrx_cq_entries cfg) (hist (world_of (run_server_zcrx fuel tid cfg w))) = true.
Proof.
  intros HN Hce SL [(Hn & [m Hm] & [maps Hmaps] & Hcl) Hg]. set (n := zcrx_cq_entries cfg) in *.
  destruct (wp_unless_run (fun t => crowded n t = true) (run_server_zcrx fuel tid cfg)
    (fun _ => zcrx_server_done tid w) w) as [([] & w' & ? & ?)|?]; [|by eauto|by right].
  apply (run_server_zcrx_spec _ (fun t => crowded n t = true) fuel tid cfg m maps); try done; try (fold n; lia).
  - split; [done|]. intros l t. apply crowded_app.
  - right. eauto.
  - by rewrite Hg.
Qed.
End Server.

(** * On concrete platforms *)

Definition server_cfg : Config := set_mode SERVER Config_default.
Definition zcrx_server_cfg : Config := set_use_zcrx true (set_zcrx_ifname "eth0" server_cfg).

(** Peers with even descriptors send, those with odd ones ask for data, for ten
    seconds; the requests in flight are served in turn. *)
Definition mixed_script (calls : nat) : script := {|
  sc_stop t := bool_decide (calls <= length t)%nat;
  sc_now t := clock t;
  sc_cqes t := match cq_of t with
               | [] => match owed_of t !! (length t `mod` length (owed_of t))%nat with
                       | Some s => serve t s
                       | None => []
                       end
               | l => l
               end;
  sc_sqe _ := true;
  sc_socket t := 3 + above (fds_of t);
  sc_recv _ fd _ := inr [Z.modulo fd 2; 0; 0; 0; 10];
  sc_cq_size := 16;
  sc_other := 1
|}.
Definition mixed_peers (calls : nat) : Platform := scripted (mixed_script calls).

Lemma mixed_progress calls : RecvProgress (mixed_peers calls) 0.
Proof. by split. Qed.
Lemma mixed_stop calls : StopLaws (mixed_peers calls) calls.
Proof. split. intros t Ht. cbn. by apply bool_decide_eq_true. Qed.

Lemma run_server_correct_witness :
  exists w', run_server (P := mixed_peers 400) 500 0 server_cfg start_world = Ret tt w' /\
             server_done 0 server_cfg start_world w'.
Proof.
  destruct (run_server_correct (P := mixed_peers 400) (L := scripted_laws _) (B := scripted_buffers _)
    (S := scripted_select _) 0 (RV := mixed_progress 400) 400 (SP := mixed_stop 400)
    500 0 [OptServer] server_cfg start_world) as [H|[H|H]].
  - by split.
  - lia.
  - lia.
  - reflexivity.
  - reflexivity.
  - reflexivity.
  - reflexivity.
  - apply start_world_fresh.
  - exact H.
  - vm_compute in H. discriminate H.
  - vm_compute in H. discriminate H.
Defined.

Lemma run_server_safe_witness :
  (forall f w', run_server (P := sample 150) 30 0 server_cfg start_world = Fault f w' ->
     swept (hist w') = true \/ fell_back (hist w') = true) /\
  (forall u w', run_server (P := sample 150) 30 0 server_cfg start_world = Ret u w' ->
     (swept (hist w') = true \/ fell_back (hist w') = true) \/
     server_done 0 server_cfg start_world w').
Proof.
  apply (run_server_safe (P := sample 150) 30 0 [OptServer] server_cfg start_world).
  - reflexivity.
  - reflexivity.
  - reflexivity.
  - reflexivity.
  - apply start_world_fresh.
Defined.

Lemma run_server_zcrx_correct_witness :
  exists w', run_server_zcrx (P := sample 150) 200 0 zcrx_server_cfg start_world = Ret tt w' /\
             zcrx_server_done 0 start_world w'.
Proof.
  destruct (run_server_zcrx_correct (P := sample 150) 150 200 0 zcrx_server_cfg start_world)
    as [H|H].
  - lia.
  - cbn. lia.
  - apply sample_submission.
  - apply start_world_fresh.
  - exact H.
  - vm_compute in H. discriminate H.
Defined.
