(* ===== verification/PropsZcrx.v ===== *)
(** Theorems about zero-copy receive: the refill queue, the mapped regions, the
    tagged pointers, the accounting. *)

From S2P Require Import Prelude Stats Sys Only Kernel Platforms NetUtils Config Engine Zcrx.
From S2P Require Import ClientProofs ZcrxProofs ZcrxServer Accounting Samples.

Section Zcrx.
Context {P : Platform}.

(** C8: handing a buffer back refines a bounded first-in first-out queue: whatever
    part of the queue the kernel has read meanwhile, [zcrx_return_buffer] leaves the
    unread entries in order, appends the buffer's offset and length, and drops it only
    when the queue is full; no unread slot is overwritten, also when the 32-bit
    counters wrap. *)
Theorem return_buffer_is_fifo k zst c w :
  0 <= k < 32 -> rq_ring_entries zst = 2 ^ k -> rq_synced zst (hist w) ->
  Z.of_nat (length (rq_queue (2 ^ k) (hist w))) <= 2 ^ k ->
  let popped := u32 (answer (hist w) RqLoadHead - rq_head (hist w)) in
  popped <= Z.of_nat (length (rq_queue (2 ^ k) (hist w))) ->
  exists zst' w', zcrx_return_buffer zst c w = Ret zst' w' /\
    rq_synced zst' (hist w') /\ rq_ring_entries zst' = 2 ^ k /\
    rq_queue (2 ^ k) (hist w') =
      refill_spec (2 ^ k) (Z.to_nat popped)
        (refill_off (cq_off c) (area_token zst), u32 (cq_res c)) (rq_queue (2 ^ k) (hist w)) /\
    Z.of_nat (length (rq_queue (2 ^ k) (hist w'))) <= 2 ^ k.
Proof. intros ????? Hp. by apply (wp_total_run (zcrx_return_buffer zst c)), zcrx_return_buffer_refines. Qed.

(** C9: the setup of the NIC queue maps its two regions or none: on success exactly
    the area and the ring are mapped besides what was mapped before, at the addresses
    and with the sizes the state records and the producer at position 0; on any failure
    the mappings are what they were. *)
Theorem zcrx_setup_all_or_nothing {ML : MapLaws P} ifname q area rq st m w :
  maps_of (hist w) = Some m ->
  exists r w', zcrx_setup ifname q area rq st w = Ret r w' /\ only_maps w w' /\
    if r.1 : bool then regions m r.2 area w' /\ rq_tail r.2 = 0
    else maps_of (hist w') = Some m.
Proof. intros Hm. by apply (wp_total_run (zcrx_setup ifname q area rq st)), zcrx_setup_spec. Qed.

(** C10: the byte counter of a zero-copy client is exact: it has grown, modulo 2^64,
    by the data of the completions that announced more to come. *)
Theorem zcrx_client_bytes {L : KernelLaws P} {ML : MapLaws P} N {SP : StopLaws P N}
    fuel tid cfg sockfd w t :
  (N < fuel)%nat -> 0 < zcrx_cq_entries cfg ->
  SubmissionLaws P (zcrx_cq_entries cfg) -> BatchLaws P (zcrx_cq_entries cfg) -> world_ok w ->
  0 <= tid < num_threads_ (stats w) -> slot_of tid (stats w) = Some t -> slot_ok t ->
  exists w' t', run_client_reverse_recv_zcrx fuel tid cfg sockfd w = Ret tt w' /\
    slot_of tid (stats w') = Some t' /\
    bytes_transferred t' =
      u64 (bytes_transferred t + bytes_in (seen_of (hist w') ≫= zcrx_ops_of tid)).
Proof.
  intros HN He SL BL (Hn & [m Hm] & [maps Hmaps] & Hcl) Htid Ht Hok.
  destruct (wp_total_run _ _ _ (run_client_reverse_recv_zcrx_spec total fuel tid cfg sockfd m maps
    w (or_intror (ex_intro _ N (conj SP HN))) He SL BL Hm Hmaps Hcl)) as ([] & w' & Hrun & Hs & _).
  destruct (accounted_bytes (zcrx_account tid) (zcrx_ops_of tid) tid
    (seen_of (hist w')) (stats w) t) as (t' & Ht' & Hb);
    auto using zcrx_account_ops, zcrx_ops_own.
  exists w', t'. by rewrite Hs.
Qed.
End Zcrx.

(** C11: the address of a connection and its request type both survive being packed
    into one [user_data] word. *)
Theorem request_tag_roundtrip n zid fd tag :
  0 <= tag < 8 ->
  Z.land (sq_user_data (recv_zc_sqe fd zid (ptr_of n))) (Z.lnot kZcrxReqTypeMask) = ptr_of n /\
  Z.land (sq_user_data (recv_zc_sqe fd zid (ptr_of n))) kZcrxReqTypeMask = kZcrxReqRx /\
  Z.land (Z.lor (ptr_of n) tag) kZcrxReqTypeMask = tag.
Proof.
  intros Ht. destruct (tag_roundtrip n kZcrxReqRx ltac:(unfold kZcrxReqRx; lia)).
  split_and!; try done. by apply tag_roundtrip.
Qed.

(** C12: [zcrx_align_up] gives the least multiple of a power of two that is not below
    its argument, as long as the sum does not overflow 64 bits. *)
Theorem align_up_least_multiple v k :
  0 <= k < 64 -> 0 <= v -> v + 2 ^ k - 1 < 2 ^ 64 ->
  (2 ^ k | zcrx_align_up v (2 ^ k)) /\ v <= zcrx_align_up v (2 ^ k) /\
  forall r, (2 ^ k | r) -> v <= r -> zcrx_align_up v (2 ^ k) <= r.
Proof.
  intros Hk Hv Ho. destruct (zcrx_align_up_least v k Hk Hv Ho) as (Hd & Hlo & Hhi).
  split_and!; try done. intros r [q ->] Hr. destruct Hd as [p Hp].
  assert (0 < 2 ^ k) by (apply Z.pow_pos_nonneg; lia). rewrite Hp in *.
  assert (Hpq : p * 2 ^ k < (q + 1) * 2 ^ k) by lia.
  apply Z.mul_lt_mono_pos_r in Hpq; [|done]. apply Z.mul_le_mono_nonneg_r; lia.
Qed.

(** * Witnesses *)

(** A refill queue of four slots with three entries, the tail about to wrap. *)
Definition refill_world : World :=
  mkWorld [Ev (RqStoreTail (2 ^ 32 - 1)) tt; Ev (RqWrite 2 64 10) tt; Ev (RqWrite 1 32 10) tt;
           Ev (RqWrite 0 0 10) tt; Ev RqLoadHead (2 ^ 32 - 4)] ∅ 1 (StatsCollector_new 1 1).
Definition refill_state : ZcrxState := mkZcrxState 4096 8192 64 0 0 0 (2 ^ 32 - 1) 4 0 1.
Definition refill_script : script :=
  mkScript (fun _ => true) (fun _ => 0) (fun _ => []) (fun _ => true) (fun _ => 3)
    (fun _ _ _ => inr []) 16 (2 ^ 32 - 3).

Lemma return_buffer_is_fifo_witness :
  exists zst' w', zcrx_return_buffer (P := scripted refill_script) refill_state (mkCqe 18 100 2 96)
                    refill_world = Ret zst' w' /\
    rq_synced zst' (hist w') /\ rq_ring_entries zst' = 2 ^ 2 /\
    rq_queue (2 ^ 2) (hist w') =
      refill_spec (2 ^ 2) 1 (refill_off 96 0, u32 100) (rq_queue (2 ^ 2) (hist refill_world)) /\
    Z.of_nat (length (rq_queue (2 ^ 2) (hist w'))) <= 2 ^ 2.
Proof.
  apply (return_buffer_is_fifo (P := scripted refill_script) 2 refill_state (mkCqe 18 100 2 96)
    refill_world).
  - lia.
  - reflexivity.
  - split; [reflexivity|cbn; lia].
  - vm_compute. done.
  - vm_compute. done.
Defined.

Lemma zcrx_setup_all_or_nothing_witness :
  exists r w', zcrx_setup (P := sample 10) "eth0" 0 65536 8 ZcrxState_init start_world = Ret r w' /\
    only_maps start_world w' /\
    if r.1 : bool then regions ∅ r.2 65536 w' /\ rq_tail r.2 = 0 else maps_of (hist w') = Some ∅.
Proof. apply (zcrx_setup_all_or_nothing (P := sample 10)). reflexivity. Defined.

Lemma zcrx_client_bytes_witness :
  exists w' t', run_client_reverse_recv_zcrx (P := sample 150) 200 0 Config_default 3 open_world =
      Ret tt w' /\
    slot_of 0 (stats w') = Some t' /\
    bytes_transferred t' = u64 (0 + bytes_in (seen_of (hist w') ≫= zcrx_ops_of 0)).
Proof.
  apply (zcrx_client_bytes (P := sample 150) 150 200 0 Config_default 3 open_world ThreadStats_init).
  - lia.
  - cbn. lia.
  - apply sample_submission.
  - apply sample_batch. cbn. lia.
  - apply open_world_ok.
  - cbn. lia.
  - reflexivity.
  - repeat split; cbn; lia.
Defined.

Lemma request_tag_roundtrip_witness :
  Z.land (sq_user_data (recv_zc_sqe 7 1 (ptr_of 5))) (Z.lnot kZcrxReqTypeMask) = ptr_of 5 /\
  Z.land (sq_user_data (recv_zc_sqe 7 1 (ptr_of 5))) kZcrxReqTypeMask = kZcrxReqRx /\
  Z.land (Z.lor (ptr_of 5) 1) kZcrxReqTypeMask = 1.
Proof. apply (request_tag_roundtrip 5 1 7 1). lia. Defined.

Lemma align_up_least_multiple_witness :
  (2 ^ 12 | zcrx_align_up 4097 (2 ^ 12)) /\ 4097 <= zcrx_align_up 4097 (2 ^ 12) /\
  forall r, (2 ^ 12 | r) -> 4097 <= r -> zcrx_align_up 4097 (2 ^ 12) <= r.
Proof. apply (align_up_least_multiple 4097 12); lia. Defined.
