(* ===== verification/PropsNet.v ===== *)
(** Theorems about sockets, full-buffer transfers and the handshake. *)

From S2P Require Import Prelude Stats Sys Only Kernel Platforms NetUtils Samples.

Section Net.
Context {P : Platform} {L : KernelLaws P}.

(** C13: the handshake arrives: when the peer's stream begins with the five bytes
    that [send_handshake] writes, [recv_handshake] returns the same direction and
    duration, however the stream is cut into reads and however often a read would
    block. *)
Theorem handshake_arrives fd rest {reverse d} {D : Delivers P fd (handshake_bytes reverse d ++ rest)}
    fuel w :
  0 <= d < 2 ^ 32 -> received fd (hist w) = [] -> (11 < fuel)%nat ->
  exists w', recv_handshake fuel fd w = Ret (Some (reverse, d)) w'.
Proof.
  intros Hd Hr Hf.
  destruct (wp_total_run _ _ _ (recv_handshake_delivers fd _ fuel reverse d rest w eq_refl Hd Hr Hf))
    as (r & w' & Hrun & ->). eauto.
Qed.

(** C14: [send_all] hands the buffer to the kernel in order: whenever it returns, all of
    the buffer was taken if it returns [true], and a proper prefix of it if it returns
    [false], across short sends, blocking and interruptions.  With a finite timeout, for
    which every [poll] comes back, it does return once the kernel has told at most [K]
    sends to try again. *)
Theorem send_all_delivers fuel fd buf timeout_ms w :
  (forall ok w', send_all fuel fd buf timeout_ms w = Ret ok w' ->
     if ok : bool then sent fd (hist w') = sent fd (hist w) ++ buf
     else exists k, (k < length buf)%nat /\ sent fd (hist w') = sent fd (hist w) ++ take k buf) /\
  (forall K, SendProgress P K -> 0 <= timeout_ms -> (length buf + K < fuel)%nat ->
     exists ok w', send_all fuel fd buf timeout_ms w = Ret ok w').
Proof.
  split.
  - intros ok w' Hrun. exact (wp_run partial _ _ _ _ _ (send_all_sound partial fuel fd buf timeout_ms w
      (or_introl I)) Hrun).
  - intros K SD _ Hf. destruct (wp_total_run _ _ _ (send_all_sound total fuel fd buf timeout_ms w
      (or_intror (ex_intro _ K (conj SD Hf))))) as (ok & w' & Hrun & _). eauto.
Qed.

(** C15: what [recv_all] returns is exactly the next [len] bytes of the stream, and
    nothing beyond them was read. *)
Theorem recv_all_exact fuel fd len timeout_ms w buf w' :
  0 <= len -> recv_all fuel fd len timeout_ms w = Ret (Some buf) w' ->
  Z.of_nat (length buf) = len /\ received fd (hist w') = received fd (hist w) ++ buf.
Proof. intros Hlen Hrun. exact (wp_run _ _ _ _ _ _ (recv_all_sound fuel fd len timeout_ms w Hlen) Hrun). Qed.

(** C16: a client socket is connected and new, or -1 is returned and the descriptor
    that was opened on the way is closed again: no error path leaks one. *)
Theorem client_socket_no_leak host port is_udp zero_copy seg local_port w :
  exists fd w', create_client_socket host port is_udp zero_copy seg local_port w = Ret fd w' /\
    new_fd_or_none w fd w'.
Proof.
  apply (wp_total_run (create_client_socket _ _ _ _ _ _) (new_fd_or_none w)),
    create_client_socket_new.
Qed.

(** C17: the same for the listening socket. *)
Theorem listen_socket_no_leak ip port is_udp zero_copy seg w :
  exists fd w', create_listen_socket ip port is_udp zero_copy seg w = Ret fd w' /\
    new_fd_or_none w fd w'.
Proof.
  apply (wp_total_run (create_listen_socket _ _ _ _ _) (new_fd_or_none w)),
    create_listen_socket_new.
Qed.
End Net.

(** * Witnesses *)

(** A peer whose bytes arrive two at a time, only after a poll. *)
Definition trickle_script (stream : list Z) : script := {|
  sc_stop _ := true; sc_now _ := 0; sc_cqes _ := []; sc_sqe _ := true; sc_socket _ := 3;
  sc_recv t fd _ :=
    if polled_in fd t then inr (take 2 (drop (length (received fd t)) stream)) else inl EAGAIN;
  sc_cq_size := 16; sc_other := 1
|}.

Lemma trickle_delivers stream fd : Delivers (scripted (trickle_script stream)) fd stream.
Proof.
  split; [|done]. intros t n Hn [rest Hr] Hne. cbn. destruct (polled_in fd t); [|done].
  remember (received fd t) as got. rewrite Hr, drop_app_length.
  destruct rest as [|x rest]; [by rewrite app_nil_r in Hr|].
  destruct (Z.to_nat n) as [|k] eqn:Hk; [lia|]. cbn. split; [done|].
  apply prefix_app, prefix_cons. rewrite take_take. exists (drop (k `min` 1) rest).
  by rewrite take_drop.
Qed.

Lemma handshake_arrives_witness :
  exists w', recv_handshake (P := scripted (trickle_script (handshake_bytes true 300 ++ [7; 8]))) 20 3
               start_world = Ret (Some (true, 300)) w'.
Proof.
  pose proof (trickle_delivers (handshake_bytes true 300 ++ [7; 8]) 3) as D.
  apply (handshake_arrives (P := scripted (trickle_script (handshake_bytes true 300 ++ [7; 8]))) 3
    [7; 8]).
  - lia.
  - reflexivity.
  - lia.
Defined.

(** A sender whose first two sends would block. *)
Definition slow_sender : Platform := {|
  answer t c :=
    match c return resp c with
    | Send _ data => if (send_stalls t <? 2)%nat then inl EAGAIN else inr (Z.min 3 (Z.of_nat (length data)))
    | c => answer (Platform := sample 10) t c
    end;
  io_uring_buf_ring_mask n := n - 1;
  address_of_local _ := 0
|}.

Lemma slow_sender_bounds : KernelLaws slow_sender.
Proof.
  destruct (sample_laws 10) as [H1 H2 H3 H4 H5 H6 H7]. split; try done.
  intros t fd data n. cbn [answer slow_sender]. destruct (_ <? _)%nat; [done|]. intros [= <-]. lia.
Qed.

Lemma slow_sender_progress : SendProgress slow_sender 2.
Proof. split. intros t fd data Ht. cbn [answer slow_sender]. by rewrite (proj2 (Nat.ltb_ge _ _) Ht). Qed.

Lemma send_all_delivers_witness :
  exists ok w', send_all (P := slow_sender) 20 3 (handshake_bytes true 300) 5000 start_world =
      Ret ok w' /\
    if ok : bool then sent 3 (hist w') = sent 3 (hist start_world) ++ handshake_bytes true 300
    else exists k, (k < length (handshake_bytes true 300))%nat /\
         sent 3 (hist w') = sent 3 (hist start_world) ++ take k (handshake_bytes true 300).
Proof.
  destruct (send_all_delivers (P := slow_sender) (L := slow_sender_bounds) 20 3
    (handshake_bytes true 300) 5000 start_world) as [Hsound Hends].
  destruct (Hends 2%nat slow_sender_progress) as (ok & w' & Hrun); [lia|cbn; lia|].
  exists ok, w'. split; [exact Hrun|]. exact (Hsound ok w' Hrun).
Defined.

Lemma recv_all_exact_witness :
  let P := scripted (trickle_script [1; 2; 3; 4; 5; 6]) in
  exists w', recv_all (P := P) 20 3 5 5000 start_world = Ret (Some [1; 2; 3; 4; 5]) w' /\
    Z.of_nat (length [1; 2; 3; 4; 5]) = 5 /\
    received 3 (hist w') = received 3 (hist start_world) ++ [1; 2; 3; 4; 5].
Proof.
  cbn zeta. eexists. split; [vm_compute; reflexivity|].
  apply (recv_all_exact (P := scripted (trickle_script [1; 2; 3; 4; 5; 6])) 20 3 5 5000 start_world
    [1; 2; 3; 4; 5]).
  - lia.
  - vm_compute. reflexivity.
Defined.

Lemma client_socket_no_leak_witness :
  exists fd w', create_client_socket (P := sample 10) "localhost" 5201 false true 1472 0 open_world =
      Ret fd w' /\ new_fd_or_none open_world fd w'.
Proof. apply (client_socket_no_leak (P := sample 10)). Defined.

Lemma listen_socket_no_leak_witness :
  exists fd w', create_listen_socket (P := sample 10) "0.0.0.0" 5201 false false 1472 open_world =
      Ret fd w' /\ new_fd_or_none open_world fd w'.
Proof. apply (listen_socket_no_leak (P := sample 10)). Defined.
