(* ===== verification/PropsConfig.v ===== *)
(** Theorems about the command line: accepted configurations, exit statuses, and
    the decimal arguments. *)

From stdpp Require Import pretty.
From Stdlib Require Import Ascii.
From S2P Require Import Prelude Config.

(** * Decimal arguments *)

(** A string of digits. *)
Fixpoint all_digits (s : string) : bool :=
  match s with
  | EmptyString => true
  | String a s => match digit a with Some _ => all_digits s | None => false end
  end.

Lemma digit_pretty_char x : (x < 10)%N -> digit (pretty_N_char x) = Some (Z.of_N x).
Proof.
  intros Hx. assert (x = 0 \/ x = 1 \/ x = 2 \/ x = 3 \/ x = 4 \/ x = 5 \/ x = 6 \/ x = 7 \/
    x = 8 \/ x = 9)%N as Hc by lia. repeat destruct Hc as [->|Hc]; subst; reflexivity.
Qed.

Lemma pretty_N_go_read x s :
  digits 0 (pretty_N_go x s) = digits (Z.of_N x) s /\
  (all_digits s = true -> all_digits (pretty_N_go x s) = true).
Proof.
  revert s. induction (N.lt_wf_0 x) as [x _ IH]; intros s.
  assert (x = 0 \/ 0 < x)%N as [->|Hx] by lia; [by rewrite pretty_N_go_0|].
  rewrite pretty_N_go_step by done. assert (Hm : (x mod 10 < 10)%N) by (apply N.mod_lt; lia).
  destruct (IH (x / 10)%N ltac:(by apply N.div_lt) (String (pretty_N_char (x mod 10)) s)) as [Hd Ha].
  split.
  - rewrite Hd. cbn [digits]. rewrite digit_pretty_char by done. f_equal.
    rewrite <- N2Z.inj_mul with (n := 10%N), <- N2Z.inj_add. f_equal.
    symmetry. apply N.div_mod. lia.
  - intros Hs. apply Ha. cbn. by rewrite digit_pretty_char.
Qed.

Lemma pretty_N_read n : digits 0 (pretty n) = Z.of_N n /\ all_digits (pretty n) = true.
Proof.
  unfold pretty, pretty_N. case_decide; [by subst|].
  destruct (pretty_N_go_read n "") as [-> H']. auto.
Qed.

(** A digit is no blank, sign or comma. *)
Lemma digit_plain a d :
  digit a = Some d -> isspace a = false /\ a <> "-"%char /\ a <> "+"%char /\ a <> ","%char.
Proof.
  unfold digit, isspace. intros H. destruct (_ && _) eqn:E; [|done].
  apply andb_true_iff in E as [E1%Z.leb_le E2%Z.leb_le]. split_and!.
  - destruct (Z.leb_spec (Z.of_nat (nat_of_ascii a)) 13), (Z.eqb_spec (Z.of_nat (nat_of_ascii a)) 32);
      rewrite ?andb_false_r; try done; lia.
  - intros ->. by vm_compute in E1.
  - intros ->. by vm_compute in E1.
  - intros ->. by vm_compute in E1.
Qed.

Lemma strtol_digits s : all_digits s = true -> strtol s = Z.min LONG_MAX (digits 0 s).
Proof.
  unfold strtol. destruct s as [|a s]; [done|]. intros H. cbn in H.
  destruct (digit a) as [d|] eqn:Hd; [|done].
  destruct (digit_plain a d Hd) as (Hsp & Hm & Hp & _). cbn [skip_space]. rewrite Hsp.
  destruct (ascii_dec a "-"); [done|]. destruct (ascii_dec a "+"); [done|]. done.
Qed.

(** [atoi] reads back a printed [int]. *)
Lemma atoi_pretty z : - 2 ^ 31 <= z < 2 ^ 31 -> atoi (pretty z) = z.
Proof.
  intros Hz. unfold atoi, LONG_MAX. destruct z as [|p|p]; [done|..].
  - change (pretty (Z.pos p)) with (pretty (N.pos p)).
    destruct (pretty_N_read (N.pos p)) as [Hd Ha].
    rewrite strtol_digits, Hd by done. unfold LONG_MAX.
    rewrite Z.min_r by (cbn; lia). by apply i32_small.
  - change (pretty (Z.neg p)) with (String "-" (pretty (N.pos p))).
    destruct (pretty_N_read (N.pos p)) as [Hd _].
    unfold strtol. cbn [skip_space isspace]. change (isspace "-") with false. cbn match.
    rewrite Hd. unfold LONG_MIN. rewrite Z.max_r by (cbn; lia). by apply i32_small.
Qed.

(** * The affinity list *)

Fixpoint join_commas (l : list string) : string :=
  match l with
  | [] => ""
  | [s] => s
  | s :: l => s +:+ String "," (join_commas l)
  end.

Fixpoint comma_free (s : string) : bool :=
  match s with
  | EmptyString => true
  | String a s => negb (bool_decide (a = ","%char)) && comma_free s
  end.

Lemma comma_free_digits s : all_digits s = true -> comma_free s = true.
Proof.
  induction s as [|a s IH]; [done|]. cbn. destruct (digit a) as [d|] eqn:Hd; [|done].
  intros Ha. destruct (digit_plain a d Hd) as (_&_&_&Hc).
  rewrite bool_decide_false by done. cbn. auto.
Qed.

Lemma comma_free_pretty (z : Z) : comma_free (pretty z) = true.
Proof.
  destruct z as [|p|p]; [done|..].
  - apply comma_free_digits, (pretty_N_read (N.pos p)).
  - change (pretty (Z.neg p)) with (String "-" (pretty (N.pos p))). cbn.
    apply comma_free_digits, (pretty_N_read (N.pos p)).
Qed.

Lemma split_comma_free s : comma_free s = true -> split_commas s = ([], s).
Proof.
  induction s as [|a s IH]; [done|]. cbn. intros [Ha Hs]%andb_true_iff. rewrite (IH Hs).
  apply negb_true_iff, bool_decide_eq_false in Ha. by destruct (ascii_dec a ",").
Qed.

Lemma split_comma_app s t :
  comma_free s = true ->
  split_commas (s +:+ String "," t) = (s :: (split_commas t).1, (split_commas t).2).
Proof.
  induction s as [|a s IH].
  - intros _. change ("" +:+ String "," t) with (String "," t). cbn. by destruct (split_commas t).
  - cbn [comma_free]. intros [Ha Hs]%andb_true_iff.
    change (String a s +:+ String "," t) with (String a (s +:+ String "," t)).
    cbn [split_commas]. rewrite (IH Hs). apply negb_true_iff, bool_decide_eq_false in Ha. by destruct (ascii_dec a ",").
Qed.

Lemma pretty_nonempty (z : Z) : pretty z <> ""%string.
Proof.
  intros H. assert (Hr := atoi_pretty 0). destruct z as [|p|p]; [done| |done].
  change (pretty (Z.pos p)) with (pretty (N.pos p)) in H.
  destruct (pretty_N_read (N.pos p)) as [Hd _]. rewrite H in Hd. cbn in Hd. lia.
Qed.

(** C18: [-A] reads back the list it was given: for cores printed in decimal and
    separated by commas the parsed affinity is the same list, for every [int]. *)
Theorem parse_affinity_roundtrip cores :
  Forall (fun c => - 2 ^ 31 <= c < 2 ^ 31) cores ->
  parse_affinity (join_commas (pretty <$> cores)) = cores.
Proof.
  unfold parse_affinity. induction 1 as [|c cores Hc Hcs IH]; [done|].
  destruct cores as [|c' cores].
  - cbn. rewrite split_comma_free by apply comma_free_pretty.
    rewrite bool_decide_false by apply pretty_nonempty. cbn. by rewrite atoi_pretty.
  - cbn [fmap list_fmap join_commas] in IH |- *. rewrite split_comma_app by apply comma_free_pretty.
    destruct (split_commas _) as [pieces rest]. cbn in IH |- *. by rewrite atoi_pretty, IH.
Qed.

(** * Accepted and rejected command lines *)

(** C19: whatever the arguments, an accepted configuration has every member in the
    range its uses rely on -- at least 64 bytes of buffer, 16 queue entries, one thread,
    one second -- and none of the combinations that the program cannot run. *)
Theorem parse_args_accepts_valid opts cfg :
  parse_args opts = inl cfg -> ranges_ok cfg /\ combination_ok cfg.
Proof. apply parse_args_sound. Qed.

(** The option at which the loop leaves the program. *)
Definition stops (o : opt) : bool := match o with OptHelp | OptOther => true | _ => false end.

Definition is_help (o : opt) : bool := match o with OptHelp => true | _ => false end.

Lemma apply_opt_runs o st : stops o = false -> exists st', apply_opt o st = inl st'.
Proof. destruct st, o; try done; eauto. Qed.

Lemma apply_opts_prefix opts o rest st :
  Forall (fun o => stops o = false) opts -> stops o = true ->
  apply_opts (opts ++ o :: rest) st = inr (if is_help o then 0 else 1).
Proof.
  intros Hopts Ho. revert st. induction Hopts as [|o' opts Ho' Hopts IH]; intros st; cbn.
  - destruct st, o; done.
  - destruct (apply_opt_runs o' st Ho') as [st' ->]. apply IH.
Qed.

Lemma apply_opts_runs opts st :
  Forall (fun o => stops o = false) opts -> exists st', apply_opts opts st = inl st'.
Proof.
  intros H. revert st. induction H as [|o opts Ho Hopts IH]; intros st; cbn; [eauto|].
  destruct (apply_opt_runs o st Ho) as [st' ->]. apply IH.
Qed.

(** The combinations of options that make no sense: zero-copy receive without the
    interface to receive on, and UDP with zero-copy receive or in reverse. *)
Definition forbidden (c : Config) : Prop :=
  use_zcrx c = true /\ zcrx_ifname c = ""%string /\ (mode c = SERVER \/ reverse c = true) \/
  protocol c = UDP /\ (use_zcrx c = true \/ reverse c = true).

Lemma finish_args_forbidden cfg b :
  (finish_args cfg b = inr 1 <-> forbidden cfg) /\
  (~ forbidden cfg -> exists cfg', finish_args cfg b = inl cfg').
Proof.
  unfold finish_args, forbidden.
  set (c := if negb b && _ then set_buf_size _ cfg else cfg).
  assert (Hc : use_zcrx c = use_zcrx cfg /\ zcrx_ifname c = zcrx_ifname cfg /\ mode c = mode cfg /\
    reverse c = reverse cfg /\ protocol c = protocol cfg) by (subst c; by case_match).
  destruct Hc as (<- & <- & <- & <- & <-). clearbody c.
  destruct (use_zcrx c), (reverse c), (mode c), (protocol c),
    (bool_decide (zcrx_ifname c = ""%string)) eqn:Hn; cbn;
    (apply bool_decide_eq_true in Hn || apply bool_decide_eq_false in Hn);
    repeat case_bool_decide; try done; cbn; split; eauto; intuition congruence.
Qed.

(** C20: the exit status: the first [-h] or unrecognised option decides, with 0 for
    [-h] and 1 otherwise, whatever precedes or follows it; without such an option the
    program exits, with status 1, exactly when the options combine to something
    forbidden, and otherwise goes on with a configuration. *)
Theorem parse_args_status opts :
  (forall pre o rest, opts = pre ++ o :: rest -> Forall (fun o => stops o = false) pre ->
     stops o = true -> parse_args opts = inr (if is_help o then 0 else 1)) /\
  (Forall (fun o => stops o = false) opts ->
     exists cfg b, apply_opts opts (Config_default, false) = inl (cfg, b) /\
       (parse_args opts = inr 1 <-> forbidden cfg) /\
       (~ forbidden cfg -> exists cfg', parse_args opts = inl cfg')).
Proof.
  unfold parse_args. split.
  - intros pre o rest -> Hpre Ho. by rewrite apply_opts_prefix.
  - intros H. destruct (apply_opts_runs opts (Config_default, false) H) as [[cfg b] Ha].
    rewrite Ha. exists cfg, b. split; [done|]. apply finish_args_forbidden.
Qed.

Lemma apply_opts_len_unset opts st cfg b :
  Forall (fun o => match o with OptLen _ => False | _ => True end) opts ->
  apply_opts opts st = inl (cfg, b) -> b = st.2.
Proof.
  intros H. revert st. induction H as [|o opts Ho Hopts IH]; intros st; cbn; [by intros [= ->]|].
  destruct st as [c l]. destruct o; try done; cbn; intros Ha; apply IH in Ha; done.
Qed.

Lemma finish_args_buf cfg b cfg' :
  finish_args cfg b = inl cfg' ->
  protocol cfg' = protocol cfg /\
  buf_size cfg' = if negb b && bool_decide (protocol cfg = UDP)
                  then u32 (40 * udp_gso_size cfg) else buf_size cfg.
Proof.
  unfold finish_args. destruct (negb b && bool_decide (protocol cfg = UDP)) eqn:E;
    repeat case_match; intros [= <-]; done.
Qed.

(** C21: without [-l] a UDP worker uses the batch of 40 segments of 1472 bytes, below
    the 65507 bytes a UDP payload can have. *)
Theorem udp_default_buffer opts cfg :
  Forall (fun o => match o with OptLen _ => False | _ => True end) opts ->
  parse_args opts = inl cfg -> protocol cfg = UDP -> buf_size cfg = 58880 /\ buf_size cfg <= 65507.
Proof.
  intros Hopts Hp Hudp. unfold parse_args in Hp.
  destruct (apply_opts opts (Config_default, false)) as [[c b]|] eqn:Ha; [|done].
  assert (Hr := apply_opts_ranges opts (Config_default, false) _ _ ranges_ok_default Ha).
  apply apply_opts_len_unset in Ha; [|done]. cbn in Ha. subst b.
  destruct (finish_args_buf _ _ _ Hp) as [Hpr Hb]. rewrite Hudp in Hpr.
  rewrite <- Hpr in Hb. cbn in Hb. destruct Hr as (_&_&_&_&_&_&_&_&Hg&_). rewrite Hg in Hb.
  rewrite Hb. done.
Qed.

(** * Witnesses *)

Lemma parse_affinity_roundtrip_witness :
  parse_affinity "0,3,-1,127" = [0; 3; -1; 127].
Proof.
  apply (parse_affinity_roundtrip [0; 3; -1; 127]). repeat constructor; lia.
Defined.

Lemma parse_args_accepts_valid_witness :
  let cfg := set_buf_size 64 (set_threads 4 (set_reverse true Config_default)) in
  ranges_ok cfg /\ combination_ok cfg.
Proof.
  apply (parse_args_accepts_valid [OptClient "127.0.0.1"; OptReverse; OptParallel "4"; OptLen "7"]).
  reflexivity.
Defined.

Lemma parse_args_status_witness :
  parse_args [OptUdp; OptHelp; OptOther] = inr 0 /\ parse_args [OptUdp; OptReverse] = inr 1.
Proof.
  split.
  - apply (proj1 (parse_args_status [OptUdp; OptHelp; OptOther]) [OptUdp] OptHelp [OptOther]).
    + reflexivity.
    + repeat constructor.
    + reflexivity.
  - destruct (proj2 (parse_args_status [OptUdp; OptReverse])) as (cfg & b & Ha & Hs & _).
    + repeat constructor.
    + apply Hs. injection Ha as <- _. right. split; [reflexivity|]. right. reflexivity.
Defined.

Lemma udp_default_buffer_witness :
  let cfg := set_buf_size 58880 (set_protocol UDP Config_default) in
  buf_size cfg = 58880 /\ buf_size cfg <= 65507.
Proof.
  apply (udp_default_buffer [OptUdp] (set_buf_size 58880 (set_protocol UDP Config_default))).
  - repeat constructor.
  - reflexivity.
  - reflexivity.
Defined.
