(* ===== verification/PropsEngine.v ===== *)
(** Theorems about the ring wrapper. *)

From S2P Require Import Prelude Stats Sys Only Kernel Platforms NetUtils Engine Samples.

(** C22: [next_pow2] is the least power of two that is not below its argument, for
    every argument that has one in 32 bits; above [2^31] it wraps to 0. *)
Theorem next_pow2_correct v :
  1 <= v < 2 ^ 32 ->
  (v <= 2 ^ 31 ->
     exists k, 0 <= k <= 31 /\ next_pow2 v = 2 ^ k /\ v <= 2 ^ k /\
               forall j, 0 <= j -> v <= 2 ^ j -> k <= j) /\
  (2 ^ 31 < v -> next_pow2 v = 0).
Proof.
  intros Hv. split; intros H; [apply next_pow2_least|apply next_pow2_overflow]; lia.
Qed.

Lemma setup_flags_spec s :
  has_flag (setup_flags s) IORING_SETUP_SQPOLL = s /\
  has_flag (setup_flags s) IORING_SETUP_COOP_TASKRUN = negb s /\
  has_flag (setup_flags s) IORING_SETUP_SINGLE_ISSUER = true.
Proof. by destruct s. Qed.

Section Engine.
Context {P : Platform}.

(** C23: the constructor asks for a polled ring exactly when told to, and never for
    cooperative task running together with polling, which the kernel rejects; when the
    kernel refuses it falls back to a plain ring and remembers that polling is off;
    when that fails too it throws the error. *)
Theorem engine_construction d use_sqpoll w :
  has_flag (setup_flags use_sqpoll) IORING_SETUP_SQPOLL = use_sqpoll /\
  has_flag (setup_flags use_sqpoll) IORING_SETUP_COOP_TASKRUN = negb use_sqpoll /\
  has_flag (setup_flags use_sqpoll) IORING_SETUP_SINGLE_ISSUER = true /\
  let c := QueueInitParams d (setup_flags use_sqpoll) (if use_sqpoll then 2000 else 0) 0 in
  let r := answer (hist w) c in
  let w1 := log (Ev c r) w in
  let r' := answer (hist w1) (QueueInit d 0) in
  let w2 := log (Ev (QueueInit d 0) r') w1 in
  UringEngine_new d use_sqpoll w =
    if 0 <=? r then Ret (blank_engine d use_sqpoll) w1
    else if 0 <=? r' then Ret (blank_engine d false) w2
    else Throw (- r') w2.
Proof.
  destruct (setup_flags_spec use_sqpoll) as (?&?&?). split_and!; try done. cbn zeta.
  unfold UringEngine_new, mbind, M_bind, do_call.
  destruct (Z.ltb_spec (answer (hist w) (QueueInitParams d (setup_flags use_sqpoll)
    (if use_sqpoll then 2000 else 0) 0)) 0) as [Hlt|Hge];
    [rewrite (proj2 (Z.leb_gt _ _)) by done|by rewrite (proj2 (Z.leb_le _ _)) by done].
  set (r' := answer _ (QueueInit d 0)).
  destruct (Z.ltb_spec r' 0) as [Hlt'|Hge'];
    [by rewrite (proj2 (Z.leb_gt _ _))|by rewrite (proj2 (Z.leb_le _ _))].
Qed.




(** C25: giving a buffer back publishes the very entry that the setup of the pool
    published for that id -- the only one with it -- so the address the kernel writes to is
    the one that [recv_buffer_data] reads from. *)
Theorem returned_buffer_same_slot {L : KernelLaws P} n size bgid e0 m w e w1 id w2 :
  1 <= n <= 2 ^ 15 -> 0 <= size < 2 ^ 32 -> mem_of (hist w) = Some m ->
  setup_multishot_recv n size bgid e0 w = Ret (true, e) w1 -> 0 <= id < recv_buf_count_ e ->
  exists new x w3, posted (hist w1) = new ++ posted (hist w) /\
    x ∈ new /\ (forall y, y ∈ new -> y.1.1 = id -> y = x) /\
    x.1.1 = id /\ x.1.2 = recv_buffer_data e id /\
    return_recv_buffer e id w2 = Ret tt w3 /\ posted (hist w3) = x :: posted (hist w2) /\
    lent_of (hist w3) = id :: lent_of (hist w2) /\ only_lent w2 w3.
Proof.
  intros Hn Hs Hm Hset Hid.
  pose proof (wp_run _ _ _ _ _ _ (setup_multishot_recv_spec total n size bgid e0 m w Hn Hs Hm) Hset)
    as (_ & _ & _ & Hcount & Hsize & _ & _ & _ & _ & Hpost). cbn [fst snd] in *.
  assert (Hd : recv_buffer_data e id = recv_buf_mem_ e + id * size).
  { unfold recv_buffer_data. rewrite Hsize, u64_small; [done|]. rewrite Hcount in Hid.
    destruct (next_pow2_least n) as (k & Hk & Hp & _ & Hleast); [lia|].
    assert (2 ^ k <= 2 ^ 15) by (apply Z.pow_le_mono_r; [lia|apply Hleast; lia]). nia. }
  destruct (wp_total_run _ _ _ (return_recv_buffer_spec total e id w2))
    as ([] & w3 & Hrun & Hl & Hp & _ & _ & Ho).
  eexists _, (slot (recv_buf_mem_ e) size id), w3. split; [exact Hpost|]. split_and!; try done.
  - apply elem_of_rev, list_elem_of_fmap. exists id. split; [done|]. apply elem_of_zseq. lia.
  - intros y Hy. apply elem_of_rev, list_elem_of_fmap in Hy as (i & -> & _). cbn. by intros ->.
  - by rewrite Hp, Hd, Hsize.
Qed.

(** C26: a zero-copy send queues one entry or, when the queue is full, none, and
    says which; the entry carries the context as its [user_data] and the buffer as
    given, selects the registered buffer by its index exactly when buffers are
    registered, and the registered file exactly when asked to and files are. *)
Theorem send_zc_entry e fd buf len idx ctx uff w :
  zc_supported_ e = true -> 0 <= idx < 2 ^ 16 ->
  exists ok w', prep_send_zc e fd buf len idx ctx uff w = Ret ok w' /\
    ok = answer (hist w) GetSqe /\
    exists s, queues s w ok w' /\ sq_user_data s = ctx /\ sq_fd s = fd /\ sq_addr s = buf /\
      sq_len s = len /\
      sq_op s = (if buffers_registered_ e then OP_SEND_ZC_FIXED else OP_SEND_ZC) /\
      sq_buf_index s = (if buffers_registered_ e then idx else 0) /\
      has_flag (sq_flags s) IOSQE_FIXED_FILE = uff && files_registered_ e.
Proof.
  intros Hz Hi.
  destruct (wp_total_run _ _ _ (prep_send_zc_queues total e fd buf len idx ctx uff w Hz))
    as (ok & w' & Hrun & Hq).
  exists ok, w'. split_and!; [done|apply Hq|]. exists (send_zc_sqe e fd buf len idx ctx uff).
  split; [done|]. unfold send_zc_sqe, fixed_file_flag.
  destruct (buffers_registered_ e), (uff && files_registered_ e); cbn;
    rewrite ?u16_small by lia; done.
Qed.
End Engine.

(** * Witnesses *)

Lemma next_pow2_correct_witness :
  (33 <= 2 ^ 31 ->
     exists k, 0 <= k <= 31 /\ next_pow2 33 = 2 ^ k /\ 33 <= 2 ^ k /\
               forall j, 0 <= j -> 33 <= 2 ^ j -> k <= j) /\
  (2 ^ 31 < 33 -> next_pow2 33 = 0).
Proof. apply (next_pow2_correct 33). lia. Defined.


(** Set up a pool of four and return buffer 2. *)
Lemma returned_buffer_same_slot_witness :
  match setup_multishot_recv (P := sample 10) 3 64 0 (blank_engine 256 false) start_world with
  | Ret (true, e) w1 =>
      exists new x w3, posted (hist w1) = new ++ posted (hist start_world) /\
        x ∈ new /\ (forall y, y ∈ new -> y.1.1 = 2 -> y = x) /\
        x.1.1 = 2 /\ x.1.2 = recv_buffer_data e 2 /\
        return_recv_buffer (P := sample 10) e 2 w1 = Ret tt w3 /\ posted (hist w3) = x :: posted (hist w1) /\
        lent_of (hist w3) = 2 :: lent_of (hist w1) /\ only_lent w1 w3
  | _ => False
  end.
Proof.
  destruct (setup_multishot_recv (P := sample 10) 3 64 0 (blank_engine 256 false) start_world)
    as [[[] e] w1| | | |] eqn:Hset; try (vm_compute in Hset; discriminate Hset).
  apply (returned_buffer_same_slot (P := sample 10) 3 64 0 (blank_engine 256 false) ∅ start_world e w1 2 w1).
  - lia.
  - lia.
  - reflexivity.
  - exact Hset.
  - vm_compute in Hset. injection Hset as <- _. cbn. lia.
Defined.

Lemma send_zc_entry_witness :
  exists ok w', prep_send_zc (P := sample 10) (blank_engine 256 false) 3 4096 64 5 16 true
                  start_world = Ret ok w' /\
    ok = answer (Platform := sample 10) (hist start_world) GetSqe /\
    exists s, queues (P := sample 10) s start_world ok w' /\ sq_user_data s = 16 /\ sq_fd s = 3 /\
      sq_addr s = 4096 /\ sq_len s = 64 /\ sq_op s = OP_SEND_ZC /\ sq_buf_index s = 0 /\
      has_flag (sq_flags s) IOSQE_FIXED_FILE = false.
Proof. apply (send_zc_entry (P := sample 10) (blank_engine 256 false)); [reflexivity|lia]. Defined.
