(* ===== verification/PropsStats.v ===== *)
(** Theorems about the counters and the reports. *)

From S2P Require Import Prelude Stats Sys Only Kernel Platforms NetUtils Config Engine Zcrx.
From S2P Require Import Client ClientProofs ZcrxProofs ClientRun Accounting Reporter Samples.

(** C27: the counters do not depend on how the workers interleave: any two orders of
    the same [add_*] calls leave the same collector. *)
Theorem interleaving_irrelevant ops ops' s :
  Forall (fun o => 0 <= op_thread o) ops -> ops ≡ₚ ops' ->
  foldl apply_op s ops = foldl apply_op s ops'.
Proof. apply apply_ops_perm. Qed.


Lemma sum_list_alter (f : ThreadStats -> Z) g i slots t d :
  slots !! i = Some t -> f (g t) = u64 (f t + d) ->
  u64 (sum_list (f <$> alter g i slots)) = u64 (sum_list (f <$> slots) + d).
Proof.
  revert i. induction slots as [|x slots IH]; intros [|i] Hi Hf; cbn in *; try done.
  - injection Hi as ->. rewrite Hf. unfold sum_list. rewrite u64_add_l. f_equal. lia.
  - rewrite <- u64_add_r. unfold sum_list in *. rewrite (IH i Hi Hf), u64_add_r. f_equal. lia.
Qed.

Lemma total_bytes_step s o :
  collector_ok s -> 0 <= op_thread o < num_threads_ s ->
  total_bytes (totals (apply_op s o)) =
    u64 (total_bytes (totals s) + match o with AddBytes _ b _ => b | _ => 0 end).
Proof.
  intros (slots & Hs & Hlen & Hok & _) Ho. unfold totals, totals_of.
  rewrite apply_op_slot, (with_slot_in _ _ _ slots), Hs by done.
  cbn [total_bytes shared_stats_ default from_option id].
  rewrite !sum_u64_sum, u64_add_l.
  destruct (lookup_lt_is_Some_2 slots (Z.to_nat (op_thread o))) as [t Ht]; [lia|].
  apply (sum_list_alter _ _ _ _ t); [done|].
  assert (Hr : 0 <= bytes_transferred t < 2 ^ 64) by (eapply Forall_lookup_1 in Hok; [apply Hok|done]).
  destruct o; cbn; rewrite ?Z.add_0_r, ?u64_small by done; done.
Qed.

Lemma total_bytes_steps ops s :
  collector_ok s -> Forall (fun o => 0 <= op_thread o < num_threads_ s) ops ->
  total_bytes (totals (foldl apply_op s ops)) = u64 (total_bytes (totals s) + bytes_in ops).
Proof.
  intros Hs Hops. revert s Hs Hops. induction ops as [|o ops IH]; intros s Hs Hops.
  - cbn. unfold bytes_in. cbn. rewrite Z.add_0_r. destruct Hs as (slots & Hs & _).
    unfold totals, totals_of. cbn [total_bytes]. rewrite sum_u64_sum. by rewrite u64_idem.
  - inversion Hops as [|? ? Ho Hops']; subst. cbn [foldl].
    rewrite IH by first [apply apply_op_ok; [lia|done] | by rewrite num_threads_apply_op].
    rewrite total_bytes_step by done. rewrite u64_add_l. f_equal.
    unfold bytes_in, sum_list. cbn. lia.
Qed.

(** C29: the total of the summary is exact: it is, modulo 2^64, the sum of the bytes
    that all workers have accounted, wherever they accounted them. *)
Theorem summary_total_exact num_threads interval_sec ops :
  0 <= num_threads -> Forall (fun o => 0 <= op_thread o < num_threads) ops ->
  total_bytes (totals (foldl apply_op (StatsCollector_new num_threads interval_sec) ops)) =
    u64 (bytes_in ops).
Proof.
  intros Hn Hops. rewrite total_bytes_steps; [|by apply StatsCollector_new_ok|done].
  f_equal. unfold totals, totals_of. cbn [total_bytes]. rewrite sum_u64_sum. cbn.
  replace (sum_list _) with 0; [done|]. unfold sum_list.
  induction (Z.to_nat num_threads) as [|n IH]; [done|]. cbn in *. lia.
Qed.

(** C30: a client leaves the counters of every other worker alone. *)
Theorem client_touches_own_slot {P : Platform} {L : KernelLaws P} {B : BufferLaws P}
    {ML : MapLaws P} fuel tid opts cfg w other u w' :
  parse_args opts = inl cfg -> zcrx_ring_laws cfg -> world_ok w ->
  0 <= tid -> 0 <= other < num_threads_ (stats w) -> other <> tid ->
  run_client fuel tid cfg w = Ret u w' -> slot_of other (stats w') = slot_of other (stats w).
Proof.
  intros [Hr Hc]%parse_args_sound Hz (Hn & [m Hm] & [maps Hmaps] & Hcl) Htid Ho Hne Hrun.
  assert (Hw : wp partial (run_client fuel tid cfg) (fun _ => client_ends tid cfg w) w)
    by (eapply run_client_spec; try done; by left).
  destruct (wp_run _ _ _ _ _ _ Hw Hrun) as [[[-> _]|(a & Ha & ->)] _]; [done|].
  unfold client_accounts in Ha. destruct (reverse cfg); [destruct (use_zcrx cfg)|].
  - subst a. by apply (accounted_other _ _ tid _ _ _ (zcrx_account_ops tid) (zcrx_ops_own tid)).
  - destruct Ha as (ms & _ & -> & _).
    by apply (accounted_other _ _ tid _ _ _ (reverse_account_ops tid ms) (reverse_ops_own tid ms)).
  - subst a. by apply (accounted_other _ _ tid _ _ _ (client_account_ops tid cfg) (client_ops_own tid cfg)).
Qed.

Section Reporter.
Context {P : Platform}.

(** C31: the rows of the periodic report are exact: each row was printed after reading the
    counters of every worker, from the first to the last, and whatever the workers add
    between and during the readings, the bytes, packets and notifications of that row and
    of all rows before it sum, modulo 2^64, to the totals of the counters read for it.  The
    reporter ends once its flag is cleared. *)
Theorem reporter_rows_add_up N {RL : RunningLaws P N} fuel num_threads interval_sec w :
  (N < fuel)%nat ->
  exists w' new, reporter_loop fuel num_threads interval_sec w = Ret tt w' /\
    reports (hist w') = new ++ reports (hist w) /\
    forall later slots row earlier, new = later ++ (slots, row) :: earlier ->
      slots.*1 = zseq num_threads /\ adds_up (totals_read slots) (row :: earlier.*2).
Proof.
  intros HN. destruct (wp_total_run _ _ _ (reporter_loop_spec total fuel num_threads interval_sec w
    (or_intror (ex_intro _ N (conj RL HN))))) as ([] & w' & Hrun & new & Hrows & Hc).
  exists w', new. split_and!; [done..|]. intros later slots row earlier Hnew.
  exact (consistent_split _ _ _ _ _ Hc Hnew).
Qed.

(** C32: stopping the reporter is idempotent: the second call, as when the destructor
    follows [main]'s own, neither clears the flag nor joins the thread again. *)
Theorem stop_reporting_idempotent r w :
  exists r' w', stop_reporting r w = Ret r' w' /\ running_ r' = false /\
    stop_reporting r' w' = Ret r' w'.
Proof. apply stop_reporting_twice. Qed.
End Reporter.

(** * Witnesses *)

Lemma interleaving_irrelevant_witness :
  foldl apply_op (StatsCollector_new 2 1) [AddBytes 0 10 1; AddBytes 1 7 1; AddError 0] =
  foldl apply_op (StatsCollector_new 2 1) [AddError 0; AddBytes 1 7 1; AddBytes 0 10 1].
Proof.
  apply (interleaving_irrelevant [AddBytes 0 10 1; AddBytes 1 7 1; AddError 0]
    [AddError 0; AddBytes 1 7 1; AddBytes 0 10 1] (StatsCollector_new 2 1)).
  - repeat constructor; cbn; lia.
  - apply (Permutation_rev [AddBytes 0 10 1; AddBytes 1 7 1; AddError 0]).
Defined.


Lemma summary_total_exact_witness :
  total_bytes (totals (foldl apply_op (StatsCollector_new 2 1)
    [AddBytes 0 (2 ^ 64 - 1) 1; AddBytes 1 7 1])) = u64 (2 ^ 64 - 1 + (7 + 0)).
Proof.
  apply (summary_total_exact 2 1 [AddBytes 0 (2 ^ 64 - 1) 1; AddBytes 1 7 1]).
  - lia.
  - repeat constructor; cbn; lia.
Defined.

(** Two workers, the second one running. *)
Definition two_worker_world : World := mkWorld [] ∅ 1 (StatsCollector_new 2 1).

Lemma two_worker_ok : world_ok two_worker_world.
Proof. unfold world_ok. split_and!; try done; by eexists. Qed.

Lemma client_touches_own_slot_witness :
  match run_client (P := sample 150) 200 1 Config_default two_worker_world with
  | Ret _ w' => slot_of 0 (stats w') = slot_of 0 (stats two_worker_world)
  | _ => False
  end.
Proof.
  destruct (run_client (P := sample 150) 200 1 Config_default two_worker_world)
    as [u w'| | | |] eqn:Hrun; try (vm_compute in Hrun; discriminate Hrun).
  apply (client_touches_own_slot (P := sample 150) 200 1 [] Config_default two_worker_world 0 u w').
  - reflexivity.
  - by intros [=].
  - exact two_worker_ok.
  - lia.
  - cbn. lia.
  - lia.
  - exact Hrun.
Defined.

(** Four rows on counters that grow from one load to the next. *)
Lemma reporter_rows_add_up_witness :
  exists w' new, reporter_loop (P := sample 30) 40 2 1 start_world = Ret tt w' /\
    reports (hist w') = new ++ reports (hist start_world) /\
    (forall later slots row earlier, new = later ++ (slots, row) :: earlier ->
      slots.*1 = zseq 2 /\ adds_up (totals_read slots) (row :: earlier.*2)) /\
    length new = 4%nat.
Proof.
  destruct (reporter_rows_add_up (P := sample 30) 30 40 2 1 start_world) as (w' & new & Hrun & Hrep & H).
  - lia.
  - exists w', new. split; [exact Hrun|]. split; [exact Hrep|]. split; [exact H|].
    vm_compute in Hrun. injection Hrun as <-. rewrite app_nil_r in Hrep. rewrite <- Hrep.
    vm_compute. reflexivity.
Defined.
