(* ===== verification/PropsMain.v ===== *)
(** Theorems about the program's life cycle. *)

From S2P Require Import Prelude Stats Sys Only Kernel Platforms NetUtils Config Engine Zcrx.
From S2P Require Import Client Server Reporter Main Samples.

Section Main.
Context {P : Platform}.

Lemma raise_memlock_lives b w : wp b raise_memlock_limit (fun _ w' => lives [] w w') w.
Proof.
  eapply wp_mono; [apply (wp_lifeless b raise_memlock_limit w (fun _ _ => True))|by intros _ w' []].
  - unfold raise_memlock_limit. by only_tac.
  - unfold raise_memlock_limit. by wp_steps.
Qed.

(** C33: a run with threads: unless the arguments end it, the program starts its
    reporter, then every worker once in order, waits, joins every worker, joins the
    reporter, and only then reads the counters and prints the summary -- so the summary
    sees all that the workers have done -- and returns 0. *)
Theorem main_runs_workers (Hmmap : forall t n, answer t (Mmap n) <> None) fuel opts cfg w :
  parse_args opts = inl cfg -> wait_ends total fuel cfg ->
  multi_process cfg && (1 <? threads cfg) = false ->
  exists w' t, main fuel opts w = Ret 0 w' /\
    lives ([ReporterStart] ++ (ThreadStart <$> zseq (threads cfg)) ++
           (ThreadJoin <$> zseq (threads cfg)) ++ [ReporterJoin] ++
           (LoadSlot <$> zseq (threads cfg)) ++ [ReportSummary t]) w w'.
Proof.
  intros Hp Hw Hmp.
  assert (H : wp total (main fuel opts) (fun code w' => code = 0 /\ exists t,
    lives ([ReporterStart] ++ (ThreadStart <$> zseq (threads cfg)) ++
           (ThreadJoin <$> zseq (threads cfg)) ++ [ReporterJoin] ++
           (LoadSlot <$> zseq (threads cfg)) ++ [ReportSummary t]) w w') w).
  { unfold main. wp_step. eapply wp_mono; [apply raise_memlock_lives|]. cbn beta. intros _ w1 H1.
    rewrite Hp, Hmp. eapply wp_mono; [apply main_threads_spec; [by right|done]|].
    cbn beta. intros code w2 (-> & t & H2). split; [done|]. exists t.
    exact (lives_trans _ _ _ _ _ H1 H2). }
  destruct (wp_total_run _ _ _ H) as (code & w' & Hrun & -> & t & Hl). eauto.
Qed.

(** C34: a run with processes, on the parent's side: every child that was forked is
    waited for once, in order, before the reporter is joined and the summary printed. *)
Theorem main_waits_for_children (Hmmap : forall t n, answer t (Mmap n) <> None)
    (Hfork : forall t, answer t Fork <> 0) fuel cfg w :
  wait_ends total fuel cfg ->
  exists w' pids t, main_processes fuel cfg w = Ret 0 w' /\
    forked (hist w') = forked (hist w) ++ pids /\
    lives ([ReporterStart] ++ (Waitpid <$> pids) ++ [ReporterJoin] ++
           (LoadSlot <$> zseq (threads cfg)) ++ [ReportSummary t]) w w'.
Proof.
  intros Hw. destruct (wp_total_run _ _ _ (main_processes_spec total fuel cfg w (or_intror Hmmap)
    Hw Hfork)) as (code & w' & Hrun & -> & pids & t & Hf & Hl).
  by exists w', pids, t.
Qed.

(** C35: a child runs its own worker and nothing else, joins it, and leaves with
    status 0: it does not go on to the parent's code. *)
Theorem child_exits fuel tid cfg w :
  wait_ends total fuel (set_threads 1 cfg) ->
  exists w', child_main fuel tid cfg w = Exit 0 w' /\ lives [ThreadStart tid; ThreadJoin tid] w w'.
Proof. apply child_main_spec. Qed.

(** C36: a client stops after its duration: the waiting loop ends within ten turns
    per second, either because the flag was set from outside or by setting it once the
    clock shows that the whole duration has passed since its start. *)
Theorem client_stops_in_time {CL : ClockLaws P} fuel cfg w :
  mode cfg = CLIENT -> 0 <= duration_sec cfg -> (Z.to_nat (10 * duration_sec cfg) < fuel)%nat ->
  exists w', run_until_stop fuel cfg w = Ret tt w' /\
    stop_cause (answer (hist w) SteadyNow) (duration_sec cfg) (hist w').
Proof.
  intros Hm Hd Hf. unfold run_until_stop. rewrite Hm.
  set (start := answer (hist w) SteadyNow).
  destruct (wp_total_run _ _ _ (client_wait_spec fuel cfg start w (log (Ev SteadyNow start) w)
    Hd Hf eq_refl)) as ([] & w' & Hrun & Hc).
  exists w'. split; [|done]. exact Hrun.
Qed.
End Main.

(** * Witnesses *)

Definition two_threads : Config := set_threads 2 Config_default.

Lemma sample_wait_ends calls fuel cfg :
  mode cfg = CLIENT -> 0 <= duration_sec cfg -> (Z.to_nat (10 * duration_sec cfg) < fuel)%nat ->
  wait_ends (P := sample calls) total fuel cfg.
Proof. intros Hm ? ?. right. rewrite Hm. split; [apply _|done]. Qed.

Lemma main_runs_workers_witness :
  exists w' t, main (P := sample 5000) 200 [OptParallel "2"] start_world = Ret 0 w' /\
    lives ([ReporterStart] ++ (ThreadStart <$> zseq 2) ++ (ThreadJoin <$> zseq 2) ++
           [ReporterJoin] ++ (LoadSlot <$> zseq 2) ++ [ReportSummary t]) start_world w'.
Proof.
  apply (main_runs_workers (P := sample 5000) (sample_mmap 5000) 200 [OptParallel "2"] two_threads).
  - reflexivity.
  - apply sample_wait_ends; [reflexivity|cbn; lia|cbn; lia].
  - reflexivity.
Defined.

Lemma main_waits_for_children_witness :
  exists w' pids t, main_processes (P := sample 5000) 200 two_threads start_world = Ret 0 w' /\
    forked (hist w') = forked (hist start_world) ++ pids /\
    lives ([ReporterStart] ++ (Waitpid <$> pids) ++ [ReporterJoin] ++
           (LoadSlot <$> zseq 2) ++ [ReportSummary t]) start_world w'.
Proof.
  apply (main_waits_for_children (P := sample 5000) (sample_mmap 5000)).
  - done.
  - apply sample_wait_ends; [reflexivity|cbn; lia|cbn; lia].
Defined.

Lemma child_exits_witness :
  exists w', child_main (P := sample 5000) 200 1 two_threads start_world = Exit 0 w' /\
    lives [ThreadStart 1; ThreadJoin 1] start_world w'.
Proof.
  apply (child_exits (P := sample 5000)). apply sample_wait_ends; [reflexivity|cbn; lia|cbn; lia].
Defined.

Lemma client_stops_in_time_witness :
  exists w', run_until_stop (P := sample 5000) 200 Config_default start_world = Ret tt w' /\
    stop_cause (answer (Platform := sample 5000) (hist start_world) SteadyNow) 10 (hist w').
Proof.
  apply (client_stops_in_time (P := sample 5000) 200 Config_default start_world);
    [reflexivity|cbn; lia|cbn; lia].
Defined.
