(* ===== verification/PropsFindings.v ===== *)
(** Two defects of the server's session clean-up, as runs on platforms that keep
    every law of the kernel.

    Both end a session while requests of it are in flight: its contexts are freed
    with it, and the next completion of such a request is matched with freed
    memory. *)

From S2P Require Import Prelude Stats Sys Only Kernel Platforms NetUtils Config Engine Zcrx.
From S2P Require Import Client Server Samples.

(** The sample platform with another handshake, another result of receives and a
    clock that advances by a tenth of a second per call. *)
Definition peer_script (handshake : list Z) (recv_res : Z) : script := {|
  sc_stop _ := false;
  sc_now t := 100000000 * Z.of_nat (length t);
  sc_cqes t := match cq_of t, owed_of t with
               | [], s :: _ =>
                   match sq_op s with
                   | OP_RECV => [mkCqe (sq_user_data s) recv_res 0 0]
                   | _ => serve t s
                   end
               | l, _ => l
               end;
  sc_sqe _ := true;
  sc_socket t := 3 + above (fds_of t);
  sc_recv _ _ _ := inr handshake;
  sc_cq_size := 16;
  sc_other := 1
|}.

(** A peer that sends a forward handshake and closes. *)
Definition closing_peer : Platform := scripted (peer_script [0; 0; 0; 0; 10] 0).
(** A peer that asks the server to send for one second. *)
Definition short_peer : Platform := scripted (peer_script [1; 0; 0; 0; 1] 0).

Definition single_shot_server : Config := set_multishot_recv false (set_mode SERVER Config_default).

Definition frees_in_flight {A} (o : outcome A) : bool :=
  match o with Fault (UseAfterFree _) _ => true | _ => false end.

(** C37: with [--no-multishot-recv] the end of a connection makes the server read freed
    memory: its pool has several receives in flight, the first one to report the end of
    the stream frees the contexts of all, and the next completion is matched with one of
    them. *)
Theorem single_shot_eof_reads_freed_context :
  parse_args [OptServer; OptNoMultishotRecv] = inl single_shot_server /\
  KernelLaws closing_peer /\ BufferLaws closing_peer /\
  frees_in_flight (run_server (P := closing_peer) 100 0 single_shot_server start_world) = true.
Proof. split_and!; [done|apply scripted_laws|apply scripted_buffers|vm_compute; done]. Qed.

(** C38: a reverse session that reaches its deadline is erased by the sweep while its
    sends are in flight; their completions are matched with freed contexts. *)
Theorem deadline_sweep_reads_freed_context :
  parse_args [OptServer] = inl (set_mode SERVER Config_default) /\
  KernelLaws short_peer /\ BufferLaws short_peer /\ SelectLaws short_peer /\
  frees_in_flight (run_server (P := short_peer) 100 0 (set_mode SERVER Config_default) start_world)
    = true.
Proof.
  split_and!; [done|apply scripted_laws|apply scripted_buffers|apply scripted_select|vm_compute; done].
Qed.
